(* ===== verification/_CoqProject ===== *)
-Q . S2P
Prelude.v
PyFloat.v
Series.v
Rsi.v
Rolling.v
Python.v
Format.v
Binary64.v
RsiF64.v
Datetime.v
Utf8.v
Io.v
Exchange.v
Signal.v
Scheduler.v
Report64.v
