(* ===== verification/Prelude.v ===== *)
(** * Verification of fr_rsi_notifier (src/bot.py)

    The program is one Python module, src/bot.py.  At start-up it reads
    TELEGRAM_TOKEN, CHAT_ID and TEST_MODE from the environment (lines
    9-13), starts a Telegram application and sends a test message
    ([main], [test_message]).  Then it runs [check_symbols] once (test
    mode) or forever with a sleep of [CHECK_INTERVAL] seconds.  A cycle
    fetches the USDT-quoted, trading futures symbols from Binance
    ([get_all_symbols]); for each symbol [fetch_data] reads the last
    funding rate and the 1m, 5m and 15m candles, computes the RSI with
    [calculate_rsi] (pandas [diff], [clip], [rolling(..).mean()]), and
    [check_symbols] sends a report whose last line is a long or short
    pressure warning decided by an if/elif on the rate and the RSIs.

    ** Files and what they model
    - Prelude.v (this file): trailing windows, [tabulate], [zip_with],
      their lemmas, the tactics and the hint databases [bot], [bot_rw].
    - PyFloat.v: Python/numpy floats ([pyfloat]) as exact rationals with
      inf and NaN; arithmetic and comparisons; the setoid [feq] with
      [Proper] instances of the operations.
    - Series.v, Module [Series]: the pandas operations [diff],
      [clip(lower/upper)], [rolling(w).mean()] (after pandas'
      [_prep_values], which turns [inf] and [-inf] into NaN), [iloc[-1]].
    - Rsi.v, Module [Rsi]: [calculate_rsi] (lines 36-43) and the
      reference formula [rsi_spec] of the specification.
    - Rolling.v, Module [Rolling]: pandas' online [roll_mean], the
      algorithm [rolling(window=w).mean()] runs (running sum with Kahan
      compensations, counts of observations and of negative values, run
      of equal values, [FixedWindowIndexer] bounds), and
      [calculate_rsi_pandas], the indicator computed with it.
    - Python.v, Module [Py]: exceptions, [result], JSON values, subscripts,
      [float(..)] with a parser of [float(str)].
    - Format.v, Module [Fmt]: [{x:.kf}] and integer rendering.
    - Binary64.v, Module [B64]: IEEE-754 binary64, the float64 of
      numpy and CPython, in Flocq's shape ([B754_zero], [B754_infinity],
      [B754_nan], [B754_finite]); [round64] (round to nearest, ties to
      even, subnormals, overflow) and the correctly rounded [Bplus],
      [Bminus], [Bmult], [Bdiv] with IEEE's signed zeros; [Bcompare].
    - RsiF64.v, Module [RsiF64]: [calculate_rsi] as it runs on float64
      ([calculate_rsi64]): [diff], [clip], the negation that writes
      [-0.0], pandas' [roll_mean] (as in Rolling.v) with every rounding.
    - Report64.v, Module [Report64]: the funding rate and the report on
      float64: [funding_rate64] ([float(fundingRate) * 100], line 59,
      with [float] rounding its decimal string), [classify64] (the
      if/elif on doubles) and [report_text64], whose [format_double]
      prints the binary value of a double and the sign of [-0.0]; the
      abstraction [to_py] maps a double to its exact value.
    - Datetime.v, Module [Dt]: [pd.to_datetime(.., unit='ms')] on ints
      and [str] of a Timestamp.
    - Utf8.v, Module [Utf8]: well-formed UTF-8 (RFC 3629) as an
      inductive predicate with a reflected boolean checker; the number
      and date renderings are ASCII.
    - Io.v, Module [Io]: the [await]s as a state-and-exception monad
      [io] over a world (GET and send counters, trace of events); the
      outside world is the class [Env] (the answer to the n-th GET,
      whether the n-th send succeeds, whether a token starts the bot,
      and the library behaviours left abstract).  Side effects before an
      exception stay in the world, as in Python.  [async with
      aiohttp.ClientSession()] is [with_session]: open and close events
      around the body, the close running however the body ends.
    - Exchange.v, Module [Exchange]: [get_all_symbols] (46-50) and
      [fetch_data] (53-74), every GET and exception path.
    - Signal.v, Module [Signal]: the if/elif [classify] (89-92) and the
      report text (85-92).
    - Scheduler.v, Module [Scheduler]: configuration, [start],
      [test_message], [check_symbols] (77-95), [main] (98-115), the
      script entry [run_module] (lines 10-13 and 118-119); the loop
      as the function [run_loop] and as the step relation [sched_step]
      on phases [RunningLoop | RunningOnce | Finished | Crashed e].
    Every handler theorem is stated in a Section [Context `{Env}] and so
    holds for every behaviour of the exchange and of Telegram; the
    modules [Exchange.Demo] and [Scheduler.DemoRuns] give one concrete
    [Env] on which the witnesses evaluate the handlers.

    ** Theorems (the claims, in the order of PROJECT.json)
    - Indicator (Rsi.v, RsiF64.v): on exact prices [calculate_rsi]
      refines the reference formula [rsi_spec] past the warm-up on
      non-flat windows, and a flat window gives NaN (0/0) where the
      specification expects saturation; on doubles, with pandas'
      online rolling mean and every rounding, the RSI is NaN or in
      [0,100] wherever the loss average is not negative.  The lemma
      [calculate_rsi_f64_exceeds_100] exhibits eighteen positive prices
      on which the loss average drifts to [-9.5e-17] and the RSI is
      [100.00000000000006], and [calculate_rsi_f64_negative] twenty on
      which the RSI is [-300.0] where the exact RSI of the same prices
      is [42.86]: the bound of the specification fails on doubles (an
      RSI of 43 passes the [< 30] test), so no [[0,100]] theorem is
      claimed for the exact model.
    - Funding rate on doubles (Report64.v): for a [fundingRate] string
      with at most eight decimals, the if/elif on the double
      [float(..) * 100] decides as on the exact percentage (the two
      roundings never cross [0.5] or [-0.5]), and the funding line of
      the report prints the exact percentage rounded to four decimals
      unless it is a tie of the fourth decimal (the double then decides,
      [funding_format_diverges]) or a negative zero ([-0.0000]).  The
      error bound behind both is LAProof's forward bound
      [|round(q) - q| <= 2^-53 |q| + 2^-1075] composed twice.
    - Exchange (Exchange.v): [fetch_data] never raises; it returns
      either complete data with the three intervals in order or all
      [None] after logging; complete data means the four GETs in order
      all answered; the rate is 100 times [float] of the first record's
      [fundingRate]; [get_all_symbols] is the USDT/TRADING filter, and
      one instrument missing [quoteAsset] makes it raise [KeyError];
      the RSI stored for an interval is the reference RSI of the last 14
      price changes of its candles; short candle series give
      [IndexError] or NaN.
    - Signal (Signal.v): [classify] is exactly the rule of the
      specification; NaN never alerts; the report ends with the long or
      short warning line exactly when [classify] says so; its third
      line prints the UTC date and time of the exchange's [fundingTime].
    - Scheduler (Scheduler.v): a completed cycle delivers or logs one
      event per symbol, in the order of the universe, each report
      printed and then sent; every delivered message is the report of
      fetched data and its warning is justified by that data; a
      universe failure or a refused message escapes the cycle and
      crashes the process; a cycle over [N] symbols makes at most
      [1 + 4 N] requests, whatever fails; the loop alternates one
      directory request and one sleep of [CHECK_INTERVAL]; the aiohttp
      sessions are opened and closed in alternation, also when a cycle
      raises; [main] starts the bot, prints its banner and tries the
      test message before any request, and in test mode runs one cycle
      and never sleeps; start-up without token or chat id.
    Lemmas that are not claims: the online [roll_mean] equals the
    per-window mean on every Series in exact arithmetic
    (Rolling.v); [run_loop] refines the step relation [sched_step]; the
    report is well-formed UTF-8; [float] reads a number printed with
    [.kf] back as the value rounded; the civil calendar round trips; the
    report text on doubles other than [-0.0] is the exact model's text.

    ** Bounds and fuel
    [while True] is modelled by [run_loop chat n], the first [n] cycles;
    its refinement lemma relates it to [n] steps of [sched_step] for
    every [n], so no behaviour of the endless loop is lost.  [round64]
    needs no fuel: the binade comes from [Z.log2].  Integer
    rendering uses fuel [1 + log2 n] digits, which exceeds the number of
    decimal digits of [n].  Candle lists are whatever the exchange
    returns (the code asks for 100); no bound is assumed.  The funding
    theorems assume [|fundingRate| <= 10^7] (far above any rate the
    exchange sends), which keeps the rounding error of the percentage
    below [4e-7].

    ** Not modelled
    The handlers of Exchange.v and Scheduler.v compute on the exact
    model [pyfloat] (no rounding, no [-0.0]); the double-valued
    indicator and funding path are RsiF64.v and Report64.v, which state
    what holds on doubles and exhibit where doubles differ, but the
    handlers are not re-stated on doubles; non-ASCII digits and spaces
    in [float(str)]; [str] of floats, lists and dicts and [to_datetime]
    on non-int values (abstract fields of [Env]); [load_dotenv]; the
    response context of each [session.get] (no observable effect beyond
    the request, folded into [get_json]); Telegram polling and the
    concurrency of the /start handler with the main loop (the handler
    is modelled as an operation, not interleaved). *)

From Stdlib Require Import List Lia Arith ZArith.
Import ListNotations.

Declare Scope bot_scope.
Delimit Scope bot_scope with bot.

(** The hint database of the development: list facts that close the
    side conditions about lengths and windows. *)
Create HintDb bot discriminated.
Create Rewrite HintDb bot_rw.

(** ** Tactics *)

Ltac inv H := inversion H; subst; clear H.

(** Case on the scrutinee of the first [if] or [match] of the goal. *)
Ltac case_if :=
  match goal with
  | |- context [if ?c then _ else _] => let E := fresh "E" in destruct c eqn:E
  | |- context [match ?c with _ => _ end] => let E := fresh "E" in destruct c eqn:E
  end.

(** Case on the scrutinee of the first [match] of hypothesis [H]. *)
Ltac case_match_in H :=
  match type of H with
  | context [match ?c with _ => _ end] => let E := fresh "E" in destruct c eqn:E
  end.

(** Case on the value of an integer [x] known to lie in a range that
    starts at [lo]: one goal per value, in which [x] is replaced by it;
    the range is closed by [lia]. *)
Ltac enum_Z x lo :=
  tryif assert (x = lo) by lia
  then (let E := fresh "E" in assert (E : x = lo) by lia; subst x)
  else (let E := fresh "E" in
        destruct (Z.eq_dec x lo) as [E|E];
        [subst x | let lo' := eval compute in (lo + 1)%Z in enum_Z x lo']).

(** ** Trailing windows of a list *)

(** [window w l i] is the slice [l[i+1-w .. i]], the [w] elements of
    [l] that end at position [i] (fewer when [i+1 < w]). *)
Definition window {A} (w : nat) (l : list A) (i : nat) : list A :=
  firstn w (skipn (i + 1 - w) l).

Lemma length_window {A} (w : nat) (l : list A) (i : nat) :
  w <= i + 1 -> i < length l -> length (window w l i) = w.
Proof.
  intros Hw Hi. unfold window.
  rewrite length_firstn, length_skipn. lia.
Qed.

Lemma nth_error_window {A} (w : nat) (l : list A) (i k : nat) :
  w <= i + 1 -> k < w ->
  nth_error (window w l i) k = nth_error l (i + 1 - w + k).
Proof.
  intros Hw Hk. unfold window.
  rewrite nth_error_firstn.
  destruct (Nat.ltb_spec k w); [|lia].
  apply nth_error_skipn.
Qed.

Lemma In_window {A} (w : nat) (l : list A) (i : nat) (x : A) :
  In x (window w l i) -> In x l.
Proof.
  unfold window. intros H.
  assert (Hs : In x (skipn (i + 1 - w) l)).
  { rewrite <- (firstn_skipn w (skipn (i + 1 - w) l)). apply in_or_app. now left. }
  rewrite <- (firstn_skipn (i + 1 - w) l). apply in_or_app. now right.
Qed.

#[export] Hint Resolve length_window In_window : bot.

(** ** Lists built by index *)

(** [tabulate n f] is [[f 0; ...; f (n-1)]]: pandas builds every
    element-wise Series this way, one value per position of the index. *)
Definition tabulate {A} (n : nat) (f : nat -> A) : list A :=
  map f (seq 0 n).

Lemma length_tabulate {A} n (f : nat -> A) : length (tabulate n f) = n.
Proof. unfold tabulate. now rewrite length_map, length_seq. Qed.

Lemma nth_error_tabulate {A} n (f : nat -> A) i :
  i < n -> nth_error (tabulate n f) i = Some (f i).
Proof.
  intros H. unfold tabulate. rewrite nth_error_map, nth_error_seq.
  destruct (Nat.ltb_spec i n); [reflexivity | lia].
Qed.

Lemma nth_error_tabulate_None {A} n (f : nat -> A) i :
  n <= i -> nth_error (tabulate n f) i = None.
Proof. intros H. apply nth_error_None. now rewrite length_tabulate. Qed.

Lemma firstn_seq k a n : firstn k (seq a n) = seq a (Nat.min k n).
Proof.
  revert a n; induction k as [|k IH]; intros a [|n]; simpl; auto.
  now rewrite IH.
Qed.

Lemma tabulate_nth {A} (l : list A) d : tabulate (length l) (fun k => nth k l d) = l.
Proof.
  apply nth_ext with d d; rewrite ?length_tabulate; auto.
  intros n Hn. unfold tabulate.
  assert (H := nth_error_map (fun k => nth k l d) n (seq 0 (length l))).
  rewrite nth_error_seq in H. destruct (Nat.ltb_spec n (length l)); [|lia].
  simpl in H. now apply (nth_error_nth _ _ d) in H.
Qed.

(** A window read by index. *)
Lemma window_nth {A} (w : nat) (l : list A) (i : nat) d :
  w <= i + 1 -> i < length l ->
  window w l i = map (fun k => nth k l d) (seq (i + 1 - w) w).
Proof.
  intros Hw Hi. rewrite <- (tabulate_nth l d) at 1.
  unfold window, tabulate. rewrite skipn_map, firstn_map, skipn_seq, firstn_seq.
  f_equal. f_equal. lia.
Qed.

#[export] Hint Rewrite @length_tabulate : bot_rw.

(** ** Element-wise maps of two aligned lists *)

Fixpoint zip_with {A B C} (f : A -> B -> C) (l1 : list A) (l2 : list B) : list C :=
  match l1, l2 with
  | x :: r1, y :: r2 => f x y :: zip_with f r1 r2
  | _, _ => []
  end.

Lemma length_zip_with {A B C} (f : A -> B -> C) l1 l2 :
  length (zip_with f l1 l2) = Nat.min (length l1) (length l2).
Proof. revert l2; induction l1; destruct l2; simpl; auto. Qed.

Lemma nth_error_zip_with {A B C} (f : A -> B -> C) l1 l2 i x y :
  nth_error l1 i = Some x -> nth_error l2 i = Some y ->
  nth_error (zip_with f l1 l2) i = Some (f x y).
Proof.
  revert l2 i; induction l1 as [|a l1 IH]; intros [|b l2] [|i]; simpl;
    try discriminate; try congruence; eauto.
Qed.

(** An element-wise map of two aligned lists, read by index. *)
Lemma zip_with_as_tabulate {A B C} (f : A -> B -> C) l1 l2 d1 d2 :
  length l1 = length l2 ->
  zip_with f l1 l2 = tabulate (length l1) (fun i => f (nth i l1 d1) (nth i l2 d2)).
Proof.
  revert l2; induction l1 as [|a l1 IH]; intros [|b l2] H; simpl in *;
    try discriminate; auto.
  rewrite (IH l2) by lia. unfold tabulate. simpl. f_equal.
  rewrite <- seq_shift, map_map. reflexivity.
Qed.

#[export] Hint Rewrite @length_zip_with @length_map : bot_rw.
