(* ===== verification/PyFloat.v ===== *)
(** * Python / numpy floats on exact rationals

    The values the bot computes with are Python [float]s and numpy
    [float64]s.  They are modelled by [pyfloat]: a finite value is an
    exact rational [Fin q], with the three IEEE-754 special values
    [PInf], [NInf] and [NaN].  The arithmetic follows IEEE-754 on the
    special values (x/0 is an infinity or NaN in numpy, comparisons with
    NaN are false), and exact rational arithmetic on finite values.
    Rounding to 53 bits, overflow of finite values to infinity and the
    sign of zero are not modelled (see the header of Prelude.v). *)

From Stdlib Require Import List Lia ZArith QArith Lqa Morphisms.
From S2P Require Import Prelude.

Inductive pyfloat : Type :=
| Fin (q : Q)
| PInf
| NInf
| NaN.

Declare Scope pyfloat_scope.
Delimit Scope pyfloat_scope with F.
Bind Scope pyfloat_scope with pyfloat.

Definition of_Z (z : Z) : pyfloat := Fin (inject_Z z).

(** ** Arithmetic *)

Definition fneg (x : pyfloat) : pyfloat :=
  match x with
  | Fin a => Fin (- a)
  | PInf => NInf
  | NInf => PInf
  | NaN => NaN
  end.

Definition fadd (x y : pyfloat) : pyfloat :=
  match x, y with
  | NaN, _ | _, NaN => NaN
  | PInf, NInf | NInf, PInf => NaN
  | PInf, _ | _, PInf => PInf
  | NInf, _ | _, NInf => NInf
  | Fin a, Fin b => Fin (a + b)
  end.

Definition fsub (x y : pyfloat) : pyfloat := fadd x (fneg y).

(** [inf_by_sign c i] is the infinity [i] multiplied by a finite value
    whose sign is [c] ([0 * inf] is NaN). *)
Definition inf_by_sign (c : comparison) (i : pyfloat) : pyfloat :=
  match c with
  | Eq => NaN
  | Gt => i
  | Lt => fneg i
  end.

Definition fmul (x y : pyfloat) : pyfloat :=
  match x, y with
  | NaN, _ | _, NaN => NaN
  | Fin a, Fin b => Fin (a * b)
  | Fin a, i | i, Fin a => inf_by_sign (a ?= 0) i
  | PInf, PInf | NInf, NInf => PInf
  | _, _ => NInf
  end.

(** numpy division: a finite value over zero is an infinity of the
    sign of the numerator, and [0/0] is NaN; a finite value over an
    infinity is zero. *)
Definition fdiv (x y : pyfloat) : pyfloat :=
  match x, y with
  | NaN, _ | _, NaN => NaN
  | Fin a, Fin b =>
      if Qeq_bool b 0 then
        match a ?= 0 with Eq => NaN | Gt => PInf | Lt => NInf end
      else Fin (a / b)
  | Fin _, _ => Fin 0
  | i, Fin b => match b ?= 0 with Lt => fneg i | _ => i end
  | _, _ => NaN
  end.

(** ** Comparisons

    [fcmp] is [None] when one side is NaN: every ordered comparison
    with NaN is false in Python. *)

Definition rank (x : pyfloat) : Z :=
  match x with NInf => 0 | Fin _ => 1 | PInf => 2 | NaN => 3 end%Z.

Definition fcmp (x y : pyfloat) : option comparison :=
  match x, y with
  | NaN, _ | _, NaN => None
  | Fin a, Fin b => Some (a ?= b)
  | _, _ => Some (Z.compare (rank x) (rank y))
  end.

Definition fgt (x y : pyfloat) : bool :=
  match fcmp x y with Some Gt => true | _ => false end.

Definition flt (x y : pyfloat) : bool :=
  match fcmp x y with Some Lt => true | _ => false end.

Definition fge (x y : pyfloat) : bool :=
  match fcmp x y with Some Gt | Some Eq => true | _ => false end.

Definition fle (x y : pyfloat) : bool :=
  match fcmp x y with Some Lt | Some Eq => true | _ => false end.

Definition is_nan (x : pyfloat) : bool :=
  match x with NaN => true | _ => false end.

Definition is_fin (x : pyfloat) : bool :=
  match x with Fin _ => true | _ => false end.

Infix "+" := fadd : pyfloat_scope.
Infix "-" := fsub : pyfloat_scope.
Infix "*" := fmul : pyfloat_scope.
Infix "/" := fdiv : pyfloat_scope.
Infix ">?" := fgt (at level 70) : pyfloat_scope.
Infix "<?" := flt (at level 70) : pyfloat_scope.

(** ** Equivalence of floats

    [Q] has several representations of one rational, so two floats are
    equivalent when they are the same special value or finite with
    [Qeq] values.  All operations respect it. *)

Definition feq (x y : pyfloat) : Prop :=
  match x, y with
  | Fin a, Fin b => a == b
  | PInf, PInf | NInf, NInf | NaN, NaN => True
  | _, _ => False
  end.

Notation "x ≡ y" := (feq x y) (at level 70, no associativity).

#[export] Instance feq_equiv : Equivalence feq.
Proof.
  split.
  - intros [a| | |]; simpl; auto. reflexivity.
  - intros [a| | |] [b| | |]; simpl; auto. now symmetry.
  - intros [a| | |] [b| | |] [c| | |]; simpl; try tauto.
    intros H1 H2. now rewrite H1.
Qed.

Lemma Qcompare_feq a b a' b' : a == a' -> b == b' -> (a ?= b) = (a' ?= b').
Proof. intros H1 H2. now rewrite H1, H2. Qed.

Lemma Qeq_bool_feq a a' : a == a' -> Qeq_bool a 0 = Qeq_bool a' 0.
Proof.
  intros H. destruct (Qeq_bool a 0) eqn:E1, (Qeq_bool a' 0) eqn:E2; auto.
  - apply Qeq_bool_iff in E1. rewrite H in E1. apply Qeq_bool_iff in E1. congruence.
  - apply Qeq_bool_iff in E2. rewrite <- H in E2. apply Qeq_bool_iff in E2. congruence.
Qed.

Lemma Qle_bool_false x y : Qle_bool x y = false -> y < x.
Proof.
  intros H. apply Qnot_le_lt. intros Hle. apply Qle_bool_iff in Hle. congruence.
Qed.

Lemma Qeq_bool_false x y : Qeq_bool x y = false -> ~ x == y.
Proof. intros H Heq. apply Qeq_bool_iff in Heq. congruence. Qed.

(** Turn the boolean comparisons of [Q] in the hypotheses into
    propositions, for [lra]. *)
Ltac qprop :=
  repeat match goal with
  | H : Qle_bool _ _ = true |- _ => apply Qle_bool_iff in H
  | H : Qle_bool _ _ = false |- _ => apply Qle_bool_false in H
  | H : Qeq_bool _ _ = true |- _ => apply Qeq_bool_iff in H
  | H : Qeq_bool _ _ = false |- _ => apply Qeq_bool_false in H
  | H : (_ ?= _) = Eq |- _ => apply Qeq_alt in H
  | H : (_ ?= _) = Lt |- _ => apply Qlt_alt in H
  | H : (_ ?= _) = Gt |- _ => apply Qgt_alt in H
  end.

Ltac feq_cases :=
  repeat match goal with
         | x : pyfloat |- _ => destruct x
         end; simpl in *; try tauto; try discriminate.

#[export] Instance fneg_proper : Proper (feq ==> feq) fneg.
Proof. intros x y H; feq_cases. now rewrite H. Qed.

#[export] Instance fadd_proper : Proper (feq ==> feq ==> feq) fadd.
Proof. intros x y H x' y' H'; feq_cases. now rewrite H, H'. Qed.

#[export] Instance fsub_proper : Proper (feq ==> feq ==> feq) fsub.
Proof. intros x y H x' y' H'. unfold fsub. now rewrite H, H'. Qed.

#[export] Instance fmul_proper : Proper (feq ==> feq ==> feq) fmul.
Proof.
  intros x y H x' y' H'; feq_cases;
    first [ now rewrite H, H'
          | now rewrite (Qcompare_feq _ _ _ _ H (Qeq_refl 0))
          | now rewrite (Qcompare_feq _ _ _ _ H' (Qeq_refl 0)) ].
Qed.

#[export] Instance fdiv_proper : Proper (feq ==> feq ==> feq) fdiv.
Proof.
  intros x y H x' y' H'; feq_cases;
    repeat first [ rewrite (Qeq_bool_feq _ _ H')
                 | rewrite (Qcompare_feq _ _ _ _ H (Qeq_refl 0))
                 | rewrite (Qcompare_feq _ _ _ _ H' (Qeq_refl 0)) ];
    repeat case_if; simpl; auto; try reflexivity.
  now rewrite H, H'.
Qed.

#[export] Instance fcmp_proper : Proper (feq ==> feq ==> eq) fcmp.
Proof. intros x y H x' y' H'; feq_cases. now rewrite (Qcompare_feq _ _ _ _ H H'). Qed.

#[export] Instance fgt_proper : Proper (feq ==> feq ==> eq) fgt.
Proof. intros x y H x' y' H'. unfold fgt. now rewrite H, H'. Qed.

#[export] Instance flt_proper : Proper (feq ==> feq ==> eq) flt.
Proof. intros x y H x' y' H'. unfold flt. now rewrite H, H'. Qed.

(** ** Computation rules on finite values *)

Lemma fadd_fin a b : fadd (Fin a) (Fin b) = Fin (a + b).
Proof. reflexivity. Qed.

Lemma fsub_fin a b : fsub (Fin a) (Fin b) = Fin (a - b).
Proof. reflexivity. Qed.

Lemma fmul_fin a b : fmul (Fin a) (Fin b) = Fin (a * b).
Proof. reflexivity. Qed.

Lemma fdiv_fin a b : ~ b == 0 -> fdiv (Fin a) (Fin b) = Fin (a / b).
Proof.
  intros H. simpl. destruct (Qeq_bool b 0) eqn:E; [|reflexivity].
  apply Qeq_bool_iff in E. contradiction.
Qed.

Lemma fdiv_fin_zero a b : b == 0 ->
  fdiv (Fin a) (Fin b) = match a ?= 0 with Eq => NaN | Gt => PInf | Lt => NInf end.
Proof. intros H. simpl. now rewrite (proj2 (Qeq_bool_iff b 0) H). Qed.

Lemma fgt_fin a b : fgt (Fin a) (Fin b) = true <-> b < a.
Proof. unfold fgt; simpl. rewrite (Qgt_alt a b). destruct (a ?= b); split; congruence. Qed.

Lemma flt_fin a b : flt (Fin a) (Fin b) = true <-> a < b.
Proof. unfold flt; simpl. rewrite (Qlt_alt a b). destruct (a ?= b); split; congruence. Qed.

Lemma fgt_nan_l y : fgt NaN y = false.
Proof. reflexivity. Qed.

Lemma flt_nan_l y : flt NaN y = false.
Proof. reflexivity. Qed.

#[export] Hint Rewrite fadd_fin fsub_fin fmul_fin fgt_nan_l flt_nan_l : bot_rw.
