(* ===== verification/Series.v ===== *)
(** * pandas Series operations used by [calculate_rsi]

    A pandas [Series] with the default RangeIndex is modelled as the list
    of its values, position [i] being index label [i].  Each operation
    the bot calls on a Series (src/bot.py lines 37-43 and 68-69) is
    given the semantics pandas gives it on float64 data:
    - [diff]: [out[0]] is NaN and [out[i] = s[i] - s[i-1]];
    - [clip(lower=..)] / [clip(upper=..)]: NaN stays NaN;
    - [rolling(window=w).mean()] with the default [min_periods = w]: the
      mean of the [w] values ending at [i], NaN while fewer than [w]
      non-NaN values are available, [inf] and [-inf] counting as NaN
      (pandas' [_prep_values] replaces them before averaging);
    - arithmetic between aligned Series and with scalars: element-wise;
    - [iloc[-1]]: the last value, [IndexError] on an empty Series. *)

From Stdlib Require Import List Lia Arith ZArith QArith Lqa Morphisms.
From S2P Require Import Prelude PyFloat.
Import ListNotations.

Module Series.

Local Open Scope nat_scope.

Definition series := list pyfloat.

(** [s.diff()] *)
Definition diff (s : series) : series :=
  tabulate (length s) (fun i =>
    match i with
    | 0 => NaN
    | S j => fsub (nth i s NaN) (nth j s NaN)
    end).

(** [s.clip(lower=lo)] on one value: [where(s >= lo, lo)], then the
    NaN positions are restored. *)
Definition clip_lower (lo x : pyfloat) : pyfloat :=
  match x with
  | NaN => NaN
  | _ => if fge x lo then x else lo
  end.

(** [s.clip(upper=hi)] on one value. *)
Definition clip_upper (hi x : pyfloat) : pyfloat :=
  match x with
  | NaN => NaN
  | _ => if fle x hi then x else hi
  end.

Definition fsum (l : list pyfloat) : pyfloat := fold_right fadd (Fin 0%Q) l.

(** The mean of one full window: NaN when a value of the window is NaN
    (then fewer than [min_periods] observations are present). *)
Definition window_mean (w : nat) (win : list pyfloat) : pyfloat :=
  if existsb is_nan win then NaN else fdiv (fsum win) (of_Z (Z.of_nat w)).

(** pandas' [Rolling._prep_values]: before its C routines run,
    [np.where(np.isinf(values), np.nan, values)] replaces [inf] and
    [-inf] by NaN. *)
Definition prep_value (x : pyfloat) : pyfloat :=
  match x with
  | PInf | NInf => NaN
  | _ => x
  end.

(** [s.rolling(window=w).mean()] *)
Definition rolling_mean (w : nat) (s : series) : series :=
  let v := map prep_value s in
  tabulate (length v) (fun i =>
    if i + 1 <? w then NaN else window_mean w (window w v i)).

(** [s.iloc[-1]]: [None] stands for the [IndexError] of an empty Series. *)
Definition iloc_last (s : series) : option pyfloat :=
  match rev s with
  | [] => None
  | x :: _ => Some x
  end.

(** ** Lemmas *)

Lemma length_diff s : length (diff s) = length s.
Proof. apply length_tabulate. Qed.

Lemma length_rolling_mean w s : length (rolling_mean w s) = length s.
Proof. unfold rolling_mean. now rewrite length_tabulate, length_map. Qed.

Lemma nth_map_prep l k : nth k (map prep_value l) NaN = prep_value (nth k l NaN).
Proof. exact (map_nth prep_value l NaN k). Qed.

#[export] Hint Rewrite length_diff length_rolling_mean : bot_rw.

Lemma map_tabulate {A B} (f : A -> B) n g :
  map f (tabulate n g) = tabulate n (fun i => f (g i)).
Proof. unfold tabulate. now rewrite map_map. Qed.

Lemma zip_with_tabulate {A B C} (f : A -> B -> C) n g h :
  zip_with f (tabulate n g) (tabulate n h) = tabulate n (fun i => f (g i) (h i)).
Proof.
  unfold tabulate. generalize 0. induction n as [|n IH]; intros k; simpl; auto.
  now rewrite IH.
Qed.

Lemma nth_tabulate {A} n (f : nat -> A) d i :
  i < n -> nth i (tabulate n f) d = f i.
Proof.
  intros H. apply nth_error_nth.
  now apply nth_error_tabulate.
Qed.

(** A window of a Series built by index is the image of a [seq]. *)
Lemma window_tabulate {A} w n (f : nat -> A) i :
  w <= i + 1 -> i < n ->
  window w (tabulate n f) i = map f (seq (i + 1 - w) w).
Proof.
  intros Hw Hi. unfold window, tabulate.
  rewrite skipn_map, firstn_map. f_equal.
  rewrite skipn_seq, firstn_seq. f_equal; lia.
Qed.

(** [rolling_mean] only reads the window. *)
Lemma nth_error_rolling_mean w s i :
  i < length s ->
  nth_error (rolling_mean w s) i =
  Some (if i + 1 <? w then NaN else window_mean w (window w (map prep_value s) i)).
Proof. intros H. apply nth_error_tabulate. now rewrite length_map. Qed.

Lemma fsum_fin (l : list Q) :
  fsum (map Fin l) = Fin (fold_right Qplus 0%Q l).
Proof. induction l as [|a l IH]; simpl; [reflexivity|]. now rewrite IH. Qed.

Lemma existsb_is_nan_fin (l : list Q) : existsb is_nan (map Fin l) = false.
Proof. induction l; simpl; auto. Qed.

(** The mean of a window of finite values. *)
Lemma window_mean_fin w (l : list Q) :
  (0 < w)%nat ->
  window_mean w (map Fin l) = Fin (fold_right Qplus 0%Q l / inject_Z (Z.of_nat w)).
Proof.
  intros Hw. unfold window_mean. rewrite existsb_is_nan_fin, fsum_fin.
  apply fdiv_fin. unfold Qeq; simpl. lia.
Qed.

(** A NaN inside the window makes the mean NaN. *)
Lemma window_mean_nan w win : In NaN win -> window_mean w win = NaN.
Proof.
  intros H. unfold window_mean.
  replace (existsb is_nan win) with true; [reflexivity|].
  symmetry. apply existsb_exists. now exists NaN.
Qed.

Lemma iloc_last_app s x : iloc_last (s ++ [x]) = Some x.
Proof. unfold iloc_last. now rewrite rev_app_distr. Qed.

Lemma iloc_last_nth s : s <> [] -> iloc_last s = nth_error s (length s - 1).
Proof.
  intros H. destruct (exists_last H) as (s' & x & ->).
  rewrite iloc_last_app, length_app, nth_error_app2 by (simpl; lia).
  simpl. now replace (length s' + 1 - 1 - length s') with 0 by lia.
Qed.

End Series.
