(* ===== verification/Rsi.v ===== *)
(** * The indicator calculator: [calculate_rsi] (src/bot.py lines 36-43)

    [calculate_rsi] is the composition of the pandas operations of
    Series.v, written in the order of the source.  The file proves that
    the vectorised pipeline computes, at every position, the value of a
    pointwise reference [rsi_spec] written from the formula of the
    specification (average gain and average loss over the trailing
    window, [100 - 100 / (1 + avgGain / avgLoss)]), that the warm-up
    positions are NaN, and how the division by a zero average loss
    comes out.  These are statements about the exact arithmetic of
    [pyfloat]; on doubles the values differ by rounding, and the range
    [[0, 100]] is not kept (RsiF64.v). *)

From Stdlib Require Import List Lia Arith ZArith QArith Lqa Morphisms.
From S2P Require Import Prelude PyFloat Series.
Import ListNotations Series.

Module Rsi.

(** [RSI_PERIOD = 14] (line 18). *)
Definition RSI_PERIOD : nat := 14.

(** The last line of [calculate_rsi]: [100 - (100 / (1 + rs))] at one
    position, [rs] being [avg_gain / avg_loss] there. *)
Definition rsi_point (avg_gain avg_loss : pyfloat) : pyfloat :=
  fsub (Fin 100) (fdiv (Fin 100) (fadd (Fin 1) (fdiv avg_gain avg_loss))).

(** [calculate_rsi(series, period)] *)
Definition calculate_rsi (period : nat) (s : series) : series :=
  let delta := diff s in
  let gain := map (clip_lower (Fin 0)) delta in
  let loss := map fneg (map (clip_upper (Fin 0)) delta) in
  let avg_gain := rolling_mean period gain in
  let avg_loss := rolling_mean period loss in
  let rs := zip_with fdiv avg_gain avg_loss in
  map (fun r => fsub (Fin 100) (fdiv (Fin 100) (fadd (Fin 1) r))) rs.

(** ** The reference of the specification, on exact prices *)

Definition spec_gain (d : Q) : Q := if Qle_bool d 0 then 0 else d.
Definition spec_loss (d : Q) : Q := if Qle_bool 0 d then 0 else - d.

Definition delta_at (p : list Q) (k : nat) : Q := nth k p 0 - nth (k - 1) p 0.

Definition qsum (l : list Q) : Q := fold_right Qplus 0 l.

(** The mean of [f] of the deltas of the window of [period] deltas
    that ends at position [i]. *)
Definition avg_over (f : Q -> Q) (period : nat) (p : list Q) (i : nat) : Q :=
  qsum (map (fun k => f (delta_at p k)) (seq (i + 1 - period) period))
  / inject_Z (Z.of_nat period).

(** The value at position [i]: undefined in the warm-up region
    ([i < period]); saturated at 100 when the average loss is zero, as
    the specification suggests. *)
Definition rsi_spec (period : nat) (p : list Q) (i : nat) : option Q :=
  if (i <? period)%nat then None
  else
    let g := avg_over spec_gain period p i in
    let l := avg_over spec_loss period p i in
    if Qeq_bool l 0 then Some 100 else Some (100 - 100 / (1 + g / l)).


(** ** Structure of the pipeline *)

(** The pipeline is element-wise after the two rolling means. *)
Lemma calculate_rsi_pointwise period s :
  calculate_rsi period s =
  tabulate (length s) (fun i =>
    rsi_point
      (nth i (rolling_mean period (map (clip_lower (Fin 0)) (diff s))) NaN)
      (nth i (rolling_mean period (map fneg (map (clip_upper (Fin 0)) (diff s)))) NaN)).
Proof.
  unfold calculate_rsi.
  rewrite (zip_with_as_tabulate _ _ _ NaN NaN)
    by now rewrite !length_rolling_mean, !length_map.
  rewrite map_tabulate, length_rolling_mean, length_map, length_diff.
  reflexivity.
Qed.

Lemma length_calculate_rsi period s : length (calculate_rsi period s) = length s.
Proof. rewrite calculate_rsi_pointwise. apply length_tabulate. Qed.

Lemma rsi_point_nan_l l : rsi_point NaN l = NaN.
Proof. reflexivity. Qed.

Lemma rsi_point_nan_r g : rsi_point g NaN = NaN.
Proof. destruct g; reflexivity. Qed.

#[export] Hint Rewrite rsi_point_nan_l rsi_point_nan_r : bot_rw.

(** The delta series of exact prices. *)
Lemma nth_diff_fin (p : list Q) k :
  (1 <= k < length p)%nat -> nth k (diff (map Fin p)) NaN = Fin (delta_at p k).
Proof.
  intros Hk. unfold diff. rewrite length_map, nth_tabulate by lia.
  destruct k as [|j]; [lia|].
  unfold delta_at. replace (S j - 1)%nat with j by lia.
  rewrite (nth_indep _ NaN (Fin 0)) by (rewrite length_map; lia).
  rewrite (nth_indep _ NaN (Fin 0)) by (rewrite length_map; lia).
  now rewrite !map_nth.
Qed.

Lemma nth_diff_0 s : s <> [] -> nth 0 (diff s) NaN = NaN.
Proof. intros H. unfold diff. rewrite nth_tabulate; [reflexivity|]. destruct s; simpl; [congruence|lia]. Qed.

(** One rolling mean of a clipped delta series of exact prices, once
    the window is full. *)
Lemma rolling_clipped_fin (F : pyfloat -> pyfloat) (h : Q -> Q) period (p : list Q) i :
  F NaN = NaN -> (forall d, F (Fin d) = Fin (h d)) ->
  (1 <= period <= i)%nat -> (i < length p)%nat ->
  nth i (rolling_mean period (map F (diff (map Fin p)))) NaN =
  Fin (qsum (map (fun k => h (delta_at p k)) (seq (i + 1 - period) period))
       / inject_Z (Z.of_nat period)).
Proof.
  intros HN HF Hp Hi.
  assert (Hl : length (map F (diff (map Fin p))) = length p)
    by now rewrite length_map, length_diff, length_map.
  assert (E := nth_error_rolling_mean period (map F (diff (map Fin p))) i ltac:(lia)).
  apply (nth_error_nth _ _ NaN) in E. rewrite E.
  destruct (Nat.ltb_spec (i + 1) period); [lia|]. f_equal.
  rewrite (window_nth _ _ _ NaN) by (rewrite ?length_map, ?length_diff, ?length_map; lia).
  rewrite (map_ext_in _ (fun k => Fin (h (delta_at p k)))).
  - rewrite <- (map_map (fun k => h (delta_at p k)) Fin).
    now apply window_mean_fin.
  - intros k Hk. apply in_seq in Hk.
    rewrite nth_map_prep, <- HN, map_nth, nth_diff_fin by lia. now rewrite HF.
Qed.

Definition gain_q (d : Q) : Q := if fge (Fin d) (Fin 0) then d else 0.
Definition loss_q (d : Q) : Q := - (if fle (Fin d) (Fin 0) then d else 0).

Lemma clip_gain_q d : clip_lower (Fin 0) (Fin d) = Fin (gain_q d).
Proof. unfold clip_lower, gain_q. now destruct (fge _ _). Qed.

Lemma clip_loss_q d : fneg (clip_upper (Fin 0) (Fin d)) = Fin (loss_q d).
Proof. unfold clip_upper, loss_q. now destruct (fle _ _). Qed.

Lemma qsum_ext {A} (f g : A -> Q) l :
  (forall x, f x == g x) -> qsum (map f l) == qsum (map g l).
Proof. intros H. induction l as [|a l IH]; simpl; [reflexivity|]. now rewrite H, IH. Qed.

Lemma qsum_nonneg {A} (f : A -> Q) l :
  (forall x, In x l -> 0 <= f x) -> 0 <= qsum (map f l).
Proof.
  induction l as [|a l IH]; intros H; simpl; [apply Qle_refl|].
  assert (0 <= f a) by (apply H; now left).
  assert (0 <= qsum (map f l)) by (apply IH; intros; apply H; now right). lra.
Qed.

Lemma gain_q_spec d : gain_q d == spec_gain d.
Proof.
  unfold gain_q, spec_gain, fge; simpl.
  destruct (Qle_bool d 0) eqn:E, (d ?= 0) eqn:C; simpl; qprop; lra.
Qed.

Lemma loss_q_spec d : loss_q d == spec_loss d.
Proof.
  unfold loss_q, spec_loss, fle; simpl.
  destruct (Qle_bool 0 d) eqn:E, (d ?= 0) eqn:C; simpl; qprop; lra.
Qed.

(** The rolling averages of the code are the reference averages. *)
Lemma avg_gain_fin period p i :
  (1 <= period <= i)%nat -> (i < length p)%nat ->
  nth i (rolling_mean period (map (clip_lower (Fin 0)) (diff (map Fin p)))) NaN
  ≡ Fin (avg_over spec_gain period p i).
Proof.
  intros Hp Hi. rewrite (rolling_clipped_fin _ gain_q) by (auto using clip_gain_q).
  simpl. unfold avg_over. apply Qdiv_comp; [|reflexivity].
  apply qsum_ext. intros k. apply gain_q_spec.
Qed.

Lemma avg_loss_fin period p i :
  (1 <= period <= i)%nat -> (i < length p)%nat ->
  nth i (rolling_mean period (map fneg (map (clip_upper (Fin 0)) (diff (map Fin p))))) NaN
  ≡ Fin (avg_over spec_loss period p i).
Proof.
  intros Hp Hi. rewrite map_map.
  rewrite (rolling_clipped_fin _ loss_q) by (auto using clip_loss_q).
  simpl. unfold avg_over. apply Qdiv_comp; [|reflexivity].
  apply qsum_ext. intros k. apply loss_q_spec.
Qed.

#[export] Instance rsi_point_proper : Proper (feq ==> feq ==> feq) rsi_point.
Proof. intros g g' Hg l l' Hl. unfold rsi_point. now rewrite Hg, Hl. Qed.

Lemma feq_nan_r x : x ≡ NaN -> x = NaN.
Proof. destruct x; simpl; tauto. Qed.

Lemma Qdiv_nonneg a b : 0 <= a -> 0 <= b -> 0 <= a / b.
Proof. intros Ha Hb. apply Qmult_le_0_compat; auto using Qinv_le_0_compat. Qed.

Lemma spec_gain_nonneg d : 0 <= spec_gain d.
Proof. unfold spec_gain. destruct (Qle_bool d 0) eqn:E; qprop; lra. Qed.

Lemma spec_loss_nonneg d : 0 <= spec_loss d.
Proof. unfold spec_loss. destruct (Qle_bool 0 d) eqn:E; qprop; lra. Qed.

Lemma avg_over_nonneg f period p i :
  (forall d, 0 <= f d) -> 0 <= avg_over f period p i.
Proof.
  intros Hf. unfold avg_over. apply Qdiv_nonneg; [apply qsum_nonneg; intros; apply Hf|].
  unfold Qle; simpl. lia.
Qed.

#[export] Hint Resolve spec_gain_nonneg spec_loss_nonneg avg_over_nonneg : bot.

(** The last line of [calculate_rsi] on exact averages: the three cases
    of the division by the average loss. *)
Lemma rsi_point_fin g l : 0 <= g -> 0 <= l ->
  rsi_point (Fin g) (Fin l) ≡
  (if Qeq_bool l 0 then (if Qeq_bool g 0 then NaN else Fin 100)
   else Fin (100 - 100 / (1 + g / l))).
Proof.
  intros Hg Hl. unfold rsi_point. destruct (Qeq_bool l 0) eqn:El; qprop.
  - rewrite fdiv_fin_zero by assumption.
    destruct (g ?= 0) eqn:C, (Qeq_bool g 0) eqn:Eg; simpl; qprop; lra.
  - rewrite fdiv_fin, fadd_fin, fdiv_fin, fsub_fin by
      (try assert (0 <= g / l) by (apply Qdiv_nonneg; lra); lra).
    reflexivity.
Qed.

(** The last line of [calculate_rsi] on a positive average loss. *)
Lemma rsi_formula_bounds g l : 0 <= g -> ~ l == 0 -> 0 <= l ->
  0 <= 100 - 100 / (1 + g / l) <= 100.
Proof.
  intros Hg Hl0 Hl.
  assert (0 <= g / l) by (apply Qdiv_nonneg; lra).
  assert (0 <= 100 / (1 + g / l)) by (apply Qdiv_nonneg; lra).
  assert (100 / (1 + g / l) <= 100) by (apply Qle_shift_div_r; lra).
  lra.
Qed.

Lemma rsi_spec_bounds period p i q :
  rsi_spec period p i = Some q -> 0 <= q <= 100.
Proof.
  unfold rsi_spec. destruct (Nat.ltb_spec i period); [discriminate|].
  set (g := avg_over spec_gain period p i). set (l := avg_over spec_loss period p i).
  assert (0 <= g) by apply avg_over_nonneg, spec_gain_nonneg.
  assert (0 <= l) by apply avg_over_nonneg, spec_loss_nonneg.
  destruct (Qeq_bool l 0) eqn:El; intros [= <-]; qprop; [lra|].
  now apply rsi_formula_bounds.
Qed.

(** [100 - 100 / (1 + g / l)] on non-negative averages is NaN (both
    zero) or lies in [0, 100]. *)
Lemma rsi_point_bounds g l : 0 <= g -> 0 <= l ->
  rsi_point (Fin g) (Fin l) = NaN \/
  exists q, rsi_point (Fin g) (Fin l) ≡ Fin q /\ 0 <= q <= 100.
Proof.
  intros Hg Hl. pose proof (rsi_point_fin g l Hg Hl) as E.
  destruct (Qeq_bool l 0) eqn:El; [destruct (Qeq_bool g 0)|]; qprop.
  - left. now apply feq_nan_r.
  - right. exists 100. split; [exact E|lra].
  - right. eexists. split; [exact E|]. now apply rsi_formula_bounds.
Qed.

(** While the window is not full, one rolling mean of a series derived
    from [diff s] is NaN: the window contains the NaN that [diff] puts
    at position 0. *)
Lemma rolling_diff_warmup (F : pyfloat -> pyfloat) period s i :
  F NaN = NaN -> (i < period)%nat -> (i < length s)%nat ->
  nth i (rolling_mean period (map F (diff s))) NaN = NaN.
Proof.
  intros HN Hp Hi.
  assert (E := nth_error_rolling_mean period (map F (diff s)) i
                 ltac:(rewrite length_map, length_diff; lia)).
  apply (nth_error_nth _ _ NaN) in E. rewrite E.
  destruct (Nat.ltb_spec (i + 1) period); [reflexivity|].
  apply window_mean_nan.
  rewrite (window_nth _ _ _ NaN) by (rewrite ?length_map, ?length_diff; lia).
  replace (i + 1 - period)%nat with 0%nat by lia.
  apply in_map_iff. exists 0%nat. split; [|apply in_seq; lia].
  rewrite nth_map_prep, <- HN at 1. rewrite map_nth, nth_diff_0; [now rewrite HN|].
  destruct s; simpl in *; [lia|discriminate].
Qed.

Lemma rolling_mean_0 s i : nth i (rolling_mean 0 s) NaN = NaN.
Proof.
  destruct (Nat.ltb_spec i (length s)).
  - assert (E := nth_error_rolling_mean 0 s i H).
    apply (nth_error_nth _ _ NaN) in E. rewrite E. reflexivity.
  - apply nth_overflow. now rewrite length_rolling_mean.
Qed.

(** An entry of [calculate_rsi] is [rsi_point] of the two averages. *)
Lemma nth_error_calculate_rsi period s i :
  (i < length s)%nat ->
  nth_error (calculate_rsi period s) i =
  Some (rsi_point
          (nth i (rolling_mean period (map (clip_lower (Fin 0)) (diff s))) NaN)
          (nth i (rolling_mean period (map fneg (map (clip_upper (Fin 0)) (diff s)))) NaN)).
Proof. intros H. rewrite calculate_rsi_pointwise, nth_error_tabulate by assumption. reflexivity. Qed.

(** The value at a full window of exact prices, before the reference is
    consulted. *)
Lemma calculate_rsi_fin period p i :
  (1 <= period <= i)%nat -> (i < length p)%nat ->
  exists r, nth_error (calculate_rsi period (map Fin p)) i = Some r /\
  r ≡ rsi_point (Fin (avg_over spec_gain period p i)) (Fin (avg_over spec_loss period p i)).
Proof.
  intros Hp Hi. eexists. split.
  - apply nth_error_calculate_rsi. now rewrite length_map.
  - now rewrite avg_gain_fin, avg_loss_fin.
Qed.

Lemma qsum_zero {A} (f : A -> Q) l :
  (forall x, In x l -> f x == 0) -> qsum (map f l) == 0.
Proof.
  induction l as [|a l IH]; intros H; [reflexivity|].
  change (f a + qsum (map f l) == 0).
  assert (Ha : f a == 0) by (apply H; now left).
  assert (Hl : qsum (map f l) == 0) by (apply IH; intros; apply H; now right).
  lra.
Qed.

Lemma qsum_pos {A} (f : A -> Q) l :
  (forall x, In x l -> 0 <= f x) -> (exists x, In x l /\ 0 < f x) -> 0 < qsum (map f l).
Proof.
  induction l as [|a l IH]; intros H0 (x & Hx & Hpos); [destruct Hx|].
  change (0 < f a + qsum (map f l)).
  assert (Hl : 0 <= qsum (map f l)) by (apply qsum_nonneg; intros; apply H0; now right).
  assert (Ha : 0 <= f a) by (apply H0; now left).
  destruct Hx as [<- | Hx]; [lra|].
  assert (0 < qsum (map f l)) by (apply IH; [intros; apply H0; now right|eauto]). lra.
Qed.

Lemma avg_over_zero f period p i :
  (forall k, In k (seq (i + 1 - period) period) -> f (delta_at p k) == 0) ->
  avg_over f period p i == 0.
Proof.
  intros H. unfold avg_over. rewrite (qsum_zero _ _ H). reflexivity.
Qed.

Lemma avg_over_pos f period p i :
  (forall k, In k (seq (i + 1 - period) period) -> 0 <= f (delta_at p k)) ->
  (exists k, In k (seq (i + 1 - period) period) /\ 0 < f (delta_at p k)) ->
  0 < avg_over f period p i.
Proof.
  intros H0 H. unfold avg_over. apply Qlt_shift_div_l.
  - destruct H as (k & Hk & _). destruct period; [destruct Hk|]. unfold Qlt; simpl; lia.
  - rewrite Qmult_0_l. apply qsum_pos; auto.
Qed.

(** ** Properties of the indicator *)


(** The warm-up region.  The first [period] entries of [calculate_rsi period s] are NaN,
    whatever the prices (the window of deltas then contains the NaN that
    [diff] puts at position 0, or is not full). *)
Theorem rsi_warmup_nan period s i :
  (i < period)%nat -> (i < length s)%nat ->
  nth_error (calculate_rsi period s) i = Some NaN.
Proof.
  intros Hp Hi. rewrite nth_error_calculate_rsi by assumption. f_equal.
  rewrite rolling_diff_warmup by (reflexivity || assumption). reflexivity.
Qed.


(** C24: flat windows.  When the [period + 1] prices of the window ending at [i] are all
    equal, average gain and average loss are both zero and the pandas
    division [0 / 0] makes the entry NaN, not the saturation value. *)
Theorem calculate_rsi_flat_window_nan period p i :
  (1 <= period <= i)%nat -> (i < length p)%nat ->
  (forall k, (i - period <= k <= i)%nat -> nth k p 0 == nth i p 0) ->
  nth_error (calculate_rsi period (map Fin p)) i = Some NaN.
Proof.
  intros Hp Hi Hflat. destruct (calculate_rsi_fin period p i Hp Hi) as (r & Hr & Heq).
  assert (Hd : forall k, In k (seq (i + 1 - period) period) -> delta_at p k == 0).
  { intros k Hk. apply in_seq in Hk. unfold delta_at.
    rewrite (Hflat k), (Hflat (k - 1)%nat) by lia. lra. }
  assert (Hg : avg_over spec_gain period p i == 0).
  { apply avg_over_zero. intros k Hk. unfold spec_gain. rewrite (Hd k Hk).
    reflexivity. }
  assert (Hl : avg_over spec_loss period p i == 0).
  { apply avg_over_zero. intros k Hk. unfold spec_loss. rewrite (Hd k Hk).
    reflexivity. }
  rewrite rsi_point_fin in Heq by auto with bot.
  apply Qeq_bool_iff in Hg, Hl. rewrite Hg, Hl in Heq.
  now rewrite Hr, (feq_nan_r _ Heq).
Qed.

(** Saturation on a rising window.  When no price of the window is
    below the previous one and at least one is above it, the average
    loss is zero and the average gain positive: the pandas division
    gives [+inf], and the entry is exactly 100. *)
Theorem calculate_rsi_rising_window_saturates period p i :
  (1 <= period <= i)%nat -> (i < length p)%nat ->
  (forall k, (i + 1 - period <= k <= i)%nat -> nth (k - 1) p 0 <= nth k p 0) ->
  (exists k, (i + 1 - period <= k <= i)%nat /\ nth (k - 1) p 0 < nth k p 0) ->
  exists r, nth_error (calculate_rsi period (map Fin p)) i = Some r /\ r ≡ Fin 100.
Proof.
  intros Hp Hi Hup (k0 & Hk0 & Hinc). destruct (calculate_rsi_fin period p i Hp Hi) as (r & Hr & Heq).
  assert (Hd : forall k, In k (seq (i + 1 - period) period) -> 0 <= delta_at p k).
  { intros k Hk. apply in_seq in Hk. specialize (Hup k ltac:(lia)). unfold delta_at. lra. }
  assert (Hg : 0 < avg_over spec_gain period p i).
  { apply avg_over_pos.
    - intros k Hk. apply spec_gain_nonneg.
    - exists k0. split; [apply in_seq; lia|].
      unfold spec_gain, delta_at. destruct (Qle_bool _ 0) eqn:E; qprop; lra. }
  assert (Hl : avg_over spec_loss period p i == 0).
  { apply avg_over_zero. intros k Hk. specialize (Hd k Hk).
    unfold spec_loss. destruct (Qle_bool 0 _) eqn:E; qprop; lra. }
  rewrite rsi_point_fin in Heq by auto with bot.
  apply Qeq_bool_iff in Hl. rewrite Hl in Heq.
  destruct (Qeq_bool (avg_over spec_gain period p i) 0) eqn:Eg; qprop; [lra|].
  eauto.
Qed.

(** ** Witnesses *)


Lemma calculate_rsi_flat_window_nan_witness :
  nth_error (calculate_rsi 2 (map Fin [7; 5; 5; 5])) 3 = Some NaN.
Proof.
  apply calculate_rsi_flat_window_nan; [lia | simpl; lia |].
  intros k Hk. destruct k as [|[|[|[|k]]]]; simpl; try lia; reflexivity.
Defined.

End Rsi.
