(* ===== verification/Rolling.v ===== *)
(** * pandas' online rolling mean (src/bot.py lines 40-41)

    [gain.rolling(window=period).mean()] does not average each window
    afresh: pandas' [roll_mean] (pandas/_libs/window/aggregations.pyx)
    slides over the Series once, keeping a running state that
    [add_mean] updates when a value enters the window and [remove_mean]
    when it leaves, and [calc_mean] reads the mean off that state.  The
    state holds the count of non-NaN values, their Kahan-compensated sum
    with separate compensations for additions and removals, the count of
    negative values (to clamp a mean of the wrong sign to 0) and the run
    of equal consecutive values (to return that value exactly).  The
    window bounds come from pandas' [FixedWindowIndexer], and
    [_prep_values] first replaces [inf] and [-inf] by NaN.

    This file models that algorithm on [pyfloat] and proves it
    equivalent to [Series.rolling_mean], the per-window mean the rest of
    the development uses: on every Series the two agree at every
    position (up to [feq]).  The Kahan compensations stay
    0 and the clamping branches never fire, because the arithmetic of
    the model is exact. *)

From Stdlib Require Import List Lia Arith ZArith QArith Lqa Morphisms.
From S2P Require Import Prelude PyFloat Series Rsi.
Import ListNotations Series Rsi.

Module Rolling.

Local Open Scope nat_scope.

(** ** The running state of [roll_mean] *)

Record acc : Type := mkAcc {
  nobs : nat;
  sum_x : pyfloat;
  neg_ct : nat;
  compensation_add : pyfloat;
  compensation_remove : pyfloat;
  num_consecutive_same_value : nat;
  prev_value : pyfloat
}.

(** Python's [==] on floats: false when a side is NaN. *)
Definition fequal (x y : pyfloat) : bool :=
  match fcmp x y with Some Eq => true | _ => false end.

(** [signbit(val)]: the model has no negative zero. *)
Definition signbit (x : pyfloat) : bool := flt x (Fin 0).

(** [add_mean]: a value enters the window. *)
Definition add_mean (val : pyfloat) (a : acc) : acc :=
  if fequal val val then
    let y := fsub val (compensation_add a) in
    let t := fadd (sum_x a) y in
    {| nobs := S (nobs a);
       sum_x := t;
       neg_ct := if signbit val then S (neg_ct a) else neg_ct a;
       compensation_add := fsub (fsub t (sum_x a)) y;
       compensation_remove := compensation_remove a;
       num_consecutive_same_value :=
         if fequal val (prev_value a) then S (num_consecutive_same_value a) else 1;
       prev_value := val |}
  else a.

(** [remove_mean]: a value leaves the window. *)
Definition remove_mean (val : pyfloat) (a : acc) : acc :=
  if fequal val val then
    let y := fsub (fneg val) (compensation_remove a) in
    let t := fadd (sum_x a) y in
    {| nobs := nobs a - 1;
       sum_x := t;
       neg_ct := if signbit val then neg_ct a - 1 else neg_ct a;
       compensation_add := compensation_add a;
       compensation_remove := fsub (fsub t (sum_x a)) y;
       num_consecutive_same_value := num_consecutive_same_value a;
       prev_value := prev_value a |}
  else a.

(** [calc_mean]: the output for one position. *)
Definition calc_mean (minp : nat) (a : acc) : pyfloat :=
  if (minp <=? nobs a) && (0 <? nobs a) then
    let result := fdiv (sum_x a) (of_Z (Z.of_nat (nobs a))) in
    if nobs a <=? num_consecutive_same_value a then prev_value a
    else if (neg_ct a =? 0) && flt result (Fin 0) then Fin 0
    else if (neg_ct a =? nobs a) && fgt result (Fin 0) then Fin 0
    else result
  else NaN.

(** [for j in range(lo, hi): add_mean(values[j], ...)] *)
Definition add_range (values : list pyfloat) (lo hi : nat) (a : acc) : acc :=
  fold_left (fun a j => add_mean (nth j values NaN) a) (seq lo (hi - lo)) a.

(** [for j in range(lo, hi): remove_mean(values[j], ...)] *)
Definition remove_range (values : list pyfloat) (lo hi : nat) (a : acc) : acc :=
  fold_left (fun a j => remove_mean (nth j values NaN) a) (seq lo (hi - lo)) a.

(** The [# setup] branch: a fresh state, then the whole window. *)
Definition setup (values : list pyfloat) (s e : nat) : acc :=
  add_range values s e (mkAcc 0 (Fin 0) 0 (Fin 0) (Fin 0) 0 (nth s values NaN)).

(** The reset after each output when the bounds are not monotonic. *)
Definition reset (a : acc) : acc :=
  {| nobs := 0; sum_x := Fin 0; neg_ct := 0;
     compensation_add := compensation_add a; compensation_remove := Fin 0;
     num_consecutive_same_value := num_consecutive_same_value a;
     prev_value := prev_value a |}.

Fixpoint nondecreasing (l : list nat) : bool :=
  match l with
  | x :: (y :: _) as r => (x <=? y) && nondecreasing r
  | _ => true
  end.

(** [is_monotonic_increasing_start_end_bounds] *)
Definition is_monotonic_increasing_bounds (start end_ : list nat) : bool :=
  nondecreasing start && nondecreasing end_.

(** The state for position [i], from the state after position [i-1]. *)
Definition roll_state (values : list pyfloat) (start end_ : list nat) (mono : bool)
    (i : nat) (a : acc) : acc :=
  let s := nth i start 0 in
  let e := nth i end_ 0 in
  if (i =? 0) || negb mono || (nth (i - 1) end_ 0 <=? s) then setup values s e
  else add_range values (nth (i - 1) end_ 0) e
         (remove_range values (nth (i - 1) start 0) s a).

(** The loop [for i in range(0, N)] from position [i], [k] positions left. *)
Fixpoint roll_loop (values : list pyfloat) (start end_ : list nat) (minp : nat)
    (mono : bool) (i k : nat) (a : acc) : list pyfloat :=
  match k with
  | O => []
  | S k' =>
      let a1 := roll_state values start end_ mono i a in
      calc_mean minp a1 ::
        roll_loop values start end_ minp mono (S i) k' (if mono then a1 else reset a1)
  end.

(** [roll_mean(values, start, end, minp)] *)
Definition roll_mean (values : list pyfloat) (start end_ : list nat) (minp : nat)
    : list pyfloat :=
  roll_loop values start end_ minp (is_monotonic_increasing_bounds start end_) 0
    (length start) (mkAcc 0 (Fin 0) 0 (Fin 0) (Fin 0) 0 (Fin 0)).

(** [FixedWindowIndexer(window_size).get_window_bounds(num_values)]
    with [closed='right'] and no centring: [end = arange(1, n+1)],
    [start = end - window_size] clipped at 0. *)
Definition fixed_window_bounds (num_values window_size : nat) : list nat * list nat :=
  (map (fun i => i + 1 - window_size) (seq 0 num_values), map S (seq 0 num_values)).

(** [s.rolling(window=w).mean()]: [_prep_values] turns [inf] and
    [-inf] into NaN, then [roll_mean] runs with [min_periods = w]. *)
Definition rolling_mean_pandas (w : nat) (s : series) : series :=
  let values := map prep_value s in
  let '(start, end_) := fixed_window_bounds (length values) w in
  roll_mean values start end_ w.

(** [calculate_rsi] (lines 36-43) with both rolling means computed by
    pandas' online algorithm. *)
Definition calculate_rsi_pandas (period : nat) (s : series) : series :=
  let delta := diff s in
  let gain := map (clip_lower (Fin 0)) delta in
  let loss := map fneg (map (clip_upper (Fin 0)) delta) in
  let avg_gain := rolling_mean_pandas period gain in
  let avg_loss := rolling_mean_pandas period loss in
  let rs := zip_with fdiv avg_gain avg_loss in
  map (fun r => fsub (Fin 100) (fdiv (Fin 100) (fadd (Fin 1) r))) rs.

(** ** The invariant of the running state

    [win] is the content of the window: the values added and not yet
    removed, in order.  [fins win] are its non-NaN values. *)

Fixpoint fins (l : list pyfloat) : list Q :=
  match l with
  | [] => []
  | Fin q :: r => q :: fins r
  | _ :: r => fins r
  end.

(** The values the invariant is stated for: finite or NaN. *)
Definition fin_or_nan (x : pyfloat) : bool :=
  match x with PInf | NInf => false | _ => true end.

Definition lastn {A} (k : nat) (l : list A) : list A := skipn (length l - k) l.

Definition acc_inv (a : acc) (win : list pyfloat) : Prop :=
  nobs a = length (fins win) /\
  neg_ct a = length (filter signbit win) /\
  (exists s, sum_x a = Fin s /\ (s == qsum (fins win))%Q) /\
  (exists c, compensation_add a = Fin c /\ (c == 0)%Q) /\
  (exists c, compensation_remove a = Fin c /\ (c == 0)%Q) /\
  (num_consecutive_same_value a = 0 \/
   exists p, prev_value a = Fin p /\
     Forall (fun q => q == p)%Q (lastn (num_consecutive_same_value a) (fins win))).

Ltac destruct_inv H :=
  let Hn := fresh "Hn" in let Hg := fresh "Hg" in
  let s := fresh "s" in let Es := fresh "Es" in let Hs := fresh "Hs" in
  let c := fresh "c" in let Ec := fresh "Ec" in let Hc := fresh "Hc" in
  let c' := fresh "c" in let Ec' := fresh "Ec" in let Hc' := fresh "Hc" in
  let Hr := fresh "Hr" in
  destruct H as (Hn & Hg & (s & Es & Hs) & (c & Ec & Hc) & (c' & Ec' & Hc') & Hr).

(** ** Lemmas *)

Lemma fins_app l1 l2 : fins (l1 ++ l2) = fins l1 ++ fins l2.
Proof. induction l1 as [|[] l1 IH]; simpl; f_equal; auto. Qed.

Lemma length_fins l : length (fins l) <= length l.
Proof. induction l as [|[] l IH]; simpl; lia. Qed.

Lemma length_fins_nan l : existsb is_nan l = true -> length (fins l) < length l.
Proof.
  induction l as [|[] l IH]; simpl; try discriminate; intros H;
    try (specialize (IH H); lia). pose proof (length_fins l). lia.
Qed.

Lemma fins_no_nan l :
  forallb fin_or_nan l = true -> existsb is_nan l = false -> l = map Fin (fins l).
Proof. induction l as [|[] l IH]; simpl; try discriminate; intros; f_equal; auto. Qed.

Lemma qsum_app l1 l2 : (qsum (l1 ++ l2) == qsum l1 + qsum l2)%Q.
Proof.
  induction l1 as [|x l1 IH]; simpl; [ring|].
  change (x + qsum (l1 ++ l2) == x + qsum l1 + qsum l2)%Q. rewrite IH. ring.
Qed.

Lemma lastn_snoc {A} k (l : list A) x : lastn (S k) (l ++ [x]) = lastn k l ++ [x].
Proof.
  unfold lastn. rewrite length_app. simpl.
  destruct (Nat.le_gt_cases (length l) k) as [Hk|Hk].
  - replace (length l + 1 - S k) with 0 by lia. replace (length l - k) with 0 by lia. reflexivity.
  - replace (length l + 1 - S k) with (length l - k) by lia.
    rewrite skipn_app. now replace (length l - k - length l) with 0 by lia.
Qed.

Lemma lastn_one {A} (l : list A) x : lastn 1 (l ++ [x]) = [x].
Proof.
  unfold lastn. rewrite length_app. simpl. replace (length l + 1 - 1) with (length l) by lia.
  rewrite skipn_app, skipn_all, Nat.sub_diag. reflexivity.
Qed.

Lemma lastn_cons_Forall {A} (P : A -> Prop) k x l :
  Forall P (lastn k (x :: l)) -> Forall P (lastn k l).
Proof.
  unfold lastn. simpl length. intros H.
  destruct (Nat.le_gt_cases (S (length l)) k) as [Hk|Hk].
  - replace (S (length l) - k) with 0 in H by lia. replace (length l - k) with 0 by lia.
    now inversion H.
  - replace (S (length l) - k) with (S (length l - k)) in H by lia. exact H.
Qed.

Lemma lastn_0 {A} (l : list A) : lastn 0 l = [].
Proof. unfold lastn. now rewrite Nat.sub_0_r, skipn_all. Qed.

Lemma lastn_all {A} k (l : list A) : length l <= k -> lastn k l = l.
Proof. intros H. unfold lastn. now replace (length l - k) with 0 by lia. Qed.

Lemma fequal_fin a b : fequal (Fin a) (Fin b) = true <-> (a == b)%Q.
Proof. unfold fequal; simpl. rewrite Qeq_alt. destruct (a ?= b)%Q; split; congruence. Qed.

Lemma fequal_refl q : fequal (Fin q) (Fin q) = true.
Proof. apply fequal_fin. reflexivity. Qed.

Lemma acc_inv_fresh p : acc_inv (mkAcc 0 (Fin 0) 0 (Fin 0) (Fin 0) 0 p) [].
Proof. repeat split; eauto; exists 0%Q; split; reflexivity. Qed.

(** A finite or NaN value entering the window. *)
Lemma add_mean_inv a win v :
  fin_or_nan v = true -> acc_inv a win -> acc_inv (add_mean v a) (win ++ [v]).
Proof.
  intros Hv Hi. destruct_inv Hi. unfold acc_inv.
  rewrite fins_app, filter_app, !length_app.
  destruct v as [q| | |]; try discriminate; unfold add_mean.
  - rewrite fequal_refl, Es, Ec. simpl.
    split; [lia|]. split; [destruct signbit; simpl; lia|].
    split; [exists (s + (q - c))%Q; split; [reflexivity|]; rewrite qsum_app; simpl; lra|].
    split; [eexists; split; [reflexivity|]; ring|].
    split; [eauto|]. right. exists q. split; [reflexivity|].
    destruct (fequal (Fin q) (prev_value a)) eqn:Ep.
    + rewrite lastn_snoc. apply Forall_app. split; [|constructor; [reflexivity|constructor]].
      destruct Hr as [-> | (p & Ep' & Hp)]; [rewrite lastn_0; constructor|].
      rewrite Ep' in Ep. apply fequal_fin in Ep.
      eapply Forall_impl; [|exact Hp]. intros x Hx. simpl in Hx. lra.
    + rewrite lastn_one. constructor; [reflexivity|constructor].
  - simpl. rewrite !app_nil_r, !Nat.add_0_r.
    repeat split; eauto.
Qed.

(** A finite or NaN value leaving the window. *)
Lemma remove_mean_inv a win x :
  fin_or_nan x = true -> acc_inv a (x :: win) -> acc_inv (remove_mean x a) win.
Proof.
  intros Hx Hi. destruct_inv Hi. unfold acc_inv.
  destruct x as [q| | |]; try discriminate; unfold remove_mean; simpl in *.
  - rewrite fequal_refl, Es, Ec0. simpl.
    split; [lia|]. split; [destruct signbit; simpl in *; lia|].
    split; [exists (s + (- q - c0))%Q; split; [reflexivity|];
            change (qsum (q :: fins win)) with (q + qsum (fins win))%Q in Hs; lra|].
    split; [eauto|]. split; [eexists; split; [reflexivity|]; ring|].
    destruct Hr as [Hr | (p & Ep & Hp)]; [now left|right].
    exists p. split; [exact Ep|]. exact (lastn_cons_Forall _ _ _ _ Hp).
  - repeat split; eauto.
Qed.

Lemma nth_fin_or_nan (values : list pyfloat) j :
  forallb fin_or_nan values = true -> fin_or_nan (nth j values NaN) = true.
Proof.
  intros H. destruct (Nat.lt_ge_cases j (length values)) as [Hj|Hj].
  - rewrite forallb_forall in H. apply H, nth_In, Hj.
  - now rewrite nth_overflow.
Qed.

Lemma fold_add_inv values l a win :
  forallb fin_or_nan values = true -> acc_inv a win ->
  acc_inv (fold_left (fun a j => add_mean (nth j values NaN) a) l a)
          (win ++ map (fun j => nth j values NaN) l).
Proof.
  intros Hv. revert a win. induction l as [|j l IH]; intros a win Hi; simpl.
  - now rewrite app_nil_r.
  - change (nth j values NaN :: ?r) with ([nth j values NaN] ++ r).
    rewrite app_assoc. apply IH, add_mean_inv; auto using nth_fin_or_nan.
Qed.

Lemma fold_remove_inv values l a win :
  forallb fin_or_nan values = true ->
  acc_inv a (map (fun j => nth j values NaN) l ++ win) ->
  acc_inv (fold_left (fun a j => remove_mean (nth j values NaN) a) l a) win.
Proof.
  intros Hv. revert a. induction l as [|j l IH]; intros a Hi; simpl in *; auto.
  apply IH, remove_mean_inv; auto using nth_fin_or_nan.
Qed.

Lemma signbit_fins_nonneg win :
  length (filter signbit win) = 0 -> Forall (fun q => 0 <= q)%Q (fins win).
Proof.
  induction win as [|[q| | |] win IH]; simpl; intros H; auto; try discriminate.
  destruct (signbit (Fin q)) eqn:Es; [discriminate|].
  constructor; auto. unfold signbit in Es.
  destruct (Qlt_le_dec q 0) as [Hq|Hq]; auto.
  apply flt_fin in Hq. congruence.
Qed.

Lemma length_filter_signbit win :
  forallb fin_or_nan win = true -> length (filter signbit win) <= length (fins win).
Proof.
  induction win as [|x win IH]; simpl; intros H; [lia|].
  destruct x as [q| | |]; simpl in H; try discriminate; specialize (IH H).
  - cbn [fins]. destruct (signbit (Fin q)); cbn [length]; lia.
  - exact IH.
Qed.

Lemma signbit_fins_neg win :
  forallb fin_or_nan win = true -> length (filter signbit win) = length (fins win) ->
  Forall (fun q => q <= 0)%Q (fins win).
Proof.
  induction win as [|[q| | |] win IH]; simpl; intros Hf H; try discriminate; auto.
  pose proof (length_filter_signbit win Hf).
  destruct (signbit (Fin q)) eqn:Es; simpl in H; [|lia].
  constructor; [apply flt_fin in Es; cbv beta; lra | apply IH; auto].
Qed.

Lemma qsum_nonneg_l l : Forall (fun q => 0 <= q)%Q l -> (0 <= qsum l)%Q.
Proof. induction 1; simpl; [lra|]. change (0 <= x + qsum l)%Q. lra. Qed.

Lemma qsum_nonpos_l l : Forall (fun q => q <= 0)%Q l -> (qsum l <= 0)%Q.
Proof. induction 1; simpl; [lra|]. change (x + qsum l <= 0)%Q. lra. Qed.

Lemma qsum_const l p :
  Forall (fun q => q == p)%Q l -> (qsum l == inject_Z (Z.of_nat (length l)) * p)%Q.
Proof.
  induction 1 as [|x l Hx _ IH]; simpl; [ring|].
  change (x + qsum l == inject_Z (Z.of_nat (S (length l))) * p)%Q.
  rewrite IH, Hx, Nat2Z.inj_succ, <- Z.add_1_r, inject_Z_plus. ring.
Qed.

Lemma inject_nat_pos n : 0 < n -> ~ (inject_Z (Z.of_nat n) == 0)%Q.
Proof. intros H. unfold Qeq; simpl. lia. Qed.

(** What [calc_mean] outputs for a window of at most [w] values. *)
Lemma calc_mean_inv w a win :
  0 < w -> length win <= w -> forallb fin_or_nan win = true -> acc_inv a win ->
  calc_mean w a ≡ (if length win <? w then NaN else window_mean w win).
Proof.
  intros Hw Hl Hf Hi. pose proof (length_fins win) as Hfl.
  destruct_inv Hi. unfold calc_mean. rewrite Hn.
  destruct (Nat.ltb_spec (length win) w) as [Hlt|Hge].
  { replace (w <=? length (fins win)) with false by (symmetry; apply Nat.leb_gt; lia).
    reflexivity. }
  destruct (existsb is_nan win) eqn:Hnan.
  { pose proof (length_fins_nan win Hnan).
    replace (w <=? length (fins win)) with false by (symmetry; apply Nat.leb_gt; lia).
    unfold window_mean. now rewrite Hnan. }
  pose proof (fins_no_nan win Hf Hnan) as Ew.
  assert (Ef : length (fins win) = w).
  { rewrite Ew, length_map in Hge. lia. }
  assert (Em : window_mean w win = Fin (qsum (fins win) / inject_Z (Z.of_nat w)))
    by (rewrite Ew at 1; now rewrite window_mean_fin by exact Hw).
  rewrite Em, Ef, Nat.leb_refl.
  replace (0 <? w) with true by (symmetry; apply Nat.ltb_lt; exact Hw). simpl andb.
  rewrite Es. unfold of_Z. rewrite fdiv_fin by (apply inject_nat_pos; exact Hw).
  destruct (Nat.leb_spec w (num_consecutive_same_value a)) as [Hsame|Hsame].
  { destruct Hr as [Hr|(p & Ep & Hp)]; [lia|]. rewrite Ep. simpl.
    rewrite lastn_all in Hp by lia. rewrite (qsum_const _ _ Hp), Ef.
    field. apply inject_nat_pos, Hw. }
  assert (Hsw : (s / inject_Z (Z.of_nat w) == qsum (fins win) / inject_Z (Z.of_nat w))%Q)
    by (rewrite Hs; reflexivity).
  assert (Hpos : (0 < inject_Z (Z.of_nat w))%Q) by (unfold Qlt; simpl; lia).
  destruct (Nat.eqb_spec (neg_ct a) 0) as [Hz|Hz]; simpl andb.
  { replace (flt _ (Fin 0)) with false; [|symmetry].
    - rewrite Hz. destruct (Nat.eqb_spec 0 w); [lia|]. exact Hsw.
    - apply not_true_iff_false. rewrite flt_fin. rewrite Hg in Hz.
      pose proof (qsum_nonneg_l _ (signbit_fins_nonneg _ Hz)).
      assert (0 <= qsum (fins win) / inject_Z (Z.of_nat w))%Q by (apply Qdiv_nonneg; lra). lra. }
  destruct (Nat.eqb_spec (neg_ct a) w) as [Hn'|Hn']; simpl andb; [|exact Hsw].
  replace (fgt _ (Fin 0)) with false; [exact Hsw|symmetry].
  apply not_true_iff_false. rewrite fgt_fin. rewrite Hg, <- Ef in Hn'.
  pose proof (qsum_nonpos_l _ (signbit_fins_neg _ Hf Hn')).
  assert (0 <= - qsum (fins win) / inject_Z (Z.of_nat w))%Q by (apply Qdiv_nonneg; lra).
  assert (Hd : (- qsum (fins win) / inject_Z (Z.of_nat w) ==
                - (qsum (fins win) / inject_Z (Z.of_nat w)))%Q) by (field; lra).
  lra.
Qed.

(** The values of [values] between the bounds pandas' fixed window
    indexer gives position [i]: [values[max(0, i+1-w) .. i]]. *)
Definition live (values : list pyfloat) (w i : nat) : list pyfloat :=
  map (fun j => nth j values NaN) (seq (i + 1 - w) (i + 1 - (i + 1 - w))).

Lemma seq_split a a' b :
  a <= a' <= b -> seq a (b - a) = seq a (a' - a) ++ seq a' (b - a').
Proof.
  intros H. replace (b - a) with ((a' - a) + (b - a')) by lia.
  rewrite seq_app. f_equal. f_equal. lia.
Qed.

Lemma nth_map_seq (f : nat -> nat) n i d : i < n -> nth i (map f (seq 0 n)) d = f i.
Proof.
  intros H. rewrite (nth_indep _ _ (f 0)) by (rewrite length_map, length_seq; lia).
  rewrite map_nth, seq_nth by lia. reflexivity.
Qed.

Lemma forallb_live values w i :
  forallb fin_or_nan values = true -> forallb fin_or_nan (live values w i) = true.
Proof.
  intros H. apply forallb_forall. intros x Hx. unfold live in Hx.
  apply in_map_iff in Hx as (j & <- & _). now apply nth_fin_or_nan.
Qed.

Lemma nondecreasing_map_seq (f : nat -> nat) a n :
  (forall i, f i <= f (S i)) -> nondecreasing (map f (seq a n)) = true.
Proof.
  intros Hf. revert a. induction n as [|[|n] IH]; intros a; [reflexivity..|].
  change (nondecreasing (f a :: map f (seq (S a) (S n))) = true).
  simpl seq at 1. simpl map. cbn [nondecreasing]. apply andb_true_intro. split.
  - apply Nat.leb_le, Hf.
  - exact (IH (S a)).
Qed.

Section FixedWindow.

Variable values : list pyfloat.
Variable w : nat.
Hypothesis Hw : 0 < w.
Hypothesis Hvalues : forallb fin_or_nan values = true.

Let n := length values.
Let start := fst (fixed_window_bounds n w).
Let end_ := snd (fixed_window_bounds n w).

(** The value [Series.rolling_mean] gives position [i]. *)
Let ref (i : nat) : pyfloat :=
  if i + 1 <? w then NaN else window_mean w (window w values i).

(** One position of the loop: the state holds the window of [i]. *)
Lemma roll_state_fixed i a :
  i < n -> (i = 0 \/ acc_inv a (live values w (i - 1))) ->
  acc_inv (roll_state values start end_ true i a) (live values w i).
Proof.
  intros Hi Ha. unfold roll_state, start, end_, fixed_window_bounds, fst, snd.
  rewrite !nth_map_seq by lia.
  destruct (_ || _ || _) eqn:Ec.
  - unfold setup, add_range.
    replace (S i - (i + 1 - w)) with (i + 1 - (i + 1 - w)) by lia.
    apply (fold_add_inv values _ _ [] Hvalues (acc_inv_fresh _)).
  - destruct Ha as [->|Ha]; [discriminate|].
    destruct i as [|i]; [discriminate|].
    replace (S i - 1) with i in * by lia.
    unfold add_range, remove_range, live.
    replace (S i + 1 - (S i + 1 - w)) with (S i - (S i + 1 - w) + (S (S i) - S i)) by lia.
    rewrite seq_app, map_app. replace (S i + 1 - w + (S i - (S i + 1 - w))) with (S i) by lia.
    apply (fold_add_inv values _ _ _ Hvalues).
    apply (fold_remove_inv values _ _ _ Hvalues).
    unfold live in Ha. rewrite <- map_app, <- seq_split by lia.
    now replace (S i - (i + 1 - w)) with (i + 1 - (i + 1 - w)) by lia.
Qed.

Lemma live_window i :
  i < n -> w <= i + 1 -> live values w i = window w values i.
Proof.
  intros Hi Hwi. unfold live. rewrite (window_nth _ _ _ NaN Hwi Hi).
  f_equal. f_equal. lia.
Qed.

Lemma roll_loop_fixed k i a :
  i + k <= n -> (i = 0 \/ acc_inv a (live values w (i - 1))) ->
  Forall2 feq (roll_loop values start end_ w true i k a) (map ref (seq i k)).
Proof.
  revert i a. induction k as [|k IH]; intros i a Hk Ha; simpl; [constructor|].
  pose proof (roll_state_fixed i a ltac:(lia) Ha) as Hi.
  constructor.
  - etransitivity.
    { apply (calc_mean_inv w _ (live values w i) Hw);
        [unfold live; rewrite length_map, length_seq; lia | apply forallb_live, Hvalues | exact Hi]. }
    unfold ref, live. rewrite length_map, length_seq.
    destruct (Nat.ltb_spec (i + 1) w) as [Hlt|Hge].
    + replace (i + 1 - (i + 1 - w) <? w) with true by (symmetry; apply Nat.ltb_lt; lia).
      reflexivity.
    + replace (i + 1 - (i + 1 - w) <? w) with false by (symmetry; apply Nat.ltb_ge; lia).
      fold (live values w i). rewrite live_window by lia. reflexivity.
  - apply IH; [lia|]. right. now replace (S i - 1) with i by lia.
Qed.

End FixedWindow.

Lemma fixed_window_monotonic n w :
  is_monotonic_increasing_bounds (fst (fixed_window_bounds n w)) (snd (fixed_window_bounds n w))
  = true.
Proof.
  unfold is_monotonic_increasing_bounds, fixed_window_bounds, fst, snd.
  rewrite !nondecreasing_map_seq; auto; intros; lia.
Qed.

Lemma rolling_mean_as_map w s :
  rolling_mean w s =
  map (fun i => if i + 1 <? w then NaN else window_mean w (window w (map prep_value s) i))
      (seq 0 (length (map prep_value s))).
Proof. reflexivity. Qed.

(** After [_prep_values] every value is finite or NaN. *)
Lemma forallb_prep s : forallb fin_or_nan (map prep_value s) = true.
Proof. induction s as [|[] s IH]; simpl; auto. Qed.

Lemma Forall2_feq_map (f : pyfloat -> pyfloat) l l' :
  Proper (feq ==> feq) f -> Forall2 feq l l' -> Forall2 feq (map f l) (map f l').
Proof. intros Hf H. induction H; simpl; constructor; [now apply Hf | auto]. Qed.

Lemma Forall2_feq_zip_with (f : pyfloat -> pyfloat -> pyfloat) l1 l1' l2 l2' :
  Proper (feq ==> feq ==> feq) f -> Forall2 feq l1 l1' -> Forall2 feq l2 l2' ->
  Forall2 feq (zip_with f l1 l2) (zip_with f l1' l2').
Proof.
  intros Hf H1. revert l2 l2'. induction H1; intros l2 l2' H2; simpl; [constructor|].
  destruct H2; simpl; constructor; [now apply Hf | auto].
Qed.

(** pandas' online rolling mean is the per-window mean.  For every
    Series, [roll_mean] over the fixed window bounds with
    [min_periods = w] (what [rolling(window=w).mean()] runs, after
    [_prep_values]) gives at every position the value of
    [Series.rolling_mean]: NaN until the window is full or when it
    holds a NaN or an infinity, the mean of its [w] values otherwise.
    On exact values its Kahan compensations stay 0 and its clamping and
    same-value branches return that same mean; on doubles they do not
    (RsiF64.v). *)
Lemma rolling_mean_pandas_equiv w s :
  0 < w -> Forall2 feq (rolling_mean_pandas w s) (rolling_mean w s).
Proof.
  intros Hw. unfold rolling_mean_pandas, roll_mean.
  rewrite (surjective_pairing (fixed_window_bounds _ w)).
  rewrite fixed_window_monotonic, rolling_mean_as_map.
  replace (length (fst (fixed_window_bounds (length (map prep_value s)) w)))
    with (length (map prep_value s))
    by (unfold fixed_window_bounds, fst; now rewrite ?length_map, ?length_seq).
  apply (roll_loop_fixed (map prep_value s) w Hw (forallb_prep s) _ 0); auto.
Qed.

(** The RSI computed with pandas' rolling means is, position by
    position, the [calculate_rsi] of Rsi.v. *)
Lemma calculate_rsi_pandas_equiv period s :
  0 < period -> Forall2 feq (calculate_rsi_pandas period s) (calculate_rsi period s).
Proof.
  intros Hp. unfold calculate_rsi_pandas, calculate_rsi.
  apply Forall2_feq_map; [intros x y E; now rewrite E|].
  apply Forall2_feq_zip_with; [exact fdiv_proper| |]; now apply rolling_mean_pandas_equiv.
Qed.

End Rolling.
