(* ===== verification/Python.v ===== *)
(** * The Python runtime the bot relies on

    - [exn]: the exceptions the handlers of src/bot.py can meet;
    - [result]: a computation that returns or raises;
    - [json]: the Python value [await resp.json()] builds (dicts keep
      their keys in order; a duplicated key keeps its last value);
    - [getitem]: the subscript [v[k]] on such values, with Python's
      [KeyError], [IndexError] and [TypeError];
    - [py_float]: the conversion [float(v)], including the parser of
      [float(str)] (sign, digit groups with single underscores,
      fraction, exponent, [inf], [infinity], [nan], surrounding
      whitespace);
    - [lower]: [str.lower()] on the characters the model has.

    Strings are Rocq [string]s holding the UTF-8 bytes of the text.
    [float(str)] is modelled on ASCII text: CPython also accepts
    non-ASCII Unicode decimal digits and whitespace, which the model
    rejects with [ValueError]. *)

From Stdlib Require Import List Lia Arith ZArith QArith String Ascii.
From S2P Require Import Prelude PyFloat.
Import ListNotations.

#[local] Set Warnings "-register-all".

Module Py.

Local Open Scope nat_scope.

(** ** Exceptions and results *)

Inductive exn : Type :=
| KeyError
| IndexError
| TypeError
| ValueError
| ClientError         (** aiohttp: connection or transport failure *)
| ContentTypeError    (** aiohttp: [resp.json()] on a body that is not JSON *)
| OutOfBoundsDatetime (** pandas: timestamp outside the int64 nanosecond range *)
| TelegramError.      (** python-telegram-bot: [send_message] failed *)

Definition exn_eq_dec (e1 e2 : exn) : {e1 = e2} + {e1 <> e2}.
Proof. decide equality. Defined.

Inductive result (A : Type) : Type :=
| Ok (a : A)
| Err (e : exn).
Arguments Ok {A} a.
Arguments Err {A} e.

Definition rbind {A B} (r : result A) (f : A -> result B) : result B :=
  match r with
  | Ok a => f a
  | Err e => Err e
  end.

Declare Scope result_scope.
Delimit Scope result_scope with result.
Notation "x <- r ;; k" := (rbind r (fun x => k))
  (at level 61, r at next level, right associativity) : result_scope.
Local Open Scope result_scope.

Lemma rbind_inv_ok {A B} (r : result A) (f : A -> result B) b :
  rbind r f = Ok b -> exists a, r = Ok a /\ f a = Ok b.
Proof. destruct r as [a|e]; simpl; [eauto|discriminate]. Qed.

(** ** Python values of a decoded JSON body *)

Inductive json : Type :=
| JNull
| JBool (b : bool)
| JInt (z : Z)
| JFloat (x : pyfloat)
| JStr (s : string)
| JList (l : list json)
| JDict (kv : list (string * json)).

Inductive key : Type :=
| KInt (i : Z)
| KStr (s : string).

(** [d[k]] on a dict built by [json.loads]: the value of the last
    occurrence of the key. *)
Fixpoint dict_lookup (k : string) (kv : list (string * json)) : option json :=
  match kv with
  | [] => None
  | (k', v) :: rest =>
      match dict_lookup k rest with
      | Some w => Some w
      | None => if String.eqb k k' then Some v else None
      end
  end.

(** [l[i]] with Python's negative indices. *)
Definition list_index {A} (l : list A) (i : Z) : option A :=
  let n := Z.of_nat (List.length l) in
  if (0 <=? i)%Z && (i <? n)%Z then nth_error l (Z.to_nat i)
  else if (- n <=? i)%Z && (i <? 0)%Z then nth_error l (Z.to_nat (n + i))
  else None.

Definition getitem (v : json) (k : key) : result json :=
  match v, k with
  | JDict kv, KStr s =>
      match dict_lookup s kv with Some w => Ok w | None => Err KeyError end
  | JDict _, KInt _ => Err KeyError
  | JList l, KInt i =>
      match list_index l i with Some w => Ok w | None => Err IndexError end
  | JStr s, KInt i =>
      match list_index (list_ascii_of_string s) i with
      | Some c => Ok (JStr (String c EmptyString))
      | None => Err IndexError
      end
  | _, _ => Err TypeError
  end.

(** ** [float(str)] *)

Definition code (c : ascii) : nat := nat_of_ascii c.

Definition is_digit (c : ascii) : bool := (48 <=? code c) && (code c <=? 57).
Definition digit_val (c : ascii) : Z := Z.of_nat (code c - 48).

(** The ASCII whitespace [float] strips: tab to carriage return, and
    space. *)
Definition is_space (c : ascii) : bool :=
  let n := code c in
  ((9 <=? n) && (n <=? 13)) || (n =? 32).

Fixpoint strip_left (cs : list ascii) : list ascii :=
  match cs with
  | c :: r => if is_space c then strip_left r else cs
  | [] => []
  end.

Definition strip (cs : list ascii) : list ascii := rev (strip_left (rev (strip_left cs))).

(** [digitpart ::= digit (["_"] digit)*], continued after a first
    digit: the value so far, the number of digits, the rest. *)
Fixpoint digitpart_more (acc : Z) (n : nat) (cs : list ascii) : Z * nat * list ascii :=
  match cs with
  | c :: r =>
      if is_digit c then digitpart_more (acc * 10 + digit_val c)%Z (S n) r
      else if Ascii.eqb c "_" then
        match r with
        | d :: r' => if is_digit d then digitpart_more (acc * 10 + digit_val d)%Z (S n) r'
                     else (acc, n, cs)
        | [] => (acc, n, cs)
        end
      else (acc, n, cs)
  | [] => (acc, n, [])
  end.

Definition digitpart (cs : list ascii) : option (Z * nat * list ascii) :=
  match cs with
  | d :: r => if is_digit d then Some (digitpart_more (digit_val d) 1 r) else None
  | [] => None
  end.

(** [number ::= [digitpart] "." digitpart | digitpart ["."]], as the
    integer mantissa and the number of fraction digits. *)
Definition number (cs : list ascii) : option (Z * nat * list ascii) :=
  match digitpart cs with
  | Some (iv, _, r) =>
      match r with
      | c :: r' =>
          if Ascii.eqb c "." then
            match digitpart r' with
            | Some (fv, fn, r'') => Some ((iv * 10 ^ Z.of_nat fn + fv)%Z, fn, r'')
            | None => Some (iv, 0, r')
            end
          else Some (iv, 0, r)
      | [] => Some (iv, 0, r)
      end
  | None =>
      match cs with
      | c :: r' =>
          if Ascii.eqb c "." then
            match digitpart r' with
            | Some (fv, fn, r'') => Some (fv, fn, r'')
            | None => None
            end
          else None
      | [] => None
      end
  end.

Definition sign_of (cs : list ascii) : bool * list ascii :=
  match cs with
  | c :: r => if Ascii.eqb c "-" then (true, r) else if Ascii.eqb c "+" then (false, r) else (false, cs)
  | [] => (false, [])
  end.

(** [exponent ::= ("e" | "E") [sign] digitpart]; [None] when absent or
    malformed (then the characters stay unparsed and [float] fails). *)
Definition exponent (cs : list ascii) : option (Z * list ascii) :=
  match cs with
  | c :: r =>
      if Ascii.eqb c "e" || Ascii.eqb c "E" then
        let (neg, r') := sign_of r in
        match digitpart r' with
        | Some (ev, _, r'') => Some ((if neg then - ev else ev)%Z, r'')
        | None => None
        end
      else None
  | [] => None
  end.

(** [m * 10^e] as a rational. *)
Definition dec_to_Q (m : Z) (e : Z) : Q :=
  if (0 <=? e)%Z then inject_Z (m * 10 ^ e)%Z else Qmake m (Z.to_pos (10 ^ (- e))%Z).

Definition lower_ascii (c : ascii) : ascii :=
  if (65 <=? code c) && (code c <=? 90) then ascii_of_nat (code c + 32) else c.

Definition lower_list (cs : list ascii) : list ascii := map lower_ascii cs.

Definition special_value (cs : list ascii) : option pyfloat :=
  let w := string_of_list_ascii (lower_list cs) in
  if String.eqb w "inf" || String.eqb w "infinity" then Some PInf
  else if String.eqb w "nan" then Some NaN
  else None.

(** [float(s)] for a string [s]. *)
Definition parse_float (s : string) : result pyfloat :=
  let (neg, body) := sign_of (strip (list_ascii_of_string s)) in
  let apply_sign x := if neg then fneg x else x in
  match special_value body with
  | Some x => Ok (apply_sign x)
  | None =>
      match number body with
      | Some (m, scale, r) =>
          match r with
          | [] => Ok (apply_sign (Fin (dec_to_Q m (- Z.of_nat scale)%Z)))
          | _ =>
              match exponent r with
              | Some (e, []) => Ok (apply_sign (Fin (dec_to_Q m (e - Z.of_nat scale)%Z)))
              | _ => Err ValueError
              end
          end
      | None => Err ValueError
      end
  end.

(** [float(v)] on a decoded JSON value. *)
Definition py_float (v : json) : result pyfloat :=
  match v with
  | JBool b => Ok (if b then Fin 1%Q else Fin 0%Q)
  | JInt z => Ok (of_Z z)
  | JFloat x => Ok x
  | JStr s => parse_float s
  | JNull | JList _ | JDict _ => Err TypeError
  end.

(** A string given by its bytes (the UTF-8 encoding of non-ASCII
    literals of the source). *)
Definition bytes (l : list nat) : string :=
  fold_right (fun n s => String (ascii_of_nat n) s) EmptyString l.

(** ["\n"] *)
Definition nl : string := bytes [10].

(** [str.lower()]. *)
Definition lower (s : string) : string := string_of_list_ascii (lower_list (list_ascii_of_string s)).

(** ** Iteration, comparison and dict update *)

(** The keys of a dict built by [json.loads], in the order of their
    first occurrence. *)
Fixpoint dict_keys (seen : list string) (kv : list (string * json)) : list string :=
  match kv with
  | [] => []
  | (k, _) :: rest =>
      if existsb (String.eqb k) seen then dict_keys seen rest
      else k :: dict_keys (k :: seen) rest
  end.

(** [for x in v]: a list yields its items, a dict its keys, a string
    its characters (here: its bytes); other values are not iterable. *)
Definition py_iter (v : json) : result (list json) :=
  match v with
  | JList l => Ok l
  | JDict kv => Ok (map JStr (dict_keys [] kv))
  | JStr s => Ok (map (fun c => JStr (String c EmptyString)) (list_ascii_of_string s))
  | _ => Err TypeError
  end.

(** [v == "lit"]: true only for a string with the same characters. *)
Definition is_str (v : json) (lit : string) : bool :=
  match v with
  | JStr s => String.eqb s lit
  | _ => false
  end.

(** [[f(x) for x in xs]], stopping at the first exception. *)
Fixpoint map_result {A B} (f : A -> result B) (xs : list A) : result (list B) :=
  match xs with
  | [] => Ok []
  | x :: rest => y <- f x ;; ys <- map_result f rest ;; Ok (y :: ys)
  end.

(** [d[k] = v] on a dict with string keys: in place when [k] is a key,
    appended otherwise. *)
Fixpoint dict_set {V} (k : string) (v : V) (d : list (string * V)) : list (string * V) :=
  match d with
  | [] => [(k, v)]
  | (k', v') :: rest =>
      if String.eqb k k' then (k, v) :: rest else (k', v') :: dict_set k v rest
  end.

End Py.
