(* ===== verification/Format.v ===== *)
(** * Text rendering of numbers

    The report text of [check_symbols] (src/bot.py lines 85-86) formats
    the funding rate with [{fr:.4f}] and each indicator with [{v:.2f}]:
    Python's fixed-point format, which rounds the exact value of the
    float half-to-even to the requested number of decimals, keeps a
    minus sign on a negative value that rounds to zero, and writes
    [nan], [inf] and [-inf] for the special values.  This file also
    holds the decimal rendering of integers ([str(int)] and the
    zero-padded fields [%02d] of timestamps), and proves that [float]
    (Python.v) reads a printed value back as the value rounded to the
    printed number of decimals. *)

From Stdlib Require Import List Lia Arith ZArith QArith Qabs Lqa String Ascii.
From S2P Require Import Prelude PyFloat Python.
Import ListNotations Py.

Module Fmt.

Local Open Scope Z_scope.

Definition digit_char (d : Z) : ascii := ascii_of_nat (48 + Z.to_nat d).

(** Decimal digits of [n >= 0], prepended to [acc]; [fuel] bounds the
    number of digits. *)
Fixpoint digits_fuel (fuel : nat) (n : Z) (acc : string) : string :=
  match fuel with
  | O => acc
  | S f =>
      let acc' := String (digit_char (n mod 10)) acc in
      if n <? 10 then acc' else digits_fuel f (n / 10) acc'
  end.

(** A number below [2^(k+1)] has at most [k+1] decimal digits, so
    [Z.log2 n + 1] steps are enough. *)
Definition show_nonneg (n : Z) : string := digits_fuel (S (Z.to_nat (Z.log2 n))) n EmptyString.

(** [str(z)] for a Python [int]. *)
Definition show_Z (z : Z) : string :=
  if z <? 0 then String "-" (show_nonneg (- z)) else show_nonneg z.

(** [%0kd] for [n >= 0]: left-padded with zeros to [k] characters. *)
Fixpoint zeros (k : nat) : string :=
  match k with O => EmptyString | S k' => String "0" (zeros k') end.

Definition pad_left (k : nat) (s : string) : string :=
  zeros (k - String.length s) ++ s.

Definition show_pad (k : nat) (n : Z) : string := pad_left k (show_nonneg n).

(** Round [a / b] to the nearest integer, ties to even ([b > 0]). *)
Definition round_half_even (a : Z) (b : positive) : Z :=
  let q := a / Zpos b in
  let r := a mod Zpos b in
  match Z.compare (2 * r) (Zpos b) with
  | Lt => q
  | Gt => q + 1
  | Eq => if Z.even q then q else q + 1
  end.

(** [format(x, ".kf")]. *)
Definition format_fixed (k : nat) (x : pyfloat) : string :=
  match x with
  | NaN => "nan"
  | PInf => "inf"
  | NInf => "-inf"
  | Fin q =>
      let neg := Qlt_le_dec q 0 in
      let a := Qabs q in
      let m := round_half_even (Qnum a * 10 ^ Z.of_nat k) (Qden a) in
      let ds := pad_left (S k) (show_nonneg m) in
      let n := String.length ds in
      (if neg then "-" else "") ++
      substring 0 (n - k) ds ++
      (match k with O => "" | _ => "." ++ substring (n - k) k ds end)
  end%string%nat.

(** ** Strings as lists of characters *)

Lemma append_empty_r (s : string) : (s ++ "")%string = s.
Proof. induction s as [|c s IH]; simpl; congruence. Qed.

Lemma string_app_assoc (a b c : string) : ((a ++ b) ++ c)%string = (a ++ b ++ c)%string.
Proof. induction a as [|ch a IH]; simpl; [reflexivity|]. now rewrite IH. Qed.

Lemma list_ascii_app (s1 s2 : string) :
  list_ascii_of_string (s1 ++ s2) = list_ascii_of_string s1 ++ list_ascii_of_string s2.
Proof. induction s1 as [|c s1 IH]; simpl; [reflexivity|]. now rewrite IH. Qed.

Lemma length_list_ascii (s : string) : List.length (list_ascii_of_string s) = String.length s.
Proof. induction s as [|c s IH]; simpl; auto. Qed.

Lemma list_ascii_substring a b (s : string) :
  list_ascii_of_string (substring a b s) = firstn b (skipn a (list_ascii_of_string s)).
Proof.
  revert a b. induction s as [|c s IH]; intros [|a] [|b]; simpl; auto.
  - now rewrite IH.
Qed.

Lemma list_ascii_zeros k : list_ascii_of_string (zeros k) = repeat "0"%char k.
Proof. induction k as [|k IH]; simpl; [reflexivity|]. now rewrite IH. Qed.

#[local] Hint Rewrite list_ascii_app list_ascii_zeros list_ascii_substring : bot_rw.

(** ** Decimal digits *)

Definition dstep (a : Z) (c : ascii) : Z := a * 10 + digit_val c.

(** The value of a string of decimal digits. *)
Definition dval (l : list ascii) : Z := fold_left dstep l 0.

Definition all_digits (l : list ascii) : Prop := Forall (fun c => is_digit c = true) l.

Lemma fold_dstep_acc l a :
  fold_left dstep l a = a * 10 ^ Z.of_nat (List.length l) + dval l.
Proof.
  unfold dval. revert a. induction l as [|c l IH]; intros a; cbn [fold_left List.length]; [simpl; lia|].
  rewrite (IH (dstep a c)), (IH (dstep 0 c)). unfold dstep.
  rewrite Nat2Z.inj_succ, Z.pow_succ_r by lia. ring.
Qed.

Lemma dval_app l1 l2 :
  dval (l1 ++ l2) = dval l1 * 10 ^ Z.of_nat (List.length l2) + dval l2.
Proof. unfold dval at 1. now rewrite fold_left_app, fold_dstep_acc. Qed.

Lemma dval_zeros k l : dval (repeat "0"%char k ++ l) = dval l.
Proof.
  rewrite dval_app. replace (dval (repeat "0"%char k)) with 0; [lia|].
  unfold dval. induction k as [|k IH]; [reflexivity|].
  simpl repeat. cbn [fold_left]. exact IH.
Qed.

Lemma digit_char_val d : 0 <= d < 10 -> digit_val (digit_char d) = d.
Proof.
  intros Hd. unfold digit_val, digit_char, code.
  rewrite nat_ascii_embedding by lia. lia.
Qed.

Lemma digit_char_digit d : 0 <= d < 10 -> is_digit (digit_char d) = true.
Proof.
  intros Hd. unfold is_digit, digit_char, code.
  rewrite nat_ascii_embedding by lia. apply andb_true_intro; split; apply Nat.leb_le; lia.
Qed.

(** A digit is none of the characters the float grammar gives a role. *)
Lemma digit_neq c d : is_digit c = true -> is_digit d = false -> Ascii.eqb c d = false.
Proof. intros Hc Hd. destruct (Ascii.eqb_spec c d); [subst; congruence|reflexivity]. Qed.

Lemma digits_fuel_S f n acc :
  digits_fuel (S f) n acc =
  if n <? 10 then String (digit_char (n mod 10)) acc
  else digits_fuel f (n / 10) (String (digit_char (n mod 10)) acc).
Proof. reflexivity. Qed.

Lemma digits_fuel_spec f : forall n acc, 0 <= n < 10 ^ Z.of_nat (S f) ->
  exists l, list_ascii_of_string (digits_fuel (S f) n acc) = l ++ list_ascii_of_string acc /\
            l <> [] /\ all_digits l /\ dval l = n.
Proof.
  induction f as [|f IH]; intros n acc Hn; rewrite digits_fuel_S.
  all: assert (Hm : 0 <= n mod 10 < 10) by (apply Z.mod_pos_bound; lia).
  all: destruct (Z.ltb_spec n 10) as [Hlt|Hge].
  1,3: exists [digit_char n]; rewrite Z.mod_small by lia; simpl;
       repeat split; [discriminate|constructor; [apply digit_char_digit; lia|constructor]|];
       unfold dval; simpl; unfold dstep; rewrite digit_char_val by lia; lia.
  - simpl in Hn. lia.
  - destruct (IH (n / 10) (String (digit_char (n mod 10)) acc)) as (l & Hl & Hne & Hd & Hv).
    { split; [apply Z.div_pos; lia|]. apply Z.div_lt_upper_bound; [lia|].
      rewrite Nat2Z.inj_succ, Z.pow_succ_r in Hn by lia. lia. }
    exists (l ++ [digit_char (n mod 10)]). rewrite Hl, <- app_assoc. simpl.
    repeat split.
    + now destruct l.
    + apply Forall_app. split; [exact Hd|]. constructor; [now apply digit_char_digit|constructor].
    + rewrite dval_app, Hv. unfold dval. simpl. unfold dstep.
      rewrite digit_char_val by lia. pose proof (Z.div_mod n 10). lia.
Qed.

Lemma show_nonneg_spec n : 0 <= n ->
  exists l, list_ascii_of_string (show_nonneg n) = l /\ l <> [] /\ all_digits l /\ dval l = n.
Proof.
  intros Hn. unfold show_nonneg.
  destruct (digits_fuel_spec (Z.to_nat (Z.log2 n)) n EmptyString) as (l & Hl & H).
  - split; [lia|]. rewrite Nat2Z.inj_succ, Z2Nat.id by apply Z.log2_nonneg.
    destruct (Z.eq_dec n 0) as [->|Hn0]; [reflexivity|].
    apply Z.lt_le_trans with (2 ^ Z.succ (Z.log2 n)).
    + apply Z.log2_spec. lia.
    + apply Z.pow_le_mono_l. lia.
  - exists l. simpl in Hl. rewrite app_nil_r in Hl. auto.
Qed.

(** ** Reading a rendered number back with [float] *)

(** The character after a digit group, if any, ends it. *)
Definition ends_group (rest : list ascii) : Prop :=
  match rest with
  | [] => True
  | c :: _ => is_digit c = false /\ Ascii.eqb c "_" = false
  end.

Lemma digitpart_more_digits l : forall acc n rest,
  all_digits l -> ends_group rest ->
  digitpart_more acc n (l ++ rest) = (fold_left dstep l acc, (n + List.length l)%nat, rest).
Proof.
  induction l as [|c l IH]; intros acc n rest Hd He; cbn [app List.length fold_left].
  - rewrite Nat.add_0_r. destruct rest as [|c r]; [reflexivity|].
    destruct He as [H1 H2]. cbn [digitpart_more]. now rewrite H1, H2.
  - inversion Hd as [|? ? Hc Hl]; subst. cbn [digitpart_more]. rewrite Hc, IH by assumption.
    f_equal. f_equal. lia.
Qed.

Lemma digitpart_digits l rest :
  l <> [] -> all_digits l -> ends_group rest ->
  digitpart (l ++ rest) = Some (dval l, List.length l, rest).
Proof.
  intros Hne Hd He. destruct l as [|c l]; [congruence|].
  inversion Hd as [|? ? Hc Hl]; subst. cbn [digitpart app]. rewrite Hc, digitpart_more_digits by assumption.
  reflexivity.
Qed.

Lemma strip_nospace cs : Forall (fun c => is_space c = false) cs -> strip cs = cs.
Proof.
  assert (Hl : forall l, Forall (fun c => is_space c = false) l -> strip_left l = l).
  { intros [|c l] H; [reflexivity|]. inversion H; subst. simpl. now rewrite H2. }
  intros H. unfold strip. rewrite (Hl cs H), (Hl (rev cs)) by now apply Forall_rev.
  apply rev_involutive.
Qed.

Lemma digit_nospace c : is_digit c = true -> is_space c = false.
Proof.
  unfold is_digit, is_space. intros Hd. apply andb_prop in Hd as [H1 H2].
  apply Nat.leb_le in H1, H2.
  destruct (code c =? 32)%nat eqn:E; [apply Nat.eqb_eq in E; lia|].
  rewrite orb_false_r. destruct (9 <=? code c)%nat; [|reflexivity].
  apply Nat.leb_gt. lia.
Qed.

Lemma lower_ascii_digit c : is_digit c = true -> lower_ascii c = c.
Proof.
  unfold is_digit, lower_ascii. intros Hd. apply andb_prop in Hd as [H1 H2].
  apply Nat.leb_le in H1, H2. destruct (65 <=? code c)%nat eqn:E; [|reflexivity].
  apply Nat.leb_le in E. simpl. destruct (code c <=? 90)%nat eqn:E'; [|reflexivity].
  apply Nat.leb_le in E'. lia.
Qed.

Lemma special_value_digit c r : is_digit c = true -> special_value (c :: r) = None.
Proof.
  intros Hd. unfold special_value, lower_list. simpl map. rewrite lower_ascii_digit by exact Hd.
  simpl. rewrite !(digit_neq c) by (exact Hd || reflexivity). reflexivity.
Qed.

Lemma all_digits_nospace l : all_digits l -> Forall (fun c => is_space c = false) l.
Proof. intros H. eapply Forall_impl; [|exact H]. apply digit_nospace. Qed.

Lemma sign_nospace (neg : bool) l :
  Forall (fun c => is_space c = false) l ->
  Forall (fun c => is_space c = false) ((if neg then ["-"%char] else []) ++ l).
Proof. intros H. destruct neg; simpl; [constructor|]; auto. Qed.

Lemma sign_of_digits (neg : bool) a l :
  is_digit a = true -> sign_of ((if neg then ["-"%char] else []) ++ a :: l) = (neg, a :: l).
Proof.
  intros Ha. destruct neg; [reflexivity|]. simpl.
  now rewrite !(digit_neq a) by (exact Ha || reflexivity).
Qed.

(** [float] of [digits] or [digits "." digits], after an optional
    minus sign. *)
Lemma parse_float_decimal s (neg : bool) A tail v k :
  list_ascii_of_string s = (if neg then ["-"%char] else []) ++ A ++ tail ->
  A <> [] -> all_digits A ->
  (tail = [] /\ k = 0%nat /\ v = dval A \/
   exists B, tail = "."%char :: B /\ B <> [] /\ all_digits B /\ k = List.length B /\
             v = dval A * 10 ^ Z.of_nat k + dval B) ->
  parse_float s =
    Ok (let x := Fin (dec_to_Q v (- Z.of_nat k)) in if neg then fneg x else x).
Proof.
  intros Hs HA HdA Htail. unfold parse_float. rewrite Hs.
  destruct A as [|a A']; [congruence|].
  assert (Ha : is_digit a = true) by now inversion HdA.
  destruct Htail as [(-> & -> & ->) | (B & -> & HB & HdB & -> & ->)].
  - rewrite app_nil_r, strip_nospace by (apply sign_nospace, all_digits_nospace, HdA).
    rewrite sign_of_digits by exact Ha. cbv beta iota zeta.
    rewrite special_value_digit by exact Ha. unfold number.
    rewrite <- (app_nil_r (a :: A')), digitpart_digits by (easy || exact HdA).
    now rewrite app_nil_r.
  - rewrite strip_nospace.
    2: { apply sign_nospace, Forall_app. split; [now apply all_digits_nospace|].
         constructor; [reflexivity|]. now apply all_digits_nospace. }
    rewrite <- app_comm_cons, sign_of_digits by exact Ha. cbv beta iota zeta.
    rewrite special_value_digit by exact Ha. unfold number.
    rewrite app_comm_cons, digitpart_digits by (easy || exact HdA). cbv beta iota zeta.
    rewrite <- (app_nil_r B), digitpart_digits by (easy || exact HdB).
    rewrite app_nil_r. reflexivity.
Qed.

(** ** The rendered string and its value *)

Lemma all_digits_zeros k : all_digits (repeat "0"%char k).
Proof. induction k; constructor; auto. Qed.

Lemma round_half_even_nonneg a b : 0 <= a -> 0 <= round_half_even a b.
Proof.
  intros Ha. unfold round_half_even.
  assert (0 <= a / Zpos b) by (apply Z.div_pos; lia).
  destruct (_ ?= _); [destruct Z.even|..]; lia.
Qed.

(** Rounding to the nearest integer is off by at most one half. *)
Lemma round_half_even_err a b : 2 * Z.abs (round_half_even a b * Zpos b - a) <= Zpos b.
Proof.
  unfold round_half_even.
  pose proof (Z.div_mod a (Zpos b) ltac:(lia)) as Hdm.
  pose proof (Z.mod_pos_bound a (Zpos b) ltac:(lia)) as Hr.
  set (q := a / Zpos b) in *. set (r := a mod Zpos b) in *.
  destruct (Z.compare_spec (2 * r) (Zpos b)); [destruct (Z.even q)|..]; nia.
Qed.

(** The nearest integer is unique when it is nearer than one half. *)
Lemma round_half_even_unique a b j :
  2 * Z.abs (a - j * Zpos b) < Zpos b -> round_half_even a b = j.
Proof.
  intros H. pose proof (round_half_even_err a b) as He.
  set (r := round_half_even a b) in *.
  assert (Z.abs ((r - j) * Zpos b) < Zpos b) by (rewrite Z.mul_sub_distr_r; lia).
  rewrite Z.abs_mul in H0. destruct (Z.eq_dec r j) as [|Hne]; [assumption|].
  assert (1 <= Z.abs (r - j)) by lia. nia.
Qed.

(** The digits [format_fixed k] prints for [x]: [|x| * 10^k] rounded,
    when it lies within one half of the integer [j]. *)
Lemma format_digits_near k x j :
  (2 * Qabs (Qabs x * inject_Z (10 ^ Z.of_nat k) - inject_Z j) < 1)%Q ->
  round_half_even (Qnum (Qabs x) * 10 ^ Z.of_nat k) (Qden (Qabs x)) = j.
Proof.
  intros H. apply round_half_even_unique. destruct x as [n d].
  unfold Qabs, Qmult, Qminus, Qplus, Qopp, inject_Z, Qlt in H. cbn [Qnum Qden] in *.
  unfold Qabs in H. cbn [Qnum Qden] in H. rewrite !Pos.mul_1_r in H.
  rewrite Z.mul_1_r, Z.mul_1_l in H.
  replace (Z.abs n * 10 ^ Z.of_nat k * 1 + - j * Zpos d)
    with (Z.abs n * 10 ^ Z.of_nat k - j * Zpos d) in H by ring.
  rewrite Pos.mul_1_l in H. exact H.
Qed.

(** [format(x, ".kf")] depends only on the sign of [x] and on the
    integer nearest [|x| * 10^k]: two values of the same sign within one
    half of the same integer print the same. *)
Lemma format_fixed_near k x y j :
  ((x < 0)%Q <-> (y < 0)%Q) ->
  (2 * Qabs (Qabs x * inject_Z (10 ^ Z.of_nat k) - inject_Z j) < 1)%Q ->
  (2 * Qabs (Qabs y * inject_Z (10 ^ Z.of_nat k) - inject_Z j) < 1)%Q ->
  format_fixed k (Fin x) = format_fixed k (Fin y).
Proof.
  intros Hs Hx Hy. unfold format_fixed.
  rewrite (format_digits_near k x j Hx), (format_digits_near k y j Hy).
  destruct (Qlt_le_dec x 0), (Qlt_le_dec y 0); try reflexivity; exfalso; apply Hs in q || apply Hs in q0;
    lra.
Qed.

Lemma format_fixed_shape k q :
  let m := round_half_even (Qnum (Qabs q) * 10 ^ Z.of_nat k) (Qden (Qabs q)) in
  exists A tail,
    list_ascii_of_string (format_fixed k (Fin q)) =
      (if Qlt_le_dec q 0 then ["-"%char] else []) ++ A ++ tail /\
    A <> [] /\ all_digits A /\
    (tail = [] /\ k = 0%nat /\ m = dval A \/
     exists B, tail = "."%char :: B /\ B <> [] /\ all_digits B /\ k = List.length B /\
               m = dval A * 10 ^ Z.of_nat k + dval B).
Proof.
  intros m. unfold format_fixed. fold m.
  assert (Hm : 0 <= m).
  { apply round_half_even_nonneg. destruct q as [n d]. simpl.
    pose proof (Z.pow_nonneg 10 (Z.of_nat k)). nia. }
  destruct (show_nonneg_spec m Hm) as (l & Hl & Hne & Hd & Hv).
  set (L := repeat "0"%char (S k - List.length l) ++ l).
  assert (HL : list_ascii_of_string (pad_left (S k) (show_nonneg m)) = L).
  { unfold pad_left, L. autorewrite with bot_rw. now rewrite <- length_list_ascii, Hl. }
  assert (HdL : all_digits L) by (apply Forall_app; split; [apply all_digits_zeros|exact Hd]).
  assert (HvL : dval L = m) by (unfold L; now rewrite dval_zeros).
  assert (Hlen : (S k <= List.length L)%nat) by (unfold L; rewrite length_app, repeat_length; lia).
  rewrite <- (firstn_skipn (List.length L - k) L) in HdL, HvL.
  apply Forall_app in HdL as [HdA HdB].
  exists (firstn (List.length L - k) L).
  exists (match k with O => [] | _ => "."%char :: skipn (List.length L - k) L end).
  autorewrite with bot_rw. rewrite HL, <- length_list_ascii, HL, skipn_O.
  assert (Htail : list_ascii_of_string
            (match k with
             | O => ""
             | S _ => "." ++ substring (List.length L - k) k (pad_left (S k) (show_nonneg m))
             end)%string =
          match k with O => [] | S _ => "."%char :: skipn (List.length L - k) L end).
  { destruct k; [reflexivity|]. simpl. rewrite list_ascii_substring, HL, firstn_all2; [reflexivity|].
    rewrite length_skipn. lia. }
  rewrite Htail. split; [destruct (Qlt_le_dec q 0); reflexivity|].
  assert (HA : firstn (List.length L - k) L <> []).
  { intros E. apply (f_equal (@List.length _)) in E. rewrite length_firstn in E. simpl in E. lia. }
  split; [exact HA|]. split; [exact HdA|].
  destruct k as [|k'].
  - left. rewrite skipn_all2 in HvL by lia. rewrite app_nil_r in HvL. auto.
  - right. eexists. repeat split; [|exact HdB| |].
    + intros E. apply (f_equal (@List.length _)) in E. rewrite length_skipn in E. simpl in E. lia.
    + rewrite length_skipn. lia.
    + rewrite <- HvL, dval_app, length_skipn. do 3 f_equal. lia.
Qed.

Lemma pow10_pos k : 0 < 10 ^ Z.of_nat k.
Proof. apply Z.pow_pos_nonneg; lia. Qed.

Lemma dec_to_Q_scale m k : (dec_to_Q m (- Z.of_nat k) == m # Z.to_pos (10 ^ Z.of_nat k))%Q.
Proof.
  unfold dec_to_Q. destruct k as [|k]; [unfold Qeq; simpl; lia|].
  rewrite (proj2 (Z.leb_gt _ _)) by lia. now rewrite Z.opp_involutive.
Qed.

(** The value [float] reads back is within half a unit of the last
    printed decimal of the value printed. *)
Lemma round_value_err k a :
  (inject_Z (2 * 10 ^ Z.of_nat k) *
   Qabs (dec_to_Q (round_half_even (Qnum a * 10 ^ Z.of_nat k) (Qden a)) (- Z.of_nat k) - a) <= 1)%Q.
Proof.
  rewrite dec_to_Q_scale.
  pose proof (pow10_pos k) as HP.
  set (m := round_half_even _ _).
  pose proof (round_half_even_err (Qnum a * 10 ^ Z.of_nat k) (Qden a)) as Herr. fold m in Herr.
  set (P := Z.to_pos (10 ^ Z.of_nat k)).
  assert (HPz : Zpos P = 10 ^ Z.of_nat k) by (apply Z2Pos.id; lia).
  destruct a as [N D]. cbn [Qnum Qden] in Herr |- *.
  assert (E : ((m # P) - (N # D) == (m * Zpos D - N * Zpos P) # (P * D))%Q).
  { unfold Qeq, Qminus, Qplus, Qopp. simpl. rewrite !Pos2Z.inj_mul. ring. }
  rewrite E. unfold Qle, Qmult, Qabs. cbn [Qnum Qden inject_Z].
  rewrite !Pos2Z.inj_mul, HPz. nia.
Qed.

Lemma dec_to_Q_integral m k :
  (dec_to_Q m (- Z.of_nat k) * inject_Z (10 ^ Z.of_nat k) == inject_Z m)%Q.
Proof.
  rewrite dec_to_Q_scale. pose proof (pow10_pos k).
  unfold Qeq, Qmult. cbn [Qnum Qden inject_Z]. rewrite !Pos2Z.inj_mul, Z2Pos.id by lia. lia.
Qed.

(** ** Reading a printed number back *)

(** The printed numbers are the values rounded.  Reading back with
    [float] a value printed with [{x:.kf}] (the funding rate with
    [.4f], the RSI values with [.2f]) gives a number within half a unit
    of the [k]-th decimal of [x] and a multiple of [10^-k]; [nan], [inf]
    and [-inf] read back as themselves. *)
Theorem format_fixed_roundtrip k x :
  match x with
  | Fin q => exists r z, parse_float (format_fixed k x) = Ok (Fin r) /\
      (inject_Z (2 * 10 ^ Z.of_nat k) * Qabs (r - q) <= 1)%Q /\
      (r * inject_Z (10 ^ Z.of_nat k) == inject_Z z)%Q
  | _ => parse_float (format_fixed k x) = Ok x
  end.
Proof.
  destruct x as [q| | |]; [|reflexivity..].
  destruct (format_fixed_shape k q) as (A & tail & Hs & HA & HdA & Ht).
  pose proof (round_value_err k (Qabs q)) as Herr.
  set (m := round_half_even _ _) in Ht, Herr.
  set (d := dec_to_Q m (- Z.of_nat k)) in Herr.
  pose proof (dec_to_Q_integral m k) as Hint. fold d in Hint.
  destruct (Qlt_le_dec q 0) as [Hneg|Hpos].
  - exists (- d)%Q, (- m). split; [now rewrite (parse_float_decimal _ true A tail m k Hs HA HdA Ht)|].
    split.
    + assert (E : (- d - q == - (d - Qabs q))%Q) by (rewrite Qabs_neg by lra; ring).
      now rewrite E, Qabs_opp.
    + rewrite inject_Z_opp, <- Hint. ring.
  - exists d, m. split; [now rewrite (parse_float_decimal _ false A tail m k Hs HA HdA Ht)|].
    split; [|exact Hint].
    now rewrite (Qabs_pos q Hpos) in Herr.
Qed.

End Fmt.
