(* ===== verification/Binary64.v ===== *)
(** * IEEE-754 binary64, the floats of CPython, numpy and pandas

    The rest of the development computes with [pyfloat], exact rationals
    with the special values.  This file models the arithmetic the program
    really performs: IEEE-754 double precision with round-to-nearest,
    ties-to-even, gradual underflow, overflow to infinity and signed
    zeros.  A value is a [binary64] in the shape Flocq gives it
    ([B754_zero], [B754_infinity], [B754_nan], [B754_finite s m e] of
    value (-1)^s * m * 2^e); [B2Q] is its exact value.  [round64] rounds
    an exact rational to the nearest double (ties to an even
    significand); [Bplus], [Bminus], [Bmult], [Bdiv] are the correctly
    rounded operations with the IEEE rules on signed zeros and special
    values, [Bcompare] the comparison Python's [<], [==] perform.

    The lemmas show that [round64] respects every representable bound
    (a value at least (at most) a double rounds to at least (at most)
    that double): it is what keeps quantities computed from
    non-negative data non-negative, and quotients of a bounded formula
    in their range.  [Bplus_neg_zero] is IEEE's rule for the sign of a
    zero sum: [-0] only when both operands are [-0] (doubles are whole
    numbers of [2^emin], so a non-zero exact sum never rounds to zero).
    [round64_accurate] and [round64_forward] give the error of one
    rounding in LAProof's mixed and forward forms, and [round64_fin]
    rules out overflow below [2^1000]. *)

From Stdlib Require Import List ZArith QArith Qpower Qabs Lia Lqa Bool Morphisms.
From S2P Require Import Prelude Format.
Import ListNotations Fmt.

Module B64.

Local Open Scope Z_scope.

(** ** Values *)

Inductive binary64 : Type :=
| B754_zero (s : bool)
| B754_infinity (s : bool)
| B754_nan
| B754_finite (s : bool) (m : positive) (e : Z).

(** The exponent of the least subnormal, and the greatest exponent of
    a finite value [m * 2^e] with [m < 2^53]. *)
Definition emin : Z := -1074.
Definition emax : Z := 971.

(** [2^e] as a rational. *)
Definition pow2 (e : Z) : Q :=
  if 0 <=? e then inject_Z (2 ^ e) else 1 # Z.to_pos (2 ^ (- e)).

Definition B2Q (x : binary64) : Q :=
  match x with
  | B754_finite s m e =>
      let v := (inject_Z (Zpos m) * pow2 e)%Q in if s then (- v)%Q else v
  | _ => 0%Q
  end.

Definition Bsign (x : binary64) : bool :=
  match x with
  | B754_zero s | B754_infinity s | B754_finite s _ _ => s
  | B754_nan => false
  end.

Definition Bis_nan (x : binary64) : bool :=
  match x with B754_nan => true | _ => false end.

(** ** Rounding *)

(** [floor (log2 (n / d))] for [n, d > 0]. *)
Definition flog2 (n : Z) (d : positive) : Z :=
  let k := Z.log2 n - Z.log2 (Zpos d) in
  if 0 <=? k then (if Zpos d * 2 ^ k <=? n then k else k - 1)
  else (if Zpos d <=? n * 2 ^ (- k) then k else k - 1).

(** The double nearest to [n / d > 0], with sign [s]: the exponent is
    that of the binade of [n / d], at least [emin]; the significand is
    [n / d / 2^e] rounded half to even; a significand of [2^53] moves to
    the next binade, and an exponent above [emax] overflows. *)
Definition round_pos (s : bool) (n : Z) (d : positive) : binary64 :=
  let e := Z.max (flog2 n d - 52) emin in
  let m := if 0 <=? e then round_half_even n (d * Z.to_pos (2 ^ e))
           else round_half_even (n * 2 ^ (- e)) d in
  match m with
  | Zpos p =>
      let '(p', e') := if Zpos p =? 2 ^ 53 then (Z.to_pos (2 ^ 52), e + 1) else (p, e) in
      if emax <? e' then B754_infinity s else B754_finite s p' e'
  | _ => B754_zero s
  end.

(** Round-to-nearest-even of an exact value; an exact zero is [+0]. *)
Definition round64 (x : Q) : binary64 :=
  match Qnum x with
  | Z0 => B754_zero false
  | Zpos n => round_pos false (Zpos n) (Qden x)
  | Zneg n => round_pos true (Zpos n) (Qden x)
  end.

(** ** Operations *)

Definition Bopp (x : binary64) : binary64 :=
  match x with
  | B754_zero s => B754_zero (negb s)
  | B754_infinity s => B754_infinity (negb s)
  | B754_nan => B754_nan
  | B754_finite s m e => B754_finite (negb s) m e
  end.

(** [x + y]: an exact zero sum of non-zero operands is [+0]; the sum of
    two zeros is [-0] only when both are. *)
Definition Bplus (x y : binary64) : binary64 :=
  match x, y with
  | B754_nan, _ | _, B754_nan => B754_nan
  | B754_infinity sx, B754_infinity sy => if Bool.eqb sx sy then x else B754_nan
  | B754_infinity _, _ => x
  | _, B754_infinity _ => y
  | B754_zero sx, B754_zero sy => B754_zero (sx && sy)
  | B754_zero _, _ => y
  | _, B754_zero _ => x
  | _, _ => let q := (B2Q x + B2Q y)%Q in
            if Qeq_bool q 0 then B754_zero false else round64 q
  end.

Definition Bminus (x y : binary64) : binary64 := Bplus x (Bopp y).

Definition Bmult (x y : binary64) : binary64 :=
  let s := xorb (Bsign x) (Bsign y) in
  match x, y with
  | B754_nan, _ | _, B754_nan => B754_nan
  | B754_infinity _, B754_zero _ | B754_zero _, B754_infinity _ => B754_nan
  | B754_infinity _, _ | _, B754_infinity _ => B754_infinity s
  | B754_zero _, _ | _, B754_zero _ => B754_zero s
  | _, _ => round64 (B2Q x * B2Q y)
  end.

Definition Bdiv (x y : binary64) : binary64 :=
  let s := xorb (Bsign x) (Bsign y) in
  match x, y with
  | B754_nan, _ | _, B754_nan => B754_nan
  | B754_infinity _, B754_infinity _ => B754_nan
  | B754_infinity _, _ => B754_infinity s
  | _, B754_infinity _ => B754_zero s
  | B754_zero _, B754_zero _ => B754_nan
  | _, B754_zero _ => B754_infinity s
  | B754_zero _, _ => B754_zero s
  | _, _ => round64 (B2Q x / B2Q y)
  end.

(** The order of IEEE: [None] when a side is NaN, [-0 == +0]. *)
Definition inf_rank (x : binary64) : Z :=
  match x with B754_infinity true => -1 | B754_infinity false => 1 | _ => 0 end.

Definition Bcompare (x y : binary64) : option comparison :=
  match x, y with
  | B754_nan, _ | _, B754_nan => None
  | _, _ =>
      match Z.compare (inf_rank x) (inf_rank y) with
      | Eq => Some (Qcompare (B2Q x) (B2Q y))
      | c => Some c
      end
  end.

Definition Blt (x y : binary64) : bool :=
  match Bcompare x y with Some Lt => true | _ => false end.
Definition Ble (x y : binary64) : bool :=
  match Bcompare x y with Some Lt | Some Eq => true | _ => false end.
Definition Beq (x y : binary64) : bool :=
  match Bcompare x y with Some Eq => true | _ => false end.

(** The double of an integer (exact below [2^53]). *)
Definition BofZ (n : Z) : binary64 := round64 (inject_Z n).

(** A double as IEEE-754 stores it (Flocq's [bounded]): a significand
    below [2^53], an exponent in [[emin, emax]], and a significand of 53
    bits unless the value is subnormal. *)
Definition canonical (x : binary64) : bool :=
  match x with
  | B754_finite _ m e =>
      (Zpos m <? 2 ^ 53) && (emin <=? e) && (e <=? emax) &&
      ((2 ^ 52 <=? Zpos m) || (e =? emin))
  | _ => true
  end.

(** The values on which [B2Q] is the value: zeros and finite doubles. *)
Definition Bfin (x : binary64) : bool :=
  match x with B754_zero _ | B754_finite _ _ _ => true | _ => false end.

(** The unit roundoff [2^-53] and the absolute error of a subnormal
    result [2^-1075] (LAProof's [default_rel] and [default_abs]). *)
Definition default_rel : Q := 1 # 9007199254740992.
Definition default_abs : Q := pow2 (emin - 1).

(** ** Powers of two *)

Lemma pow2_Qpower e : (pow2 e == (2 # 1) ^ e)%Q.
Proof.
  unfold pow2. destruct (0 <=? e) eqn:He.
  - apply Z.leb_le in He. change (2 # 1)%Q with (inject_Z 2). now rewrite Zpower_Qpower.
  - apply Z.leb_gt in He. replace e with (- (- e)) at 2 by lia.
    rewrite Qpower_opp. change (2 # 1)%Q with (inject_Z 2). rewrite <- Zpower_Qpower by lia.
    assert (Hp : 0 < 2 ^ (- e)) by (apply Z.pow_pos_nonneg; lia).
    unfold Qinv, inject_Z. simpl. destruct (2 ^ (- e)) eqn:H2; try lia. reflexivity.
Qed.

Lemma pow2_pos e : (0 < pow2 e)%Q.
Proof. rewrite pow2_Qpower. apply Qpower_0_lt. reflexivity. Qed.

Lemma pow2_add a b : (pow2 (a + b) == pow2 a * pow2 b)%Q.
Proof. rewrite !pow2_Qpower. apply Qpower_plus. discriminate. Qed.

Lemma pow2_nonneg e : 0 <= e -> (pow2 e == inject_Z (2 ^ e))%Q.
Proof. intros He. unfold pow2. now replace (0 <=? e) with true by (symmetry; apply Z.leb_le; lia). Qed.

(** [k * 2^e] against [n / d], as an inequality of integers. *)
Lemma scaled_le k e n d :
  (inject_Z k * pow2 e <= n # d)%Q <->
  (if 0 <=? e then k * (Zpos d * 2 ^ e) <= n else k * Zpos d <= n * 2 ^ (- e)).
Proof.
  unfold pow2. destruct (0 <=? e) eqn:He.
  - unfold Qle; cbn [Qnum Qden Qmult inject_Z Pos.mul]. split; lia.
  - apply Z.leb_gt in He. assert (Hp : 0 < 2 ^ (- e)) by (apply Z.pow_pos_nonneg; lia).
    unfold Qle; cbn [Qnum Qden Qmult inject_Z Pos.mul].
    rewrite Z2Pos.id by exact Hp. split; lia.
Qed.

Lemma scaled_ge k e n d :
  (n # d <= inject_Z k * pow2 e)%Q <->
  (if 0 <=? e then n <= k * (Zpos d * 2 ^ e) else n * 2 ^ (- e) <= k * Zpos d).
Proof.
  unfold pow2. destruct (0 <=? e) eqn:He.
  - unfold Qle; cbn [Qnum Qden Qmult inject_Z Pos.mul]. split; lia.
  - apply Z.leb_gt in He. assert (Hp : 0 < 2 ^ (- e)) by (apply Z.pow_pos_nonneg; lia).
    unfold Qle; cbn [Qnum Qden Qmult inject_Z Pos.mul].
    rewrite Z2Pos.id by exact Hp. split; lia.
Qed.

(** ** Rounding to the nearest integer *)

Lemma round_half_even_lower a b k : k * Zpos b <= a -> k <= round_half_even a b.
Proof.
  intros Hk. unfold round_half_even.
  pose proof (Z.div_mod a (Zpos b) ltac:(lia)) as Hdm.
  pose proof (Z.mod_pos_bound a (Zpos b) ltac:(lia)) as Hr.
  set (q := a / Zpos b) in *. set (r := a mod Zpos b) in *.
  assert (k <= q) by nia.
  destruct (_ ?= _); [destruct (Z.even q)|..]; lia.
Qed.

Lemma round_half_even_upper a b k : a <= k * Zpos b -> round_half_even a b <= k.
Proof.
  intros Hk. unfold round_half_even.
  pose proof (Z.div_mod a (Zpos b) ltac:(lia)) as Hdm.
  pose proof (Z.mod_pos_bound a (Zpos b) ltac:(lia)) as Hr.
  set (q := a / Zpos b) in *. set (r := a mod Zpos b) in *.
  assert (q <= k) by nia.
  destruct (Z.compare_spec (2 * r) (Zpos b)); [destruct (Z.even q)|..]; try lia;
    assert (q + 1 <= k) by nia; lia.
Qed.

(** ** The binade of a positive rational *)

Lemma flog2_lower n d : 0 < n -> (pow2 (flog2 n d) <= n # d)%Q.
Proof.
  intros Hn. pose proof (Z.log2_spec n Hn) as [Hn1 Hn2].
  pose proof (Z.log2_spec (Zpos d) ltac:(lia)) as [Hd1 Hd2].
  pose proof (Z.log2_nonneg n). pose proof (Z.log2_nonneg (Zpos d)).
  rewrite <- (Qmult_1_l (pow2 _)). change 1%Q with (inject_Z 1). apply scaled_le.
  unfold flog2. set (ln := Z.log2 n) in *. set (ld := Z.log2 (Zpos d)) in *.
  rewrite <- Z.add_1_r in Hn2, Hd2.
  destruct (0 <=? ln - ld) eqn:Hk.
  - apply Z.leb_le in Hk.
    destruct (Zpos d * 2 ^ (ln - ld) <=? n) eqn:Hc; [apply Z.leb_le in Hc|].
    { replace (0 <=? ln - ld) with true by (symmetry; apply Z.leb_le; lia). lia. }
    destruct (Z.eq_dec ln ld) as [Heq|Hne].
    + replace (ln - ld - 1) with (-1) by lia. simpl.
      replace (ld + 1) with (ln + 1) in Hd2 by lia. rewrite Z.pow_add_r in Hd2 by lia. lia.
    + replace (0 <=? ln - ld - 1) with true by (symmetry; apply Z.leb_le; lia).
      replace (ln) with ((ln - ld - 1) + (ld + 1)) in Hn1 by lia.
      rewrite Z.pow_add_r in Hn1 by lia.
      pose proof (Z.pow_pos_nonneg 2 (ln - ld - 1) ltac:(lia)). nia.
  - apply Z.leb_gt in Hk.
    destruct (Zpos d <=? n * 2 ^ (- (ln - ld))) eqn:Hc.
    + apply Z.leb_le in Hc. replace (0 <=? ln - ld) with false by (symmetry; apply Z.leb_gt; lia). lia.
    + replace (0 <=? ln - ld - 1) with false by (symmetry; apply Z.leb_gt; lia).
      replace (ld + 1) with (ln + (- (ln - ld - 1))) in Hd2 by lia.
      rewrite Z.pow_add_r in Hd2 by lia.
      pose proof (Z.pow_pos_nonneg 2 (- (ln - ld - 1)) ltac:(lia)). nia.
Qed.

Lemma pow2_shift a e F : F <= e ->
  (inject_Z a * pow2 e == inject_Z (a * 2 ^ (e - F)) * pow2 F)%Q.
Proof.
  intros H. rewrite inject_Z_mult, <- (pow2_nonneg (e - F)) by lia.
  rewrite <- Qmult_assoc, <- pow2_add. now replace (e - F + F) with e by lia.
Qed.

Lemma scale_le_iff a b e : (inject_Z a * pow2 e <= inject_Z b * pow2 e)%Q <-> a <= b.
Proof.
  pose proof (pow2_pos e). rewrite Zle_Qle.
  split; intros H'; [apply Qmult_le_r in H'|apply Qmult_le_compat_r]; auto; lra.
Qed.

(** ** The order on doubles *)

Lemma Ble_fin x y : Bfin x = true -> Bfin y = true ->
  Ble x y = true <-> (B2Q x <= B2Q y)%Q.
Proof.
  intros Hx Hy. rewrite Qle_alt.
  destruct x, y; try discriminate; unfold Ble, Bcompare; cbn [inf_rank Z.compare];
    destruct (Qcompare _ _); intuition congruence.
Qed.

Lemma Ble_pinf x : Bis_nan x = false -> Ble x (B754_infinity false) = true.
Proof. destruct x as [s|[]| |s m e]; try destruct s; easy. Qed.

Lemma B2Q_opp x : (B2Q (Bopp x) == - B2Q x)%Q.
Proof. destruct x as [| | |[] m e]; simpl; ring. Qed.

Lemma Ble_opp x y : Ble (Bopp x) (Bopp y) = Ble y x.
Proof.
  destruct (Bfin x) eqn:Hx; destruct (Bfin y) eqn:Hy.
  - apply eq_true_iff_eq. rewrite !Ble_fin, !B2Q_opp by (destruct x, y; easy). lra.
  - destruct x, y as [|[]| |]; try discriminate; try destruct s; reflexivity.
  - destruct x as [|[]| |], y; try discriminate; try destruct s; try destruct s0; reflexivity.
  - destruct x as [|[]| |], y as [|[]| |]; easy.
Qed.

(** ** Rounding respects representable bounds *)

Section RoundPos.

Variables (n : Z) (d : positive).
Hypothesis Hn : 0 < n.

Let e := Z.max (flog2 n d - 52) emin.
Let m := if 0 <=? e then round_half_even n (d * Z.to_pos (2 ^ e))
         else round_half_even (n * 2 ^ (- e)) d.

Lemma round_pos_m_lower k : (inject_Z k * pow2 e <= n # d)%Q -> k <= m.
Proof.
  intros Hk. apply scaled_le in Hk. unfold m. destruct (0 <=? e) eqn:He.
  - apply Z.leb_le in He. apply round_half_even_lower.
    rewrite Pos2Z.inj_mul, Z2Pos.id by (apply Z.pow_pos_nonneg; lia). lia.
  - now apply round_half_even_lower.
Qed.

Lemma round_pos_m_upper k : (n # d <= inject_Z k * pow2 e)%Q -> m <= k.
Proof.
  intros Hk. apply scaled_ge in Hk. unfold m. destruct (0 <=? e) eqn:He.
  - apply Z.leb_le in He. apply round_half_even_upper.
    rewrite Pos2Z.inj_mul, Z2Pos.id by (apply Z.pow_pos_nonneg; lia). lia.
  - now apply round_half_even_upper.
Qed.

(** Above [emin], [n / d] is at least [2^52] units of [2^e]. *)
Lemma round_pos_binade_Q : emin < e -> (inject_Z (2 ^ 52) * pow2 e <= n # d)%Q.
Proof.
  intros He. rewrite <- (pow2_nonneg 52), <- pow2_add by lia.
  replace (52 + e) with (flog2 n d) by (unfold e in *; lia). now apply flog2_lower.
Qed.

Lemma round_pos_binade : emin < e -> 2 ^ 52 <= m.
Proof. intros He. now apply round_pos_m_lower, round_pos_binade_Q. Qed.

(** A significand below [2^53] at an exponent below [e] is below
    [2^52 * 2^e], hence below [n / d]. *)
Lemma round_pos_below M F : Zpos M < 2 ^ 53 -> F < e ->
  (inject_Z (Zpos M) * pow2 F < inject_Z (2 ^ 52) * pow2 e)%Q.
Proof.
  intros HM HF. rewrite (pow2_shift _ e F) by lia.
  assert (H2 : 2 <= 2 ^ (e - F)).
  { replace (e - F) with (1 + (e - F - 1)) by lia. rewrite Z.pow_add_r by lia.
    pose proof (Z.pow_pos_nonneg 2 (e - F - 1) ltac:(lia)). lia. }
  apply Qnot_le_lt. rewrite scale_le_iff. nia.
Qed.

(** The shape of the result: a zero, an overflow, or [m * 2^e]. *)
Lemma round_pos_shape s :
  (m <= 0 /\ round_pos s n d = B754_zero s) \/
  (0 < m /\ (round_pos s n d = B754_infinity s /\ emax < (if m =? 2 ^ 53 then e + 1 else e) \/
             exists p e', round_pos s n d = B754_finite s p e' /\
               e' = (if m =? 2 ^ 53 then e + 1 else e) /\
               (inject_Z (Zpos p) * pow2 e' == inject_Z m * pow2 e)%Q)).
Proof.
  unfold round_pos. fold e. fold m. destruct m as [|p|p] eqn:Hm; [left; split; auto; lia| |left; split; auto; lia].
  right. split; [lia|]. destruct (Zpos p =? 2 ^ 53) eqn:H53.
  - apply Z.eqb_eq in H53. destruct (emax <? e + 1) eqn:Ho; [left; split; auto; lia|right].
    exists (Z.to_pos (2 ^ 52)), (e + 1). split; [reflexivity|split; [reflexivity|]].
    rewrite H53, (pow2_shift _ (e + 1) e) by lia. replace (e + 1 - e) with 1 by lia. reflexivity.
  - destruct (emax <? e) eqn:Ho; [left; split; auto; lia|right].
    exists p, e. repeat split; reflexivity.
Qed.

Lemma round_pos_ge M F : Zpos M < 2 ^ 53 -> emin <= F ->
  (inject_Z (Zpos M) * pow2 F <= n # d)%Q ->
  Ble (B754_finite false M F) (round_pos false n d) = true.
Proof.
  intros HM HF Hle.
  assert (Hfm : (inject_Z (Zpos M) * pow2 F <= inject_Z m * pow2 e)%Q /\ 0 < m).
  { destruct (Z_le_gt_dec e F) as [HeF|HeF].
    - pose proof (round_pos_m_lower (Zpos M * 2 ^ (F - e))) as Hk.
      rewrite <- pow2_shift in Hk by lia. specialize (Hk Hle).
      pose proof (Z.pow_pos_nonneg 2 (F - e) ltac:(lia)).
      split; [|nia]. rewrite (pow2_shift _ F e) by lia. now apply scale_le_iff.
    - pose proof (round_pos_below M F HM (Z.gt_lt _ _ HeF)).
      assert (Hb : emin < e) by lia. pose proof (round_pos_binade Hb).
      split; [|lia]. apply Qlt_le_weak, Qlt_le_trans with (1 := H).
      now apply scale_le_iff. }
  destruct Hfm as [Hfm Hm0].
  destruct (round_pos_shape false) as [[Hm Hr]|[_ [[Hr _]|(p & e' & Hr & _ & Hv)]]];
    [lia|now rewrite Hr|].
  rewrite Hr. apply Ble_fin; try reflexivity. cbn [B2Q]. now rewrite Hv.
Qed.

Lemma round_pos_le M F : Zpos M < 2 ^ 53 -> emin <= F <= emax ->
  (n # d <= inject_Z (Zpos M) * pow2 F)%Q ->
  Ble (round_pos false n d) (B754_finite false M F) = true.
Proof.
  intros HM HF Hle.
  destruct (Z_le_gt_dec e F) as [HeF|HeF];
    [|pose proof (round_pos_below M F HM (Z.gt_lt _ _ HeF));
      assert (Hb : emin < e) by lia; pose proof (round_pos_binade_Q Hb); lra].
  pose proof (round_pos_m_upper (Zpos M * 2 ^ (F - e))) as Hk.
  rewrite <- pow2_shift in Hk by lia. specialize (Hk Hle).
  assert (He' : (if m =? 2 ^ 53 then e + 1 else e) <= F).
  { destruct (Z.eq_dec F e) as [->|HFe]; [rewrite Z.sub_diag in Hk|];
      destruct (m =? 2 ^ 53) eqn:H53; try apply Z.eqb_eq in H53; lia. }
  destruct (round_pos_shape false) as [[Hm Hr]|[_ [[Hr Ho]|(p & e' & Hr & _ & Hv)]]];
    [|lia|].
  - rewrite Hr. apply Ble_fin; try reflexivity. cbn [B2Q].
    pose proof (pow2_pos F). assert (0 <= inject_Z (Zpos M))%Q by (unfold Qle; simpl; lia).
    apply Qmult_le_0_compat; lra.
  - rewrite Hr. apply Ble_fin; try reflexivity. cbn [B2Q]. rewrite Hv.
    rewrite (pow2_shift _ F e) by lia. now apply scale_le_iff.
Qed.

(** Round to nearest: [n / d] is within half a unit [2^e] of [m * 2^e]. *)
Lemma round_pos_err_lo : (inject_Z (2 * m - 1) * pow2 (e - 1) <= n # d)%Q.
Proof.
  apply scaled_le. unfold m. destruct (0 <=? e) eqn:He.
  - apply Z.leb_le in He. set (P := (d * Z.to_pos (2 ^ e))%positive).
    pose proof (round_half_even_err n P) as Hr. unfold P in *.
    rewrite Pos2Z.inj_mul, Z2Pos.id in Hr by (apply Z.pow_pos_nonneg; lia).
    set (r := round_half_even _ _) in *.
    destruct (Z.eq_dec e 0) as [He0|He0].
    { rewrite He0 in Hr |- *. change (2 ^ 0) with 1 in Hr.
      change (0 <=? 0 - 1) with false. change (2 ^ (- (0 - 1))) with 2. cbv iota. nia. }
    replace (0 <=? e - 1) with true by (symmetry; apply Z.leb_le; lia).
    replace e with (1 + (e - 1)) in Hr by lia. rewrite Z.pow_add_r in Hr by lia.
    pose proof (Z.pow_pos_nonneg 2 (e - 1) ltac:(lia)). nia.
  - apply Z.leb_gt in He. replace (0 <=? e - 1) with false by (symmetry; apply Z.leb_gt; lia).
    pose proof (round_half_even_err (n * 2 ^ (- e)) d) as Hr.
    replace (- (e - 1)) with (1 + - e) by lia. rewrite Z.pow_add_r by lia.
    pose proof (Z.pow_pos_nonneg 2 (- e) ltac:(lia)). nia.
Qed.

Lemma round_pos_err_hi : (n # d <= inject_Z (2 * m + 1) * pow2 (e - 1))%Q.
Proof.
  apply scaled_ge. unfold m. destruct (0 <=? e) eqn:He.
  - apply Z.leb_le in He. set (P := (d * Z.to_pos (2 ^ e))%positive).
    pose proof (round_half_even_err n P) as Hr. unfold P in *.
    rewrite Pos2Z.inj_mul, Z2Pos.id in Hr by (apply Z.pow_pos_nonneg; lia).
    set (r := round_half_even _ _) in *.
    destruct (Z.eq_dec e 0) as [He0|He0].
    { rewrite He0 in Hr |- *. change (2 ^ 0) with 1 in Hr.
      change (0 <=? 0 - 1) with false. change (2 ^ (- (0 - 1))) with 2. cbv iota. nia. }
    replace (0 <=? e - 1) with true by (symmetry; apply Z.leb_le; lia).
    replace e with (1 + (e - 1)) in Hr by lia. rewrite Z.pow_add_r in Hr by lia.
    pose proof (Z.pow_pos_nonneg 2 (e - 1) ltac:(lia)). nia.
  - apply Z.leb_gt in He. replace (0 <=? e - 1) with false by (symmetry; apply Z.leb_gt; lia).
    pose proof (round_half_even_err (n * 2 ^ (- e)) d) as Hr.
    replace (- (e - 1)) with (1 + - e) by lia. rewrite Z.pow_add_r by lia.
    pose proof (Z.pow_pos_nonneg 2 (- e) ltac:(lia)). nia.
Qed.

Lemma round_pos_m_nonneg : 0 <= m.
Proof.
  unfold m. destruct (0 <=? e); apply Fmt.round_half_even_nonneg; [lia|].
  pose proof (Z.pow_pos_nonneg 2 (- e)). nia.
Qed.

(** The error of [round_pos] in LAProof's mixed form. *)
Lemma round_pos_accurate : Bfin (round_pos false n d) = true ->
  exists dl et, (B2Q (round_pos false n d) == (n # d) * (1 + dl) + et)%Q /\
    (Qabs dl <= default_rel)%Q /\ (Qabs et <= default_abs)%Q /\ (dl * et == 0)%Q.
Proof.
  intros Hf. pose proof round_pos_err_lo as Hlo. pose proof round_pos_err_hi as Hhi.
  pose proof round_pos_m_nonneg as Hm0.
  assert (Hh : (pow2 (e - 1) == pow2 e * (1 # 2))%Q).
  { replace (e - 1) with (e + -1) by lia. rewrite pow2_add. reflexivity. }
  rewrite Hh in Hlo, Hhi. rewrite <- Z.add_opp_r in Hlo.
  rewrite !inject_Z_plus, !inject_Z_mult in Hlo, Hhi. rewrite inject_Z_opp in Hlo.
  assert (Hq : (0 < n # d)%Q) by (unfold Qlt; simpl; lia).
  pose proof (pow2_pos e) as Hp.
  set (q := n # d) in *. set (P := pow2 e) in *. set (M := inject_Z m) in *.
  assert (Hemin : e = emin \/ emin < e) by (unfold e; lia).
  unfold default_abs. fold e.
  assert (Hlo' : (M * P - P * (1 # 2) <= q)%Q).
  { setoid_replace (M * P - P * (1 # 2))%Q with
      ((inject_Z 2 * M + - inject_Z 1) * (P * (1 # 2)))%Q by ring. exact Hlo. }
  assert (Hhi' : (q <= M * P + P * (1 # 2))%Q).
  { setoid_replace (M * P + P * (1 # 2))%Q with
      ((inject_Z 2 * M + inject_Z 1) * (P * (1 # 2)))%Q by ring. exact Hhi. }
  clear Hlo Hhi.
  destruct (round_pos_shape false) as [[Hm Hr]|[Hm1 [[Hr _]|(p & e' & Hr & _ & Hv)]]].
  - assert (m = 0) by lia.
    destruct Hemin as [He|He]; [|pose proof (round_pos_binade He); lia].
    exists 0%Q, (- q)%Q. rewrite Hr. cbn [B2Q].
    assert (HM : (M == 0)%Q) by (unfold M; rewrite H; reflexivity).
    rewrite <- He, Hh. fold P. refine (conj _ (conj _ (conj _ _))); [ring| |rewrite Qabs_opp, Qabs_pos, HM in *; lra|ring].
    unfold default_rel. now compute.
  - now rewrite Hr in Hf.
  - rewrite Hr. assert (HB : (B2Q (B754_finite false p e') == M * P)%Q) by exact Hv.
    destruct Hemin as [He|He].
    + exists 0%Q, (M * P - q)%Q. rewrite HB, <- He, Hh. fold P. refine (conj _ (conj _ (conj _ _))); [ring| | |ring].
      * unfold default_rel. now compute.
      * apply Qabs_Qle_condition. split; lra.
    + pose proof (round_pos_binade_Q He) as Hb. fold q P in Hb.
      change (inject_Z (2 ^ 52)) with (4503599627370496 # 1) in Hb. set (V := (M * P)%Q) in *.
      exists ((V - q) / q)%Q, 0%Q. rewrite HB. fold V. refine (conj _ (conj _ (conj _ _))).
      * field. lra.
      * apply Qabs_Qle_condition. unfold default_rel. split.
        -- apply Qle_shift_div_l; [exact Hq|]. lra.
        -- apply Qle_shift_div_r; [exact Hq|]. lra.
      * rewrite Qabs_pos by lra. pose proof (pow2_pos (emin - 1)). lra.
      * ring.
Qed.

End RoundPos.

Lemma mag_pos M F : (0 < inject_Z (Zpos M) * pow2 F)%Q.
Proof.
  pose proof (pow2_pos F). apply Qmult_lt_0_compat; auto. unfold Qlt; simpl; lia.
Qed.

Lemma canonical_bounds s M F :
  canonical (B754_finite s M F) = true -> Zpos M < 2 ^ 53 /\ emin <= F <= emax.
Proof. simpl. rewrite !andb_true_iff, Z.ltb_lt, !Z.leb_le. tauto. Qed.

Lemma Bopp_involutive x : Bopp (Bopp x) = x.
Proof. destruct x; simpl; now rewrite ?negb_involutive. Qed.

Lemma round_pos_opp n d : round_pos true n d = Bopp (round_pos false n d).
Proof.
  unfold round_pos. destruct (if 0 <=? _ then _ else _) as [|p|p]; try reflexivity.
  destruct (Zpos p =? 2 ^ 53); destruct (emax <? _); reflexivity.
Qed.

(** [round_pos false n d] is at least every value that is not positive. *)
Lemma round_pos_nonneg_ge n d f : 0 < n -> Bfin f = true -> (B2Q f <= 0)%Q ->
  Ble f (round_pos false n d) = true.
Proof.
  intros Hn Hf Hle.
  destruct (round_pos_shape n d false) as [[_ Hr]|[_ [[Hr _]|(p & e' & Hr & _)]]];
    rewrite Hr.
  - apply Ble_fin; auto.
  - apply Ble_pinf. now destruct f.
  - apply Ble_fin; auto. cbn [B2Q]. pose proof (mag_pos p e'). lra.
Qed.

Lemma Qneg_frac p d : (- (Zneg p # d) == Zpos p # d)%Q.
Proof. reflexivity. Qed.

(** Rounding respects every lower bound that is a double. *)
Lemma round64_ge f q : canonical f = true -> Bfin f = true -> (B2Q f <= q)%Q ->
  Ble f (round64 q) = true.
Proof.
  intros Hc Hf Hle. destruct q as [[|p|p] qd]; unfold round64; cbn [Qnum Qden].
  - apply Ble_fin; auto. cbn [B2Q]. apply Qle_trans with (1 := Hle). unfold Qle; simpl; lia.
  - destruct f as [sf|sf| |[] M F]; try discriminate.
    + apply round_pos_nonneg_ge; [lia|reflexivity|apply Qle_refl].
    + apply round_pos_nonneg_ge; [lia|reflexivity|]. cbn [B2Q]. pose proof (mag_pos M F). lra.
    + apply canonical_bounds in Hc. cbn [B2Q] in Hle. apply round_pos_ge; [lia|tauto|tauto|exact Hle].
  - rewrite round_pos_opp, <- (Bopp_involutive f), Ble_opp.
    destruct f as [sf|sf| |[] M F]; try discriminate.
    + exfalso. cbn [B2Q] in Hle. unfold Qle in Hle; simpl in Hle. lia.
    + apply canonical_bounds in Hc. apply round_pos_le; [lia|tauto|tauto|].
      cbn [Bopp B2Q negb] in *. pose proof (Qneg_frac p qd). lra.
    + exfalso. cbn [B2Q] in Hle. pose proof (mag_pos M F).
      assert (Zneg p # qd < 0)%Q by (unfold Qlt; simpl; lia). lra.
Qed.

(** Rounding respects every upper bound that is a double. *)
Lemma round64_le f q : canonical f = true -> Bfin f = true -> (q <= B2Q f)%Q ->
  Ble (round64 q) f = true.
Proof.
  intros Hc Hf Hle. destruct q as [[|p|p] qd]; unfold round64; cbn [Qnum Qden].
  - apply Ble_fin; auto. cbn [B2Q]. apply Qle_trans with (2 := Hle). unfold Qle; simpl; lia.
  - destruct f as [sf|sf| |[] M F]; try discriminate.
    + exfalso. cbn [B2Q] in Hle. unfold Qle in Hle; simpl in Hle. lia.
    + exfalso. cbn [B2Q] in Hle. pose proof (mag_pos M F).
      assert (0 < Zpos p # qd)%Q by (unfold Qlt; simpl; lia). lra.
    + apply canonical_bounds in Hc. cbn [B2Q] in Hle. apply round_pos_le; [lia|tauto|tauto|exact Hle].
  - rewrite round_pos_opp, <- (Bopp_involutive f), Ble_opp.
    destruct f as [sf|sf| |[] M F]; try discriminate.
    + apply round_pos_nonneg_ge; [lia|reflexivity|apply Qle_refl].
    + apply canonical_bounds in Hc. apply round_pos_ge; [lia|tauto|tauto|].
      cbn [Bopp B2Q negb] in *. pose proof (Qneg_frac p qd). lra.
    + apply round_pos_nonneg_ge; [lia|reflexivity|]. cbn [Bopp B2Q negb].
      pose proof (mag_pos M F). lra.
Qed.

(** ** Comparisons used by the bound proofs *)

Lemma Blt_fin x y : Bfin x = true -> Bfin y = true ->
  Blt x y = true <-> (B2Q x < B2Q y)%Q.
Proof.
  intros Hx Hy. rewrite Qlt_alt.
  destruct x, y; try discriminate; unfold Blt, Bcompare; cbn [inf_rank Z.compare];
    destruct (Qcompare _ _); intuition congruence.
Qed.

Lemma Ble_not_Blt x y : Ble x y = true -> Blt y x = false.
Proof.
  intros H. destruct (Bfin x) eqn:Hx; destruct (Bfin y) eqn:Hy.
  - apply Ble_fin in H; auto. destruct (Blt y x) eqn:Hl; auto.
    apply Blt_fin in Hl; auto. lra.
  - destruct x, y as [|[]| |]; try discriminate; try destruct s; easy.
  - destruct x as [|[]| |], y; try discriminate; try destruct s; try destruct s0; easy.
  - destruct x as [|[]| |], y as [|[]| |]; easy.
Qed.

(** The sum and quotient of two finite doubles. *)
Lemma Bplus_finite sx mx ex sy my ey :
  Bplus (B754_finite sx mx ex) (B754_finite sy my ey) =
  let q := (B2Q (B754_finite sx mx ex) + B2Q (B754_finite sy my ey))%Q in
  if Qeq_bool q 0 then B754_zero false else round64 q.
Proof. reflexivity. Qed.

Lemma Bdiv_finite sx mx ex sy my ey :
  Bdiv (B754_finite sx mx ex) (B754_finite sy my ey) =
  round64 (B2Q (B754_finite sx mx ex) / B2Q (B754_finite sy my ey)).
Proof. reflexivity. Qed.

(** A correctly rounded result stays between two bounds that are doubles
    with zero between them. *)
Lemma round_between lo hi q :
  canonical lo = true -> Bfin lo = true -> canonical hi = true -> Bfin hi = true ->
  (B2Q lo <= 0)%Q -> (0 <= B2Q hi)%Q -> (B2Q lo <= q <= B2Q hi)%Q ->
  let r := if Qeq_bool q 0 then B754_zero false else round64 q in
  Ble lo r = true /\ Ble r hi = true.
Proof.
  intros Hcl Hfl Hch Hfh Hl Hh [Hq1 Hq2] r. unfold r. destruct (Qeq_bool q 0).
  - split; apply Ble_fin; auto.
  - split; [now apply round64_ge | now apply round64_le].
Qed.

(** ** An exact sum is never [-0] unless both operands are *)

(** A double is a whole number of least subnormals [2^emin]. *)
Lemma B2Q_grid x : canonical x = true -> exists k, (B2Q x == inject_Z k * pow2 emin)%Q.
Proof.
  intros Hc. destruct x as [| | |s m e]; try (exists 0%Z; reflexivity).
  apply canonical_bounds in Hc. exists ((if s then -1 else 1) * (Zpos m * 2 ^ (e - emin))).
  rewrite inject_Z_mult, <- Qmult_assoc, <- pow2_shift by lia.
  destruct s; cbn [B2Q]; [|ring]. change (inject_Z (-1)) with (-1)%Q. ring.
Qed.

Lemma canonical_opp x : canonical (Bopp x) = canonical x.
Proof. now destruct x. Qed.

(** A non-zero whole number of [2^emin] does not round to a zero. *)
Lemma round64_grid_nonzero q k s : (q == inject_Z k * pow2 emin)%Q -> k <> 0 ->
  round64 q <> B754_zero s.
Proof.
  intros Hq Hk Hr. pose proof (pow2_pos emin) as P1. pose proof (mag_pos 1 emin) as P2.
  destruct (Z_lt_le_dec 0 k) as [Hp|Hn].
  - assert (H : Ble (B754_finite false 1 emin) (round64 q) = true).
    { apply round64_ge; try reflexivity. cbn [B2Q]. rewrite Hq.
      apply Qmult_le_compat_r; [|lra]. rewrite <- Zle_Qle. lia. }
    rewrite Hr in H. apply Ble_fin in H; try reflexivity. cbn [B2Q] in *. lra.
  - assert (H : Ble (round64 q) (B754_finite true 1 emin) = true).
    { apply round64_le; try reflexivity. cbn [B2Q]. rewrite Hq.
      assert (inject_Z k <= -1)%Q by (change (-1)%Q with (inject_Z (-1)); rewrite <- Zle_Qle; lia).
      change (inject_Z 1) with 1%Q. nra. }
    rewrite Hr in H. apply Ble_fin in H; try reflexivity. cbn [B2Q] in *. lra.
Qed.

(** IEEE-754's rule for the sign of a zero sum under round-to-nearest:
    [x + y] is [-0] only when [x] and [y] are both [-0]. *)
Lemma Bplus_neg_zero x y : canonical x = true -> canonical y = true ->
  Bplus x y = B754_zero true -> x = B754_zero true /\ y = B754_zero true.
Proof.
  intros Hx Hy. destruct x as [sx|sx| |sx mx ex], y as [sy|sy| |sy my ey];
    cbn [Bplus]; try destruct (Bool.eqb _ _); try discriminate.
  - intros H. injection H as H1. apply andb_true_iff in H1 as [-> ->]. auto.
  - intros H. exfalso.
    destruct (B2Q_grid _ Hx) as [kx Hkx], (B2Q_grid _ Hy) as [ky Hky].
    destruct (Qeq_bool _ 0) eqn:Hq; [discriminate|].
    apply (round64_grid_nonzero (B2Q (B754_finite sx mx ex) + B2Q (B754_finite sy my ey)) (kx + ky) true); [|intros Hk0|exact H].
    + rewrite Hkx, Hky, inject_Z_plus. ring.
    + apply Qeq_bool_neq in Hq. apply Hq. rewrite Hkx, Hky, <- Qmult_plus_distr_l,
        <- inject_Z_plus, Hk0. reflexivity.
Qed.

(** ** Rounding depends on the value only *)

Lemma pow2_le_mono a b : a <= b -> (pow2 a <= pow2 b)%Q.
Proof.
  intros H. replace b with (a + (b - a)) by lia. rewrite pow2_add, (pow2_nonneg (b - a)) by lia.
  pose proof (pow2_pos a). assert (1 <= 2 ^ (b - a)) by (pose proof (Z.pow_pos_nonneg 2 (b - a)); lia).
  assert (1 <= inject_Z (2 ^ (b - a)))%Q by (change 1%Q with (inject_Z 1); now rewrite <- Zle_Qle).
  nra.
Qed.

Lemma flog2_upper n d : 0 < n -> (n # d < pow2 (flog2 n d + 1))%Q.
Proof.
  intros Hn. pose proof (Z.log2_spec n Hn) as [Hn1 Hn2].
  pose proof (Z.log2_spec (Zpos d) ltac:(lia)) as [Hd1 Hd2].
  pose proof (Z.log2_nonneg n). pose proof (Z.log2_nonneg (Zpos d)).
  apply Qnot_le_lt. rewrite <- (Qmult_1_l (pow2 _)). change 1%Q with (inject_Z 1).
  rewrite scaled_le. unfold flog2. set (ln := Z.log2 n) in *. set (ld := Z.log2 (Zpos d)) in *.
  rewrite <- Z.add_1_r in Hn2, Hd2.
  destruct (0 <=? ln - ld) eqn:Hk.
  - apply Z.leb_le in Hk.
    destruct (Zpos d * 2 ^ (ln - ld) <=? n) eqn:Hc.
    + replace (0 <=? ln - ld + 1) with true by (symmetry; apply Z.leb_le; lia).
      replace (ln + 1) with (ld + (ln - ld + 1)) in Hn2 by lia.
      rewrite Z.pow_add_r in Hn2 by lia.
      pose proof (Z.pow_pos_nonneg 2 (ln - ld + 1) ltac:(lia)). nia.
    + apply Z.leb_gt in Hc. replace (ln - ld - 1 + 1) with (ln - ld) by lia.
      replace (0 <=? ln - ld) with true by (symmetry; apply Z.leb_le; lia). lia.
  - apply Z.leb_gt in Hk.
    destruct (Zpos d <=? n * 2 ^ (- (ln - ld))) eqn:Hc.
    + destruct (Z.eq_dec (ln - ld + 1) 0) as [Hz|Hz].
      * rewrite Hz. simpl. replace (ln + 1) with ld in Hn2 by lia. lia.
      * replace (0 <=? ln - ld + 1) with false by (symmetry; apply Z.leb_gt; lia).
        replace ld with ((ln + 1) + (- (ln - ld + 1))) in Hd1 by lia.
        rewrite Z.pow_add_r in Hd1 by lia.
        pose proof (Z.pow_pos_nonneg 2 (- (ln - ld + 1)) ltac:(lia)). nia.
    + apply Z.leb_gt in Hc. replace (ln - ld - 1 + 1) with (ln - ld) by lia.
      replace (0 <=? ln - ld) with false by (symmetry; apply Z.leb_gt; lia). lia.
Qed.

(** The binade is determined by the value. *)
Lemma flog2_unique n d n' d' : 0 < n -> 0 < n' -> (n # d == n' # d')%Q ->
  flog2 n d = flog2 n' d'.
Proof.
  intros Hn Hn' Heq.
  pose proof (flog2_lower n d Hn). pose proof (flog2_upper n d Hn).
  pose proof (flog2_lower n' d' Hn'). pose proof (flog2_upper n' d' Hn').
  destruct (Z.lt_trichotomy (flog2 n d) (flog2 n' d')) as [Hl|[He|Hl]]; auto; exfalso;
    [pose proof (pow2_le_mono (flog2 n d + 1) (flog2 n' d') ltac:(lia))
    |pose proof (pow2_le_mono (flog2 n' d' + 1) (flog2 n d) ltac:(lia))]; lra.
Qed.

Lemma round_half_even_scale a b k :
  round_half_even (Zpos k * a) (k * b) = round_half_even a b.
Proof.
  unfold round_half_even. rewrite Pos2Z.inj_mul, Z.div_mul_cancel_l, Z.mul_mod_distr_l by lia.
  replace (2 * (Zpos k * (a mod Zpos b))) with (Zpos k * (2 * (a mod Zpos b))) by ring.
  assert (Hc : (Zpos k * (2 * (a mod Zpos b)) ?= Zpos k * Zpos b) = (2 * (a mod Zpos b) ?= Zpos b)).
  { destruct (Z.compare_spec (Zpos k * (2 * (a mod Zpos b))) (Zpos k * Zpos b)),
      (Z.compare_spec (2 * (a mod Zpos b)) (Zpos b)); try reflexivity; nia. }
  now rewrite Hc.
Qed.

(** Rounding to the nearest integer depends on the ratio only. *)
Lemma round_half_even_ratio a b a' b' : a * Zpos b' = a' * Zpos b ->
  round_half_even a b = round_half_even a' b'.
Proof.
  intros H. rewrite <- (round_half_even_scale a b b'), <- (round_half_even_scale a' b' b).
  rewrite Pos.mul_comm. f_equal. lia.
Qed.

Lemma round_pos_ratio s n d n' d' : 0 < n -> 0 < n' -> n * Zpos d' = n' * Zpos d ->
  round_pos s n d = round_pos s n' d'.
Proof.
  intros Hn Hn' H. unfold round_pos.
  rewrite (flog2_unique n d n' d') by (auto; unfold Qeq; simpl; lia).
  set (e := Z.max _ _).
  assert (Hm : (if 0 <=? e then round_half_even n (d * Z.to_pos (2 ^ e))
                else round_half_even (n * 2 ^ (- e)) d) =
               (if 0 <=? e then round_half_even n' (d' * Z.to_pos (2 ^ e))
                else round_half_even (n' * 2 ^ (- e)) d')).
  { destruct (0 <=? e) eqn:He; apply round_half_even_ratio.
    - apply Z.leb_le in He. rewrite !Pos2Z.inj_mul, Z2Pos.id by (apply Z.pow_pos_nonneg; lia). nia.
    - nia. }
  now rewrite Hm.
Qed.

(** [float] of a rational does not depend on its representation. *)
Lemma round64_Qeq q q' : (q == q')%Q -> round64 q = round64 q'.
Proof.
  destruct q as [[|n|n] d], q' as [[|n'|n'] d']; unfold Qeq, round64; simpl; intros H;
    try reflexivity; try lia; apply round_pos_ratio; lia.
Qed.

#[export] Instance round64_Proper : Proper (Qeq ==> eq) round64.
Proof. intros q q' H. now apply round64_Qeq. Qed.

Lemma Bfin_opp x : Bfin (Bopp x) = Bfin x.
Proof. now destruct x. Qed.

(** ** The order on doubles as an order on (infinity rank, value) *)

Lemma Ble_spec x y : Ble x y = true <->
  Bis_nan x = false /\ Bis_nan y = false /\
  (inf_rank x < inf_rank y \/ inf_rank x = inf_rank y /\ (B2Q x <= B2Q y)%Q).
Proof.
  unfold Ble, Bcompare. rewrite Qle_alt.
  destruct x as [sx|sx| |sx mx ex], y as [sy|sy| |sy my ey]; try destruct sx; try destruct sy;
    cbn [inf_rank Bis_nan];
    try destruct (Qcompare (B2Q (B754_finite _ _ _)) _);
    try destruct (Qcompare _ (B2Q (B754_finite _ _ _)));
    vm_compute in *; intuition (try congruence; try lia).
Qed.

Lemma Blt_spec x y : Blt x y = true <->
  Bis_nan x = false /\ Bis_nan y = false /\
  (inf_rank x < inf_rank y \/ inf_rank x = inf_rank y /\ (B2Q x < B2Q y)%Q).
Proof.
  unfold Blt, Bcompare. rewrite Qlt_alt.
  destruct x as [sx|sx| |sx mx ex], y as [sy|sy| |sy my ey]; try destruct sx; try destruct sy;
    cbn [inf_rank Bis_nan];
    try destruct (Qcompare (B2Q (B754_finite _ _ _)) _);
    try destruct (Qcompare _ (B2Q (B754_finite _ _ _)));
    vm_compute in *; intuition (try congruence; try lia).
Qed.

Lemma Ble_trans x y z : Ble x y = true -> Ble y z = true -> Ble x z = true.
Proof.
  rewrite !Ble_spec. intros (Hx & Hy & H1) (_ & Hz & H2). split; [exact Hx|split; [exact Hz|]].
  destruct H1 as [H1|[H1 H1']], H2 as [H2|[H2 H2']]; [left; lia..|right; split; [lia|lra]].
Qed.

Lemma Blt_Ble_trans x y z : Blt x y = true -> Ble y z = true -> Blt x z = true.
Proof.
  rewrite Blt_spec, Ble_spec, Blt_spec. intros (Hx & Hy & H1) (_ & Hz & H2).
  split; [exact Hx|split; [exact Hz|]].
  destruct H1 as [H1|[H1 H1']], H2 as [H2|[H2 H2']]; [left; lia..|right; split; [lia|lra]].
Qed.

Lemma Ble_Blt_trans x y z : Ble x y = true -> Blt y z = true -> Blt x z = true.
Proof.
  rewrite Ble_spec, !Blt_spec. intros (Hx & Hy & H1) (_ & Hz & H2).
  split; [exact Hx|split; [exact Hz|]].
  destruct H1 as [H1|[H1 H1']], H2 as [H2|[H2 H2']]; [left; lia..|right; split; [lia|lra]].
Qed.

(** [float(-x)] is [-float(x)] away from zero. *)
Lemma round64_opp q : Qnum q <> 0 -> round64 (- q) = Bopp (round64 q).
Proof.
  destruct q as [[|n|n] d]; intros H; [now elim H| |]; unfold round64; simpl.
  - apply round_pos_opp.
  - now rewrite round_pos_opp, Bopp_involutive.
Qed.

(** Every correctly rounded result is accurate.  When [round64 q]
    is a zero or a finite double (no overflow), its value is
    [q * (1 + dl) + et] with a relative error [|dl| <= 2^-53] (the unit
    roundoff) and an absolute error [|et| <= 2^-1075] (half the least
    subnormal), at most one of them non-zero: [float(s)] of the prices
    and funding rates, and every operation of the indicator, errs by at
    most this. *)
Theorem round64_accurate q : Bfin (round64 q) = true ->
  exists dl et, (B2Q (round64 q) == q * (1 + dl) + et)%Q /\
    (Qabs dl <= default_rel)%Q /\ (Qabs et <= default_abs)%Q /\ (dl * et == 0)%Q.
Proof.
  intros Hf. destruct q as [[|n|n] qd]; unfold round64 in *; cbn [Qnum Qden] in *.
  - exists 0%Q, 0%Q. refine (conj _ (conj _ (conj _ _))); [unfold Qeq; simpl; lia|now compute| |ring].
    unfold default_abs. rewrite Qabs_pos by lra. pose proof (pow2_pos (emin - 1)). lra.
  - apply round_pos_accurate; [lia|exact Hf].
  - rewrite round_pos_opp, Bfin_opp in *.
    destruct (round_pos_accurate (Zpos n) qd ltac:(lia) Hf) as (dl & et & Heq & Hd & He & Hz).
    exists dl, (- et)%Q. rewrite B2Q_opp, Heq, Qabs_opp.
    pose proof (Qneg_frac n qd). refine (conj _ (conj Hd (conj He _))).
    + rewrite <- H. ring.
    + setoid_replace (dl * - et)%Q with (- (dl * et))%Q by ring. rewrite Hz. reflexivity.
Qed.

(** The forward error of one rounding, in LAProof's form
    [|round(q) - q| <= default_rel * |q| + default_abs]. *)
Lemma round64_forward q : Bfin (round64 q) = true ->
  (Qabs (B2Q (round64 q) - q) <= default_rel * Qabs q + default_abs)%Q.
Proof.
  intros Hf. destruct (round64_accurate q Hf) as (dl & et & Heq & Hd & He & _).
  rewrite Heq. setoid_replace (q * (1 + dl) + et - q)%Q with (q * dl + et)%Q by ring.
  eapply Qle_trans; [apply Qabs_triangle|]. rewrite Qabs_Qmult.
  apply Qplus_le_compat; [|exact He]. rewrite Qmult_comm.
  apply Qmult_le_compat_r; [exact Hd | apply Qabs_nonneg].
Qed.

(** No overflow below [2^1000]: the rounded value lies between the
    doubles [-2^1000] and [2^1000]. *)
Lemma round64_fin q : (Qabs q <= pow2 1000)%Q -> Bfin (round64 q) = true.
Proof.
  intros Hq. set (M := B754_finite false 4503599627370496 948).
  assert (HM : (B2Q M == pow2 1000)%Q) by (vm_compute; reflexivity).
  assert (H1 : Ble (round64 q) M = true).
  { apply round64_le; [reflexivity|reflexivity|]. rewrite HM.
    eapply Qle_trans; [apply Qle_Qabs | exact Hq]. }
  assert (H2 : Ble (Bopp M) (round64 q) = true).
  { apply round64_ge; [reflexivity|reflexivity|]. rewrite B2Q_opp, HM.
    pose proof (Qle_Qabs (- q)). rewrite Qabs_opp in H. lra. }
  revert H1 H2. destruct (round64 q) as [s|[]| |s m e]; try reflexivity; vm_compute; discriminate.
Qed.

End B64.
