(* ===== verification/RsiF64.v ===== *)
(** * The indicator on doubles (src/bot.py lines 36-43, 68-69)

    [calculate_rsi64] as the program runs it: every Series holds float64
    values and every operation rounds ([Binary64.v]).  The pandas steps
    are those of Series.v and Rolling.v with their float64 semantics:
    [diff64] subtracts neighbours; [clip(lower=0)] keeps a value where
    [value >= 0] (and NaN), else writes the integer 0, i.e. [+0.0];
    [clip(upper=0)] likewise with [<=]; [-] flips the sign, so every
    rise or flat step of the price becomes a loss of [-0.0];
    [rolling(window=14).mean()] is pandas' online [roll_mean64] with its
    Kahan-compensated running sum, its count of negative values (by
    [signbit64], which [-0.0] has) and its run of equal values.

    The theorems: the gain average is never negative (its window has no
    negative value, and the [neg_ct == 0] clamp removes the drift of the
    running sum); when the loss average is not negative either, the RSI
    is NaN or in [0, 100]; and a series of positive prices on which the
    loss average drifts to [-9.5e-17] and the RSI is
    [100.00000000000006]: the bound of the specification fails on
    doubles; and twenty positive prices on which the loss average drifts
    below a tiny positive gain average and the RSI is [-300.0], where
    the exact RSI of the same prices is [42.86].  As in pandas,
    [rolling_mean64] first turns [inf] and [-inf] into NaN
    ([_prep_values]). *)

From Stdlib Require Import List Lia Arith ZArith QArith Lqa Bool.
From S2P Require Import Prelude PyFloat Rsi Rolling Binary64.
Import ListNotations Rolling B64.

Module RsiF64.

Local Open Scope nat_scope.

Definition series64 := list binary64.

Definition pos_zero : binary64 := B754_zero false.

(** [s.diff()] *)
Definition diff64 (s : series64) : series64 :=
  tabulate (length s) (fun i =>
    match i with
    | 0 => B754_nan
    | S j => Bminus (nth i s B754_nan) (nth j s B754_nan)
    end).

(** [s.clip(lower=lo)]: [s.where(s.isna() | (s >= lo), lo)]. *)
Definition clip_lower64 (lo x : binary64) : binary64 :=
  if Bis_nan x || Ble lo x then x else lo.

(** [s.clip(upper=hi)]: [s.where(s.isna() | (s <= hi), hi)]. *)
Definition clip_upper64 (hi x : binary64) : binary64 :=
  if Bis_nan x || Ble x hi then x else hi.

(** ** pandas' [roll_mean64] on doubles (as in Rolling.v) *)

Record acc64 : Type := mkAcc {
  nobs : nat;
  sum_x : binary64;
  neg_ct : nat;
  compensation_add : binary64;
  compensation_remove : binary64;
  num_consecutive_same_value : nat;
  prev_value : binary64
}.

Definition signbit64 (x : binary64) : bool := Bsign x.

Definition add_mean64 (val : binary64) (a : acc64) : acc64 :=
  if Beq val val then
    let y := Bminus val (compensation_add a) in
    let t := Bplus (sum_x a) y in
    {| nobs := S (nobs a);
       sum_x := t;
       neg_ct := if signbit64 val then S (neg_ct a) else neg_ct a;
       compensation_add := Bminus (Bminus t (sum_x a)) y;
       compensation_remove := compensation_remove a;
       num_consecutive_same_value :=
         if Beq val (prev_value a) then S (num_consecutive_same_value a) else 1;
       prev_value := val |}
  else a.

Definition remove_mean64 (val : binary64) (a : acc64) : acc64 :=
  if Beq val val then
    let y := Bminus (Bopp val) (compensation_remove a) in
    let t := Bplus (sum_x a) y in
    {| nobs := nobs a - 1;
       sum_x := t;
       neg_ct := if signbit64 val then neg_ct a - 1 else neg_ct a;
       compensation_add := compensation_add a;
       compensation_remove := Bminus (Bminus t (sum_x a)) y;
       num_consecutive_same_value := num_consecutive_same_value a;
       prev_value := prev_value a |}
  else a.

Definition calc_mean64 (minp : nat) (a : acc64) : binary64 :=
  if (minp <=? nobs a) && (0 <? nobs a) then
    let result := Bdiv (sum_x a) (BofZ (Z.of_nat (nobs a))) in
    if nobs a <=? num_consecutive_same_value a then prev_value a
    else if (neg_ct a =? 0) && Blt result pos_zero then pos_zero
    else if (neg_ct a =? nobs a) && Blt pos_zero result then pos_zero
    else result
  else B754_nan.

Definition add_range64 (values : series64) (lo hi : nat) (a : acc64) : acc64 :=
  fold_left (fun a j => add_mean64 (nth j values B754_nan) a) (seq lo (hi - lo)) a.

Definition remove_range64 (values : series64) (lo hi : nat) (a : acc64) : acc64 :=
  fold_left (fun a j => remove_mean64 (nth j values B754_nan) a) (seq lo (hi - lo)) a.

Definition setup64 (values : series64) (s e : nat) : acc64 :=
  add_range64 values s e
    (mkAcc 0 pos_zero 0 pos_zero pos_zero 0 (nth s values B754_nan)).

Definition reset64 (a : acc64) : acc64 :=
  {| nobs := 0; sum_x := pos_zero; neg_ct := 0;
     compensation_add := compensation_add a; compensation_remove := pos_zero;
     num_consecutive_same_value := num_consecutive_same_value a;
     prev_value := prev_value a |}.

Definition roll_state64 (values : series64) (start end_ : list nat) (mono : bool)
    (i : nat) (a : acc64) : acc64 :=
  let s := nth i start 0 in
  let e := nth i end_ 0 in
  if (i =? 0) || negb mono || (nth (i - 1) end_ 0 <=? s) then setup64 values s e
  else add_range64 values (nth (i - 1) end_ 0) e
         (remove_range64 values (nth (i - 1) start 0) s a).

Fixpoint roll_loop64 (values : series64) (start end_ : list nat) (minp : nat)
    (mono : bool) (i k : nat) (a : acc64) : series64 :=
  match k with
  | O => []
  | S k' =>
      let a1 := roll_state64 values start end_ mono i a in
      calc_mean64 minp a1 ::
        roll_loop64 values start end_ minp mono (S i) k' (if mono then a1 else reset64 a1)
  end.

Definition roll_mean64 (values : series64) (start end_ : list nat) (minp : nat) : series64 :=
  roll_loop64 values start end_ minp (is_monotonic_increasing_bounds start end_) 0
    (length start) (mkAcc 0 pos_zero 0 pos_zero pos_zero 0 pos_zero).

(** pandas' [_prep_values]: [inf] and [-inf] become NaN. *)
Definition prep64 (x : binary64) : binary64 :=
  match x with
  | B754_infinity _ => B754_nan
  | _ => x
  end.

(** [s.rolling(window=w).mean()] *)
Definition rolling_mean64 (w : nat) (s : series64) : series64 :=
  let values := map prep64 s in
  let '(start, end_) := fixed_window_bounds (length values) w in
  roll_mean64 values start end_ w.

(** ** [calculate_rsi64] on doubles *)

Definition c100 : binary64 := BofZ 100.
Definition c1 : binary64 := BofZ 1.

(** [100 - (100 / (1 + rs))] at one position. *)
Definition rsi_point64 (rs : binary64) : binary64 := Bminus c100 (Bdiv c100 (Bplus c1 rs)).

Definition gain_series (s : series64) : series64 := map (clip_lower64 pos_zero) (diff64 s).
Definition loss_series (s : series64) : series64 := map Bopp (map (clip_upper64 pos_zero) (diff64 s)).

Definition calculate_rsi64 (period : nat) (s : series64) : series64 :=
  let avg_gain := rolling_mean64 period (gain_series s) in
  let avg_loss := rolling_mean64 period (loss_series s) in
  map rsi_point64 (zip_with Bdiv avg_gain avg_loss).

(** ** A series of closes on which the loss average drifts below zero *)

(** Eighteen closes as [float(k[4])] reads them from the kline strings
    (CPython's [float] rounds the decimal to the nearest double):
    13.733583329912031, 13.73358332991203, 18.745639207254765,
    2.309357336713068 (twice), 2.3093573367130675 (four times),
    2.309357336713067, 2.3093573367130666 (twice), 4.707778350961679
    (twice), 4.707778350961678 (four times).  The prices stay positive;
    the steps are a few units in the last place. *)
Definition ce_closes : series64 := map round64
  [13733583329912031 # 1000000000000000; 1373358332991203 # 100000000000000;
   18745639207254765 # 1000000000000000; 2309357336713068 # 1000000000000000;
   2309357336713068 # 1000000000000000; 23093573367130675 # 10000000000000000;
   23093573367130675 # 10000000000000000; 23093573367130675 # 10000000000000000;
   23093573367130675 # 10000000000000000; 2309357336713067 # 1000000000000000;
   23093573367130666 # 10000000000000000; 23093573367130666 # 10000000000000000;
   4707778350961679 # 1000000000000000; 4707778350961679 # 1000000000000000;
   4707778350961678 # 1000000000000000; 4707778350961678 # 1000000000000000;
   4707778350961678 # 1000000000000000; 4707778350961678 # 1000000000000000]%Q.

(** Twenty positive closes read by [float()]: after the same large
    drop, the last fourteen changes are rises and falls of one unit in
    the last place. *)
Definition ce_closes_neg : series64 := map round64
  [13733583329912031 # 1000000000000000; 1373358332991203 # 100000000000000;
   18745639207254765 # 1000000000000000; 2309357336713068 # 1000000000000000;
   2309357336713068 # 1000000000000000; 23093573367130675 # 10000000000000000;
   23093573367130675 # 10000000000000000; 23093573367130675 # 10000000000000000;
   23093573367130675 # 10000000000000000; 2309357336713067 # 1000000000000000;
   23093573367130666 # 10000000000000000; 23093573367130666 # 10000000000000000;
   2309357336713067 # 1000000000000000; 2309357336713067 # 1000000000000000;
   2309357336713066 # 1000000000000000; 2309357336713066 # 1000000000000000;
   2309357336713066 # 1000000000000000; 2309357336713066 # 1000000000000000;
   2309357336713067 # 1000000000000000; 2309357336713067 # 1000000000000000]%Q.

(** The range [0 <= v <= 100] of the specification, on doubles. *)
Definition in_rsi_range (v : binary64) : bool := Ble pos_zero v && Ble v c100.

(** The state of [roll_mean64] over a series with no value of sign bit 1:
    no negative value is counted, and the last value added is not
    negative. *)
Definition no_neg_state (a : acc64) : Prop :=
  neg_ct a = 0 /\ Blt (prev_value a) pos_zero = false.

(** ** The gain average is never negative *)


Lemma Blt_nonneg x : signbit64 x = false -> Blt x pos_zero = false.
Proof.
  destruct x as [s|s| |s m e]; simpl; intros Hs; subst; try reflexivity.
  apply Ble_not_Blt, Ble_fin; try reflexivity. cbn [B2Q]. pose proof (mag_pos m e). simpl. lra.
Qed.

Section NoNegative.

Variable values : series64.
Hypothesis Hvalues : forallb (fun x => negb (signbit64 x)) values = true.

Lemma nth_no_signbit j : signbit64 (nth j values B754_nan) = false.
Proof.
  destruct (Nat.lt_ge_cases j (length values)) as [Hj|Hj].
  - rewrite forallb_forall in Hvalues. apply negb_true_iff, Hvalues, nth_In, Hj.
  - now rewrite nth_overflow.
Qed.

Lemma add_mean_no_neg j a :
  no_neg_state a -> no_neg_state (add_mean64 (nth j values B754_nan) a).
Proof.
  intros [Hn Hp]. pose proof (nth_no_signbit j) as Hs. unfold add_mean64.
  destruct (Beq _ _); [|split; auto]. split; simpl; [now rewrite Hs | now apply Blt_nonneg].
Qed.

Lemma remove_mean_no_neg j a :
  no_neg_state a -> no_neg_state (remove_mean64 (nth j values B754_nan) a).
Proof.
  intros [Hn Hp]. pose proof (nth_no_signbit j) as Hs. unfold remove_mean64.
  destruct (Beq _ _); [|split; auto]. split; simpl; [now rewrite Hs | exact Hp].
Qed.

Lemma fold_add_no_neg l a :
  no_neg_state a ->
  no_neg_state (fold_left (fun a j => add_mean64 (nth j values B754_nan) a) l a).
Proof. revert a; induction l; simpl; auto using add_mean_no_neg. Qed.

Lemma fold_remove_no_neg l a :
  no_neg_state a ->
  no_neg_state (fold_left (fun a j => remove_mean64 (nth j values B754_nan) a) l a).
Proof. revert a; induction l; simpl; auto using remove_mean_no_neg. Qed.

Lemma roll_state_no_neg start end_ mono i a :
  no_neg_state a -> no_neg_state (roll_state64 values start end_ mono i a).
Proof.
  intros Ha. unfold roll_state64. destruct (_ || _ || _).
  - apply fold_add_no_neg. split; [reflexivity|]. apply Blt_nonneg, nth_no_signbit.
  - apply fold_add_no_neg, fold_remove_no_neg, Ha.
Qed.

(** The clamp [neg_ct == 0 and result < 0] of [calc_mean64]. *)
Lemma calc_mean_no_neg minp a : no_neg_state a -> Blt (calc_mean64 minp a) pos_zero = false.
Proof.
  intros [Hn Hp]. unfold calc_mean64. rewrite Hn.
  set (r := Bdiv _ _). destruct (_ && _); [|reflexivity].
  destruct (_ <=? _); [exact Hp|]. simpl andb.
  destruct (Blt r pos_zero) eqn:Hr; [reflexivity|].
  destruct (_ && _); [reflexivity | exact Hr].
Qed.

Lemma roll_loop_no_neg start end_ minp mono k : forall i a,
  no_neg_state a ->
  Forall (fun v => Blt v pos_zero = false) (roll_loop64 values start end_ minp mono i k a).
Proof.
  induction k as [|k IH]; intros i a Ha; simpl; constructor.
  - apply calc_mean_no_neg, roll_state_no_neg, Ha.
  - apply IH. pose proof (roll_state_no_neg start end_ mono i a Ha) as [Hn Hp].
    destruct mono; [split; auto|]. split; auto.
Qed.

End NoNegative.

(** ** The RSI of a ratio that is not negative is in [0, 100] *)

Lemma c1_eq : c1 = B754_finite false 4503599627370496 (-52).
Proof. vm_compute. reflexivity. Qed.

Lemma c100_eq : c100 = B754_finite false 7036874417766400 (-46).
Proof. vm_compute. reflexivity. Qed.


(** [100 - t] for a double [t] in [0, 100]. *)
Lemma rsi_last_step t : in_rsi_range t = true -> in_rsi_range (Bminus c100 t) = true.
Proof.
  unfold in_rsi_range. rewrite andb_true_iff. intros [H0 H1].
  destruct t as [[]|[]| |st mt et]; try discriminate; rewrite ?c100_eq; try reflexivity.
  apply Ble_fin in H0; apply Ble_fin in H1; rewrite ?c100_eq in *; try reflexivity.
  unfold Bminus. cbn [Bopp]. rewrite Bplus_finite. cbn zeta.
  apply andb_true_iff, round_between; try reflexivity.
  - apply Qle_refl.
  - now compute.
  - change (B754_finite (negb st) mt et) with (Bopp (B754_finite st mt et)).
    rewrite B2Q_opp. change (B2Q pos_zero) with 0%Q in *. lra.
Qed.

(** [100 / t] for a double [t >= 1]. *)
Lemma rsi_div_step t : Ble c1 t = true -> Bis_nan t = false ->
  in_rsi_range (Bdiv c100 t) = true \/ t = B754_infinity false.
Proof.
  intros H1 Hn. destruct t as [[]|[]| |st mt et]; try discriminate; try (right; reflexivity);
    rewrite ?c1_eq in H1; try discriminate.
  left. apply Ble_fin in H1; try reflexivity.
  unfold in_rsi_range. rewrite !c100_eq, Bdiv_finite.
  set (t := B2Q (B754_finite st mt et)) in *.
  set (c := B2Q (B754_finite false 7036874417766400 (-46))).
  assert (Hc : (c == 100)%Q) by reflexivity.
  assert (Ht : (1 <= t)%Q).
  { assert (B2Q (B754_finite false 4503599627370496 (-52)) == 1)%Q by reflexivity. lra. }
  apply andb_true_iff. split.
  - apply round64_ge; try reflexivity. change (B2Q pos_zero) with 0%Q.
    apply Qle_shift_div_l; lra.
  - apply round64_le; try reflexivity. fold c. rewrite Hc.
    apply Qle_shift_div_r; lra.
Qed.

Lemma Ble_not_nan_r x y : Ble x y = true -> Bis_nan y = false.
Proof. destruct y; try reflexivity. now destruct x. Qed.

Lemma Blt_neg_finite m e : Blt (B754_finite true m e) pos_zero = true.
Proof. apply Blt_fin; try reflexivity. cbn [B2Q]. pose proof (mag_pos m e). simpl. lra. Qed.

(** [1 + rs] for a ratio that is not negative is at least [1]. *)
Lemma rsi_plus_step rs : Blt rs pos_zero = false -> Bis_nan rs = false ->
  Ble c1 (Bplus c1 rs) = true.
Proof.
  intros Hr Hn. rewrite c1_eq.
  destruct rs as [s|[]| |[] m e]; try discriminate; try reflexivity.
  - now rewrite Blt_neg_finite in Hr.
  - rewrite Bplus_finite. cbn zeta. pose proof (mag_pos m e).
    set (one := B2Q (B754_finite false 4503599627370496 (-52))).
    assert (Hone : (one == 1)%Q) by reflexivity.
    destruct (Qeq_bool _ 0) eqn:Hq.
    + apply Qeq_bool_eq in Hq. cbn [B2Q] in Hq. lra.
    + apply round64_ge; try reflexivity. fold one. cbn [B2Q]. lra.
Qed.

(** The RSI of a ratio that is NaN, [-inf] or not negative is NaN or in
    [0, 100]. *)
Lemma rsi_point_cases rs : Blt rs pos_zero = false \/ rs = B754_infinity true ->
  Bis_nan (rsi_point64 rs) = true \/ in_rsi_range (rsi_point64 rs) = true.
Proof.
  intros [Hr | ->]; [|right; vm_compute; reflexivity].
  destruct (Bis_nan rs) eqn:Hn; [left; now destruct rs|right].
  pose proof (rsi_plus_step rs Hr Hn) as H1. unfold rsi_point64.
  destruct (rsi_div_step _ H1 (Ble_not_nan_r _ _ H1)) as [H|H].
  - now apply rsi_last_step.
  - rewrite H. vm_compute. reflexivity.
Qed.

(** [avg_gain / avg_loss] of two averages that are not negative is not
    negative, or [-inf] (a positive gain over a loss of [-0.0]). *)
Lemma Bdiv_not_neg g l : Blt g pos_zero = false -> Blt l pos_zero = false ->
  Blt (Bdiv g l) pos_zero = false \/ Bdiv g l = B754_infinity true.
Proof.
  intros Hg Hl.
  destruct g as [sg|[]| |[] mg eg]; try discriminate Hg;
    try (rewrite Blt_neg_finite in Hg; discriminate);
  destruct l as [sl|[]| |[] ml el]; try discriminate Hl;
    try (rewrite Blt_neg_finite in Hl; discriminate);
  try destruct sg; try destruct sl; try (left; reflexivity); try (right; reflexivity).
  left. rewrite Bdiv_finite. apply Ble_not_Blt, round64_ge; try reflexivity.
  change (B2Q pos_zero) with 0%Q. cbn [B2Q].
  pose proof (mag_pos mg eg). pose proof (mag_pos ml el).
  apply Qle_shift_div_l; lra.
Qed.

(** ** The gain series of prices that are not negative *)

Lemma forallb_nth {A} (f : A -> bool) l d i :
  forallb f l = true -> f d = true -> f (nth i l d) = true.
Proof.
  intros Hl Hd. destruct (Nat.lt_ge_cases i (length l)) as [Hi|Hi].
  - rewrite forallb_forall in Hl. apply Hl, nth_In, Hi.
  - now rewrite nth_overflow.
Qed.

Lemma clip_lower_no_signbit r : r <> B754_zero true -> signbit64 (clip_lower64 pos_zero r) = false.
Proof.
  intros Hr. unfold clip_lower64.
  destruct (Bis_nan r || Ble pos_zero r) eqn:Hc; [|reflexivity].
  destruct r as [[]|[]| |[] m e]; try reflexivity; try congruence; try discriminate Hc.
  simpl in Hc. apply Ble_not_Blt in Hc. now rewrite Blt_neg_finite in Hc.
Qed.

(** [delta.clip(lower=0)] has no value of sign bit 1 when no price is
    negative: a difference of two doubles is [-0.0] only when the first
    is [-0.0]. *)
Lemma gain_series_no_signbit s :
  forallb canonical s = true -> forallb (fun x => negb (signbit64 x)) s = true ->
  forallb (fun x => negb (signbit64 x)) (gain_series s) = true.
Proof.
  intros Hc Hs. unfold gain_series, diff64, tabulate. rewrite forallb_forall.
  intros x Hx. apply in_map_iff in Hx as [r [<- Hr]]. apply in_map_iff in Hr as [[|j] [<- _]];
    [reflexivity|]. apply negb_true_iff, clip_lower_no_signbit. intros H.
  apply Bplus_neg_zero in H as [H _];
    [|apply forallb_nth; auto | rewrite canonical_opp; apply forallb_nth; auto].
  pose proof (forallb_nth _ s B754_nan (S j) Hs eq_refl) as Hn. now rewrite H in Hn.
Qed.

Lemma nth_error_zip_with_inv {A B C} (f : A -> B -> C) l1 l2 i r :
  nth_error (zip_with f l1 l2) i = Some r ->
  exists x y, nth_error l1 i = Some x /\ nth_error l2 i = Some y /\ r = f x y.
Proof.
  revert l2 i; induction l1 as [|a l1 IH]; intros [|b l2] [|i]; simpl; try discriminate.
  - intros H. injection H as <-. eauto.
  - apply IH.
Qed.

Lemma prep64_no_signbit values :
  forallb (fun x => negb (signbit64 x)) values = true ->
  forallb (fun x => negb (signbit64 x)) (map prep64 values) = true.
Proof.
  induction values as [|x values IH]; simpl; auto. intros H.
  apply andb_true_iff in H as [H1 H2]. apply andb_true_iff. split; [now destruct x | auto].
Qed.

Lemma rolling_mean_no_neg w values :
  forallb (fun x => negb (signbit64 x)) values = true ->
  Forall (fun v => Blt v pos_zero = false) (rolling_mean64 w values).
Proof.
  intros Hv. unfold rolling_mean64. destruct (fixed_window_bounds _ _).
  apply roll_loop_no_neg; [now apply prep64_no_signbit|]. split; reflexivity.
Qed.

(** ** Claims *)

(** C2: the RSI on doubles is within [[0, 100]] wherever the loss
    average is not negative.  For prices that are doubles and not
    negative (NaN and [+inf] allowed), every value of [calculate_rsi64] at
    a position where [avg_loss] is not below [0.0] is NaN or in
    [[0.0, 100.0]]: each rounding of [100 - 100 / (1 + rs)] keeps the
    result between the doubles [0], [1] and [100]. *)
Theorem calculate_rsi_f64_range period s i v :
  forallb canonical s = true -> forallb (fun x => negb (signbit64 x)) s = true ->
  nth_error (calculate_rsi64 period s) i = Some v ->
  Blt (nth i (rolling_mean64 period (loss_series s)) B754_nan) pos_zero = false ->
  Bis_nan v = true \/ in_rsi_range v = true.
Proof.
  intros Hc Hs Hv Hl. unfold calculate_rsi64 in Hv. rewrite nth_error_map in Hv.
  destruct (nth_error (zip_with _ _ _) i) as [r|] eqn:Hz; [injection Hv as <-|discriminate].
  apply nth_error_zip_with_inv in Hz as (g & l & Hg & Hl' & ->).
  apply rsi_point_cases, Bdiv_not_neg.
  - apply nth_error_In in Hg. pose proof (rolling_mean_no_neg period _ (gain_series_no_signbit s Hc Hs)) as H.
    rewrite Forall_forall in H. now apply H.
  - now rewrite (nth_error_nth _ _ B754_nan Hl') in Hl.
Qed.

(** On doubles the RSI exceeds 100 for positive prices.  For the
    eighteen positive closes [ce_closes], the loss average at position 17
    is [-7720456504063707 * 2^-106] (about [-9.5e-17]): the window holds
    [-0.0] losses (the negated [0.0] of every rise), so [neg_ct] is
    neither 0 nor [nobs] and pandas does not clamp the drift of its
    running sum; [calculate_rsi64] then returns
    [7036874417766404 * 2^-46 = 100.00000000000006 > 100]. *)
Theorem calculate_rsi_f64_exceeds_100 :
  forallb canonical ce_closes = true /\
  forallb (fun x => Blt pos_zero x) ce_closes = true /\
  nth_error (rolling_mean64 Rsi.RSI_PERIOD (loss_series ce_closes)) 17 =
    Some (B754_finite true 7720456504063707 (-106)) /\
  nth_error (calculate_rsi64 Rsi.RSI_PERIOD ce_closes) 17 =
    Some (B754_finite false 7036874417766404 (-46)) /\
  Blt c100 (B754_finite false 7036874417766404 (-46)) = true.
Proof. vm_compute. repeat split. Qed.

(** On doubles the RSI can be negative.  For the twenty positive
    closes [ce_closes_neg], the window ending at position 19 holds
    rises and falls of one unit in the last place: the exact RSI of the
    same doubles is [300 / 7 = 42.86], but the loss average has drifted
    to [-1.3e-16] (below the gain average's [9.5e-17] in size), so
    [100 - 100 / (1 + rs)] is [-300.0]: the program reads an RSI of 43
    as below 30 (line 91). *)
Example calculate_rsi_f64_negative :
  forallb canonical ce_closes_neg = true /\
  forallb (fun x => Blt pos_zero x) ce_closes_neg = true /\
  nth_error (calculate_rsi64 Rsi.RSI_PERIOD ce_closes_neg) 19 =
    Some (B754_finite true 5277655813324800 (-44)) /\
  (B2Q (B754_finite true 5277655813324800 (-44)) == -300)%Q /\
  match nth_error (Rsi.calculate_rsi Rsi.RSI_PERIOD (map (fun d => Fin (B2Q d)) ce_closes_neg)) 19 with
  | Some (Fin q) => (q == 300 # 7)%Q
  | _ => False
  end.
Proof. vm_compute. repeat split. Qed.

Lemma calculate_rsi_f64_range_witness :
  nth_error (calculate_rsi64 Rsi.RSI_PERIOD ce_closes) 14 =
    Some (B754_finite false 8746948930383496 (-48)) /\
  (Bis_nan (B754_finite false 8746948930383496 (-48)) = true \/
   in_rsi_range (B754_finite false 8746948930383496 (-48)) = true).
Proof.
  split; [vm_compute; reflexivity|].
  apply (calculate_rsi_f64_range Rsi.RSI_PERIOD ce_closes 14); vm_compute; reflexivity.
Defined.

End RsiF64.
