(* ===== verification/Datetime.v ===== *)
(** * pandas timestamps: [pd.to_datetime(x, unit='ms')] and [str(ts)]

    [fetch_data] converts the [fundingTime] field (milliseconds since
    the epoch) with [pd.to_datetime(.., unit='ms')] (src/bot.py line 60)
    and [check_symbols] prints it with [{ft}] (line 86).  A pandas
    [Timestamp] is an int64 count of nanoseconds; the value [-2^63] is
    reserved for [NaT], so the representable range is
    [-(2^63-1) .. 2^63-1] nanoseconds and a millisecond count outside
    it raises [OutOfBoundsDatetime].  [str] prints the proleptic
    Gregorian date and time, with [.ffffff] when the sub-second part is
    not zero. *)

From Stdlib Require Import List Lia Arith ZArith String Ascii.
From S2P Require Import Prelude PyFloat Python Format.
Import ListNotations Py Fmt.

Module Dt.

Local Open Scope Z_scope.

Inductive dt : Type :=
| Ts (ns : Z)
| NaT.

Definition INT64_MAX : Z := 2 ^ 63 - 1.

Definition NS_PER_MS : Z := 1000000.

(** [pd.to_datetime(z, unit='ms')] on a Python [int]. *)
Definition to_datetime_ms_int (z : Z) : result dt :=
  let ns := z * NS_PER_MS in
  if ((- INT64_MAX <=? ns) && (ns <=? INT64_MAX))%bool then Ok (Ts ns)
  else Err OutOfBoundsDatetime.

(** ** Civil calendar *)

(** Days since 1970-01-01 to (year, month, day) in the proleptic
    Gregorian calendar, by eras of 400 years (146097 days). *)
Definition civil_from_days (days : Z) : Z * Z * Z :=
  let z := days + 719468 in
  let era := z / 146097 in
  let doe := z - era * 146097 in
  let yoe := (doe - doe / 1460 + doe / 36524 - doe / 146096) / 365 in
  let y := yoe + era * 400 in
  let doy := doe - (365 * yoe + yoe / 4 - yoe / 100) in
  let mp := (5 * doy + 2) / 153 in
  let d := doy - (153 * mp + 2) / 5 + 1 in
  let m := if mp <? 10 then mp + 3 else mp - 9 in
  (if m <=? 2 then y + 1 else y, m, d).

(** The inverse direction: (year, month, day) to days since the epoch. *)
Definition days_from_civil (y m d : Z) : Z :=
  let y' := if m <=? 2 then y - 1 else y in
  let era := y' / 400 in
  let yoe := y' - era * 400 in
  let mp := if m <=? 2 then m + 9 else m - 3 in
  let doy := (153 * mp + 2) / 5 + d - 1 in
  let doe := yoe * 365 + yoe / 4 - yoe / 100 + doy in
  era * 146097 + doe - 719468.

Definition NS_PER_DAY : Z := 86400 * 10 ^ 9.

(** [str(ts)]. *)
Definition dt_str (t : dt) : string :=
  match t with
  | NaT => "NaT"
  | Ts ns =>
      let days := ns / NS_PER_DAY in
      let rem := ns mod NS_PER_DAY in
      let '(y, mo, d) := civil_from_days days in
      let secs := rem / 10 ^ 9 in
      let frac := rem mod 10 ^ 9 in
      show_Z y ++ "-" ++ show_pad 2 mo ++ "-" ++ show_pad 2 d ++ " " ++
      show_pad 2 (secs / 3600)%Z ++ ":" ++ show_pad 2 (secs mod 3600 / 60)%Z ++ ":" ++
      show_pad 2 (secs mod 60)%Z ++
      (if (frac =? 0)%Z then ""
       else if (frac mod 1000 =? 0)%Z then "." ++ show_pad 6 (frac / 1000)%Z
       else "." ++ show_pad 9 frac)
  end%string.

(** ** The Gregorian calendar, for the statements *)

Definition is_leap (y : Z) : bool :=
  ((y mod 4 =? 0) && negb (y mod 100 =? 0)) || (y mod 400 =? 0).

Definition days_in_month (y m : Z) : Z :=
  if m =? 2 then (if is_leap y then 29 else 28)
  else if ((m =? 4) || (m =? 6) || (m =? 9) || (m =? 11))%bool then 30
  else 31.

(** The length of a month counted from March ([mp = 0] is March, [11]
    is February), with a leap day allowed in February. *)
Definition mlen (mp : Z) : Z :=
  if mp =? 11 then 29 else if ((mp =? 1) || (mp =? 3) || (mp =? 6) || (mp =? 8))%bool then 30 else 31.

(** ** The int64 range of timestamps *)

(** The representable funding times.  [pd.to_datetime(z, unit='ms')] on an integer gives the timestamp of
    [z * 10^6] nanoseconds exactly when [z] lies within
    [-9223372036854 .. 9223372036854] milliseconds (from 1677-09-21 to
    2262-04-11); outside it raises [OutOfBoundsDatetime]. *)
Theorem to_datetime_ms_int_range z :
  (to_datetime_ms_int z = Ok (Ts (z * NS_PER_MS)) <->
     -9223372036854 <= z <= 9223372036854) /\
  (z < -9223372036854 \/ 9223372036854 < z -> to_datetime_ms_int z = Err OutOfBoundsDatetime).
Proof.
  unfold to_datetime_ms_int, INT64_MAX, NS_PER_MS.
  destruct (Z.leb_spec (- (2 ^ 63 - 1)) (z * 1000000)),
           (Z.leb_spec (z * 1000000) (2 ^ 63 - 1)); simpl;
    (split; [split; [intros _; lia | intros _; try reflexivity; lia]
            | intros Hz; try reflexivity; lia])
    || (split; [split; [discriminate | lia] | reflexivity]).
Qed.

(** ** The civil calendar *)

(** Within an era of 400 years, the year of the era and the day of the
    year stay in range. *)
Lemma yoe_bounds doe : 0 <= doe < 146097 ->
  let yoe := (doe - doe / 1460 + doe / 36524 - doe / 146096) / 365 in
  0 <= yoe <= 399 /\
  0 <= doe - (365 * yoe + yoe / 4 - yoe / 100) <= 365.
Proof.
  intros H yoe.
  pose proof (Z.div_mod doe 1460 ltac:(lia)). pose proof (Z.mod_pos_bound doe 1460 ltac:(lia)).
  pose proof (Z.div_mod doe 36524 ltac:(lia)). pose proof (Z.mod_pos_bound doe 36524 ltac:(lia)).
  pose proof (Z.div_mod doe 146096 ltac:(lia)). pose proof (Z.mod_pos_bound doe 146096 ltac:(lia)).
  set (t := doe - doe / 1460 + doe / 36524 - doe / 146096) in *.
  pose proof (Z.div_mod t 365 ltac:(lia)). pose proof (Z.mod_pos_bound t 365 ltac:(lia)).
  pose proof (Z.div_mod yoe 4 ltac:(lia)). pose proof (Z.mod_pos_bound yoe 4 ltac:(lia)).
  pose proof (Z.div_mod yoe 100 ltac:(lia)). pose proof (Z.mod_pos_bound yoe 100 ltac:(lia)).
  unfold yoe in *.
  set (a := doe / 1460) in *. set (b := doe / 36524) in *. set (c := doe / 146096) in *.
  set (y := t / 365) in *. set (e := y / 4) in *. set (f := y / 100) in *.
  clearbody a b c y e f. unfold t in *. lia.
Qed.

(** The month index (from March) and the day of the month of a day of
    the year. *)
Lemma mp_bounds doy : 0 <= doy <= 365 ->
  let mp := (5 * doy + 2) / 153 in
  0 <= mp <= 11 /\ 1 <= doy - (153 * mp + 2) / 5 + 1 <= 31.
Proof.
  intros H mp.
  pose proof (Z.div_mod (5 * doy + 2) 153 ltac:(lia)).
  pose proof (Z.mod_pos_bound (5 * doy + 2) 153 ltac:(lia)).
  fold mp in H0, H1.
  pose proof (Z.div_mod (153 * mp + 2) 5 ltac:(lia)).
  pose proof (Z.mod_pos_bound (153 * mp + 2) 5 ltac:(lia)).
  set (g := (153 * mp + 2) / 5) in *. clearbody mp g. lia.
Qed.

(** The printed date names the day.  The date [str] prints for a
    timestamp (via [civil_from_days]) has a month in 1..12 and a day in
    1..31, and converting it back with [days_from_civil] gives the day
    count it was computed from: no two days print the same date. *)
Theorem civil_from_days_roundtrip days :
  let '(y, m, d) := civil_from_days days in
  days_from_civil y m d = days /\ 1 <= m <= 12 /\ 1 <= d <= 31.
Proof.
  unfold civil_from_days.
  set (z := days + 719468). set (era := z / 146097). set (doe := z - era * 146097).
  assert (Hdoe : 0 <= doe < 146097).
  { unfold doe, era. pose proof (Z.div_mod z 146097 ltac:(lia)).
    pose proof (Z.mod_pos_bound z 146097 ltac:(lia)). lia. }
  destruct (yoe_bounds doe Hdoe) as [Hy Hdoy].
  set (yoe := (doe - doe / 1460 + doe / 36524 - doe / 146096) / 365) in *.
  set (doy := doe - (365 * yoe + yoe / 4 - yoe / 100)) in *.
  destruct (mp_bounds doy Hdoy) as [Hmp Hd].
  set (mp := (5 * doy + 2) / 153) in *.
  set (d := doy - (153 * mp + 2) / 5 + 1) in *.
  assert (Hera : (yoe + era * 400) / 400 = era).
  { rewrite Z.div_add by lia. rewrite Z.div_small by lia. lia. }
  unfold days_from_civil.
  destruct (Z.ltb_spec mp 10) as [Hlt|Hge].
  - destruct (Z.leb_spec (mp + 3) 2); [lia|].
    rewrite Hera. split; [|lia].
    replace (mp + 3 - 3) with mp by lia.
    replace (yoe + era * 400 - era * 400) with yoe by lia.
    unfold d, doy, doe, z. lia.
  - destruct (Z.leb_spec (mp - 9) 2); [|lia].
    replace (yoe + era * 400 + 1 - 1) with (yoe + era * 400) by lia.
    rewrite Hera. split; [|lia].
    replace (mp - 9 + 9) with mp by lia.
    replace (yoe + era * 400 - era * 400) with yoe by lia.
    unfold d, doy, doe, z. lia.
Qed.

Lemma div_between a b q : 0 < b -> b * q <= a < b * (q + 1) -> a / b = q.
Proof. intros Hb Ha. symmetry. apply Z.div_unique with (a - b * q); lia. Qed.

(** Within an era, the year of the era is recovered from the day of the
    era, provided the day of the year is in range: day 365 (the 366th)
    only in a year whose February has 29 days. *)
Lemma yoe_recover yoe doy :
  0 <= yoe <= 399 -> 0 <= doy ->
  (doy <= 364 \/ (doy = 365 /\ (yoe + 1) mod 4 = 0 /\ ((yoe + 1) mod 100 <> 0 \/ yoe = 399))) ->
  let doe := yoe * 365 + yoe / 4 - yoe / 100 + doy in
  (doe - doe / 1460 + doe / 36524 - doe / 146096) / 365 = yoe.
Proof.
  intros Hy Hd0 Hd doe.
  pose proof (Z.div_mod yoe 4 ltac:(lia)). pose proof (Z.mod_pos_bound yoe 4 ltac:(lia)).
  pose proof (Z.div_mod yoe 100 ltac:(lia)). pose proof (Z.mod_pos_bound yoe 100 ltac:(lia)).
  pose proof (Z.div_mod (yoe+1) 4 ltac:(lia)). pose proof (Z.mod_pos_bound (yoe+1) 4 ltac:(lia)).
  pose proof (Z.div_mod (yoe+1) 100 ltac:(lia)). pose proof (Z.mod_pos_bound (yoe+1) 100 ltac:(lia)).
  set (e := yoe / 4) in *. set (f := yoe / 100) in *.
  set (e1 := (yoe+1) / 4) in *. set (f1 := (yoe+1) / 100) in *.
  set (r1 := (yoe+1) mod 4) in *. set (s1 := (yoe+1) mod 100) in *.
  set (r := yoe mod 4) in *. set (s := yoe mod 100) in *.
  pose proof (Z.div_mod doe 1460 ltac:(lia)). pose proof (Z.mod_pos_bound doe 1460 ltac:(lia)).
  pose proof (Z.div_mod doe 36524 ltac:(lia)). pose proof (Z.mod_pos_bound doe 36524 ltac:(lia)).
  pose proof (Z.div_mod doe 146096 ltac:(lia)). pose proof (Z.mod_pos_bound doe 146096 ltac:(lia)).
  set (a := doe / 1460) in *. set (b := doe / 36524) in *. set (c := doe / 146096) in *.
  set (t := doe - a + b - c).
  symmetry. apply Z.div_unique with (t - 365 * yoe); [|unfold t; lia].
  unfold doe in *. clearbody a b c e f e1 f1 r1 s1 r s. unfold t. lia.
Qed.

(** The month index is recovered from the day of the year. *)
Lemma mp_recover mp d :
  0 <= mp <= 11 -> 1 <= d ->
  d <= (if mp =? 11 then 29 else if ((mp =? 1) || (mp =? 3) || (mp =? 6) || (mp =? 8))%bool then 30 else 31) ->
  (5 * ((153 * mp + 2) / 5 + d - 1) + 2) / 153 = mp.
Proof.
  intros Hmp Hd1 Hd2.
  pose proof (Z.div_mod (153 * mp + 2) 5 ltac:(lia)). pose proof (Z.mod_pos_bound (153 * mp + 2) 5 ltac:(lia)).
  set (g := (153 * mp + 2) / 5) in *. clearbody g.
  apply div_between; [lia|].
  enum_Z mp 0%Z; simpl in Hd2; lia.
Qed.

Lemma month_facts y m d : 1 <= m <= 12 -> 1 <= d <= days_in_month y m ->
  let mp := if m <=? 2 then m + 9 else m - 3 in
  0 <= mp <= 11 /\ d <= mlen mp /\ (if mp <? 10 then mp + 3 else mp - 9) = m /\
  ((153 * mp + 2) / 5 + d - 1 <= 364 \/ (m = 2 /\ d = 29 /\ is_leap y = true)).
Proof.
  intros Hm Hd mp.
  assert (Hg : (153 * mp + 2) / 5 * 5 <= 153 * mp + 2 < (153 * mp + 2) / 5 * 5 + 5).
  { pose proof (Z.div_mod (153 * mp + 2) 5 ltac:(lia)).
    pose proof (Z.mod_pos_bound (153 * mp + 2) 5 ltac:(lia)). lia. }
  set (g := (153 * mp + 2) / 5) in *. clearbody g.
  unfold days_in_month in Hd. unfold mlen.
  enum_Z m 1%Z; subst mp; simpl in *; try lia.
  destruct (is_leap y); lia.
Qed.

Lemma leap_yoe y' : is_leap (y' + 1) = true ->
  (y' mod 400 + 1) mod 4 = 0 /\ ((y' mod 400 + 1) mod 100 <> 0 \/ y' mod 400 = 399).
Proof.
  unfold is_leap. rewrite Bool.orb_true_iff, Bool.andb_true_iff, Bool.negb_true_iff, !Z.eqb_eq, Z.eqb_neq.
  intros H.
  pose proof (Z.div_mod y' 400 ltac:(lia)) as Hdm. pose proof (Z.mod_pos_bound y' 400 ltac:(lia)) as Hr.
  set (r := y' mod 400) in *. set (q := y' / 400) in *. clearbody r q. subst y'.
  replace (400 * q + r + 1) with (r + 1 + q * 400) in H by lia.
  rewrite Z.mod_add in H by lia.
  replace (r + 1 + q * 400) with (r + 1 + (q * 100) * 4) in H by lia.
  rewrite Z.mod_add in H by lia.
  replace (r + 1 + q * 100 * 4) with (r + 1 + (q * 4) * 100) in H by lia.
  rewrite Z.mod_add in H by lia.
  destruct H as [[H1 H2] | H3]; [split; auto|].
  assert (r = 399).
  { destruct (Z.eq_dec (r + 1) 400) as [E|E]; [lia|]. rewrite Z.mod_small in H3 by lia. lia. }
  subst r. split; [reflexivity|right; reflexivity].
Qed.

(** Every date prints as itself.  For every year, every month
    1..12 and every day of that month in the proleptic Gregorian
    calendar, the date [civil_from_days] computes for the day count of
    that date is the date itself: with the round trip above, [str] of a
    timestamp names exactly one valid date, and every valid date is
    named. *)
Theorem days_from_civil_roundtrip y m d :
  1 <= m <= 12 -> 1 <= d <= days_in_month y m -> civil_from_days (days_from_civil y m d) = (y, m, d).
Proof.
  intros Hm Hd.
  destruct (month_facts y m d Hm Hd) as (Hmp & Hdm & Hmm & Hdoy).
  unfold days_from_civil, civil_from_days.
  set (y' := if m <=? 2 then y - 1 else y) in *.
  set (mp := if m <=? 2 then m + 9 else m - 3) in *.
  set (era := y' / 400).
  set (yoe := y' - era * 400).
  set (doy := (153 * mp + 2) / 5 + d - 1) in *.
  set (doe := yoe * 365 + yoe / 4 - yoe / 100 + doy).
  assert (Hyoe : yoe = y' mod 400) by (unfold yoe, era; pose proof (Z.div_mod y' 400 ltac:(lia)); lia).
  assert (Hy4 : 0 <= yoe <= 399) by (rewrite Hyoe; pose proof (Z.mod_pos_bound y' 400); lia).
  assert (Hd0 : 0 <= doy).
  { unfold doy. pose proof (Z.div_pos (153 * mp + 2) 5 ltac:(lia) ltac:(lia)). lia. }
  assert (Hleap : doy <= 364 \/ (doy = 365 /\ (yoe + 1) mod 4 = 0 /\ ((yoe + 1) mod 100 <> 0 \/ yoe = 399))).
  { destruct Hdoy as [Hle | (-> & -> & Hl)]; [now left|right].
    subst y'. simpl in *. replace y with (y - 1 + 1) in Hl by lia. apply leap_yoe in Hl.
    rewrite Hyoe. split; [subst doy mp; reflexivity|exact Hl]. }
  assert (Hdoe : 0 <= doe < 146097).
  { unfold doe. pose proof (Z.div_mod yoe 4 ltac:(lia)). pose proof (Z.mod_pos_bound yoe 4 ltac:(lia)).
    pose proof (Z.div_mod yoe 100 ltac:(lia)). pose proof (Z.mod_pos_bound yoe 100 ltac:(lia)).
    set (e := yoe / 4) in *. set (f := yoe / 100) in *. clearbody e f. lia. }
  replace (era * 146097 + doe - 719468 + 719468) with (doe + era * 146097) by lia.
  rewrite (Z.div_add doe era 146097), (Z.div_small doe 146097) by lia.
  replace (doe + era * 146097 - (0 + era) * 146097) with doe by lia.
  assert (Hr : (doe - doe / 1460 + doe / 36524 - doe / 146096) / 365 = yoe).
  { apply yoe_recover; [lia|lia|exact Hleap]. }
  rewrite Hr.
  replace (doe - (365 * yoe + yoe / 4 - yoe / 100)) with doy by (unfold doe; lia).
  assert (Hmp' : (5 * doy + 2) / 153 = mp) by (unfold doy; apply mp_recover; [lia|lia|exact Hdm]).
  rewrite Hmp'.
  replace (doy - (153 * mp + 2) / 5 + 1) with d by (unfold doy; lia).
  rewrite Hmm. f_equal. f_equal.
  unfold yoe. subst y'. destruct (m <=? 2); lia.
Qed.

(** [str] of a timestamp at a whole second [T] of day [D]: the civil
    date of [D] and the time [T] as [hh:mm:ss], with no fraction. *)
Lemma dt_str_seconds D T : 0 <= T < 86400 ->
  dt_str (Ts ((D * 86400 + T) * 10 ^ 9)) =
  (let '(y, mo, d) := civil_from_days D in
   show_Z y ++ "-" ++ show_pad 2 mo ++ "-" ++ show_pad 2 d ++ " " ++
   show_pad 2 (T / 3600) ++ ":" ++ show_pad 2 (T mod 3600 / 60) ++ ":" ++ show_pad 2 (T mod 60))%string.
Proof.
  intros HT. unfold dt_str, NS_PER_DAY.
  assert (Hd : (D * 86400 + T) * 10 ^ 9 / (86400 * 10 ^ 9) = D).
  { symmetry. apply (Z.div_unique _ _ _ (T * 10 ^ 9)); lia. }
  assert (Hm : (D * 86400 + T) * 10 ^ 9 mod (86400 * 10 ^ 9) = T * 10 ^ 9).
  { symmetry. apply (Z.mod_unique _ _ D); lia. }
  rewrite Hd, Hm, Z.div_mul, Z.mod_mul by lia. simpl Z.eqb. cbv iota.
  destruct (civil_from_days D) as [[y mo] d]. now rewrite append_empty_r.
Qed.

Lemma to_datetime_ms_int_inv z t : to_datetime_ms_int z = Ok t -> t = Ts (z * NS_PER_MS).
Proof. unfold to_datetime_ms_int. destruct (_ && _)%bool; congruence. Qed.

End Dt.
