(* ===== verification/Utf8.v ===== *)
(** * Well-formed UTF-8 and the ASCII renderings

    A Python [str] is a sequence of Unicode code points; the development
    models it by its UTF-8 encoding (a Rocq [string], one [ascii] per
    byte), and Telegram accepts a message only when its text is valid
    UTF-8.  This file states what a well-formed UTF-8 byte sequence is
    (RFC 3629, Table 3-7 of the Unicode standard): [utf8_char] lists the
    encodings of one code point, [utf8] their concatenations.  The
    boolean [utf8b] decides it ([utf8b_reflect]), so the byte literals of
    the source (emoji, Turkish letters) are checked by computation, and
    [utf8] is closed under concatenation.  The numbers and dates the bot
    prints ([str(int)], [.kf] formatting, [str(Timestamp)]) are ASCII,
    hence valid UTF-8. *)

From Stdlib Require Import List Lia Arith ZArith QArith String Ascii Bool.
From S2P Require Import Prelude PyFloat Python Format Datetime.
Import ListNotations Py Fmt Dt.

Module Utf8.

Local Open Scope nat_scope.

(** ** The specification *)

Definition cont (b : nat) : Prop := 128 <= b <= 191.

(** The range of the second byte of a three-byte sequence: no overlong
    forms after E0, no surrogates after ED. *)
Definition lo3 (b0 : nat) : nat := if b0 =? 224 then 160 else 128.
Definition hi3 (b0 : nat) : nat := if b0 =? 237 then 159 else 191.
(** ... and of a four-byte one: no overlong forms after F0, nothing
    above U+10FFFF after F4. *)
Definition lo4 (b0 : nat) : nat := if b0 =? 240 then 144 else 128.
Definition hi4 (b0 : nat) : nat := if b0 =? 244 then 143 else 191.

Inductive utf8_char : list nat -> Prop :=
| utf8_1 b0 : b0 < 128 -> utf8_char [b0]
| utf8_2 b0 b1 : 194 <= b0 <= 223 -> cont b1 -> utf8_char [b0; b1]
| utf8_3 b0 b1 b2 : 224 <= b0 <= 239 -> lo3 b0 <= b1 <= hi3 b0 -> cont b2 ->
    utf8_char [b0; b1; b2]
| utf8_4 b0 b1 b2 b3 : 240 <= b0 <= 244 -> lo4 b0 <= b1 <= hi4 b0 -> cont b2 -> cont b3 ->
    utf8_char [b0; b1; b2; b3].

Inductive utf8 : list nat -> Prop :=
| utf8_nil : utf8 []
| utf8_cons c s : utf8_char c -> utf8 s -> utf8 (c ++ s).

(** The bytes of a string. *)
Definition codes (s : string) : list nat := map nat_of_ascii (list_ascii_of_string s).

Definition utf8_str (s : string) : Prop := utf8 (codes s).

(** ** The decision procedure *)

Definition contb (b : nat) : bool := (128 <=? b) && (b <=? 191).

Fixpoint utf8b (l : list nat) : bool :=
  match l with
  | [] => true
  | b0 :: r =>
      if b0 <? 128 then utf8b r
      else match r with
        | [] => false
        | b1 :: r1 =>
            if (194 <=? b0) && (b0 <=? 223) then contb b1 && utf8b r1
            else match r1 with
              | [] => false
              | b2 :: r2 =>
                  if (224 <=? b0) && (b0 <=? 239) then
                    (lo3 b0 <=? b1) && (b1 <=? hi3 b0) && contb b2 && utf8b r2
                  else match r2 with
                    | [] => false
                    | b3 :: r3 =>
                        (240 <=? b0) && (b0 <=? 244) && (lo4 b0 <=? b1) && (b1 <=? hi4 b0) &&
                        contb b2 && contb b3 && utf8b r3
                    end
              end
        end
  end.

(** Only ASCII bytes. *)
Definition is_ascii (s : string) : bool :=
  forallb (fun c => nat_of_ascii c <? 128) (list_ascii_of_string s).

(** ** Lemmas *)

Lemma contb_spec b : contb b = true <-> cont b.
Proof. unfold contb, cont. rewrite andb_true_iff, !Nat.leb_le. tauto. Qed.

Ltac bool_lia :=
  repeat match goal with
  | H : (_ && _)%bool = true |- _ => apply andb_true_iff in H as [? ?]
  | H : (_ <=? _) = true |- _ => apply Nat.leb_le in H
  | H : (_ <=? _) = false |- _ => apply Nat.leb_gt in H
  | H : (_ <? _) = true |- _ => apply Nat.ltb_lt in H
  | H : (_ <? _) = false |- _ => apply Nat.ltb_ge in H
  | H : contb _ = true |- _ => apply contb_spec in H
  end.

(** One encoded code point is consumed by [utf8b] as a whole. *)
Lemma utf8b_char c s : utf8_char c -> utf8b (c ++ s) = utf8b s.
Proof.
  unfold cont. intros Hc; inversion Hc; subst; cbn [app utf8b].
  - now replace (b0 <? 128) with true by (symmetry; apply Nat.ltb_lt; lia).
  - replace (b0 <? 128) with false by (symmetry; apply Nat.ltb_ge; lia).
    replace ((194 <=? b0) && (b0 <=? 223))%bool with true
      by (symmetry; apply andb_true_iff; split; apply Nat.leb_le; lia).
    replace (contb b1) with true by (symmetry; now apply contb_spec). reflexivity.
  - replace (b0 <? 128) with false by (symmetry; apply Nat.ltb_ge; lia).
    replace ((194 <=? b0) && (b0 <=? 223))%bool with false
      by (symmetry; apply andb_false_iff; right; apply Nat.leb_gt; lia).
    replace ((224 <=? b0) && (b0 <=? 239))%bool with true
      by (symmetry; apply andb_true_iff; split; apply Nat.leb_le; lia).
    replace (contb b2) with true by (symmetry; now apply contb_spec).
    replace (lo3 b0 <=? b1) with true by (symmetry; apply Nat.leb_le; lia).
    replace (b1 <=? hi3 b0) with true by (symmetry; apply Nat.leb_le; lia). reflexivity.
  - replace (b0 <? 128) with false by (symmetry; apply Nat.ltb_ge; lia).
    replace ((194 <=? b0) && (b0 <=? 223))%bool with false
      by (symmetry; apply andb_false_iff; right; apply Nat.leb_gt; lia).
    replace ((224 <=? b0) && (b0 <=? 239))%bool with false
      by (symmetry; apply andb_false_iff; right; apply Nat.leb_gt; lia).
    replace (contb b2) with true by (symmetry; now apply contb_spec).
    replace (contb b3) with true by (symmetry; now apply contb_spec).
    replace (lo4 b0 <=? b1) with true by (symmetry; apply Nat.leb_le; lia).
    replace (b1 <=? hi4 b0) with true by (symmetry; apply Nat.leb_le; lia).
    replace (240 <=? b0) with true by (symmetry; apply Nat.leb_le; lia).
    replace (b0 <=? 244) with true by (symmetry; apply Nat.leb_le; lia). reflexivity.
Qed.

Lemma utf8b_complete l : utf8 l -> utf8b l = true.
Proof. induction 1; [reflexivity|]. now rewrite utf8b_char. Qed.

Lemma utf8b_sound_n n : forall l, List.length l <= n -> utf8b l = true -> utf8 l.
Proof.
  induction n as [|n IH]; intros [|b0 r] Hl Hb; try (simpl in Hl; lia); try constructor.
  cbn [utf8b] in Hb. simpl List.length in Hl.
  destruct (b0 <? 128) eqn:E0.
  { apply (utf8_cons [b0] r); [constructor; bool_lia; lia | apply IH; auto; lia]. }
  destruct r as [|b1 r1]; [discriminate|].
  destruct ((194 <=? b0) && (b0 <=? 223))%bool eqn:E2.
  { bool_lia. apply (utf8_cons [b0; b1] r1); [constructor; auto; lia|].
    apply IH; auto. simpl in Hl; lia. }
  destruct r1 as [|b2 r2]; [discriminate|].
  destruct ((224 <=? b0) && (b0 <=? 239))%bool eqn:E3.
  { bool_lia. apply (utf8_cons [b0; b1; b2] r2); [constructor; auto; lia|].
    apply IH; auto. simpl in Hl; lia. }
  destruct r2 as [|b3 r3]; [discriminate|].
  bool_lia. apply (utf8_cons [b0; b1; b2; b3] r3); [constructor; auto; lia|].
  apply IH; auto. simpl in Hl; lia.
Qed.

Lemma utf8b_reflect l : reflect (utf8 l) (utf8b l).
Proof.
  apply iff_reflect. split; [apply utf8b_complete|].
  apply (utf8b_sound_n (List.length l)). lia.
Qed.

Lemma utf8_app l1 l2 : utf8 l1 -> utf8 l2 -> utf8 (l1 ++ l2).
Proof. induction 1; intros H2; auto. rewrite <- app_assoc. constructor; auto. Qed.

Lemma codes_app s1 s2 : codes (s1 ++ s2) = codes s1 ++ codes s2.
Proof. unfold codes. now rewrite list_ascii_app, map_app. Qed.

Lemma utf8_str_app s1 s2 : utf8_str s1 -> utf8_str s2 -> utf8_str (s1 ++ s2).
Proof. unfold utf8_str. rewrite codes_app. apply utf8_app. Qed.

(** A closed string is checked by computation. *)
Lemma utf8_str_by_computation s : utf8b (codes s) = true -> utf8_str s.
Proof. intros H. now apply (reflect_iff _ _ (utf8b_reflect _)). Qed.

Lemma is_ascii_app s1 s2 : is_ascii (s1 ++ s2) = is_ascii s1 && is_ascii s2.
Proof. unfold is_ascii. now rewrite list_ascii_app, forallb_app. Qed.

Lemma ascii_utf8 s : is_ascii s = true -> utf8_str s.
Proof.
  unfold is_ascii, utf8_str, codes. induction (list_ascii_of_string s) as [|c l IH];
    simpl; intros H; [constructor|].
  apply andb_true_iff in H as [Hc Hl].
  apply (utf8_cons [nat_of_ascii c]); [constructor; now apply Nat.ltb_lt | auto].
Qed.

#[export] Hint Resolve utf8_str_app ascii_utf8 : bot.
#[export] Hint Rewrite is_ascii_app : bot_rw.

(** ** The renderings of numbers and dates are ASCII *)

Lemma is_ascii_cons c s :
  is_ascii (String c s) = (nat_of_ascii c <? 128) && is_ascii s.
Proof. reflexivity. Qed.

Lemma digit_char_ascii d : (0 <= d < 10)%Z -> nat_of_ascii (digit_char d) < 128.
Proof.
  intros Hd. unfold digit_char. rewrite nat_ascii_embedding; lia.
Qed.

Lemma digits_fuel_ascii f : forall n acc,
  is_ascii acc = true -> is_ascii (digits_fuel f n acc) = true.
Proof.
  induction f as [|f IH]; intros n acc Ha; simpl; [exact Ha|].
  assert (Hc : is_ascii (String (digit_char (n mod 10)) acc) = true).
  { rewrite is_ascii_cons, Ha, andb_true_r. apply Nat.ltb_lt, digit_char_ascii.
    apply Z.mod_pos_bound. lia. }
  destruct (n <? 10)%Z; auto.
Qed.

Lemma show_nonneg_ascii n : is_ascii (show_nonneg n) = true.
Proof. apply digits_fuel_ascii. reflexivity. Qed.

Lemma show_Z_ascii z : is_ascii (show_Z z) = true.
Proof. unfold show_Z. destruct (z <? 0)%Z; [rewrite is_ascii_cons|]; apply show_nonneg_ascii. Qed.

Lemma zeros_ascii k : is_ascii (zeros k) = true.
Proof. induction k as [|k IH]; [reflexivity|]. simpl zeros. now rewrite is_ascii_cons, IH. Qed.

Lemma show_pad_ascii k n : is_ascii (show_pad k n) = true.
Proof. unfold show_pad, pad_left. now rewrite is_ascii_app, zeros_ascii, show_nonneg_ascii. Qed.

Lemma substring_ascii a b s : is_ascii s = true -> is_ascii (substring a b s) = true.
Proof.
  unfold is_ascii. rewrite list_ascii_substring, !forallb_forall. intros H c Hc.
  apply H. set (l := list_ascii_of_string s) in *.
  assert (Hs : In c (skipn a l))
    by (rewrite <- (firstn_skipn b (skipn a l)); apply in_or_app; now left).
  rewrite <- (firstn_skipn a l). apply in_or_app. now right.
Qed.

#[export] Hint Rewrite show_nonneg_ascii show_Z_ascii zeros_ascii show_pad_ascii : bot_rw.

(** [format(x, ".kf")] writes digits, a sign and a point, or [nan],
    [inf], [-inf]. *)
Lemma format_fixed_ascii k x : is_ascii (format_fixed k x) = true.
Proof.
  destruct x as [q| | |]; try reflexivity. unfold format_fixed.
  assert (Hds : forall m, is_ascii (pad_left (S k) (show_nonneg m)) = true)
    by (intros; apply show_pad_ascii).
  destruct (Qlt_le_dec q 0), k; autorewrite with bot_rw;
    rewrite ?substring_ascii by apply Hds; reflexivity.
Qed.

(** [str(ts)] writes digits and the separators [- :.]. *)
Lemma dt_str_ascii t : is_ascii (dt_str t) = true.
Proof.
  destruct t as [ns|]; [|reflexivity]. unfold dt_str.
  destruct (civil_from_days _) as [[y mo] d].
  autorewrite with bot_rw. simpl.
  destruct (_ =? 0)%Z; [reflexivity|].
  destruct (_ =? 0)%Z; rewrite is_ascii_cons; autorewrite with bot_rw; reflexivity.
Qed.

End Utf8.
