(* ===== verification/Io.v ===== *)
(** * The asynchronous I/O of the bot as a state-and-exception monad

    Every [await] of src/bot.py is an interaction with the outside world:
    an HTTP GET to the exchange ([session.get] then [resp.json()]), a
    Telegram [send_message], a [print], an [asyncio.sleep].  They run one
    at a time (the code awaits each before the next), so a run is a
    sequence of events.  A computation [io A] takes the world (the
    counters of GETs and sends so far and the trace of events) and
    returns a value or a raised exception together with the new world:
    side effects that happened before an exception stay in the world, as
    in Python.

    What the outside world answers is the interface [Env]: the response
    to the n-th GET, whether the n-th [send_message] succeeds, whether
    the Telegram application starts with a given token, and the
    behaviours of library functions the development leaves abstract
    (CPython's [str] of floats, lists and dicts; pandas' [to_datetime]
    on values other than [int] and [None]).  Every theorem about the
    handlers holds for every instance of [Env].  Two families of
    combinator lemmas carry the handlers' proofs: [appends P] (every
    event a computation adds satisfies [P]) and [gets_within k] (it
    makes at most [k] GETs, whatever its outcome). *)

From Stdlib Require Import List Lia Arith ZArith String.
From S2P Require Import Prelude PyFloat Python Datetime.
Import ListNotations Py Dt.

Module Io.

(** The body of a response: [None] when it is not JSON, so that
    [resp.json()] raises. *)
Inductive response : Type :=
| RNetErr
| RBody (body : option json).

Class Env : Type := {
  http_get : nat -> string -> response;
  tg_send_ok : nat -> option string -> string -> bool;
  tg_init_ok : string -> bool;
  str_other : json -> string;
  to_datetime_other : json -> result (option dt)
}.

Inductive event : Type :=
| EvGet (url : string)
| EvSend (chat_id : option string) (text : string)
| EvPrint (line : string)
| EvPrintExn (prefix : string) (e : exn)
| EvSleep (seconds : nat)
| EvStartup
| EvReply (text : string)
| EvSessionOpen
| EvSessionClose.

Record world : Type := mkWorld {
  gets : nat;
  sends : nat;
  trace : list event
}.

Definition io (A : Type) : Type := world -> result A * world.

Definition ret {A} (a : A) : io A := fun w => (Ok a, w).

Definition bind {A B} (m : io A) (k : A -> io B) : io B :=
  fun w =>
    match m w with
    | (Ok a, w') => k a w'
    | (Err e, w') => (Err e, w')
    end.

Definition raise {A} (e : exn) : io A := fun w => (Err e, w).

Definition lift {A} (r : result A) : io A := fun w => (r, w).

(** [try: m except Exception as e: h e]. *)
Definition try_except {A} (m : io A) (h : exn -> io A) : io A :=
  fun w =>
    match m w with
    | (Ok a, w') => (Ok a, w')
    | (Err e, w') => h e w'
    end.

Declare Scope io_scope.
Delimit Scope io_scope with io.
Notation "x <- m ;; k" := (bind m (fun x => k))
  (at level 61, m at next level, right associativity) : io_scope.
Notation "m ;; k" := (bind m (fun _ => k))
  (at level 61, right associativity) : io_scope.
Local Open Scope io_scope.

Definition emit (ev : event) : io unit :=
  fun w => (Ok tt, mkWorld (gets w) (sends w) (trace w ++ [ev])).

Definition print (line : string) : io unit := emit (EvPrint line).

Definition print_exn (prefix : string) (e : exn) : io unit := emit (EvPrintExn prefix e).

(** [await asyncio.sleep(n)]. *)
Definition sleep (n : nat) : io unit := emit (EvSleep n).

(** [async with session.get(url) as resp: data = await resp.json()]. *)
Definition get_json `{Env} (url : string) : io json :=
  fun w =>
    let w' := mkWorld (S (gets w)) (sends w) (trace w ++ [EvGet url]) in
    match http_get (gets w) url with
    | RNetErr => (Err ClientError, w')
    | RBody None => (Err ContentTypeError, w')
    | RBody (Some j) => (Ok j, w')
    end.

(** [await app.bot.send_message(chat_id=.., text=..)]: a delivered
    message is an [EvSend] event. *)
Definition send_message `{Env} (chat_id : option string) (text : string) : io unit :=
  fun w =>
    if tg_send_ok (sends w) chat_id text then
      (Ok tt, mkWorld (gets w) (S (sends w)) (trace w ++ [EvSend chat_id text]))
    else (Err TelegramError, mkWorld (gets w) (S (sends w)) (trace w))%nat.

(** [try: m finally: c]: [c] runs whatever [m] does; an exception
    of [c] replaces the outcome of [m]. *)
Definition finally {A} (m : io A) (c : io unit) : io A :=
  fun w =>
    let '(r, w1) := m w in
    match c w1 with
    | (Ok _, w2) => (r, w2)
    | (Err e, w2) => (Err e, w2)
    end.

(** [async with aiohttp.ClientSession() as session: body]: the
    session is opened, and [__aexit__] closes it however [body] ends. *)
Definition with_session {A} (body : io A) : io A :=
  bind (emit EvSessionOpen) (fun _ => finally body (emit EvSessionClose)).

(** [reply_text] to an incoming command. *)
Definition reply_text (text : string) : io unit := emit (EvReply text).

(** [ApplicationBuilder().token(TOKEN).build()], then [initialize()],
    [start()] and [updater.start_polling()]: building the bot raises
    [InvalidToken] (a [TelegramError]) when the token is missing or
    empty; initialising it fails when Telegram rejects the token. *)
Definition startup `{Env} (token : option string) : io unit :=
  fun w =>
    match token with
    | None | Some EmptyString => (Err TelegramError, w)
    | Some t =>
        if tg_init_ok t then (Ok tt, mkWorld (gets w) (sends w) (trace w ++ [EvStartup]))
        else (Err TelegramError, w)
    end.

(** [for x in xs: body(x)], stopping at the first exception. *)
Fixpoint iter_io {A} (body : A -> io unit) (xs : list A) : io unit :=
  match xs with
  | [] => ret tt
  | x :: rest => body x ;; iter_io body rest
  end.

(** ** Laws *)

Lemma bind_ret_l {A B} (a : A) (k : A -> io B) w : bind (ret a) k w = k a w.
Proof. reflexivity. Qed.

Lemma bind_assoc {A B C} (m : io A) (k : A -> io B) (k' : B -> io C) w :
  bind (bind m k) k' w = bind m (fun a => bind (k a) k') w.
Proof. unfold bind. destruct (m w) as [[a|e] w']; reflexivity. Qed.

Lemma bind_ok {A B} (m : io A) (k : A -> io B) w a w' :
  m w = (Ok a, w') -> bind m k w = k a w'.
Proof. intros H. unfold bind. now rewrite H. Qed.

Lemma bind_err {A B} (m : io A) (k : A -> io B) w e w' :
  m w = (Err e, w') -> bind m k w = (Err e, w').
Proof. intros H. unfold bind. now rewrite H. Qed.

(** ** Inversion of successful runs *)

Lemma bind_inv_ok {A B} (m : io A) (k : A -> io B) w b w'' :
  bind m k w = (Ok b, w'') -> exists a w', m w = (Ok a, w') /\ k a w' = (Ok b, w'').
Proof.
  unfold bind. destruct (m w) as [[a|e] w']; [|discriminate]. intros H. eauto.
Qed.

Lemma ret_inv {A} (a b : A) w w' : ret a w = (Ok b, w') -> a = b /\ w' = w.
Proof. intros [= -> ->]. auto. Qed.

Lemma lift_inv {A} (r : result A) a w w' : lift r w = (Ok a, w') -> r = Ok a /\ w' = w.
Proof. intros [= -> ->]. auto. Qed.

Lemma get_json_inv `{Env} url w j w' :
  get_json url w = (Ok j, w') ->
  http_get (gets w) url = RBody (Some j) /\
  w' = mkWorld (S (gets w)) (sends w) (trace w ++ [EvGet url]).
Proof.
  unfold get_json. destruct (http_get (gets w) url) as [|[j'|]]; try discriminate.
  intros [= -> <-]. auto.
Qed.

(** Peel the successful run of a sequence of binds in hypothesis [H]. *)
Ltac inv_run H :=
  repeat match type of H with
  | bind _ _ _ = (Ok _, _) =>
      let a := fresh "a" in let w := fresh "w" in let H1 := fresh "H" in
      apply bind_inv_ok in H as (a & w & H1 & H); inv_run H1
  | ret _ _ = (Ok _, _) => apply ret_inv in H as [? ?]; subst
  | lift _ _ = (Ok _, _) => apply lift_inv in H as [? ?]; subst
  | get_json _ _ = (Ok _, _) => let Hg := fresh "Hget" in apply get_json_inv in H as [Hg ?]; subst
  end.

(** ** What a computation appends to the trace *)

(** [m] only appends events satisfying [P] to the trace, whatever its
    outcome. *)
Definition appends (P : event -> Prop) {A} (m : io A) : Prop :=
  forall w, exists evs, trace (snd (m w)) = trace w ++ evs /\ Forall P evs.

Section Appends.
Variable P : event -> Prop.

Lemma appends_ret {A} (a : A) : appends P (ret a).
Proof. intros w. exists []. now rewrite app_nil_r. Qed.

Lemma appends_bind {A B} (m : io A) (k : A -> io B) :
  appends P m -> (forall a, appends P (k a)) -> appends P (bind m k).
Proof.
  intros Hm Hk w. unfold bind. destruct (Hm w) as (e1 & H1 & F1).
  destruct (m w) as [[a|e] w'] eqn:E; simpl in *.
  - destruct (Hk a w') as (e2 & H2 & F2). exists (e1 ++ e2).
    rewrite H2, H1, app_assoc. split; [reflexivity|]. now apply Forall_app.
  - now exists e1.
Qed.

Lemma appends_emit ev : P ev -> appends P (emit ev).
Proof. intros Hev w. exists [ev]. split; [reflexivity|now constructor]. Qed.

Lemma appends_get_json `{Env} url : P (EvGet url) -> appends P (get_json url).
Proof.
  intros Hev w. exists [EvGet url]. split; [|now constructor].
  unfold get_json. now destruct http_get as [|[j|]].
Qed.

Lemma appends_send_message `{Env} c t : P (EvSend c t) -> appends P (send_message c t).
Proof.
  intros Hev w. unfold send_message. destruct tg_send_ok; simpl.
  - exists [EvSend c t]. split; [reflexivity|now constructor].
  - exists []. now rewrite app_nil_r.
Qed.

Lemma appends_lift {A} (r : result A) : appends P (lift r).
Proof. intros w. exists []. now rewrite app_nil_r. Qed.

Lemma appends_try {A} (m : io A) h :
  appends P m -> (forall e, appends P (h e)) -> appends P (try_except m h).
Proof.
  intros Hm Hh w. unfold try_except. destruct (Hm w) as (e1 & H1 & F1).
  destruct (m w) as [[a|e] w'] eqn:E; simpl in *; [eauto|].
  destruct (Hh e w') as (e2 & H2 & F2). exists (e1 ++ e2).
  rewrite H2, H1, app_assoc. split; [reflexivity|]. now apply Forall_app.
Qed.

Lemma appends_finally {A} (m : io A) c :
  appends P m -> appends P c -> appends P (finally m c).
Proof.
  intros Hm Hc w. unfold finally. destruct (Hm w) as (e1 & H1 & F1).
  destruct (m w) as [r w1]. destruct (Hc w1) as (e2 & H2 & F2).
  exists (e1 ++ e2). destruct (c w1) as [[u|e] w2]; simpl in *;
    (rewrite H2, H1, app_assoc; split; [reflexivity|now apply Forall_app]).
Qed.

Lemma appends_with_session {A} (m : io A) :
  P EvSessionOpen -> P EvSessionClose -> appends P m -> appends P (with_session m).
Proof.
  intros Ho Hc Hm. apply appends_bind; [now apply appends_emit|].
  intros _. apply appends_finally; [exact Hm | now apply appends_emit].
Qed.

Lemma appends_iter {A} (body : A -> io unit) xs :
  (forall x, appends P (body x)) -> appends P (iter_io body xs).
Proof.
  intros Hb. induction xs as [|x xs IH]; simpl.
  - apply appends_ret.
  - apply appends_bind; auto.
Qed.

End Appends.

Lemma appends_weaken (P Q : event -> Prop) {A} (m : io A) :
  (forall ev, P ev -> Q ev) -> appends P m -> appends Q m.
Proof.
  intros HPQ Hm w. destruct (Hm w) as (evs & Ht & HP). exists evs.
  split; [exact Ht|]. eapply Forall_impl; eauto.
Qed.

Lemma appends_startup `{Env} P tok : P EvStartup -> appends P (startup tok).
Proof.
  intros HP w. unfold startup.
  destruct tok as [[|c t]|].
  - exists []. simpl. now rewrite app_nil_r.
  - destruct (tg_init_ok (String c t)); simpl.
    + exists [EvStartup]. split; [reflexivity|now constructor].
    + exists []. now rewrite app_nil_r.
  - exists []. simpl. now rewrite app_nil_r.
Qed.

#[export] Hint Resolve appends_ret appends_bind appends_emit appends_get_json
  appends_send_message appends_lift appends_try appends_iter appends_finally
  appends_with_session : bot.

(** ** How many requests a computation makes *)

(** [m] makes at most [k] GETs, whatever its outcome: the counter of
    GETs grows by at most [k] (and never decreases). *)
Definition gets_within (k : nat) {A} (m : io A) : Prop :=
  forall w, (gets w <= gets (snd (m w)) <= gets w + k)%nat.

Lemma gets_within_ret {A} (a : A) : gets_within 0 (ret a).
Proof. intros w. simpl. lia. Qed.

Lemma gets_within_emit ev : gets_within 0 (emit ev).
Proof. intros w. simpl. lia. Qed.

Lemma gets_within_lift {A} (r : result A) : gets_within 0 (lift r).
Proof. intros w. simpl. lia. Qed.

Lemma gets_within_get_json `{Env} url : gets_within 1 (get_json url).
Proof. intros w. unfold get_json. destruct http_get as [|[j|]]; simpl; lia. Qed.

Lemma gets_within_send_message `{Env} c t : gets_within 0 (send_message c t).
Proof. intros w. unfold send_message. destruct tg_send_ok; simpl; lia. Qed.

Lemma gets_within_weaken {A} k k' (m : io A) : (k <= k')%nat -> gets_within k m -> gets_within k' m.
Proof. intros Hk Hm w. specialize (Hm w). lia. Qed.

Lemma gets_within_bind {A B} k1 k2 (m : io A) (f : A -> io B) :
  gets_within k1 m -> (forall a, gets_within k2 (f a)) -> gets_within (k1 + k2) (bind m f).
Proof.
  intros Hm Hf w. specialize (Hm w). unfold bind.
  destruct (m w) as [[a|e] w1]; simpl in *; [specialize (Hf a w1)|]; lia.
Qed.

Lemma gets_within_try {A} k1 k2 (m : io A) h :
  gets_within k1 m -> (forall e, gets_within k2 (h e)) -> gets_within (k1 + k2) (try_except m h).
Proof.
  intros Hm Hh w. specialize (Hm w). unfold try_except.
  destruct (m w) as [[a|e] w1]; simpl in *; [|specialize (Hh e w1)]; lia.
Qed.

Lemma gets_within_with_session {A} k (m : io A) :
  gets_within k m -> gets_within k (with_session m).
Proof.
  intros Hm w. unfold with_session, bind, finally, emit. simpl.
  specialize (Hm (mkWorld (gets w) (sends w) (trace w ++ [EvSessionOpen]))). simpl in Hm.
  destruct m as [r w1]. simpl in *. lia.
Qed.

(** The run of [with_session m]: [m] runs in the world where the
    session was opened, and the session is closed in the world it
    leaves. *)
Lemma with_session_run {A} (m : io A) w :
  with_session m w =
  let '(r, w1) := m (mkWorld (gets w) (sends w) (trace w ++ [EvSessionOpen])) in
  (r, mkWorld (gets w1) (sends w1) (trace w1 ++ [EvSessionClose])).
Proof. unfold with_session, bind, finally, emit. simpl. now destruct m. Qed.

Lemma gets_within_iter {A} k (body : A -> io unit) xs :
  (forall x, gets_within k (body x)) -> gets_within (k * List.length xs) (iter_io body xs).
Proof.
  intros Hb. induction xs as [|x xs IH]; simpl.
  - rewrite Nat.mul_0_r. apply gets_within_ret.
  - replace (k * S (List.length xs))%nat with (k + k * List.length xs)%nat by lia.
    now apply gets_within_bind.
Qed.

End Io.
