(* ===== verification/Exchange.v ===== *)
(** * The exchange client: [get_all_symbols] and [fetch_data]

    [get_all_symbols] (src/bot.py lines 46-50) reads the instrument
    directory and keeps the symbols quoted in USDT whose status is
    TRADING; it has no handler, so every exception propagates to the
    caller.  [fetch_data] (lines 53-74) reads the last funding rate of a
    symbol and, for each of the intervals 1m, 5m and 15m, the last 100
    candles, whose closing prices go through [calculate_rsi]; any
    exception inside is caught at the symbol boundary, logged, and turned
    into the tuple [(symbol, None, None, None)]. *)

From Stdlib Require Import List Lia Arith ZArith QArith String Ascii.
From S2P Require Import Prelude PyFloat Series Rsi Python Format Datetime Io.
Import ListNotations Py Dt Io.

Module Exchange.

Local Open Scope io_scope.
Local Open Scope string_scope.

Section WithEnv.
Context `{Env}.

(** [str(v)] / [f"{v}"] for the values a symbol can be. *)
Definition py_str (v : json) : string :=
  match v with
  | JStr s => s
  | JInt z => Fmt.show_Z z
  | JBool b => if b then "True" else "False"
  | JNull => "None"
  | _ => str_other v
  end.

Definition BINANCE_FUTURES_SYMBOLS_URL : string :=
  "https://fapi.binance.com/fapi/v1/exchangeInfo".

(** The list comprehension of line 49, element by element: the test
    [s["quoteAsset"] == "USDT" and s["status"] == "TRADING"] (the second
    subscript only when the first comparison holds), then
    [s["symbol"]]. *)
Fixpoint select_symbols (xs : list json) : result (list json) :=
  match xs with
  | [] => Ok []
  | s :: rest =>
      (qa <- getitem s (KStr "quoteAsset") ;;
       keep <- (if is_str qa "USDT" then
                  st <- getitem s (KStr "status") ;; Ok (is_str st "TRADING")
                else Ok false) ;;
       hd <- (if keep then sym <- getitem s (KStr "symbol") ;; Ok [sym] else Ok []) ;;
       tl <- select_symbols rest ;;
       Ok (hd ++ tl)%list)%result
  end.

Definition get_all_symbols : io (list json) :=
  data <- get_json BINANCE_FUTURES_SYMBOLS_URL ;;
  lift (syms <- getitem data (KStr "symbols") ;;
        xs <- py_iter syms ;;
        select_symbols xs)%result.

(** [pd.to_datetime(v, unit='ms')]. *)
Definition to_datetime_ms (v : json) : result (option dt) :=
  match v with
  | JInt z => (t <- to_datetime_ms_int z ;; Ok (Some t))%result
  | JNull => Ok None
  | JFloat NaN => Ok (Some NaT)
  | _ => to_datetime_other v
  end.

Definition url_fr (symbol : string) : string :=
  "https://fapi.binance.com/fapi/v1/fundingRate?symbol=" ++ symbol ++ "&limit=1".

Definition url_klines (symbol interval : string) : string :=
  "https://fapi.binance.com/fapi/v1/klines?symbol=" ++ symbol ++
  "&interval=" ++ interval ++ "&limit=100".

Definition INTERVALS : list string := ["1m"; "5m"; "15m"].

(** [pd.Series([float(k[4]) for k in klines])]. *)
Definition closes_of (klines : json) : result (list pyfloat) :=
  (ks <- py_iter klines ;;
   map_result (fun k => (c <- getitem k (KInt 4) ;; py_float c)%result) ks)%result.

(** [calculate_rsi(closes).iloc[-1]]. *)
Definition rsi_of_klines (klines : json) : result pyfloat :=
  (closes <- closes_of klines ;;
   match Series.iloc_last (Rsi.calculate_rsi Rsi.RSI_PERIOD closes) with
   | Some v => Ok v
   | None => Err IndexError
   end)%result.

(** The loop of lines 64-69, filling [rsi_values]. *)
Fixpoint fetch_rsi (symbol : string) (intervals : list string)
    (rsi_values : list (string * pyfloat)) : io (list (string * pyfloat)) :=
  match intervals with
  | [] => ret rsi_values
  | interval :: rest =>
      klines <- get_json (url_klines symbol interval) ;;
      v <- lift (rsi_of_klines klines) ;;
      fetch_rsi symbol rest (dict_set interval v rsi_values)
  end.

(** The tuple [fetch_data] returns: the symbol, the funding rate, the
    funding time ([None] for Python's [None]) and the dict of RSI values;
    [fr] and [rsi_values] are [None] exactly when the fetch failed. *)
Record fetch_result : Type := mkFetch {
  f_symbol : json;
  f_rate : option pyfloat;
  f_time : option dt;
  f_rsi : option (list (string * pyfloat))
}.

(** "ı" (U+0131) in UTF-8. *)
Definition dotless_i : string := bytes [196; 177]%nat.

(** The prefix of the message printed on failure:
    [f"{symbol} verisi alınamadı: {e}"]. *)
Definition fetch_fail_prefix (symbol : json) : string :=
  py_str symbol ++ " verisi al" ++ dotless_i ++ "namad" ++ dotless_i ++ ": ".

Definition fetch_data (symbol : json) : io fetch_result :=
  try_except
    (fr_data <- get_json (url_fr (py_str symbol)) ;;
     funding_rate <- lift (r0 <- getitem fr_data (KInt 0) ;;
                           v <- getitem r0 (KStr "fundingRate") ;;
                           f <- py_float v ;;
                           Ok (fmul f (Fin 100)))%result ;;
     funding_time <- lift (r0 <- getitem fr_data (KInt 0) ;;
                           v <- getitem r0 (KStr "fundingTime") ;;
                           to_datetime_ms v)%result ;;
     rsi_values <- fetch_rsi (py_str symbol) INTERVALS [] ;;
     ret (mkFetch symbol (Some funding_rate) funding_time (Some rsi_values)))
    (fun e => print_exn (fetch_fail_prefix symbol) e ;;
              ret (mkFetch symbol None None None)).

Local Close Scope string_scope.

(** ** Lemmas *)

Lemma dict_set_new {V} k (v : V) d :
  ~ In k (map fst d) -> dict_set k v d = d ++ [(k, v)].
Proof.
  induction d as [|[k' v'] d IH]; intros Hn; simpl in *; [reflexivity|].
  destruct (String.eqb_spec k k'); [subst; tauto|]. f_equal. auto.
Qed.

(** The keys of [rsi_values] after the loop are the intervals, in
    order. *)
Lemma fetch_rsi_keys sym ivs acc w acc' w' :
  NoDup (map fst acc ++ ivs) ->
  fetch_rsi sym ivs acc w = (Ok acc', w') ->
  map fst acc' = map fst acc ++ ivs.
Proof.
  revert acc w. induction ivs as [|iv ivs IH]; intros acc w Hnd Hrun; simpl in Hrun.
  - injection Hrun as <- <-. now rewrite app_nil_r.
  - unfold bind, get_json, lift in Hrun.
    destruct (http_get (gets w) (url_klines sym iv)) as [|[j|]]; try discriminate.
    destruct (rsi_of_klines j) as [v|e]; [|discriminate].
    assert (Hnin : ~ In iv (map fst acc)).
    { intros Hin. apply NoDup_remove_2 in Hnd. apply Hnd. apply in_or_app. now left. }
    rewrite dict_set_new in Hrun by exact Hnin.
    apply IH in Hrun.
    + rewrite Hrun, map_app, <- app_assoc. reflexivity.
    + rewrite map_app, <- app_assoc. exact Hnd.
Qed.

(** The body of [fetch_data] before the handler: on success, the funding
    rate and the RSI dict are present and the dict has one key per
    interval. *)
Definition fetch_body (symbol : json) : io fetch_result :=
  fr_data <- get_json (url_fr (py_str symbol)) ;;
  funding_rate <- lift (r0 <- getitem fr_data (KInt 0) ;;
                        v <- getitem r0 (KStr "fundingRate") ;;
                        f <- py_float v ;;
                        Ok (fmul f (Fin 100)))%result ;;
  funding_time <- lift (r0 <- getitem fr_data (KInt 0) ;;
                        v <- getitem r0 (KStr "fundingTime") ;;
                        to_datetime_ms v)%result ;;
  rsi_values <- fetch_rsi (py_str symbol) INTERVALS [] ;;
  ret (mkFetch symbol (Some funding_rate) funding_time (Some rsi_values)).

Lemma fetch_data_unfold symbol :
  fetch_data symbol = try_except (fetch_body symbol)
    (fun e => print_exn (fetch_fail_prefix symbol) e ;; ret (mkFetch symbol None None None)).
Proof. reflexivity. Qed.

Lemma fetch_body_ok symbol w r w' :
  fetch_body symbol w = (Ok r, w') ->
  f_symbol r = symbol /\
  exists fr rsi, f_rate r = Some fr /\ f_rsi r = Some rsi /\ map fst rsi = INTERVALS.
Proof.
  unfold fetch_body, bind at 1, get_json.
  destruct (http_get (gets w) _) as [|[fr_data|]]; try discriminate.
  unfold bind at 1, lift.
  destruct (_ <- getitem fr_data (KInt 0) ;; _)%result as [fr|e]; [|discriminate].
  unfold bind at 1.
  destruct (_ <- getitem fr_data (KInt 0) ;; _)%result as [ft|e]; [|discriminate].
  unfold bind at 1.
  destruct (fetch_rsi _ _ _ _) as [[rsi|e] w1] eqn:Hrsi; [|discriminate].
  intros [= <- <-]. split; [reflexivity|]. exists fr, rsi. repeat split.
  apply fetch_rsi_keys in Hrsi; [exact Hrsi|].
  repeat constructor; simpl; intuition discriminate.
Qed.

Definition is_get (ev : event) : Prop :=
  match ev with EvGet _ => True | _ => False end.

(** The loop over the intervals only requests candle series. *)
Lemma fetch_rsi_appends (P : event -> Prop) sym ivs acc :
  (forall iv, P (EvGet (url_klines sym iv))) -> appends P (fetch_rsi sym ivs acc).
Proof.
  intros HP. revert acc. induction ivs as [|iv ivs IH]; intros acc; simpl; eauto with bot.
Qed.

(** The body of [fetch_data] only requests the funding rate and candle
    series of its symbol. *)
Lemma fetch_body_appends (P : event -> Prop) symbol :
  P (EvGet (url_fr (py_str symbol))) -> (forall iv, P (EvGet (url_klines (py_str symbol) iv))) ->
  appends P (fetch_body symbol).
Proof.
  intros Hfr Hk. unfold fetch_body.
  apply appends_bind; [now apply appends_get_json|]. intros fr_data.
  apply appends_bind; [apply appends_lift|]. intros fr.
  apply appends_bind; [apply appends_lift|]. intros ft.
  apply appends_bind; [now apply fetch_rsi_appends|]. intros rsi. apply appends_ret.
Qed.

Lemma fetch_body_only_gets symbol : appends is_get (fetch_body symbol).
Proof. apply fetch_body_appends; intros; exact I. Qed.

(** The loop over the intervals makes one request per interval. *)
Lemma fetch_rsi_gets sym ivs acc : gets_within (List.length ivs) (fetch_rsi sym ivs acc).
Proof.
  revert acc. induction ivs as [|iv ivs IH]; intros acc; simpl; [apply gets_within_ret|].
  apply (gets_within_bind 1 (List.length ivs)); [apply gets_within_get_json|]. intros kl.
  apply (gets_within_bind 0 (List.length ivs)); [apply gets_within_lift|]. intros v. apply IH.
Qed.

(** [fetch_data] makes at most four requests: the funding rate and one
    candle series per interval, whatever fails. *)
Lemma fetch_data_gets symbol : gets_within 4 (fetch_data symbol).
Proof.
  rewrite fetch_data_unfold. apply (gets_within_try 4 0); [|intros e;
    apply (gets_within_bind 0 0); [apply gets_within_emit | intros; apply gets_within_ret]].
  unfold fetch_body. apply (gets_within_bind 1 3); [apply gets_within_get_json|]. intros fr_data.
  apply (gets_within_bind 0 3); [apply gets_within_lift|]. intros fr.
  apply (gets_within_bind 0 3); [apply gets_within_lift|]. intros ft.
  apply (gets_within_bind 3 0); [apply fetch_rsi_gets | intros; apply gets_within_ret].
Qed.

(** ** Properties of the exchange client *)

(** The two outcomes of [fetch_data], with the events they leave. *)
Lemma fetch_data_cases symbol w r w' :
  fetch_data symbol w = (Ok r, w') ->
  f_symbol r = symbol /\
  ((exists fr rsi evs, f_rate r = Some fr /\ f_rsi r = Some rsi /\ map fst rsi = INTERVALS /\
      trace w' = trace w ++ evs /\ Forall is_get evs) \/
   (f_rate r = None /\ f_time r = None /\ f_rsi r = None /\
      exists evs e, trace w' = trace w ++ evs ++ [EvPrintExn (fetch_fail_prefix symbol) e] /\
      Forall is_get evs)).
Proof.
  rewrite fetch_data_unfold. unfold try_except.
  destruct (fetch_body_only_gets symbol w) as (evs & Hevs & Hg).
  destruct (fetch_body symbol w) as [[v|e] w1] eqn:B; intros Hr; simpl in Hevs.
  - injection Hr as <- <-. apply fetch_body_ok in B as (Hs & fr & rsi & H1 & H2 & H3).
    split; [assumption|]. left. exists fr, rsi, evs. auto.
  - injection Hr as <- <-. split; [reflexivity|]. right. simpl. repeat split.
    exists evs, e. rewrite Hevs, app_assoc. auto.
Qed.

(** [fetch_data] returns, for the symbol it was given. *)
Lemma fetch_data_ok symbol w :
  exists r w', fetch_data symbol w = (Ok r, w') /\ f_symbol r = symbol.
Proof.
  rewrite fetch_data_unfold. unfold try_except.
  destruct (fetch_body symbol w) as [[r|e] w1] eqn:B.
  - exists r, w1. split; [reflexivity|]. now apply fetch_body_ok in B.
  - eexists _, _. split; reflexivity.
Qed.

Lemma fetch_data_appends (P : event -> Prop) symbol :
  P (EvGet (url_fr (py_str symbol))) -> (forall iv, P (EvGet (url_klines (py_str symbol) iv))) ->
  (forall e, P (EvPrintExn (fetch_fail_prefix symbol) e)) ->
  appends P (fetch_data symbol).
Proof.
  intros Hfr Hk Hp. rewrite fetch_data_unfold. apply appends_try; [now apply fetch_body_appends|].
  intros e. apply appends_bind; [now apply appends_emit|]. intros u. apply appends_ret.
Qed.

(** C21: the symbol boundary.  [fetch_data] never raises: whatever the exchange answers (transport
    errors, bodies that are not JSON, missing fields, unparsable
    numbers, timestamps out of range, short candle series), it returns a
    tuple for the symbol it was given. *)
Theorem fetch_data_never_raises symbol w e w' :
  fetch_data symbol w <> (Err e, w').
Proof.
  destruct (fetch_data_ok symbol w) as (r & w1 & Hr & _). now rewrite Hr.
Qed.

(** C7: complete data or exclusion.  A result of [fetch_data] either carries a funding rate and an RSI
    dict with exactly one entry per interval 1m, 5m, 15m, in that order,
    or has [None] for the rate, the time and the dict; in the second case
    the failure was logged as the last event of the fetch. *)
Theorem fetch_data_complete_or_excluded symbol w r w' :
  fetch_data symbol w = (Ok r, w') ->
  (exists fr rsi, f_rate r = Some fr /\ f_rsi r = Some rsi /\ map fst rsi = INTERVALS) \/
  (f_rate r = None /\ f_time r = None /\ f_rsi r = None /\
   exists evs e, trace w' = trace w ++ evs ++ [EvPrintExn (fetch_fail_prefix symbol) e]).
Proof.
  intros Hr. apply fetch_data_cases in Hr as (_ & [(fr & rsi & evs & ?) | (? & ? & ? & evs & e & ? & _)]).
  - left. exists fr, rsi. tauto.
  - right. repeat split; auto. eauto.
Qed.

(** C8: a reported symbol had every candle series.  When [fetch_data] returns an RSI dict, it made exactly four GETs, in
    order (the funding rate, then the candles of 1m, 5m and 15m), each of
    the three candle responses was JSON from which an RSI value was
    computed, and the dict holds these three values: a symbol whose
    candle fetch fails for one interval is never reported with partial
    data. *)
Theorem fetch_data_all_candles symbol w r w' rsi :
  fetch_data symbol w = (Ok r, w') -> f_rsi r = Some rsi ->
  let s := py_str symbol in
  trace w' = trace w ++ [EvGet (url_fr s); EvGet (url_klines s "1m"%string);
                         EvGet (url_klines s "5m"%string); EvGet (url_klines s "15m"%string)] /\
  exists j1 j2 j3 v1 v2 v3,
    http_get (S (gets w)) (url_klines s "1m"%string) = RBody (Some j1) /\ rsi_of_klines j1 = Ok v1 /\
    http_get (S (S (gets w))) (url_klines s "5m"%string) = RBody (Some j2) /\ rsi_of_klines j2 = Ok v2 /\
    http_get (S (S (S (gets w)))) (url_klines s "15m"%string) = RBody (Some j3) /\
    rsi_of_klines j3 = Ok v3 /\
    rsi = [("1m"%string, v1); ("5m"%string, v2); ("15m"%string, v3)].
Proof.
  rewrite fetch_data_unfold. unfold try_except.
  destruct (fetch_body symbol w) as [[v|e] w1] eqn:B; intros Hr Hrsi;
    injection Hr as <- <-; [|discriminate].
  unfold fetch_body, fetch_rsi, INTERVALS in B. inv_run B.
  simpl in *. injection Hrsi as <-.
  split; [rewrite <- ?app_assoc; reflexivity|].
  do 6 eexists. repeat split; eassumption.
Qed.

(** C15: the reported funding rate.  When [fetch_data] returns a funding
    rate, the first GET of the fetch (the fundingRate endpoint of the
    symbol) answered a JSON list whose first record has a [fundingRate]
    that [float] reads as [f], and the rate is [f * 100]; its
    [fundingTime] converts to the funding time returned. *)
Theorem fetch_data_funding_rate symbol w r w' fr :
  fetch_data symbol w = (Ok r, w') -> f_rate r = Some fr ->
  exists body rec v f t,
    http_get (gets w) (url_fr (py_str symbol)) = RBody (Some body) /\
    getitem body (KInt 0) = Ok rec /\
    getitem rec (KStr "fundingRate"%string) = Ok v /\ py_float v = Ok f /\
    fr = fmul f (Fin 100) /\
    getitem rec (KStr "fundingTime"%string) = Ok t /\ to_datetime_ms t = Ok (f_time r).
Proof.
  rewrite fetch_data_unfold. unfold try_except.
  destruct (fetch_body symbol w) as [[v|e] w1] eqn:B; intros Hr Hfr;
    injection Hr as <- <-; [|discriminate].
  unfold fetch_body in B. inv_run B. simpl in Hfr |- *. injection Hfr as <-.
  repeat match goal with
  | H : rbind _ _ = Ok _ |- _ => apply rbind_inv_ok in H as (? & ? & H)
  | H : Ok _ = Ok _ |- _ => injection H as H; subst
  | H : ?x = Ok _, H' : ?x = Ok _ |- _ => rewrite H in H'; injection H' as H'; subst
  end.
  do 5 eexists. repeat split; try eassumption; try reflexivity.
Qed.

(** ** The symbol universe *)

(** An instrument of the directory: its symbol, quote asset and status,
    after any other fields. *)
Record instrument : Type := mkInstrument {
  i_symbol : string;
  i_quote : string;
  i_status : string
}.

Definition render (extra : list (string * json)) (i : instrument) : json :=
  JDict (extra ++ [("symbol"%string, JStr (i_symbol i)); ("quoteAsset"%string, JStr (i_quote i));
                   ("status"%string, JStr (i_status i))]).

Definition active (i : instrument) : bool :=
  String.eqb (i_quote i) "USDT"%string && String.eqb (i_status i) "TRADING"%string.

Lemma dict_lookup_app k l1 l2 :
  dict_lookup k (l1 ++ l2) =
  match dict_lookup k l2 with Some v => Some v | None => dict_lookup k l1 end.
Proof.
  induction l1 as [|[k' v'] l1 IH]; simpl.
  - now destruct (dict_lookup k l2).
  - rewrite IH. destruct (dict_lookup k l2); reflexivity.
Qed.

Lemma getitem_render extra i k v :
  dict_lookup k [("symbol"%string, JStr (i_symbol i)); ("quoteAsset"%string, JStr (i_quote i));
                 ("status"%string, JStr (i_status i))] = Some v ->
  getitem (render extra i) (KStr k) = Ok v.
Proof. intros Hk. simpl. now rewrite dict_lookup_app, Hk. Qed.

Lemma select_symbols_cons_render extra i rest :
  select_symbols (render extra i :: rest) =
  (tl <- select_symbols rest ;;
   Ok ((if active i then [JStr (i_symbol i)] else []) ++ tl))%result.
Proof.
  unfold select_symbols at 1; fold select_symbols.
  rewrite (getitem_render extra i "quoteAsset"%string (JStr (i_quote i))) by reflexivity.
  cbn [rbind is_str]. unfold active.
  destruct (String.eqb (i_quote i) "USDT"%string); cbn [rbind andb].
  - rewrite (getitem_render extra i "status"%string (JStr (i_status i))) by reflexivity.
    cbn [rbind is_str]. destruct (String.eqb (i_status i) "TRADING"%string); cbn [rbind].
    + rewrite (getitem_render extra i "symbol"%string (JStr (i_symbol i))) by reflexivity.
      reflexivity.
    + reflexivity.
  - reflexivity.
Qed.

Lemma select_symbols_render extra insts :
  select_symbols (map (render extra) insts) =
  Ok (map (fun i => JStr (i_symbol i)) (filter active insts)).
Proof.
  induction insts as [|i insts IH]; [reflexivity|].
  simpl map. rewrite select_symbols_cons_render, IH. cbn [rbind filter].
  now destruct (active i).
Qed.

(** C26: the universe.  On an instrument directory [{"symbols": [...]}] whose entries carry
    string fields [symbol], [quoteAsset] and [status] (after any other
    fields), [get_all_symbols] makes one GET and returns the symbols of
    the instruments quoted in USDT with status TRADING, in directory
    order. *)
Theorem get_all_symbols_filter w extra extra' insts :
  http_get (gets w) BINANCE_FUTURES_SYMBOLS_URL =
    RBody (Some (JDict (extra' ++ [("symbols"%string, JList (map (render extra) insts))]))) ->
  get_all_symbols w =
    (Ok (map (fun i => JStr (i_symbol i)) (filter active insts)),
     mkWorld (S (gets w)) (sends w) (trace w ++ [EvGet BINANCE_FUTURES_SYMBOLS_URL])).
Proof.
  intros Hget. unfold get_all_symbols, bind, get_json. rewrite Hget.
  unfold lift. simpl. rewrite dict_lookup_app. simpl.
  now rewrite select_symbols_render.
Qed.

(** C27: one malformed instrument aborts the universe.  An instrument without a [quoteAsset] field, after well-formed ones,
    makes the whole comprehension raise [KeyError]: [get_all_symbols]
    then fails instead of skipping the entry. *)
Theorem select_symbols_missing_quote extra insts bad rest :
  getitem bad (KStr "quoteAsset"%string) = Err KeyError ->
  select_symbols (map (render extra) insts ++ bad :: rest) = Err KeyError.
Proof.
  intros Hbad. induction insts as [|i insts IH].
  - simpl. now rewrite Hbad.
  - simpl map. rewrite <- app_comm_cons, select_symbols_cons_render, IH. reflexivity.
Qed.

(** C25: short candle series.  A candle response with no row makes [.iloc[-1]] raise [IndexError]
    (the symbol insts skipped), but one with 1 to 14 rows yields the RSI
    value NaN without any error: the undefined warm-up value insts stored
    in the RSI dict and reported. *)
Theorem rsi_of_klines_short klines closes :
  closes_of klines = Ok closes ->
  (List.length closes = 0%nat -> rsi_of_klines klines = Err IndexError) /\
  ((1 <= List.length closes <= Rsi.RSI_PERIOD)%nat -> rsi_of_klines klines = Ok NaN).
Proof.
  intros Hc. unfold rsi_of_klines. rewrite Hc. simpl rbind.
  split.
  - intros Hl. destruct closes; [reflexivity|discriminate].
  - intros Hl. rewrite Series.iloc_last_nth.
    + rewrite Rsi.length_calculate_rsi, Rsi.nth_error_calculate_rsi by lia.
      rewrite Rsi.rolling_diff_warmup by (reflexivity || unfold Rsi.RSI_PERIOD in *; lia).
      reflexivity.
    + intros Habs. apply (f_equal (@List.length pyfloat)) in Habs.
      rewrite Rsi.length_calculate_rsi in Habs. simpl in Habs. lia.
Qed.

End WithEnv.


(** ** A concrete exchange, for the witnesses

    Four instruments, of which BTCUSDT and BADUSDT are active; every
    candle series rises; the 5m candles of BADUSDT are not JSON; every
    request from the 100th on fails; Telegram accepts any message with a
    chat id and the token "123:demo". *)
Module Demo.

Local Open Scope string_scope.

Definition row (c : Z) : json :=
  JList [JInt 0; JStr "1"; JStr "1"; JStr "1"; JStr (Fmt.show_Z c); JStr "9"].

Definition rising_klines : json := JList (map (fun k => row (Z.of_nat k + 100)) (seq 0 20)).

Definition short_klines : json := JList (map (fun k => row (Z.of_nat k + 100)) (seq 0 5)).

Definition instruments : list instrument :=
  [mkInstrument "BTCUSDT" "USDT" "TRADING"; mkInstrument "ETHBTC" "BTC" "TRADING";
   mkInstrument "OLDUSDT" "USDT" "SETTLING"; mkInstrument "BADUSDT" "USDT" "TRADING"].

Definition directory : json :=
  JDict [("timezone", JStr "UTC");
         ("symbols", JList (map (render [("pricePrecision", JInt 2)]) instruments))].

Definition funding (rate : string) : json :=
  JList [JDict [("fundingRate", JStr rate); ("fundingTime", JInt 1704096000000)]].

#[local] Instance env : Env := {|
  http_get := fun n url =>
    if (100 <=? n)%nat then RNetErr
    else if String.eqb url BINANCE_FUTURES_SYMBOLS_URL then RBody (Some directory)
    else if String.eqb url (url_fr "BTCUSDT") then RBody (Some (funding "0.00600000"))
    else if String.eqb url (url_fr "BADUSDT") then RBody (Some (funding "-0.00700000"))
    else if String.eqb url (url_klines "BADUSDT" "5m") then RBody None
    else RBody (Some rising_klines);
  tg_send_ok := fun _ chat _ => match chat with Some _ => true | None => false end;
  tg_init_ok := fun tok => String.eqb tok "123:demo";
  str_other := fun _ => "?";
  to_datetime_other := fun _ => Err ValueError |}.

Definition w0 : world := mkWorld 0 0 [].

Definition run_result (r : result fetch_result * world) : fetch_result :=
  match fst r with Ok x => x | Err _ => mkFetch JNull None None None end.

Definition btc_result : fetch_result := Eval vm_compute in run_result (fetch_data (JStr "BTCUSDT") w0).
Definition btc_world : world := Eval vm_compute in snd (fetch_data (JStr "BTCUSDT") w0).
Definition btc_rsi : list (string * pyfloat) :=
  Eval vm_compute in match f_rsi btc_result with Some x => x | None => [] end.
Definition btc_rate : pyfloat :=
  Eval vm_compute in match f_rate btc_result with Some x => x | None => NaN end.
Definition bad_result : fetch_result := Eval vm_compute in run_result (fetch_data (JStr "BADUSDT") w0).
Definition bad_world : world := Eval vm_compute in snd (fetch_data (JStr "BADUSDT") w0).
Definition short_closes : list pyfloat :=
  Eval vm_compute in match closes_of short_klines with Ok c => c | Err _ => [] end.

End Demo.

Local Close Scope string_scope.

(** ** Witnesses *)

Lemma fetch_data_never_raises_witness :
  @fetch_data Demo.env (JStr "BADUSDT") Demo.w0 <> (Err ClientError, Demo.w0).
Proof. apply fetch_data_never_raises. Defined.

Lemma fetch_data_complete_or_excluded_witness :
  @fetch_data Demo.env (JStr "BADUSDT") Demo.w0 = (Ok Demo.bad_result, Demo.bad_world) /\
  ((exists fr rsi, f_rate Demo.bad_result = Some fr /\ f_rsi Demo.bad_result = Some rsi /\
                   map fst rsi = INTERVALS) \/
   (f_rate Demo.bad_result = None /\ f_time Demo.bad_result = None /\
    f_rsi Demo.bad_result = None /\
    exists evs e, trace Demo.bad_world =
      trace Demo.w0 ++ evs ++ [EvPrintExn (@fetch_fail_prefix Demo.env (JStr "BADUSDT")) e])).
Proof.
  assert (E : @fetch_data Demo.env (JStr "BADUSDT") Demo.w0 = (Ok Demo.bad_result, Demo.bad_world))
    by (vm_compute; reflexivity).
  split; [exact E|]. exact (@fetch_data_complete_or_excluded Demo.env _ _ _ _ E).
Defined.

Lemma fetch_data_all_candles_witness :
  @fetch_data Demo.env (JStr "BTCUSDT") Demo.w0 = (Ok Demo.btc_result, Demo.btc_world) /\
  f_rsi Demo.btc_result = Some Demo.btc_rsi /\
  let s := @py_str Demo.env (JStr "BTCUSDT") in
  trace Demo.btc_world = trace Demo.w0 ++
    [EvGet (url_fr s); EvGet (url_klines s "1m"%string);
     EvGet (url_klines s "5m"%string); EvGet (url_klines s "15m"%string)] /\
  exists j1 j2 j3 v1 v2 v3,
    @http_get Demo.env (S (gets Demo.w0)) (url_klines s "1m"%string) = RBody (Some j1) /\
    @rsi_of_klines j1 = Ok v1 /\
    @http_get Demo.env (S (S (gets Demo.w0))) (url_klines s "5m"%string) = RBody (Some j2) /\
    @rsi_of_klines j2 = Ok v2 /\
    @http_get Demo.env (S (S (S (gets Demo.w0)))) (url_klines s "15m"%string) = RBody (Some j3) /\
    @rsi_of_klines j3 = Ok v3 /\
    Demo.btc_rsi = [("1m"%string, v1); ("5m"%string, v2); ("15m"%string, v3)].
Proof.
  assert (E : @fetch_data Demo.env (JStr "BTCUSDT") Demo.w0 = (Ok Demo.btc_result, Demo.btc_world))
    by (vm_compute; reflexivity).
  assert (R : f_rsi Demo.btc_result = Some Demo.btc_rsi) by (vm_compute; reflexivity).
  split; [exact E|]. split; [exact R|].
  exact (@fetch_data_all_candles Demo.env _ _ _ _ _ E R).
Defined.

Lemma fetch_data_funding_rate_witness :
  @fetch_data Demo.env (JStr "BTCUSDT") Demo.w0 = (Ok Demo.btc_result, Demo.btc_world) /\
  f_rate Demo.btc_result = Some Demo.btc_rate /\
  exists body rec v f t,
    @http_get Demo.env (gets Demo.w0) (url_fr (@py_str Demo.env (JStr "BTCUSDT"))) = RBody (Some body) /\
    getitem body (KInt 0) = Ok rec /\
    getitem rec (KStr "fundingRate"%string) = Ok v /\ py_float v = Ok f /\
    Demo.btc_rate = fmul f (Fin 100) /\
    getitem rec (KStr "fundingTime"%string) = Ok t /\
    @to_datetime_ms Demo.env t = Ok (f_time Demo.btc_result).
Proof.
  assert (E : @fetch_data Demo.env (JStr "BTCUSDT") Demo.w0 = (Ok Demo.btc_result, Demo.btc_world))
    by (vm_compute; reflexivity).
  assert (R : f_rate Demo.btc_result = Some Demo.btc_rate) by (vm_compute; reflexivity).
  split; [exact E|]. split; [exact R|].
  exact (@fetch_data_funding_rate Demo.env _ _ _ _ _ E R).
Defined.

Lemma get_all_symbols_filter_witness :
  @get_all_symbols Demo.env Demo.w0 =
    (Ok (map (fun i => JStr (i_symbol i)) (filter active Demo.instruments)),
     mkWorld 1 0 [EvGet BINANCE_FUTURES_SYMBOLS_URL]).
Proof.
  apply (@get_all_symbols_filter Demo.env Demo.w0 [("pricePrecision"%string, JInt 2)]
           [("timezone"%string, JStr "UTC")]).
  vm_compute. reflexivity.
Defined.

Lemma select_symbols_missing_quote_witness :
  select_symbols (map (render []) Demo.instruments ++ [JDict [("symbol"%string, JStr "XUSDT")]])
  = Err KeyError.
Proof. apply select_symbols_missing_quote. reflexivity. Defined.


Lemma rsi_of_klines_short_witness :
  closes_of Demo.short_klines = Ok Demo.short_closes /\
  rsi_of_klines Demo.short_klines = Ok NaN.
Proof.
  assert (E : closes_of Demo.short_klines = Ok Demo.short_closes) by (vm_compute; reflexivity).
  split; [exact E|]. apply (proj2 (rsi_of_klines_short _ _ E)).
  unfold Demo.short_closes, Rsi.RSI_PERIOD. simpl. lia.
Defined.

End Exchange.
