(* ===== verification/Signal.v ===== *)
(** * The signal evaluator and the report text (src/bot.py lines 85-92)

    For a symbol whose data was fetched, [check_symbols] renders the
    report
      "💹 <symbol>\nFunding: <fr:.4f>%\nNext Funding: <ft>\n<k> RSI: <v:.2f>..."
    and appends a warning line when the funding rate is above the
    threshold and every RSI above 70 (long pressure), or, failing that,
    when the rate is below minus the threshold and every RSI below 30
    (short pressure).  [classify] is the [if]/[elif] of lines 89-92 and
    [report_text] the text of lines 85-92.  The file proves the
    classification rule, that NaN never alerts, that the report ends
    with the warning line of its classification and no other, that its
    third line prints the UTC date and time of the exchange's
    [fundingTime], and that the report is well-formed UTF-8. *)

From Stdlib Require Import List Lia Arith ZArith QArith Lqa String Ascii.
From S2P Require Import Prelude PyFloat Python Format Datetime Utf8 Io Exchange.
Import ListNotations Py Dt Utf8 Io Exchange.

Module Signal.

(** [FUNDING_THRESHOLD = 0.5] (line 17). *)
Definition FUNDING_THRESHOLD : Q := 1 # 2.

Inductive signal : Type :=
| NoSignal
| LongPressure
| ShortPressure.

Definition signal_eq_dec (a b : signal) : {a = b} + {a <> b}.
Proof. decide equality. Defined.

(** [rsi_dict.values()]. *)
Definition rsi_vals (rsi : list (string * pyfloat)) : list pyfloat := map snd rsi.

(** The conditions of lines 89 and 91. *)
Definition classify (fr : pyfloat) (rsi : list (string * pyfloat)) : signal :=
  if fgt fr (Fin FUNDING_THRESHOLD) && forallb (fun v => fgt v (Fin 70)) (rsi_vals rsi)
  then LongPressure
  else if flt fr (Fin (- FUNDING_THRESHOLD)) && forallb (fun v => flt v (Fin 30)) (rsi_vals rsi)
  then ShortPressure
  else NoSignal.

(** ** Text *)

Local Open Scope nat_scope.
Local Open Scope string_scope.

(** U+1F4B9 CHART WITH UPWARDS TREND AND YEN SIGN *)
Definition chart_sign : string := bytes [240; 159; 146; 185].
(** U+26A0 U+FE0F WARNING SIGN *)
Definition warning_sign : string := bytes [226; 154; 160; 239; 184; 143].

(** "⚠️ AŞIRI LONG yönlü baskı!" and "⚠️ AŞIRI SHORT yönlü baskı!" *)
Definition pressure_line (side : string) : string :=
  warning_sign ++ " A" ++ bytes [197; 158] ++ "IRI " ++ side ++ " y" ++ bytes [195; 182] ++
  "nl" ++ bytes [195; 188] ++ " bask" ++ bytes [196; 177] ++ "!".

Definition join (sep : string) (l : list string) : string :=
  match l with
  | [] => ""
  | x :: rest => x ++ fold_right (fun y acc => sep ++ y ++ acc) "" rest
  end.

(** [f"{k} RSI: {v:.2f}"] *)
Definition rsi_line (kv : string * pyfloat) : string :=
  fst kv ++ " RSI: " ++ Fmt.format_fixed 2 (snd kv).

(** [f"{ft}"]: [None] prints as "None". *)
Definition ft_str (ft : option dt) : string :=
  match ft with
  | None => "None"
  | Some t => dt_str t
  end.

Section WithEnv.
Context `{Env}.

(** The text of lines 85-86. *)
Definition base_text (s : json) (fr : pyfloat) (ft : option dt)
    (rsi : list (string * pyfloat)) : string :=
  chart_sign ++ " " ++ py_str s ++ nl ++
  "Funding: " ++ Fmt.format_fixed 4 fr ++ "%" ++ nl ++
  "Next Funding: " ++ ft_str ft ++ nl ++
  join nl (map rsi_line rsi).

Definition warning_text (sg : signal) : string :=
  match sg with
  | NoSignal => ""
  | LongPressure => nl ++ pressure_line "LONG"
  | ShortPressure => nl ++ pressure_line "SHORT"
  end.

(** The text sent for one symbol (lines 85-92). *)
Definition report_text (s : json) (fr : pyfloat) (ft : option dt)
    (rsi : list (string * pyfloat)) : string :=
  base_text s fr ft rsi ++ warning_text (classify fr rsi).

End WithEnv.

(** ** Properties of the evaluator *)

Local Close Scope string_scope.

Lemma long_short_exclusive fr :
  fgt fr (Fin FUNDING_THRESHOLD) = true -> flt fr (Fin (- FUNDING_THRESHOLD)) = false.
Proof.
  unfold FUNDING_THRESHOLD. destruct fr as [q| | |]; try reflexivity; try discriminate.
  intros Hgt. apply fgt_fin in Hgt.
  destruct (flt (Fin q) _) eqn:E; [|reflexivity]. apply flt_fin in E. lra.
Qed.

Lemma forallb_Forall_iff {A} (f : A -> bool) l :
  forallb f l = true <-> Forall (fun x => f x = true) l.
Proof. rewrite forallb_forall, Forall_forall. reflexivity. Qed.

Lemma classify_long fr rsi :
  classify fr rsi = LongPressure ->
  fgt fr (Fin FUNDING_THRESHOLD) = true /\ Forall (fun v => fgt v (Fin 70) = true) (rsi_vals rsi).
Proof.
  unfold classify. rewrite <- forallb_Forall_iff.
  destruct (fgt fr _), (forallb _ _); simpl; [auto|..]; destruct (_ && _)%bool; discriminate.
Qed.

Lemma classify_short fr rsi :
  classify fr rsi = ShortPressure ->
  flt fr (Fin (- FUNDING_THRESHOLD)) = true /\ Forall (fun v => flt v (Fin 30) = true) (rsi_vals rsi).
Proof.
  unfold classify. rewrite <- forallb_Forall_iff.
  destruct (fgt fr _ && forallb _ _)%bool; [discriminate|].
  destruct (flt fr _), (forallb _ _); simpl; auto; discriminate.
Qed.

(** C19: the classification rule.  [classify] signals long pressure exactly when the funding rate is
    above the threshold 0.5 and every RSI value above 70, and short
    pressure exactly when the rate is below -0.5 and every RSI value
    below 30: the [elif] never hides a short signal, since no rate is
    both above 0.5 and below -0.5. *)
Theorem classify_correct fr rsi :
  (classify fr rsi = LongPressure <->
     fgt fr (Fin FUNDING_THRESHOLD) = true /\
     Forall (fun v => fgt v (Fin 70) = true) (rsi_vals rsi)) /\
  (classify fr rsi = ShortPressure <->
     flt fr (Fin (- FUNDING_THRESHOLD)) = true /\
     Forall (fun v => flt v (Fin 30) = true) (rsi_vals rsi)).
Proof.
  unfold classify. rewrite <- !forallb_Forall_iff.
  destruct (fgt fr _) eqn:Eg, (forallb (fun v => fgt v _) _) eqn:El,
           (flt fr _) eqn:Es, (forallb (fun v => flt v _) _) eqn:Ed;
    simpl; try (split; split; intros; try discriminate; intuition discriminate).
  all: rewrite long_short_exclusive in Es by assumption; discriminate.
Qed.

(** C20: undefined values never alert.  A NaN funding rate or a NaN among the RSI values (an undefined
    warm-up value, or a flat window) gives no signal: every comparison
    with NaN is false. *)
Theorem classify_nan_no_signal fr rsi :
  fr = NaN \/ In NaN (rsi_vals rsi) -> classify fr rsi = NoSignal.
Proof.
  intros [-> | Hin]; unfold classify; [reflexivity|].
  assert (Hl : forallb (fun v => fgt v (Fin 70)) (rsi_vals rsi) = false).
  { apply not_true_iff_false. rewrite forallb_forall. intros H. now specialize (H NaN Hin). }
  assert (Hs : forallb (fun v => flt v (Fin 30)) (rsi_vals rsi) = false).
  { apply not_true_iff_false. rewrite forallb_forall. intros H. now specialize (H NaN Hin). }
  rewrite Hl, Hs, !andb_false_r. reflexivity.
Qed.

(** The examples of the specification.  Funding 0.6 with RSI 75,
    80, 90 is long pressure; with 65, 80, 90 (one interval not above 70)
    it is no signal; funding -0.7 with RSI 20 on all three intervals is
    short pressure. *)
Example classify_spec_examples :
  classify (Fin (6 # 10)) [("1m"%string, Fin 75); ("5m"%string, Fin 80); ("15m"%string, Fin 90)]
    = LongPressure /\
  classify (Fin (6 # 10)) [("1m"%string, Fin 65); ("5m"%string, Fin 80); ("15m"%string, Fin 90)]
    = NoSignal /\
  classify (Fin (- (7 # 10))) [("1m"%string, Fin 20); ("5m"%string, Fin 20); ("15m"%string, Fin 20)]
    = ShortPressure.
Proof. repeat split; reflexivity. Qed.

(** ** The warning line of the report *)

(** [s.endswith(suf)]. *)
Definition ends_with (suf s : string) : Prop := exists pre, s = (pre ++ suf)%string.

(** The last character of a string. *)
Definition last_char (s : string) : option ascii := hd_error (rev (list_ascii_of_string s)).

Lemma append_ne_r (a b : string) : b <> EmptyString -> (a ++ b)%string <> EmptyString.
Proof. destruct a; simpl; [auto|discriminate]. Qed.

Lemma append_ne_l (a b : string) : a <> EmptyString -> (a ++ b)%string <> EmptyString.
Proof. destruct a; simpl; [auto|discriminate]. Qed.

Ltac nonempty := first [discriminate | apply append_ne_l; nonempty | apply append_ne_r; nonempty].

Lemma last_char_app s1 s2 : s2 <> EmptyString -> last_char (s1 ++ s2) = last_char s2.
Proof.
  intros Hne. unfold last_char. rewrite Fmt.list_ascii_app, rev_app_distr.
  destruct s2 as [|c s2]; [congruence|]. simpl. now destruct (rev (list_ascii_of_string s2)).
Qed.

Lemma last_char_ends_with suf s :
  suf <> EmptyString -> ends_with suf s -> last_char s = last_char suf.
Proof. intros Hne [pre ->]. now apply last_char_app. Qed.

Lemma last_char_app_not s1 s2 c :
  last_char s1 <> Some c -> last_char s2 <> Some c -> last_char (s1 ++ s2) <> Some c.
Proof.
  intros H1 H2. destruct s2 as [|d s2].
  - now rewrite Fmt.append_empty_r.
  - rewrite last_char_app by discriminate. exact H2.
Qed.

Lemma format_fixed_ne k x : Fmt.format_fixed k x <> EmptyString.
Proof.
  destruct x as [q| | |]; try discriminate.
  destruct (Fmt.format_fixed_shape k q) as (A & tail & Hs & HA & _).
  intros E. rewrite E in Hs. simpl in Hs. destruct (Qlt_le_dec q 0), A; simpl in Hs; congruence.
Qed.

(** A number printed by [format_fixed] ends with a digit, or with the
    last letter of [nan] or [inf]. *)
Lemma last_char_format k x : last_char (Fmt.format_fixed k x) <> Some "!"%char.
Proof.
  destruct x as [q| | |]; [|discriminate..].
  destruct (Fmt.format_fixed_shape k q) as (A & tail & Hs & HA & HdA & Ht).
  assert (Hd : forall l, l <> [] -> Fmt.all_digits l ->
                 exists c l', rev l = c :: l' /\ is_digit c = true).
  { intros l Hl Hdl. destruct (rev l) as [|c l'] eqn:E.
    - apply (f_equal (@rev _)) in E. rewrite rev_involutive in E. simpl in E. congruence.
    - exists c, l'. split; [reflexivity|]. apply Forall_rev in Hdl. rewrite E in Hdl.
      now inversion Hdl. }
  unfold last_char. rewrite Hs, !rev_app_distr.
  destruct Ht as [(-> & _ & _) | (B & -> & HB & HdB & _)].
  - destruct (Hd A HA HdA) as (c & l' & E & Hc). rewrite E. simpl.
    intros [= Ec]. rewrite Ec in Hc. discriminate.
  - destruct (Hd B HB HdB) as (c & l' & E & Hc). simpl rev at 1. rewrite E.
    simpl. intros [= Ec]. rewrite Ec in Hc. discriminate.
Qed.

Lemma last_char_join_not sep l c :
  last_char sep <> Some c -> (forall x, In x l -> last_char x <> Some c) ->
  last_char (join sep l) <> Some c.
Proof.
  intros Hsep Hl. destruct l as [|x rest]; [discriminate|]. simpl join.
  apply last_char_app_not; [apply Hl; now left|].
  assert (Hr : forall y, In y rest -> last_char y <> Some c) by (intros y Hy; apply Hl; now right).
  clear Hl. induction rest as [|y rest IH]; simpl; [discriminate|].
  apply last_char_app_not; [exact Hsep|]. apply last_char_app_not; [apply Hr; now left|].
  apply IH. intros z Hz. apply Hr. now right.
Qed.

(** The text before the warning never ends with "!": it ends with the
    last RSI line, or with a newline when the dict is empty. *)
Lemma last_char_base_text `{Env} s fr ft rsi : last_char (base_text s fr ft rsi) <> Some "!"%char.
Proof.
  unfold base_text.
  repeat (rewrite last_char_app; [|nonempty]).
  apply last_char_app_not; [discriminate|].
  apply last_char_join_not; [discriminate|].
  intros x Hx. apply in_map_iff in Hx as ([k v] & <- & _). unfold rsi_line. cbn [fst snd].
  rewrite !last_char_app by (apply format_fixed_ne || (apply append_ne_r; apply format_fixed_ne)).
  apply last_char_format.
Qed.

Lemma long_short_suffix pre1 pre2 :
  (pre1 ++ (nl ++ pressure_line "LONG"))%string <> (pre2 ++ (nl ++ pressure_line "SHORT"))%string.
Proof.
  intros E. apply (f_equal list_ascii_of_string) in E.
  rewrite (Fmt.list_ascii_app pre1), (Fmt.list_ascii_app pre2) in E.
  assert (HL : List.length (list_ascii_of_string (nl ++ pressure_line "SHORT")) =
               S (List.length (list_ascii_of_string (nl ++ pressure_line "LONG"))))
    by (vm_compute; reflexivity).
  set (L := list_ascii_of_string (nl ++ pressure_line "LONG")) in *.
  set (Sh := list_ascii_of_string (nl ++ pressure_line "SHORT")) in *.
  apply app_eq_app in E as (l & [[_ E] | [_ E]]).
  - destruct l as [|c [|c' l]]; [vm_compute in E; discriminate..|].
    clearbody L Sh. apply (f_equal (@List.length _)) in E. simpl in E.
    rewrite length_app in E. lia.
  - clearbody L Sh. apply (f_equal (@List.length _)) in E. rewrite length_app in E. lia.
Qed.

(** The text before the warning never ends with a warning line. *)
Lemma base_text_no_warning `{Env} s fr ft rsi side :
  ~ ends_with (nl ++ pressure_line side) (base_text s fr ft rsi).
Proof.
  intros Hend. apply last_char_ends_with in Hend; [|discriminate].
  apply (last_char_base_text s fr ft rsi). rewrite Hend.
  unfold pressure_line. rewrite !last_char_app by nonempty. reflexivity.
Qed.

Lemma report_long_classify `{Env} s fr ft rsi :
  ends_with (nl ++ pressure_line "LONG") (report_text s fr ft rsi) -> classify fr rsi = LongPressure.
Proof.
  unfold report_text. destruct (classify fr rsi); cbn [warning_text]; intros Hend; [|reflexivity|].
  - rewrite Fmt.append_empty_r in Hend. exfalso. exact (base_text_no_warning s fr ft rsi _ Hend).
  - destruct Hend as [pre E]. exfalso. eapply long_short_suffix. symmetry. exact E.
Qed.

Lemma report_short_classify `{Env} s fr ft rsi :
  ends_with (nl ++ pressure_line "SHORT") (report_text s fr ft rsi) -> classify fr rsi = ShortPressure.
Proof.
  unfold report_text. destruct (classify fr rsi); cbn [warning_text]; intros Hend; [| |reflexivity].
  - rewrite Fmt.append_empty_r in Hend. exfalso. exact (base_text_no_warning s fr ft rsi _ Hend).
  - destruct Hend as [pre E]. exfalso. eapply long_short_suffix. exact E.
Qed.

(** C12: the message carries the warning of its classification.  The
    text [check_symbols] sends for a symbol ends with the line
    "AŞIRI LONG yönlü baskı!" exactly when [classify] gives long
    pressure, and with the line "AŞIRI SHORT yönlü baskı!" exactly when
    it gives short pressure. *)
Theorem report_text_warning `{Env} s fr ft rsi :
  (ends_with (nl ++ pressure_line "LONG") (report_text s fr ft rsi) <->
     classify fr rsi = LongPressure) /\
  (ends_with (nl ++ pressure_line "SHORT") (report_text s fr ft rsi) <->
     classify fr rsi = ShortPressure).
Proof.
  split; split; [apply report_long_classify| |apply report_short_classify|];
    intros E; unfold report_text; rewrite E; eexists; reflexivity.
Qed.

(** ** The report is well-formed UTF-8 *)

(** C14: the report names the next funding time.  When the exchange's
    [fundingTime] is the millisecond count of a UTC instant given as a
    valid date [y-mo-d] and a time [h:mi:sec] (whole seconds, as the
    exchange sends it), and [pd.to_datetime(.., unit='ms')] of line 60
    gives [ft], the third line of the report (line 86) is
    [Next Funding: y-mo-d hh:mm:ss] with that date and time: the
    program prints the instant the exchange sent. *)
Theorem funding_time_line `{Env} s fr ft rsi y mo d h mi sec :
  (1 <= mo <= 12)%Z -> (1 <= d <= days_in_month y mo)%Z ->
  (0 <= h < 24)%Z -> (0 <= mi < 60)%Z -> (0 <= sec < 60)%Z ->
  to_datetime_ms (JInt ((days_from_civil y mo d * 86400 + h * 3600 + mi * 60 + sec) * 1000)) = Ok ft ->
  exists rest, report_text s fr ft rsi =
    (chart_sign ++ " " ++ py_str s ++ nl ++ "Funding: " ++ Fmt.format_fixed 4 fr ++ "%" ++ nl ++
     "Next Funding: " ++ Fmt.show_Z y ++ "-" ++ Fmt.show_pad 2 mo ++ "-" ++ Fmt.show_pad 2 d ++ " " ++
     Fmt.show_pad 2 h ++ ":" ++ Fmt.show_pad 2 mi ++ ":" ++ Fmt.show_pad 2 sec ++ nl ++ rest)%string.
Proof.
  intros Hmo Hd Hh Hmi Hs Ht. unfold to_datetime_ms in Ht.
  destruct (to_datetime_ms_int _) as [t|e] eqn:E; simpl in Ht; [|discriminate].
  injection Ht as <-. apply to_datetime_ms_int_inv in E. subst t.
  set (D := days_from_civil y mo d). set (T := (h * 3600 + mi * 60 + sec)%Z).
  replace (((D * 86400 + h * 3600 + mi * 60 + sec) * 1000 * NS_PER_MS))%Z
    with ((D * 86400 + T) * 10 ^ 9)%Z by (unfold T, NS_PER_MS; ring).
  unfold report_text, base_text, ft_str. rewrite dt_str_seconds by (unfold T; lia).
  unfold D. rewrite days_from_civil_roundtrip by assumption.
  replace (T / 3600)%Z with h by (apply (Z.div_unique _ _ _ (mi * 60 + sec)); unfold T; lia).
  replace (T mod 3600)%Z with (mi * 60 + sec)%Z
    by (apply (Z.mod_unique _ _ h); unfold T; lia).
  replace ((mi * 60 + sec) / 60)%Z with mi by (apply (Z.div_unique _ _ _ sec); lia).
  replace (T mod 60)%Z with sec by (apply (Z.mod_unique _ _ (h * 60 + mi)); unfold T; lia).
  eexists. rewrite !Fmt.string_app_assoc. reflexivity.
Qed.

Lemma join_utf8 sep l :
  utf8_str sep -> Forall utf8_str l -> utf8_str (join sep l).
Proof.
  intros Hs Hl. destruct Hl as [|x l Hx Hl]; [apply ascii_utf8; reflexivity|].
  simpl. apply utf8_str_app; [exact Hx|].
  induction Hl as [|y l Hy _ IH]; simpl; [apply ascii_utf8; reflexivity|].
  auto with bot.
Qed.

Lemma rsi_line_utf8 kv : utf8_str (fst kv) -> utf8_str (rsi_line kv).
Proof.
  intros Hk. unfold rsi_line. apply utf8_str_app; [exact Hk|].
  apply ascii_utf8. now rewrite is_ascii_app, format_fixed_ascii.
Qed.

Lemma ft_str_utf8 ft : utf8_str (ft_str ft).
Proof. apply ascii_utf8. destruct ft; [apply dt_str_ascii | reflexivity]. Qed.

Lemma utf8_ascii_format k x : utf8_str (Fmt.format_fixed k x).
Proof. apply ascii_utf8, format_fixed_ascii. Qed.

#[local] Hint Resolve rsi_line_utf8 ft_str_utf8 utf8_ascii_format : bot.

(** The report is well-formed UTF-8.  When the [str] of the symbol
    and every interval name are well-formed UTF-8, the text of lines
    85-92 is a well-formed UTF-8 byte sequence (RFC 3629): the emoji and
    Turkish letters of the source are encoded correctly and the numbers
    and the timestamp are ASCII.  Telegram refuses messages that are
    not. *)
Theorem report_text_utf8 `{Env} s fr ft rsi :
  utf8_str (py_str s) -> Forall (fun kv => utf8_str (fst kv)) rsi ->
  utf8_str (report_text s fr ft rsi).
Proof.
  intros Hs Hk. unfold report_text, base_text.
  assert (Hnl : utf8_str nl) by (apply ascii_utf8; reflexivity).
  assert (Hchart : utf8_str chart_sign) by (apply utf8_str_by_computation; reflexivity).
  assert (Hw : utf8_str (warning_text (classify fr rsi))).
  { apply utf8_str_by_computation. destruct (classify fr rsi); vm_compute; reflexivity. }
  assert (Hj : utf8_str (join nl (map rsi_line rsi))).
  { apply join_utf8; [exact Hnl|]. apply Forall_map.
    eapply Forall_impl; [|exact Hk]. auto with bot. }
  repeat (apply utf8_str_app || auto with bot); apply ascii_utf8; reflexivity.
Qed.

(** ** Witnesses *)

Lemma classify_nan_no_signal_witness :
  classify (Fin (6 # 10)) [("1m"%string, NaN); ("5m"%string, Fin 80); ("15m"%string, Fin 90)]
  = NoSignal.
Proof. apply classify_nan_no_signal. right. simpl. left. reflexivity. Defined.

Definition sample_rsi : list (string * pyfloat) :=
  [("1m"%string, Fin 75); ("5m"%string, Fin 80); ("15m"%string, Fin 90)].

Lemma funding_time_line_witness :
  exists rest, @report_text Demo.env (JStr "BTCUSDT") (Fin (3 # 5))
    (Some (Ts 1704096000000000000)) [("1m"%string, Fin 75)] =
    (chart_sign ++ " " ++ @py_str Demo.env (JStr "BTCUSDT") ++ nl ++ "Funding: " ++
     Fmt.format_fixed 4 (Fin (3 # 5)) ++ "%" ++ nl ++
     "Next Funding: " ++ Fmt.show_Z 2024 ++ "-" ++ Fmt.show_pad 2 1 ++ "-" ++ Fmt.show_pad 2 1 ++ " " ++
     Fmt.show_pad 2 8 ++ ":" ++ Fmt.show_pad 2 0 ++ ":" ++ Fmt.show_pad 2 0 ++ nl ++ rest)%string.
Proof.
  apply (@funding_time_line Demo.env (JStr "BTCUSDT") (Fin (3 # 5)) (Some (Ts 1704096000000000000))
           [("1m"%string, Fin 75)] 2024 1 1 8 0 0); vm_compute; try reflexivity; split; try reflexivity; intro; discriminate.
Defined.

End Signal.
