(* ===== verification/Scheduler.v ===== *)
(** * The sampling cycle and the main loop (src/bot.py lines 9-33, 77-115)

    [check_symbols] (lines 77-95) opens an aiohttp session
    ([with_session], closed however the body ends), fetches the symbol
    universe, then for each symbol in order calls [fetch_data], skips the symbol when its
    funding rate or RSI dict is [None], and otherwise prints the report
    and sends it to the chat, whatever its classification.  [main]
    (lines 98-115) starts the Telegram application, sends a test
    message, and runs [check_symbols] once in test mode or forever,
    sleeping [CHECK_INTERVAL] seconds between cycles, otherwise.

    The endless loop is modelled twice: [run_loop] runs a given number
    of cycles (the program's first [n] cycles), and [sched_step] is the
    step relation of the scheduler's state machine, whose states are the
    phases [RunningLoop], [RunningOnce], [Finished] and [Crashed e]
    (an exception escaped [main] and ended the process).

    The theorems count the deliveries of a cycle and give their order
    (one block of events per symbol, in the order of the universe, each
    report printed then sent), show that every delivered warning is
    justified by the fetched data, follow the exceptions that escape a
    cycle, relate [run_loop] to the step relation, bound the requests of
    a cycle, show that sessions are never leaked or nested, and describe
    the start-up sequence and test mode.  Each is proved for every
    [Env]; the module
    [DemoRuns] evaluates them on the exchange of Exchange.v. *)

From Stdlib Require Import List Lia Arith ZArith QArith String Ascii.
From S2P Require Import Prelude PyFloat Python Datetime Io Exchange Signal.
Import ListNotations Py Dt Io Exchange Signal.

Module Scheduler.

Local Open Scope io_scope.
Local Open Scope string_scope.

(** ** Configuration (lines 9-18) *)

(** [CHECK_INTERVAL = 60] *)
Definition CHECK_INTERVAL : nat := 60.

Record config : Type := mkConfig {
  TOKEN : option string;
  CHAT_ID : option string;
  TEST_MODE : bool
}.

(** [os.getenv("TEST_MODE", "False").lower() == "true"] *)
Definition test_mode_of (v : option string) : bool :=
  String.eqb (lower (match v with Some s => s | None => "False" end)) "true".

(** The environment variables after [load_dotenv()]. *)
Definition load_config (getenv : string -> option string) : config :=
  mkConfig (getenv "TELEGRAM_TOKEN") (getenv "CHAT_ID") (test_mode_of (getenv "TEST_MODE")).

(** ** Texts of the source *)

Definition check_mark : string := bytes [226; 156; 133]%nat.
Definition right_quote : string := bytes [226; 128; 153]%nat.
Definition i_dotless : string := bytes [196; 177]%nat.

Definition START_TEXT : string :=
  check_mark ++ " Funding & RSI Bot aktif! Bildirimleri buradan alacaks" ++ i_dotless ++ "n" ++
  i_dotless ++ "z.".
Definition TEST_TEXT : string :=
  check_mark ++ " Test mesaj" ++ i_dotless ++ ": Bot Telegram" ++ right_quote ++
  "a mesaj atabiliyor!".
Definition TEST_SENT_LINE : string :=
  "Telegram test mesaj" ++ i_dotless ++ " g" ++ bytes [195; 182]%nat ++ "nderildi.".
Definition TEST_FAIL_PREFIX : string := "Telegram mesaj hatas" ++ i_dotless ++ ": ".
Definition BANNER : string :=
  bytes [240; 159; 154; 128]%nat ++ " Bot aktif, /start yazabilirsiniz Telegram" ++
  right_quote ++ "da!".
Definition TEST_BANNER : string :=
  bytes [240; 159; 167; 170]%nat ++ " Test modu a" ++ bytes [195; 167]%nat ++ i_dotless ++
  "k: yaln" ++ i_dotless ++ "zca bir kez veri " ++ bytes [195; 167]%nat ++ "ekilecek...".

Section WithEnv.
Context `{Env}.

(** ** Handlers *)

(** [start] (lines 24-25): the reply to the [/start] command. *)
Definition start : io unit := reply_text START_TEXT.

(** [test_message] (lines 28-33). *)
Definition test_message (chat : option string) : io unit :=
  try_except
    (send_message chat TEST_TEXT ;; print TEST_SENT_LINE)
    (fun e => print_exn TEST_FAIL_PREFIX e).

(** The body of the loop of lines 80-95 for one symbol. *)
Definition process_symbol (chat : option string) (symbol : json) : io unit :=
  r <- fetch_data symbol ;;
  match f_rate r, f_rsi r with
  | Some fr, Some rsi_dict =>
      let text := report_text (f_symbol r) fr (f_time r) rsi_dict in
      print text ;;
      send_message chat text
  | _, _ => ret tt
  end.

(** The body of [async with aiohttp.ClientSession() as session:]
    (lines 79-95). *)
Definition check_symbols_body (chat : option string) : io unit :=
  symbols <- get_all_symbols ;;
  iter_io (process_symbol chat) symbols.

(** [check_symbols] (lines 77-95). *)
Definition check_symbols (chat : option string) : io unit :=
  with_session (check_symbols_body chat).

(** One iteration of [while True] (lines 114-115). *)
Definition cycle (chat : option string) : io unit :=
  check_symbols chat ;; sleep CHECK_INTERVAL.

(** The first [n] iterations of the endless loop. *)
Fixpoint run_loop (chat : option string) (n : nat) : io unit :=
  match n with
  | O => ret tt
  | S k => cycle chat ;; run_loop chat k
  end.

(** [main] (lines 98-115); in loop mode, its first [n] cycles. *)
Definition main (cfg : config) (n : nat) : io unit :=
  startup (TOKEN cfg) ;;
  print BANNER ;;
  test_message (CHAT_ID cfg) ;;
  if TEST_MODE cfg then print TEST_BANNER ;; check_symbols (CHAT_ID cfg)
  else run_loop (CHAT_ID cfg) n.

(** The module run as a script: the configuration read at import
    (lines 10-13), then [asyncio.run(main())] (lines 118-119); an
    exception escaping [main] leaves [asyncio.run] and ends the process.
    In loop mode, its first [n] cycles. *)
Definition run_module (getenv : string -> option string) (n : nat) : io unit :=
  main (load_config getenv) n.

(** ** The scheduler as a state machine *)

Inductive phase : Type :=
| RunningLoop
| RunningOnce
| Finished
| Crashed (e : exn).

Inductive sched_step (chat : option string) : phase * world -> phase * world -> Prop :=
| step_loop w w' :
    cycle chat w = (Ok tt, w') -> sched_step chat (RunningLoop, w) (RunningLoop, w')
| step_loop_crash w e w' :
    cycle chat w = (Err e, w') -> sched_step chat (RunningLoop, w) (Crashed e, w')
| step_once w w' :
    check_symbols chat w = (Ok tt, w') -> sched_step chat (RunningOnce, w) (Finished, w')
| step_once_crash w e w' :
    check_symbols chat w = (Err e, w') -> sched_step chat (RunningOnce, w) (Crashed e, w').

(** Reflexive-transitive closure, counting the steps. *)
Inductive steps (chat : option string) : nat -> phase * world -> phase * world -> Prop :=
| steps_refl s : steps chat 0 s s
| steps_cons n s1 s2 s3 :
    sched_step chat s1 s2 -> steps chat n s2 s3 -> steps chat (S n) s1 s3.

(** ** Counting deliveries *)

Local Close Scope string_scope.

Definition is_send (ev : event) : bool :=
  match ev with EvSend _ _ => true | _ => false end.

Definition is_fetch_fail (ev : event) : bool :=
  match ev with EvPrintExn _ _ => true | _ => false end.

Definition count (f : event -> bool) (evs : list event) : nat := List.length (filter f evs).

(** A delivered message is the report of the data a call of
    [fetch_data] returned. *)
Definition sent_report (chat : option string) (ev : event) : Prop :=
  match ev with
  | EvSend c text =>
      c = chat /\ exists symbol w1 w2 r fr rsi,
        fetch_data symbol w1 = (Ok r, w2) /\ f_rate r = Some fr /\ f_rsi r = Some rsi /\
        text = report_text (f_symbol r) fr (f_time r) rsi
  | _ => True
  end.

(** The events that mark the rhythm of the loop: the request of the
    instrument directory that opens a cycle, and the sleeps. *)
Definition cycle_mark (ev : event) : bool :=
  match ev with
  | EvGet u => String.eqb u BINANCE_FUTURES_SYMBOLS_URL
  | EvSleep _ => true
  | _ => false
  end.

(** The events of one symbol in a completed cycle: the requests of
    [fetch_data], then either its report printed and sent to the chat,
    in that order, or the logged failure naming the symbol. *)
Definition symbol_block (chat : option string) (symbol : json) (evs : list event) : Prop :=
  exists gs out, evs = gs ++ out /\ Forall is_get gs /\
    ((exists w1 w2 r fr rsi, fetch_data symbol w1 = (Ok r, w2) /\
        f_rate r = Some fr /\ f_rsi r = Some rsi /\
        out = [EvPrint (report_text symbol fr (f_time r) rsi);
               EvSend chat (report_text symbol fr (f_time r) rsi)]) \/
     (exists e, out = [EvPrintExn (fetch_fail_prefix symbol) e])).

Lemma count_app f l1 l2 : count f (l1 ++ l2) = (count f l1 + count f l2)%nat.
Proof. unfold count. now rewrite filter_app, length_app. Qed.

Lemma count_gets f evs :
  (forall u, f (EvGet u) = false) -> Forall is_get evs -> count f evs = 0%nat.
Proof.
  intros Hf Hg. induction Hg as [|ev evs Hev _ IH]; [reflexivity|].
  destruct ev; try contradiction. unfold count in *. simpl. now rewrite Hf.
Qed.

#[local] Hint Rewrite count_app : bot_rw.

(** One symbol of the cycle appends its block. *)
Lemma process_symbol_block chat symbol w w' :
  process_symbol chat symbol w = (Ok tt, w') ->
  exists evs, trace w' = trace w ++ evs /\ symbol_block chat symbol evs.
Proof.
  unfold process_symbol. intros Hrun. apply bind_inv_ok in Hrun as (r & w1 & Hf & Hrun).
  pose proof Hf as Hf'.
  apply fetch_data_cases in Hf as (Hs & [(fr & rsi & evs & Hfr & Hrsi & _ & Ht & Hg) |
                                          (Hfr & _ & Hrsi & evs & e & Ht & Hg)]);
    rewrite Hfr in Hrun.
  - rewrite Hrsi in Hrun. set (text := report_text (f_symbol r) fr (f_time r) rsi) in Hrun.
    apply bind_inv_ok in Hrun as ([] & w2 & Hp & Hsend).
    unfold print, emit in Hp. injection Hp as <-.
    unfold send_message in Hsend. destruct tg_send_ok; [|discriminate].
    injection Hsend as <-. simpl. rewrite Ht.
    exists (evs ++ [EvPrint text; EvSend chat text]). split; [now rewrite <- !app_assoc|].
    exists evs, [EvPrint text; EvSend chat text]. split; [reflexivity|]. split; [exact Hg|].
    left. exists w, w1, r, fr, rsi. unfold text. rewrite Hs. auto.
  - injection Hrun as <-. exists (evs ++ [EvPrintExn (fetch_fail_prefix symbol) e]).
    split; [exact Ht|]. exists evs, [EvPrintExn (fetch_fail_prefix symbol) e]. eauto.
Qed.

(** A block holds one delivery or one logged failure. *)
Lemma symbol_block_counts chat symbol evs :
  symbol_block chat symbol evs -> (count is_send evs + count is_fetch_fail evs = 1)%nat.
Proof.
  intros (gs & out & -> & Hg & [(w1 & w2 & r & fr & rsi & _ & _ & _ & ->) | (e & ->)]);
    autorewrite with bot_rw; rewrite !(count_gets _ gs) by auto; reflexivity.
Qed.

(** The loop over the symbols appends their blocks in order. *)
Lemma iter_process_blocks chat syms w w' :
  iter_io (process_symbol chat) syms w = (Ok tt, w') ->
  exists blocks, Forall2 (symbol_block chat) syms blocks /\ trace w' = trace w ++ List.concat blocks.
Proof.
  revert w. induction syms as [|s syms IH]; intros w Hrun; simpl in Hrun.
  - injection Hrun as <-. exists []. split; [constructor | now rewrite app_nil_r].
  - apply bind_inv_ok in Hrun as ([] & w1 & H1 & H2).
    destruct (process_symbol_block _ _ _ _ H1) as (e1 & T1 & B1).
    destruct (IH _ H2) as (bs & Bs & T2).
    exists (e1 :: bs). split; [now constructor|]. simpl. now rewrite T2, T1, app_assoc.
Qed.

Lemma count_concat_blocks chat syms blocks :
  Forall2 (symbol_block chat) syms blocks ->
  (count is_send (List.concat blocks) + count is_fetch_fail (List.concat blocks) = List.length syms)%nat.
Proof.
  induction 1 as [|s evs syms bs Hb _ IH]; [reflexivity|]. simpl.
  autorewrite with bot_rw. pose proof (symbol_block_counts _ _ _ Hb). lia.
Qed.

Lemma iter_process_counts chat syms w w' :
  iter_io (process_symbol chat) syms w = (Ok tt, w') ->
  exists evs, trace w' = trace w ++ evs /\
    (count is_send evs + count is_fetch_fail evs = List.length syms)%nat.
Proof.
  intros Hrun. destruct (iter_process_blocks _ _ _ _ Hrun) as (bs & Hb & Ht).
  exists (List.concat bs). split; [exact Ht | now apply (count_concat_blocks chat)].
Qed.

(** The work for one symbol makes at most the four requests of
    [fetch_data]; building and sending the report makes none. *)
Lemma process_symbol_gets chat symbol : gets_within 4 (process_symbol chat symbol).
Proof.
  unfold process_symbol. apply (gets_within_bind 4 0); [apply fetch_data_gets|]. intros r.
  destruct (f_rate r), (f_rsi r); try apply gets_within_ret.
  apply (gets_within_bind 0 0); [apply gets_within_emit | intros; apply gets_within_send_message].
Qed.

(** ** The session of a cycle *)

Definition open_session (w : world) : world :=
  mkWorld (gets w) (sends w) (trace w ++ [EvSessionOpen]).

Definition close_session (w : world) : world :=
  mkWorld (gets w) (sends w) (trace w ++ [EvSessionClose]).

(** The world after the request of the instrument directory. *)
Definition after_universe (w : world) : world :=
  mkWorld (S (gets w)) (sends w) (trace w ++ [EvGet BINANCE_FUTURES_SYMBOLS_URL]).

Lemma get_all_symbols_world w : snd (get_all_symbols w) = after_universe w.
Proof.
  unfold get_all_symbols, bind, get_json, lift.
  destruct http_get as [|[j|]]; reflexivity.
Qed.

(** The answer to the directory request depends on the number of
    requests made before it, not on the rest of the world. *)
Lemma get_all_symbols_result w w' :
  gets w = gets w' -> fst (get_all_symbols w) = fst (get_all_symbols w').
Proof.
  intros E. unfold get_all_symbols, bind, get_json, lift. rewrite E.
  destruct http_get as [|[j|]]; reflexivity.
Qed.

(** The two outcomes of a cycle: the directory request failed, or the
    symbols were processed; either way inside an open session that is
    closed at the end. *)
Lemma check_symbols_cases chat w :
  let w0 := after_universe (open_session w) in
  (exists e, fst (get_all_symbols w) = Err e /\ check_symbols chat w = (Err e, close_session w0)) \/
  (exists syms, fst (get_all_symbols w) = Ok syms /\
     check_symbols chat w =
       let '(r, w1) := iter_io (process_symbol chat) syms w0 in (r, close_session w1)).
Proof.
  intros w0. unfold check_symbols. rewrite with_session_run. fold (open_session w).
  assert (Hg : get_all_symbols (open_session w) = (fst (get_all_symbols w), w0)).
  { rewrite (surjective_pairing (get_all_symbols (open_session w))), get_all_symbols_world.
    f_equal. now apply get_all_symbols_result. }
  assert (Hb : check_symbols_body chat (open_session w) =
               match fst (get_all_symbols w) with
               | Ok syms => iter_io (process_symbol chat) syms w0
               | Err e => (Err e, w0)
               end) by (unfold check_symbols_body, bind; now rewrite Hg).
  rewrite Hb. destruct (fst (get_all_symbols w)) as [syms|e]; [right|left].
  - exists syms. split; [reflexivity|].
    destruct (iter_io (process_symbol chat) syms w0). reflexivity.
  - exists e. split; reflexivity.
Qed.

Lemma trace_w0 w :
  trace (after_universe (open_session w)) =
  trace w ++ [EvSessionOpen; EvGet BINANCE_FUTURES_SYMBOLS_URL].
Proof. simpl. now rewrite <- app_assoc. Qed.

(** ** Properties of the cycle and of the loop *)

(** C5: every built report is delivered.  A cycle over a universe of
    [N] symbols that completes delivers one message per symbol whose
    data was fetched, whatever its classification, and logs one failure
    per other symbol: deliveries plus logged failures make exactly [N]. *)
Theorem check_symbols_deliveries chat w syms w' :
  fst (get_all_symbols w) = Ok syms ->
  check_symbols chat w = (Ok tt, w') ->
  exists evs, trace w' = trace w ++ evs /\
    (count is_send evs + count is_fetch_fail evs = List.length syms)%nat.
Proof.
  intros Hu Hc.
  destruct (check_symbols_cases chat w) as [(e & He & _) | (syms' & Hs & Hrun)]; [congruence|].
  rewrite Hu in Hs. injection Hs as <-. rewrite Hrun in Hc.
  destruct (iter_io (process_symbol chat) syms _) as [r w1] eqn:Hi. injection Hc as -> <-.
  destruct (iter_process_counts chat _ _ _ Hi) as (evs & Ht & Hn).
  exists ([EvSessionOpen; EvGet BINANCE_FUTURES_SYMBOLS_URL] ++ evs ++ [EvSessionClose]).
  split; [simpl; rewrite Ht, trace_w0; now rewrite <- !app_assoc|].
  rewrite !count_app. cbn [count filter is_send is_fetch_fail List.length]. lia.
Qed.

(** C6: a cycle reports the symbols in the order of the universe.
    When a cycle over a universe [syms] completes, the events it adds
    are the opening of the session, the directory request, then one
    block per symbol of [syms], in the same order, then the closing of
    the session.  The block of a symbol is the requests of its
    [fetch_data], followed either by the report of that symbol's own
    data printed and then sent to [CHAT_ID] with the same text, or by
    the logged failure naming that symbol. *)
Theorem check_symbols_in_order chat w syms w' :
  fst (get_all_symbols w) = Ok syms ->
  check_symbols chat w = (Ok tt, w') ->
  exists blocks, Forall2 (symbol_block chat) syms blocks /\
    trace w' = trace w ++ [EvSessionOpen; EvGet BINANCE_FUTURES_SYMBOLS_URL] ++
                 List.concat blocks ++ [EvSessionClose].
Proof.
  intros Hu Hc.
  destruct (check_symbols_cases chat w) as [(e & He & _) | (syms' & Hs & Hrun)]; [congruence|].
  rewrite Hu in Hs. injection Hs as <-. rewrite Hrun in Hc.
  destruct (iter_io (process_symbol chat) syms _) as [r w1] eqn:Hi. injection Hc as -> <-.
  destruct (iter_process_blocks chat _ _ _ Hi) as (bs & Hb & Ht).
  exists bs. split; [exact Hb|]. simpl. rewrite Ht, trace_w0. now rewrite <- !app_assoc.
Qed.

(** C13: a cycle makes at most [1 + 4 N] requests.  A cycle whose
    universe request returns [N] symbols makes that one request to the
    exchange directory and then at most four per symbol (the funding
    rate and the three candle series), one after the other, whatever
    fails: the request counter grows by at least 1 and at most
    [1 + 4 N]. *)
Theorem check_symbols_requests chat w syms :
  fst (get_all_symbols w) = Ok syms ->
  (S (gets w) <= gets (snd (check_symbols chat w)) <= gets w + 1 + 4 * List.length syms)%nat.
Proof.
  intros Hu.
  destruct (check_symbols_cases chat w) as [(e & He & _) | (syms' & Hs & Hrun)]; [congruence|].
  rewrite Hu in Hs. injection Hs as <-. rewrite Hrun.
  pose proof (gets_within_iter 4 _ syms (process_symbol_gets chat)
                (after_universe (open_session w))) as Hb.
  destruct (iter_io (process_symbol chat) syms _) as [r w1]. simpl in *. lia.
Qed.

(** Only a send can raise inside the loop over the symbols. *)
Lemma iter_process_errors chat syms w e w' :
  iter_io (process_symbol chat) syms w = (Err e, w') -> e = TelegramError.
Proof.
  revert w. induction syms as [|s syms IH]; intros w Hrun; simpl in Hrun; [discriminate|].
  unfold bind at 1 in Hrun.
  destruct (process_symbol chat s w) as [[[]|e'] w1] eqn:Hp; [eauto|].
  injection Hrun as <- <-. unfold process_symbol, bind at 1 in Hp.
  destruct (fetch_data_ok s w) as (r & w2 & Hf & _). rewrite Hf in Hp.
  destruct (f_rate r), (f_rsi r); try discriminate.
  unfold bind, print, emit, send_message in Hp.
  destruct tg_send_ok; congruence.
Qed.

(** Finished and crashed states have no successor. *)
Lemma terminal_no_step chat ph w s :
  (ph = Finished \/ exists e, ph = Crashed e) -> ~ sched_step chat (ph, w) s.
Proof. intros [-> | [e ->]] Hs; inversion Hs. Qed.

Lemma terminal_steps chat n ph w s :
  (ph = Finished \/ exists e, ph = Crashed e) -> steps chat n (ph, w) s -> n = 0%nat /\ s = (ph, w).
Proof.
  intros Ht Hs. inversion Hs as [|? ? s2 ? Hstep]; subst; [auto|].
  exfalso. eapply terminal_no_step; eauto.
Qed.

(** C9: a failure of the universe crashes the process.  When
    [get_all_symbols] raises (no response, a body that is not JSON, a
    missing field, a malformed instrument), the exception is not caught:
    [check_symbols] closes its session and raises it, the loop ends in
    [Crashed], and no further cycle ever runs. *)
Theorem universe_failure_crashes chat w e :
  fst (get_all_symbols w) = Err e ->
  exists w1, check_symbols chat w = (Err e, w1) /\
  trace w1 = trace w ++ [EvSessionOpen; EvGet BINANCE_FUTURES_SYMBOLS_URL; EvSessionClose] /\
  sched_step chat (RunningLoop, w) (Crashed e, w1) /\
  forall s, ~ sched_step chat (Crashed e, w1) s.
Proof.
  intros Hu.
  destruct (check_symbols_cases chat w) as [(e' & He & Hc) | (syms & Hs & _)]; [|congruence].
  rewrite Hu in He. injection He as <-. eexists. split; [exact Hc|]. split.
  - simpl. now rewrite <- !app_assoc.
  - split; [apply step_loop_crash; unfold cycle; now apply bind_err|].
    intros s. apply terminal_no_step. eauto.
Qed.

(** C10: what escapes a cycle, and what it does.  An exception escaping
    [check_symbols] is either the failure of the universe request or a
    [TelegramError] of a delivery (the per-symbol handler covers only
    the fetch); either one ends the loop for good. *)
Theorem cycle_error_ends_loop chat w e w' :
  check_symbols chat w = (Err e, w') ->
  (fst (get_all_symbols w) = Err e \/ e = TelegramError) /\
  sched_step chat (RunningLoop, w) (Crashed e, w') /\
  forall n s, steps chat n (Crashed e, w') s -> n = 0%nat.
Proof.
  intros Hc. split; [|split].
  - destruct (check_symbols_cases chat w) as [(e' & He & Hc') | (syms & Hs & Hrun)].
    + rewrite Hc in Hc'. injection Hc' as -> _. now left.
    + right. rewrite Hrun in Hc. destruct (iter_io (process_symbol chat) syms _) as [r w1] eqn:Hi.
      injection Hc as -> _. eapply iter_process_errors; eauto.
  - apply step_loop_crash. unfold cycle. now apply bind_err.
  - intros n s Hs. eapply terminal_steps in Hs; [apply Hs|eauto].
Qed.

(** Single-shot mode.  In test mode the scheduler makes exactly one step from its initial
    state: a step always exists, and no run from [RunningOnce] has more
    than one step. *)
Theorem single_shot_one_cycle chat w :
  (exists s, sched_step chat (RunningOnce, w) s) /\
  forall n s, steps chat n (RunningOnce, w) s -> (n <= 1)%nat.
Proof.
  split.
  - destruct (check_symbols chat w) as [[[]|e] w'] eqn:Hc;
      eexists; [apply step_once | apply step_once_crash]; eauto.
  - intros n s Hs. inversion Hs as [|m ? s2 ? Hstep Hrest]; subst; [lia|].
    inversion Hstep; subst; apply terminal_steps in Hrest; try lia; eauto.
Qed.

(** The bounded loop refines the state machine.  [run_loop] with bound [n] completes exactly when the scheduler can
    make [n] loop steps between the same worlds, and when it raises, the
    scheduler crashes with the same exception within [n] steps. *)
Theorem run_loop_refines chat n w :
  (forall w', run_loop chat n w = (Ok tt, w') <-> steps chat n (RunningLoop, w) (RunningLoop, w')) /\
  (forall e w', run_loop chat n w = (Err e, w') ->
     exists k, (k < n)%nat /\ steps chat (S k) (RunningLoop, w) (Crashed e, w')).
Proof.
  revert w. induction n as [|n IH]; intros w; split.
  - intros w'. split; intros H1.
    + injection H1 as <-. constructor.
    + inversion H1; subst. reflexivity.
  - intros e w' H1. discriminate.
  - intros w'. simpl. split; intros H1.
    + apply bind_inv_ok in H1 as ([] & w1 & Hc & Hr).
      eapply steps_cons; [apply step_loop; exact Hc|]. now apply IH.
    + inversion H1 as [|? ? s2 ? Hstep Hrest]; subst.
      inversion Hstep as [w1 w2 Hc|w1 e w2 Hc| |]; subst.
      * unfold bind. rewrite Hc. now apply IH.
      * apply terminal_steps in Hrest as [_ Heq]; [discriminate|eauto].
  - intros e w' H1. simpl in H1. unfold bind at 1 in H1.
    destruct (cycle chat w) as [[[]|e'] w1] eqn:Hc.
    + destruct (proj2 (IH w1) e w' H1) as (k & Hk & Hs).
      exists (S k). split; [lia|]. eapply steps_cons; [apply step_loop; exact Hc|]. exact Hs.
    + injection H1 as <- <-. exists 0%nat. split; [lia|].
      eapply steps_cons; [apply step_loop_crash; exact Hc|]. constructor.
Qed.

(** ** Start-up *)

Definition anything (ev : event) : Prop := True.

(** The events the body of the loop over the symbols can emit: the
    GETs of [fetch_data], its failure message, the report and its
    delivery. *)
Definition symbol_events (P : event -> Prop) (chat : option string) : Prop :=
  (forall s, P (EvGet (url_fr s))) /\ (forall s iv, P (EvGet (url_klines s iv))) /\
  (forall p e, P (EvPrintExn p e)) /\ (forall t, P (EvPrint t)) /\ (forall t, P (EvSend chat t)).

Lemma symbol_events_anything chat : symbol_events anything chat.
Proof. repeat split. Qed.

Lemma process_symbol_appends P chat symbol :
  symbol_events P chat -> appends P (process_symbol chat symbol).
Proof.
  intros (Hfr & Hk & Hp & Hpr & Hs). unfold process_symbol.
  apply appends_bind; [apply fetch_data_appends; auto|]. intros r.
  destruct (f_rate r), (f_rsi r); try apply appends_ret.
  apply appends_bind; [apply appends_emit; auto|]. intros u.
  apply appends_send_message. auto.
Qed.

Lemma iter_process_appends P chat syms :
  symbol_events P chat -> appends P (iter_io (process_symbol chat) syms).
Proof. intros Hev. apply appends_iter. intros x. now apply process_symbol_appends. Qed.

(** The events of a cycle: the session is opened, the directory is
    requested, the symbols are processed (events satisfying [P]) and the
    session is closed, whatever raised. *)
Lemma check_symbols_trace P chat w :
  symbol_events P chat ->
  exists evs, trace (snd (check_symbols chat w)) =
    trace w ++ EvSessionOpen :: EvGet BINANCE_FUTURES_SYMBOLS_URL :: evs ++ [EvSessionClose] /\
    Forall P evs.
Proof.
  intros HP. destruct (check_symbols_cases chat w) as [(e & _ & ->) | (syms & _ & ->)].
  - exists []. split; [|constructor]. simpl. now rewrite <- !app_assoc.
  - destruct (iter_process_appends P chat syms HP (after_universe (open_session w)))
      as (evs & Ht & Hf).
    destruct (iter_io _ syms _) as [r w1]. simpl in Ht |- *. exists evs. split; [|exact Hf].
    rewrite Ht. now rewrite <- !app_assoc.
Qed.

Lemma check_symbols_appends chat : appends anything (check_symbols chat).
Proof.
  intros w. destruct (check_symbols_trace anything chat w (symbol_events_anything chat))
    as (evs & Ht & _).
  eexists. split; [exact Ht|]. apply Forall_forall. intros. exact I.
Qed.

Lemma run_loop_appends chat n : appends anything (run_loop chat n).
Proof.
  induction n as [|n IH]; simpl; [apply appends_ret|].
  apply appends_bind; [|intros []; exact IH]. unfold cycle.
  apply appends_bind; [apply check_symbols_appends|intros []; apply appends_emit; exact I].
Qed.

(** A cycle starts by opening its session and requesting the instrument
    directory. *)
Lemma check_symbols_first_get chat w :
  exists evs, trace (snd (check_symbols chat w)) =
              trace w ++ EvSessionOpen :: EvGet BINANCE_FUTURES_SYMBOLS_URL :: evs.
Proof.
  destruct (check_symbols_trace anything chat w (symbol_events_anything chat))
    as (evs & Ht & _). eauto.
Qed.

Lemma bind_trace_prefix {A B} (m : io A) (k : A -> io B) w evs :
  trace (snd (m w)) = trace w ++ evs -> (forall a, appends anything (k a)) ->
  exists evs', trace (snd (bind m k w)) = trace w ++ evs ++ evs'.
Proof.
  intros Hm Hk. unfold bind. destruct (m w) as [[a|e] w1]; simpl in *.
  - destruct (Hk a w1) as (evs' & Ht & _). exists evs'. now rewrite Ht, Hm, app_assoc.
  - exists []. now rewrite Hm, !app_nil_r.
Qed.

Lemma filter_none {A} (f : A -> bool) l : Forall (fun x => f x = false) l -> filter f l = [].
Proof. induction 1 as [|x l Hx _ IH]; simpl; [reflexivity|]. now rewrite Hx. Qed.

(** Inside a cycle, after the directory request, no event marks the
    loop: the symbol requests go to other endpoints. *)
Lemma symbol_events_no_mark chat : symbol_events (fun ev => cycle_mark ev = false) chat.
Proof. repeat split; intros; reflexivity. Qed.

(** Every cycle, completed or not, requests the directory exactly once
    and does not sleep. *)
Lemma check_symbols_marks chat w :
  exists evs, trace (snd (check_symbols chat w)) = trace w ++ evs /\
    filter cycle_mark evs = [EvGet BINANCE_FUTURES_SYMBOLS_URL].
Proof.
  destruct (check_symbols_trace _ chat w (symbol_events_no_mark chat)) as (evs & Ht & Hf).
  eexists. split; [exact Ht|]. simpl. rewrite filter_app, filter_none by exact Hf.
  reflexivity.
Qed.

Lemma gets_sent_report chat evs : Forall is_get evs -> Forall (sent_report chat) evs.
Proof. apply Forall_impl. intros []; simpl; tauto. Qed.

Lemma process_symbol_reports chat symbol : appends (sent_report chat) (process_symbol chat symbol).
Proof.
  intros w. unfold process_symbol, bind at 1.
  destruct (fetch_data_ok symbol w) as (r & w1 & Hf & _). rewrite Hf.
  pose proof Hf as Hc.
  apply fetch_data_cases in Hc as (_ & [(fr & rsi & evs & Hfr & Hrsi & _ & Ht & Hg) |
                                        (Hfr & _ & Hrsi & evs & e & Ht & Hg)]).
  - rewrite Hfr, Hrsi. set (text := report_text (f_symbol r) fr (f_time r) rsi).
    unfold bind, print, emit, send_message. cbn [fst snd trace gets sends].
    destruct tg_send_ok; cbn [fst snd trace]; rewrite Ht.
    + exists (evs ++ [EvPrint text; EvSend chat text]). split; [now rewrite <- !app_assoc|].
      apply Forall_app. split; [now apply gets_sent_report|]. repeat constructor.
      exists symbol, w, w1, r, fr, rsi. auto.
    + exists (evs ++ [EvPrint text]). split; [now rewrite <- !app_assoc|].
      apply Forall_app. split; [now apply gets_sent_report|]. repeat constructor.
  - rewrite Hfr. cbn [ret fst snd]. rewrite Ht. eexists. split; [reflexivity|].
    apply Forall_app. split; [now apply gets_sent_report|]. repeat constructor.
Qed.

Lemma check_symbols_reports chat : appends (sent_report chat) (check_symbols chat).
Proof.
  unfold check_symbols, check_symbols_body, get_all_symbols.
  apply appends_with_session; [exact I | exact I|].
  apply appends_bind; [|intros; apply appends_iter, process_symbol_reports].
  apply appends_bind; [apply appends_get_json; exact I|intros; apply appends_lift].
Qed.

(** [test_message] returns, whatever Telegram answers. *)
Lemma test_message_ok chat w : exists w', test_message chat w = (Ok tt, w').
Proof.
  unfold test_message, try_except, bind, send_message, print, print_exn, emit.
  destruct tg_send_ok; eexists; reflexivity.
Qed.

(** C11: every alert is justified.  Whatever the outcome of a cycle, every
    message it delivers goes to the configured chat and is the report of
    the data a call of [fetch_data] returned for a symbol: its funding
    rate and RSI dict.  A message that ends with the long-pressure
    warning was sent for a rate above 0.5 with every RSI above 70, and
    one that ends with the short-pressure warning for a rate below -0.5
    with every RSI below 30. *)
Theorem check_symbols_alerts_sound chat w :
  exists evs, trace (snd (check_symbols chat w)) = trace w ++ evs /\
  forall c text, In (EvSend c text) evs ->
    c = chat /\ exists symbol w1 w2 r fr rsi,
      fetch_data symbol w1 = (Ok r, w2) /\ f_rate r = Some fr /\ f_rsi r = Some rsi /\
      text = report_text (f_symbol r) fr (f_time r) rsi /\
      (ends_with (nl ++ pressure_line "LONG")%string text ->
         fgt fr (Fin FUNDING_THRESHOLD) = true /\
         Forall (fun v => fgt v (Fin 70) = true) (rsi_vals rsi)) /\
      (ends_with (nl ++ pressure_line "SHORT")%string text ->
         flt fr (Fin (- FUNDING_THRESHOLD)) = true /\
         Forall (fun v => flt v (Fin 30) = true) (rsi_vals rsi)).
Proof.
  destruct (check_symbols_reports chat w) as (evs & Ht & Hs). exists evs. split; [exact Ht|].
  intros c text Hin. rewrite Forall_forall in Hs. specialize (Hs _ Hin).
  destruct Hs as (-> & symbol & w1 & w2 & r & fr & rsi & Hf & Hfr & Hrsi & ->).
  split; [reflexivity|]. exists symbol, w1, w2, r, fr, rsi.
  do 4 (split; [assumption || reflexivity|]).
  split; intros Hend; [apply classify_long, (report_long_classify _ _ _ _ Hend)
                      |apply classify_short, (report_short_classify _ _ _ _ Hend)].
Qed.

(** C16: the rhythm of the loop.  When the first [n] iterations of the
    loop complete, the process requested the instrument directory [n]
    times and slept [n] times for [CHECK_INTERVAL] seconds, in
    alternation, starting with a request: a cycle, then a pause, and so
    on. *)
Theorem run_loop_alternates chat n w w' :
  run_loop chat n w = (Ok tt, w') ->
  exists evs, trace w' = trace w ++ evs /\
    filter cycle_mark evs =
      List.concat (repeat [EvGet BINANCE_FUTURES_SYMBOLS_URL; EvSleep CHECK_INTERVAL] n).
Proof.
  revert w. induction n as [|n IH]; intros w Hr; simpl in Hr.
  - injection Hr as <-. exists []. now rewrite app_nil_r.
  - apply bind_inv_ok in Hr as ([] & w1 & Hc & Hr). unfold cycle in Hc.
    apply bind_inv_ok in Hc as ([] & w2 & Hcs & Hs). unfold sleep, emit in Hs.
    injection Hs as <-.
    destruct (check_symbols_marks chat w) as (e1 & T1 & F1). rewrite Hcs in T1. simpl in T1.
    destruct (IH _ Hr) as (e2 & T2 & F2).
    exists (e1 ++ EvSleep CHECK_INTERVAL :: e2). split.
    + rewrite T2. simpl. rewrite T1, <- !app_assoc. reflexivity.
    + rewrite filter_app, F1. simpl. now rewrite F2.
Qed.

Definition is_session (ev : event) : bool :=
  match ev with EvSessionOpen | EvSessionClose => true | _ => false end.

Lemma symbol_events_no_session chat : symbol_events (fun ev => is_session ev = false) chat.
Proof. repeat split. Qed.

(** A cycle opens one session and closes it, whatever raised. *)
Lemma check_symbols_sessions chat w :
  exists evs, trace (snd (check_symbols chat w)) = trace w ++ evs /\
    filter is_session evs = [EvSessionOpen; EvSessionClose].
Proof.
  destruct (check_symbols_trace _ chat w (symbol_events_no_session chat)) as (evs & Ht & Hf).
  eexists. split; [exact Ht|]. simpl. rewrite filter_app, filter_none by exact Hf.
  reflexivity.
Qed.

(** One iteration of the loop, then the others. *)
Lemma run_loop_S chat n w :
  run_loop chat (S n) w =
  match check_symbols chat w with
  | (Ok _, w1) =>
      run_loop chat n (mkWorld (gets w1) (sends w1) (trace w1 ++ [EvSleep CHECK_INTERVAL]))
  | (Err e, w1) => (Err e, w1)
  end.
Proof.
  simpl. unfold cycle, bind, sleep, emit. now destruct (check_symbols chat w) as [[]].
Qed.

(** C17: no session is leaked or nested.  However the first [n]
    iterations of the loop end, the [aiohttp] sessions they used were
    opened and closed in alternation: the session events of the run are
    [k] pairs "open, close", for the [k <= n] cycles that began, and
    [k = n] when no exception escaped.  A cycle that raises closes its
    session before the exception leaves [check_symbols]. *)
Theorem run_loop_sessions chat n w :
  exists evs k, trace (snd (run_loop chat n w)) = trace w ++ evs /\ (k <= n)%nat /\
    filter is_session evs = List.concat (repeat [EvSessionOpen; EvSessionClose] k) /\
    (fst (run_loop chat n w) = Ok tt -> k = n).
Proof.
  revert w. induction n as [|n IH]; intros w.
  - exists [], 0%nat. simpl. rewrite app_nil_r. auto.
  - rewrite run_loop_S. destruct (check_symbols_sessions chat w) as (e1 & T1 & F1).
    destruct (check_symbols chat w) as [[u|e] w1]; simpl in T1.
    + destruct (IH (mkWorld (gets w1) (sends w1) (trace w1 ++ [EvSleep CHECK_INTERVAL])))
        as (e2 & k & T2 & Hk & F2 & Hn).
      exists (e1 ++ EvSleep CHECK_INTERVAL :: e2), (S k). split; [|split; [lia|split]].
      * rewrite T2. simpl. rewrite T1, <- !app_assoc. reflexivity.
      * rewrite filter_app, F1. simpl. now rewrite F2.
      * intros Hok. rewrite (Hn Hok). reflexivity.
    + exists e1, 1%nat. simpl. rewrite F1, T1. repeat split; [lia|discriminate].
Qed.

Lemma startup_cases tok w :
  (exists e, startup tok w = (Err e, w)) \/
  startup tok w = (Ok tt, mkWorld (gets w) (sends w) (trace w ++ [EvStartup])).
Proof.
  unfold startup. destruct tok as [[|c t]|]; [eauto| |eauto].
  destruct (tg_init_ok (String c t)); eauto.
Qed.

(** The test message neither requests the directory nor sleeps. *)
(** The test message is sent and confirmed, or its failure is logged;
    it never raises. *)
Lemma test_message_events chat w :
  exists w' evs, test_message chat w = (Ok tt, w') /\ trace w' = trace w ++ evs /\
    (evs = [EvSend chat TEST_TEXT; EvPrint TEST_SENT_LINE] \/
     exists e, evs = [EvPrintExn TEST_FAIL_PREFIX e]).
Proof.
  unfold test_message, try_except, bind, send_message, print, print_exn, emit.
  destruct tg_send_ok; cbn [fst snd trace].
  - exists (mkWorld (gets w) (S (sends w))
              ((trace w ++ [EvSend chat TEST_TEXT]) ++ [EvPrint TEST_SENT_LINE])),
      [EvSend chat TEST_TEXT; EvPrint TEST_SENT_LINE].
    split; [reflexivity|]. split; [simpl; now rewrite <- app_assoc|now left].
  - eexists _, [EvPrintExn TEST_FAIL_PREFIX TelegramError]. split; [reflexivity|].
    split; [reflexivity|eauto].
Qed.

Lemma test_message_no_mark chat w :
  exists w' evs, test_message chat w = (Ok tt, w') /\ trace w' = trace w ++ evs /\
    filter cycle_mark evs = [].
Proof.
  destruct (test_message_events chat w) as (w' & evs & H1 & H2 & [->|[e ->]]);
    exists w'; eexists; eauto.
Qed.

(** C22: test mode runs one cycle.  With [TEST_MODE] set, [main] does not
    depend on the loop bound, and it either fails at start-up without
    any effect, or requests the instrument directory exactly once and
    never sleeps: one cycle, then the function returns. *)
Theorem main_test_mode_single_cycle cfg n m w :
  TEST_MODE cfg = true ->
  main cfg n w = main cfg m w /\
  exists evs, trace (snd (main cfg n w)) = trace w ++ evs /\
    ((exists e, main cfg n w = (Err e, w)) \/
     filter cycle_mark evs = [EvGet BINANCE_FUTURES_SYMBOLS_URL]).
Proof.
  intros Ht. split; [unfold main; now rewrite Ht|].
  unfold main. rewrite Ht.
  destruct (startup_cases (TOKEN cfg) w) as [(e & Hs) | Hs].
  - rewrite (bind_err _ _ _ _ _ Hs). exists []. split; [now rewrite app_nil_r|]. left. eauto.
  - rewrite (bind_ok _ _ _ _ _ Hs). unfold bind at 1, print at 1, emit at 1.
    set (w2 := mkWorld _ _ (_ ++ [EvPrint BANNER])).
    destruct (test_message_no_mark (CHAT_ID cfg) w2) as (w3 & e3 & Htm & T3 & F3).
    rewrite (bind_ok _ _ _ _ _ Htm). unfold bind at 1, print at 1, emit at 1.
    set (w4 := mkWorld _ _ (_ ++ [EvPrint TEST_BANNER])).
    destruct (check_symbols_marks (CHAT_ID cfg) w4) as (evs & T4 & F4).
    exists ([EvStartup; EvPrint BANNER] ++ e3 ++ [EvPrint TEST_BANNER] ++ evs). split.
    + rewrite T4. unfold w4. cbn [trace]. rewrite T3. unfold w2. cbn [trace].
      rewrite <- !app_assoc. reflexivity.
    + right. rewrite !filter_app, F3, F4. reflexivity.
Qed.

(** [str.lower()] maps a character to a lowercase letter [l] exactly
    when it is [l] or its uppercase form. *)
Lemma lower_ascii_letter c l :
  (97 <= nat_of_ascii l <= 122)%nat ->
  lower_ascii c = l <-> c = l \/ c = ascii_of_nat (nat_of_ascii l - 32).
Proof.
  intros Hl. unfold lower_ascii, code.
  pose proof (nat_ascii_bounded c) as Hc.
  destruct ((65 <=? nat_of_ascii c) && (nat_of_ascii c <=? 90))%bool eqn:E.
  - apply andb_prop in E as [E1 E2]. apply Nat.leb_le in E1, E2. split.
    + intros Hc'. right. rewrite <- Hc', nat_ascii_embedding by lia.
      replace (nat_of_ascii c + 32 - 32)%nat with (nat_of_ascii c) by lia.
      now rewrite ascii_nat_embedding.
    + intros [-> | ->]; [lia|]. rewrite nat_ascii_embedding by lia.
      replace (nat_of_ascii l - 32 + 32)%nat with (nat_of_ascii l) by lia.
      now rewrite ascii_nat_embedding.
  - split; [now left|]. intros [-> | ->]; [reflexivity|].
    rewrite nat_ascii_embedding in E by lia.
    apply andb_false_iff in E as [E|E]; apply Nat.leb_gt in E; lia.
Qed.

(** C30: what turns test mode on.  [TEST_MODE] is on exactly when the
    variable is set to one of the sixteen case variants of [true] (such
    as [true], [True] or [TRUE]); unset, or set to [1], [yes], [on] or
    [ true] with a space, it is off. *)
Theorem test_mode_of_true v :
  test_mode_of v = true <->
  exists a b c d, v = Some (String a (String b (String c (String d EmptyString)))) /\
    (a = "t" \/ a = "T")%char /\ (b = "r" \/ b = "R")%char /\
    (c = "u" \/ c = "U")%char /\ (d = "e" \/ d = "E")%char.
Proof.
  assert (Lt : forall x, lower_ascii x = "t"%char <-> x = "t"%char \/ x = "T"%char)
    by (intros x; now rewrite lower_ascii_letter by (vm_compute; lia)).
  assert (Lr : forall x, lower_ascii x = "r"%char <-> x = "r"%char \/ x = "R"%char)
    by (intros x; now rewrite lower_ascii_letter by (vm_compute; lia)).
  assert (Lu : forall x, lower_ascii x = "u"%char <-> x = "u"%char \/ x = "U"%char)
    by (intros x; now rewrite lower_ascii_letter by (vm_compute; lia)).
  assert (Le : forall x, lower_ascii x = "e"%char <-> x = "e"%char \/ x = "E"%char)
    by (intros x; now rewrite lower_ascii_letter by (vm_compute; lia)).
  unfold test_mode_of, lower, lower_list. rewrite String.eqb_eq.
  destruct v as [s|]; [|split; [discriminate|intros (a & b & c & d & E & _); discriminate]].
  destruct s as [|a [|b [|c [|d [|x s]]]]]; cbn [list_ascii_of_string map string_of_list_ascii];
    split; try discriminate; try (intros (a' & b' & c' & d' & E & _); discriminate).
  - intros E. injection E as Ea Eb Ec Ed.
    exists a, b, c, d. split; [reflexivity|]. rewrite <- Lt, <- Lr, <- Lu, <- Le. auto.
  - intros (a' & b' & c' & d' & E & Ha & Hb & Hc & Hd). injection E as -> -> -> ->.
    rewrite <- Lt in Ha. rewrite <- Lr in Hb. rewrite <- Lu in Hc. rewrite <- Le in Hd.
    now rewrite Ha, Hb, Hc, Hd.
Qed.

(** C28: a missing token is fatal at start-up.  When the script runs
    with TELEGRAM_TOKEN unset or empty, building the bot raises before
    anything else happens: no message, no request, no cycle, and the
    exception ends [asyncio.run]. *)
Theorem main_missing_token_fatal getenv n w :
  getenv "TELEGRAM_TOKEN"%string = None \/ getenv "TELEGRAM_TOKEN"%string = Some EmptyString ->
  run_module getenv n w = (Err TelegramError, w).
Proof. intros [Ht | Ht]; unfold run_module, main, bind at 1, startup; simpl; now rewrite Ht. Qed.

(** C23: the start-up sequence.  When the token is valid, [main]
    starts the bot, prints its banner and tries the test message before
    any request to the exchange: the events it adds begin with the
    start-up, the banner, then the test message sent and confirmed or
    its failure logged (the bot carries on either way); then, in test
    mode, the test-mode banner and the session of the single cycle, and
    in loop mode the session of the first cycle (nothing when the loop
    is cut at zero cycles). *)
Theorem main_startup_sequence cfg n w t :
  TOKEN cfg = Some t -> t <> EmptyString -> tg_init_ok t = true ->
  exists pre rest, trace (snd (main cfg n w)) = trace w ++ [EvStartup; EvPrint BANNER] ++ pre ++ rest /\
    (pre = [EvSend (CHAT_ID cfg) TEST_TEXT; EvPrint TEST_SENT_LINE] \/
     exists e, pre = [EvPrintExn TEST_FAIL_PREFIX e]) /\
    (if TEST_MODE cfg then exists r, rest = EvPrint TEST_BANNER :: EvSessionOpen :: r
     else match n with O => rest = [] | S _ => exists r, rest = EvSessionOpen :: r end).
Proof.
  intros Ht Hne Hok. unfold main, bind at 1, startup. rewrite Ht.
  destruct t as [|c t]; [congruence|]. rewrite Hok. unfold bind at 1, print, emit.
  set (w1 := mkWorld _ _ _). destruct (test_message_events (CHAT_ID cfg) w1) as (w2 & pre & Htm & T2 & Hpre).
  unfold bind at 1. rewrite Htm.
  assert (Hw2 : trace w2 = trace w ++ [EvStartup; EvPrint BANNER] ++ pre)
    by (rewrite T2; unfold w1; cbn [trace]; now rewrite <- !app_assoc).
  exists pre. destruct (TEST_MODE cfg).
  - unfold bind at 1, print, emit. set (w3 := mkWorld _ _ _).
    destruct (check_symbols_first_get (CHAT_ID cfg) w3) as (evs & Hc).
    exists (EvPrint TEST_BANNER :: EvSessionOpen :: EvGet BINANCE_FUTURES_SYMBOLS_URL :: evs).
    split; [|split; [exact Hpre | eexists; reflexivity]].
    rewrite Hc. unfold w3. cbn [trace]. rewrite Hw2. now rewrite <- !app_assoc.
  - destruct n as [|n].
    + exists []. split; [|split; [exact Hpre | reflexivity]]. simpl. now rewrite Hw2, app_nil_r.
    + simpl run_loop. unfold cycle. rewrite bind_assoc.
      destruct (check_symbols_first_get (CHAT_ID cfg) w2) as (evs & Hc).
      destruct (bind_trace_prefix (check_symbols (CHAT_ID cfg))
                  (fun _ => sleep CHECK_INTERVAL ;; run_loop (CHAT_ID cfg) n) w2 _ Hc)
        as (evs' & Ht2).
      * intros []. apply appends_bind; [apply appends_emit; exact I|]. intros u.
        apply run_loop_appends.
      * exists (EvSessionOpen :: EvGet BINANCE_FUTURES_SYMBOLS_URL :: evs ++ evs').
        split; [|split; [exact Hpre | eexists; reflexivity]].
        rewrite Ht2, Hw2. now rewrite <- !app_assoc.
Qed.

(** C29: a missing chat id is not detected at start-up.  With a valid token but no [CHAT_ID], [main] still starts and enters
    the sampling cycle (the test message fails silently): the process
    requests the instrument directory, in test mode or as soon as the
    loop runs once. *)
Theorem main_missing_chat_id_runs_cycle cfg n w t :
  TOKEN cfg = Some t -> t <> EmptyString -> tg_init_ok t = true -> CHAT_ID cfg = None ->
  (TEST_MODE cfg = true \/ (1 <= n)%nat) ->
  In (EvGet BINANCE_FUTURES_SYMBOLS_URL) (trace (snd (main cfg n w))).
Proof.
  intros Ht Hne Hok Hchat Hmode. unfold main, bind at 1, startup. rewrite Ht.
  destruct t as [|c t]; [congruence|]. rewrite Hok. unfold bind at 1, print, emit.
  set (w1 := mkWorld _ _ _). destruct (test_message_ok (CHAT_ID cfg) w1) as (w2 & Htm).
  unfold bind at 1. rewrite Htm.
  assert (Hin : forall evs evs', In (EvGet BINANCE_FUTURES_SYMBOLS_URL)
                  (trace w2 ++ (EvSessionOpen :: EvGet BINANCE_FUTURES_SYMBOLS_URL :: evs) ++ evs')).
  { intros. apply in_or_app. right. right. now left. }
  destruct (TEST_MODE cfg) eqn:Hm.
  - unfold bind at 1, print, emit. set (w3 := mkWorld _ _ _).
    destruct (check_symbols_first_get (CHAT_ID cfg) w3) as (evs & Hc).
    rewrite Hc. apply in_or_app. right. right. now left.
  - destruct n as [|n]; [destruct Hmode; [discriminate|lia]|]. simpl run_loop. unfold cycle.
    rewrite bind_assoc.
    destruct (check_symbols_first_get (CHAT_ID cfg) w2) as (evs & Hc).
    destruct (bind_trace_prefix (check_symbols (CHAT_ID cfg))
                (fun _ => sleep CHECK_INTERVAL ;; run_loop (CHAT_ID cfg) n) w2 _ Hc)
      as (evs' & Ht2).
    + intros []. apply appends_bind; [apply appends_emit; exact I|]. intros u.
      apply run_loop_appends.
    + rewrite Ht2. apply Hin.
Qed.

(** The test message never stops the bot.  [test_message] always returns; when Telegram refuses the message,
    the failure is printed. *)
Theorem test_message_never_raises chat w :
  exists w', test_message chat w = (Ok tt, w') /\
  (tg_send_ok (sends w) chat TEST_TEXT = false ->
   exists e, In (EvPrintExn TEST_FAIL_PREFIX e) (trace w')).
Proof.
  destruct (test_message_ok chat w) as (w' & Hw). exists w'. split; [exact Hw|].
  intros Hf. unfold test_message, try_except, bind, send_message in Hw. rewrite Hf in Hw.
  unfold print_exn, emit in Hw. injection Hw as <-. exists TelegramError.
  simpl. apply in_or_app. right. now left.
Qed.

End WithEnv.

(** ** Witnesses, on the concrete exchange of Exchange.v *)

Module DemoRuns.

Local Open Scope string_scope.
#[local] Existing Instance Exchange.Demo.env.

Definition chat : option string := Some "42".
Definition w0 : world := Exchange.Demo.w0.
(** A world in which the exchange no longer answers. *)
Definition w_down : world := mkWorld 100 0 [].

Definition syms : list json := Eval vm_compute in
  match fst (get_all_symbols w0) with Ok l => l | Err _ => [] end.
Definition w_cycle : world := Eval vm_compute in snd (check_symbols chat w0).
Definition w_nochat : world := Eval vm_compute in snd (check_symbols None w0).
(** Two iterations of the loop. *)
Definition w_loop2 : world := Eval vm_compute in snd (run_loop chat 2 w0).

End DemoRuns.

Local Close Scope string_scope.
#[local] Existing Instance Exchange.Demo.env.

Lemma check_symbols_deliveries_witness :
  fst (get_all_symbols DemoRuns.w0) = Ok DemoRuns.syms /\
  check_symbols DemoRuns.chat DemoRuns.w0 = (Ok tt, DemoRuns.w_cycle) /\
  exists evs, trace DemoRuns.w_cycle = trace DemoRuns.w0 ++ evs /\
    (count is_send evs + count is_fetch_fail evs = List.length DemoRuns.syms)%nat.
Proof.
  assert (E1 : fst (get_all_symbols DemoRuns.w0) = Ok DemoRuns.syms)
    by (vm_compute; reflexivity).
  assert (E2 : check_symbols DemoRuns.chat DemoRuns.w0 = (Ok tt, DemoRuns.w_cycle))
    by (vm_compute; reflexivity).
  split; [exact E1|]. split; [exact E2|]. exact (check_symbols_deliveries _ _ _ _ E1 E2).
Defined.

Lemma check_symbols_in_order_witness :
  fst (get_all_symbols DemoRuns.w0) = Ok DemoRuns.syms /\
  check_symbols DemoRuns.chat DemoRuns.w0 = (Ok tt, DemoRuns.w_cycle) /\
  exists blocks, Forall2 (symbol_block DemoRuns.chat) DemoRuns.syms blocks /\
    trace DemoRuns.w_cycle = trace DemoRuns.w0 ++ [EvSessionOpen; EvGet BINANCE_FUTURES_SYMBOLS_URL] ++
                 List.concat blocks ++ [EvSessionClose].
Proof.
  assert (E1 : fst (get_all_symbols DemoRuns.w0) = Ok DemoRuns.syms)
    by (vm_compute; reflexivity).
  assert (E2 : check_symbols DemoRuns.chat DemoRuns.w0 = (Ok tt, DemoRuns.w_cycle))
    by (vm_compute; reflexivity).
  split; [exact E1|]. split; [exact E2|]. exact (check_symbols_in_order _ _ _ _ E1 E2).
Defined.

Lemma universe_failure_crashes_witness :
  fst (get_all_symbols DemoRuns.w_down) = Err ClientError /\
  exists w1, check_symbols DemoRuns.chat DemoRuns.w_down = (Err ClientError, w1) /\
  trace w1 = trace DemoRuns.w_down ++
               [EvSessionOpen; EvGet BINANCE_FUTURES_SYMBOLS_URL; EvSessionClose] /\
  sched_step DemoRuns.chat (RunningLoop, DemoRuns.w_down) (Crashed ClientError, w1) /\
  forall s, ~ sched_step DemoRuns.chat (Crashed ClientError, w1) s.
Proof.
  assert (E : fst (get_all_symbols DemoRuns.w_down) = Err ClientError)
    by (vm_compute; reflexivity).
  split; [exact E|]. exact (universe_failure_crashes DemoRuns.chat _ _ E).
Defined.

(** Without a chat id the first report cannot be delivered: the cycle
    raises [TelegramError] and the loop crashes. *)
Lemma cycle_error_ends_loop_witness :
  check_symbols None DemoRuns.w0 = (Err TelegramError, DemoRuns.w_nochat) /\
  sched_step None (RunningLoop, DemoRuns.w0) (Crashed TelegramError, DemoRuns.w_nochat).
Proof.
  assert (E : check_symbols None DemoRuns.w0 = (Err TelegramError, DemoRuns.w_nochat))
    by (vm_compute; reflexivity).
  split; [exact E|]. apply (cycle_error_ends_loop None _ _ _ E).
Defined.

Lemma run_loop_alternates_witness :
  run_loop DemoRuns.chat 2 DemoRuns.w0 = (Ok tt, DemoRuns.w_loop2) /\
  exists evs, trace DemoRuns.w_loop2 = trace DemoRuns.w0 ++ evs /\
    filter cycle_mark evs =
      List.concat (repeat [EvGet BINANCE_FUTURES_SYMBOLS_URL; EvSleep CHECK_INTERVAL] 2).
Proof.
  assert (E : run_loop DemoRuns.chat 2 DemoRuns.w0 = (Ok tt, DemoRuns.w_loop2))
    by (vm_compute; reflexivity).
  split; [exact E|]. exact (run_loop_alternates _ _ _ _ E).
Defined.

Lemma main_test_mode_single_cycle_witness :
  main (mkConfig (Some "123:demo"%string) DemoRuns.chat true) 0 DemoRuns.w0 =
  main (mkConfig (Some "123:demo"%string) DemoRuns.chat true) 5 DemoRuns.w0 /\
  exists evs,
    trace (snd (main (mkConfig (Some "123:demo"%string) DemoRuns.chat true) 0 DemoRuns.w0)) =
      trace DemoRuns.w0 ++ evs /\
    ((exists e, main (mkConfig (Some "123:demo"%string) DemoRuns.chat true) 0 DemoRuns.w0 =
                (Err e, DemoRuns.w0)) \/
     filter cycle_mark evs = [EvGet BINANCE_FUTURES_SYMBOLS_URL]).
Proof. apply main_test_mode_single_cycle. reflexivity. Defined.

Definition env_no_token (v : string) : option string :=
  if String.eqb v "CHAT_ID" then Some "42"%string else None.

Lemma main_missing_token_fatal_witness :
  env_no_token "TELEGRAM_TOKEN"%string = None /\
  run_module env_no_token 3 DemoRuns.w0 = (Err TelegramError, DemoRuns.w0).
Proof.
  assert (E : env_no_token "TELEGRAM_TOKEN"%string = None) by reflexivity.
  split; [exact E|]. apply main_missing_token_fatal. left. exact E.
Defined.

Lemma main_missing_chat_id_runs_cycle_witness :
  In (EvGet BINANCE_FUTURES_SYMBOLS_URL)
     (trace (snd (main (mkConfig (Some "123:demo"%string) None true) 0 DemoRuns.w0))).
Proof.
  apply (main_missing_chat_id_runs_cycle _ _ _ "123:demo"%string);
    [reflexivity | discriminate | reflexivity | reflexivity | left; reflexivity].
Defined.

Lemma main_startup_sequence_witness :
  exists pre rest,
    trace (snd (main (mkConfig (Some "123:demo"%string) DemoRuns.chat false) 2 DemoRuns.w0)) =
      trace DemoRuns.w0 ++ [EvStartup; EvPrint BANNER] ++ pre ++ rest /\
    (pre = [EvSend DemoRuns.chat TEST_TEXT; EvPrint TEST_SENT_LINE] \/
     exists e, pre = [EvPrintExn TEST_FAIL_PREFIX e]) /\
    (exists r, rest = EvSessionOpen :: r).
Proof.
  apply (main_startup_sequence (mkConfig (Some "123:demo"%string) DemoRuns.chat false) 2 _
           "123:demo"%string); [reflexivity | discriminate | reflexivity].
Defined.

Lemma check_symbols_requests_witness :
  fst (get_all_symbols DemoRuns.w0) = Ok DemoRuns.syms /\
  (S (gets DemoRuns.w0) <= gets (snd (check_symbols DemoRuns.chat DemoRuns.w0)) <=
      gets DemoRuns.w0 + 1 + 4 * List.length DemoRuns.syms)%nat.
Proof.
  assert (E1 : fst (get_all_symbols DemoRuns.w0) = Ok DemoRuns.syms)
    by (vm_compute; reflexivity).
  split; [exact E1|]. exact (check_symbols_requests _ _ _ E1).
Defined.

End Scheduler.
