(* ===== verification/Report64.v ===== *)
(** * The funding rate and the report on doubles (src/bot.py lines 59, 68, 85-92)

    Exchange.v and Signal.v compute with exact rationals.  This file
    follows the values as the program holds them, IEEE doubles:
    [float(s)] is the double nearest the decimal [s] with the sign of
    [s] (so ["-0.0"] is [-0.0]); the funding rate is that double times
    the int 100, rounded; [fr > FUNDING_THRESHOLD], [v > 70] and
    [v < 30] compare doubles; [format(x, ".kf")] prints the exact binary
    value of [x] rounded half to even, with the sign bit of a zero.

    The theorems: comparisons of doubles are the comparisons of their
    values, so [classify] on doubles is [Signal.classify] on the values;
    for a funding rate with at most eight decimals, as the exchange
    sends it, the rounding of [float] and [* 100] never moves the rate
    across [0.5] or [-0.5], so the program classifies exactly as on the
    exact percentage; the same two roundings move the rate by less than
    [4e-7] (LAProof's forward error bound, twice), so the funding line
    of the report prints the exact percentage rounded to four decimals,
    except at a tie of the fourth decimal and for a negative zero.  Two
    rates show those exceptions: ["0.00001250"] prints [0.0013] (the
    double is above the decimal tie) and ["-0.00000000"] prints
    [-0.0000]. *)

From Stdlib Require Import List Lia ZArith QArith Qabs Lqa Bool String Ascii Morphisms.
From S2P Require Import Prelude PyFloat Python Format Datetime Binary64 RsiF64 Io Exchange Signal.
Import ListNotations Py Dt B64 Io Exchange Signal.

Module Report64.

(** ** Values *)

(** A value of the exact model as the double Python holds for it. *)
Definition of_pyfloat (x : pyfloat) : binary64 :=
  match x with
  | Fin q => round64 q
  | PInf => B754_infinity false
  | NInf => B754_infinity true
  | NaN => B754_nan
  end.

(** The value a double denotes, in the exact model. *)
Definition to_py (x : binary64) : pyfloat :=
  match x with
  | B754_nan => NaN
  | B754_infinity s => if s then NInf else PInf
  | _ => Fin (B2Q x)
  end.

(** [float(s)] on doubles: the grammar of [Py.parse_float]; the
    magnitude rounds to the nearest double, then the sign applies. *)
Definition parse_float64 (s : string) : result binary64 :=
  let (neg, body) := sign_of (strip (list_ascii_of_string s)) in
  let apply_sign x := if neg then Bopp x else x in
  match special_value body with
  | Some x => Ok (apply_sign (of_pyfloat x))
  | None =>
      match number body with
      | Some (m, scale, r) =>
          match r with
          | [] => Ok (apply_sign (round64 (dec_to_Q m (- Z.of_nat scale)%Z)))
          | _ =>
              match exponent r with
              | Some (e, []) => Ok (apply_sign (round64 (dec_to_Q m (e - Z.of_nat scale)%Z)))
              | _ => Err ValueError
              end
          end
      | None => Err ValueError
      end
  end.

(** [float(v)] on a decoded JSON value, on doubles. *)
Definition py_float64 (v : json) : result binary64 :=
  match v with
  | JBool b => Ok (if b then BofZ 1 else BofZ 0)
  | JInt z => Ok (BofZ z)
  | JFloat x => Ok (of_pyfloat x)
  | JStr s => parse_float64 s
  | JNull | JList _ | JDict _ => Err TypeError
  end.

(** [float(fr_data[0]["fundingRate"]) * 100] (line 59). *)
Definition funding_rate64 (fr_data : json) : result binary64 :=
  (r0 <- getitem fr_data (KInt 0) ;;
   v <- getitem r0 (KStr "fundingRate") ;;
   f <- py_float64 v ;;
   Ok (Bmult f RsiF64.c100))%result.

(** ** The signal on doubles *)

(** The float literal [0.5] of line 17. *)
Definition FUNDING_THRESHOLD64 : binary64 := round64 FUNDING_THRESHOLD.

(** [x > y] on floats. *)
Definition Bgt (x y : binary64) : bool := Blt y x.

(** The conditions of lines 89 and 91 on doubles ([70] and [30] are
    ints, compared exactly). *)
Definition classify64 (fr : binary64) (rsi : list (string * binary64)) : signal :=
  if Bgt fr FUNDING_THRESHOLD64 && forallb (fun v => Bgt v (BofZ 70)) (map snd rsi)
  then LongPressure
  else if Blt fr (Bopp FUNDING_THRESHOLD64) && forallb (fun v => Blt v (BofZ 30)) (map snd rsi)
  then ShortPressure
  else NoSignal.

(** ** The text on doubles *)

(** [format(x, ".kf")] of a double: the exact value rounded half to
    even, with the sign of a negative zero. *)
Definition format_double (k : nat) (x : binary64) : string :=
  match x with
  | B754_zero true => ("-" ++ Fmt.format_fixed k (Fin 0))%string
  | _ => Fmt.format_fixed k (to_py x)
  end.

(** [f"{k} RSI: {v:.2f}"] *)
Definition rsi_line64 (kv : string * binary64) : string :=
  (fst kv ++ " RSI: " ++ format_double 2 (snd kv))%string.

(** The key and the value of an RSI entry in the exact model. *)
Definition to_py_kv (kv : string * binary64) : string * pyfloat := (fst kv, to_py (snd kv)).

Section WithEnv.
Context `{Env}.

(** The text of lines 85-86 on doubles. *)
Definition base_text64 (s : json) (fr : binary64) (ft : option dt)
    (rsi : list (string * binary64)) : string :=
  (chart_sign ++ " " ++ py_str s ++ nl ++
   "Funding: " ++ format_double 4 fr ++ "%" ++ nl ++
   "Next Funding: " ++ ft_str ft ++ nl ++
   join nl (map rsi_line64 rsi))%string.

(** The text sent for one symbol (lines 85-92) on doubles. *)
Definition report_text64 (s : json) (fr : binary64) (ft : option dt)
    (rsi : list (string * binary64)) : string :=
  (base_text64 s fr ft rsi ++ warning_text (classify64 fr rsi))%string.

End WithEnv.

(** A double other than [-0.0]. *)
Definition not_neg_zero (x : binary64) : bool :=
  match x with B754_zero true => false | _ => true end.

(** ** Comparisons of doubles are comparisons of their values *)

Lemma Bcompare_to_py x y : Bcompare x y = fcmp (to_py x) (to_py y).
Proof.
  destruct x as [sx|sx| |sx mx ex], y as [sy|sy| |sy my ey];
    try destruct sx; try destruct sy; reflexivity.
Qed.

Lemma Blt_to_py x y : Blt x y = flt (to_py x) (to_py y).
Proof. unfold Blt, flt. now rewrite Bcompare_to_py. Qed.

Lemma fgt_flt x y : fgt x y = flt y x.
Proof.
  destruct x as [a| | |], y as [b| | |]; try reflexivity.
  unfold fgt, flt, fcmp. rewrite <- (Qcompare_antisym b a). now destruct (b ?= a)%Q.
Qed.

Lemma Bgt_to_py x y : Bgt x y = fgt (to_py x) (to_py y).
Proof. unfold Bgt. now rewrite Blt_to_py, fgt_flt. Qed.

Lemma fcmp_Qeq_r x a b : (a == b)%Q -> fcmp x (Fin a) = fcmp x (Fin b).
Proof. intros H. destruct x; try reflexivity. simpl. now rewrite H. Qed.

Lemma to_py_fin x : Bfin x = true -> to_py x = Fin (B2Q x).
Proof. now destruct x. Qed.

(** The doubles [0.5], [-0.5], [70.0] and [30.0] are the exact values. *)
Lemma threshold64_value : to_py FUNDING_THRESHOLD64 = Fin (B2Q FUNDING_THRESHOLD64) /\
  (B2Q FUNDING_THRESHOLD64 == FUNDING_THRESHOLD)%Q /\
  to_py (Bopp FUNDING_THRESHOLD64) = Fin (B2Q (Bopp FUNDING_THRESHOLD64)) /\
  (B2Q (Bopp FUNDING_THRESHOLD64) == - FUNDING_THRESHOLD)%Q /\
  to_py (BofZ 70) = Fin (B2Q (BofZ 70)) /\ (B2Q (BofZ 70) == 70)%Q /\
  to_py (BofZ 30) = Fin (B2Q (BofZ 30)) /\ (B2Q (BofZ 30) == 30)%Q.
Proof. vm_compute. repeat split; reflexivity. Qed.

Lemma forallb_map_comm {A B} (f : B -> bool) (g : A -> B) l :
  forallb f (map g l) = forallb (fun x => f (g x)) l.
Proof. induction l as [|a l IH]; simpl; [reflexivity|]. now rewrite IH. Qed.

Lemma forallb_ext_eq {A} (f g : A -> bool) l : (forall x, f x = g x) -> forallb f l = forallb g l.
Proof. intros H. induction l as [|a l IH]; simpl; [reflexivity|]. now rewrite H, IH. Qed.

(** [classify64] is [classify] as soon as the two funding comparisons
    agree: the RSI comparisons are those of the values. *)
Lemma classify64_eq fr x rsi :
  Bgt fr FUNDING_THRESHOLD64 = fgt x (Fin FUNDING_THRESHOLD) ->
  Blt fr (Bopp FUNDING_THRESHOLD64) = flt x (Fin (- FUNDING_THRESHOLD)) ->
  classify64 fr rsi = classify x (map to_py_kv rsi).
Proof.
  intros Hg Hl. destruct threshold64_value as (_ & _ & _ & _ & H70 & E70 & H30 & E30).
  unfold classify64, classify, rsi_vals. rewrite Hg, Hl, map_map, !forallb_map_comm.
  cbn [to_py_kv snd].
  rewrite (forallb_ext_eq (fun kv => Bgt (snd kv) (BofZ 70)) (fun kv => fgt (to_py (snd kv)) (Fin 70))).
  2:{ intros kv. rewrite Bgt_to_py, H70. unfold fgt. now rewrite (fcmp_Qeq_r _ _ _ E70). }
  rewrite (forallb_ext_eq (fun kv => Blt (snd kv) (BofZ 30)) (fun kv => flt (to_py (snd kv)) (Fin 30))).
  2:{ intros kv. rewrite Blt_to_py, H30. unfold flt. now rewrite (fcmp_Qeq_r _ _ _ E30). }
  reflexivity.
Qed.

(** The classification on doubles is the exact model's classification
    of the values of the doubles. *)
Lemma classify64_to_py fr rsi : classify64 fr rsi = classify (to_py fr) (map to_py_kv rsi).
Proof.
  destruct threshold64_value as (H5 & E5 & Hm5 & Em5 & _).
  apply classify64_eq.
  - rewrite Bgt_to_py, H5. unfold fgt. now rewrite (fcmp_Qeq_r _ _ _ E5).
  - rewrite Blt_to_py, Hm5. unfold flt. now rewrite (fcmp_Qeq_r _ _ _ Em5).
Qed.

(** ** [float(s)] on doubles is the rounding of the exact value *)

Lemma sign_round (neg : bool) q0 q :
  (if neg then fneg (Fin q0) else Fin q0) = Fin q ->
  (if neg then Bopp (round64 q0) else round64 q0) = round64 q \/
  ((if neg then Bopp (round64 q0) else round64 q0) = B754_zero true /\ (q == 0)%Q).
Proof.
  intros Hq. destruct neg; simpl in Hq; injection Hq as <-; [|now left].
  destruct (Z.eq_dec (Qnum q0) 0) as [H0|H0].
  - right. destruct q0 as [n dd]; simpl in H0; subst. split; [reflexivity|]. reflexivity.
  - left. now rewrite round64_opp.
Qed.

Lemma parse_float64_of s q : parse_float s = Ok (Fin q) ->
  exists d, parse_float64 s = Ok d /\ (d = round64 q \/ (d = B754_zero true /\ (q == 0)%Q)).
Proof.
  unfold parse_float, parse_float64. destruct (sign_of _) as [neg body].
  destruct (special_value body) as [x|].
  - intros H. injection H as H. destruct x as [q0| | |]; try (destruct neg; discriminate).
    eexists; split; [reflexivity|]. exact (sign_round neg q0 q H).
  - destruct (number body) as [[[m sc] r]|]; [|discriminate]. destruct r as [|c r].
    + intros H. injection H as H. eexists; split; [reflexivity|]. exact (sign_round neg _ q H).
    + destruct (exponent (c :: r)) as [[e [|c' r']]|]; try discriminate.
      intros H. injection H as H. eexists; split; [reflexivity|]. exact (sign_round neg _ q H).
Qed.

(** The parsed double lies on the same side as [q] of every double. *)
Lemma parsed_bounds d q : d = round64 q \/ (d = B754_zero true /\ (q == 0)%Q) ->
  forall f, canonical f = true -> Bfin f = true ->
  ((B2Q f <= q)%Q -> Ble f d = true) /\ ((q <= B2Q f)%Q -> Ble d f = true).
Proof.
  intros [-> | [-> Hq]] f Hc Hf; split; intros Hle.
  - now apply round64_ge.
  - now apply round64_le.
  - apply Ble_fin; auto. cbn [B2Q]. lra.
  - apply Ble_fin; auto. cbn [B2Q]. lra.
Qed.

(** ** [* 100] on doubles is monotone *)

Lemma c100_value : (B2Q RsiF64.c100 == 100)%Q /\ Bfin RsiF64.c100 = true.
Proof. split; vm_compute; reflexivity. Qed.

Lemma Bmult_c100_le d f1 f2 : Ble d f1 = true -> Bfin f1 = true ->
  canonical f2 = true -> Bfin f2 = true -> (100 * B2Q f1 <= B2Q f2)%Q ->
  Ble (Bmult d RsiF64.c100) f2 = true.
Proof.
  intros Hd Hf1 Hc2 Hf2 Hle. pose proof c100_value as [H100 _].
  rewrite RsiF64.c100_eq in *. destruct d as [s|[]| |s m e].
  - cbn [Bmult Bsign xorb]. apply Ble_fin in Hd; auto. apply Ble_fin; auto. cbn [B2Q] in *. lra.
  - cbn [Bmult Bsign xorb]. apply Ble_spec. destruct f2; try discriminate; cbn; lia.
  - apply Ble_spec in Hd as (_ & _ & [Hr|[Hr _]]); destruct f1; try discriminate; cbn in Hr; lia.
  - discriminate.
  - cbn [Bmult]. apply round64_le; auto. apply Ble_fin in Hd; auto.
    rewrite H100. lra.
Qed.

Lemma Bmult_c100_ge d f1 f2 : Ble f1 d = true -> Bfin f1 = true ->
  canonical f2 = true -> Bfin f2 = true -> (B2Q f2 <= 100 * B2Q f1)%Q ->
  Ble f2 (Bmult d RsiF64.c100) = true.
Proof.
  intros Hd Hf1 Hc2 Hf2 Hle. pose proof c100_value as [H100 _].
  rewrite RsiF64.c100_eq in *. destruct d as [s|[]| |s m e].
  - cbn [Bmult Bsign xorb]. apply Ble_fin in Hd; auto. apply Ble_fin; auto. cbn [B2Q] in *. lra.
  - apply Ble_spec in Hd as (_ & _ & [Hr|[Hr _]]); destruct f1; try discriminate; cbn in Hr; lia.
  - cbn [Bmult Bsign xorb]. apply Ble_spec. destruct f2; try discriminate; cbn; lia.
  - now destruct f1.
  - cbn [Bmult]. apply round64_ge; auto. apply Ble_fin in Hd; auto.
    rewrite H100. lra.
Qed.

(** ** A rate with eight decimals is never moved across the threshold *)

Lemma Qle_check a b : Qle_bool a b = true -> (a <= b)%Q.
Proof. apply Qle_bool_imp_le. Qed.

Lemma fcmp_fin a b : fcmp (Fin a) (Fin b) = Some (a ?= b)%Q.
Proof. reflexivity. Qed.

(** [fr > 0.5] on the double agrees with the exact rate. *)
Lemma funding_gt d q m : d = round64 q \/ (d = B754_zero true /\ (q == 0)%Q) ->
  (q == m # 100000000)%Q ->
  Bgt (Bmult d RsiF64.c100) FUNDING_THRESHOLD64 = fgt (Fin (q * 100)) (Fin FUNDING_THRESHOLD).
Proof.
  intros Hd Hq. pose proof (parsed_bounds d q Hd) as Hb. unfold Bgt, fgt. rewrite fcmp_fin.
  unfold FUNDING_THRESHOLD. destruct (Z_lt_le_dec 500000 m) as [H1|H1].
  - replace (q * 100 ?= 1 # 2)%Q with Gt
      by (symmetry; apply Qgt_alt; rewrite Hq; unfold Qlt; simpl; lia).
    set (f1 := round64 (5000005 # 1000000000)). set (f2 := round64 (5000002 # 10000000)).
    assert (H1f : Ble f1 d = true).
    { apply Hb; [vm_compute; reflexivity..|]. apply Qle_trans with (500001 # 100000000).
      - apply Qle_check. vm_compute. reflexivity.
      - rewrite Hq. unfold Qle; simpl; lia. }
    assert (H2f : Ble f2 (Bmult d RsiF64.c100) = true).
    { apply Bmult_c100_ge with f1; [exact H1f|vm_compute; reflexivity..|].
      apply Qle_check. vm_compute. reflexivity. }
    apply (Blt_Ble_trans _ f2); [vm_compute; reflexivity|exact H2f].
  - destruct (Z.eq_dec m 500000) as [->|H2].
    + replace (q * 100 ?= 1 # 2)%Q with Eq
        by (symmetry; apply Qeq_alt; rewrite Hq; reflexivity).
      destruct Hd as [->|[_ Hq0]]; [|rewrite Hq in Hq0; discriminate].
      rewrite (round64_Qeq q (1 # 200)) by (rewrite Hq; reflexivity).
      vm_compute. reflexivity.
    + replace (q * 100 ?= 1 # 2)%Q with Lt
        by (symmetry; change (q * 100 < 1 # 2)%Q; rewrite Hq; unfold Qlt; simpl; lia).
      set (f1 := round64 (4999995 # 1000000000)). set (f2 := round64 (4999998 # 10000000)).
      assert (H1f : Ble d f1 = true).
      { apply Hb; [vm_compute; reflexivity..|]. apply Qle_trans with (499999 # 100000000).
        - rewrite Hq. unfold Qle; simpl; lia.
        - apply Qle_check. vm_compute. reflexivity. }
      assert (H2f : Ble (Bmult d RsiF64.c100) f2 = true).
      { apply Bmult_c100_le with f1; [exact H1f|vm_compute; reflexivity..|].
        apply Qle_check. vm_compute. reflexivity. }
      assert (H3 : Ble (Bmult d RsiF64.c100) FUNDING_THRESHOLD64 = true)
        by (apply (Ble_trans _ f2); [exact H2f|vm_compute; reflexivity]).
      unfold Blt. apply Ble_not_Blt in H3. unfold Blt in H3. exact H3.
Qed.

(** [fr < -0.5] on the double agrees with the exact rate. *)
Lemma funding_lt d q m : d = round64 q \/ (d = B754_zero true /\ (q == 0)%Q) ->
  (q == m # 100000000)%Q ->
  Blt (Bmult d RsiF64.c100) (Bopp FUNDING_THRESHOLD64) = flt (Fin (q * 100)) (Fin (- FUNDING_THRESHOLD)).
Proof.
  intros Hd Hq. pose proof (parsed_bounds d q Hd) as Hb. unfold flt. rewrite fcmp_fin.
  unfold FUNDING_THRESHOLD. destruct (Z_lt_le_dec m (-500000)) as [H1|H1].
  - replace (q * 100 ?= - (1 # 2))%Q with Lt
      by (symmetry; change (q * 100 < - (1 # 2))%Q; rewrite Hq; unfold Qlt; simpl; lia).
    set (f1 := round64 (-5000005 # 1000000000)). set (f2 := round64 (-5000002 # 10000000)).
    assert (H1f : Ble d f1 = true).
    { apply Hb; [vm_compute; reflexivity..|]. apply Qle_trans with (-500001 # 100000000).
      - rewrite Hq. unfold Qle; simpl; lia.
      - apply Qle_check. vm_compute. reflexivity. }
    assert (H2f : Ble (Bmult d RsiF64.c100) f2 = true).
    { apply Bmult_c100_le with f1; [exact H1f|vm_compute; reflexivity..|].
      apply Qle_check. vm_compute. reflexivity. }
    apply (Ble_Blt_trans _ f2); [exact H2f|vm_compute; reflexivity].
  - destruct (Z.eq_dec m (-500000)) as [->|H2].
    + replace (q * 100 ?= - (1 # 2))%Q with Eq
        by (symmetry; apply Qeq_alt; rewrite Hq; reflexivity).
      destruct Hd as [->|[_ Hq0]]; [|rewrite Hq in Hq0; discriminate].
      rewrite (round64_Qeq q (-1 # 200)) by (rewrite Hq; reflexivity).
      vm_compute. reflexivity.
    + replace (q * 100 ?= - (1 # 2))%Q with Gt
        by (symmetry; apply Qgt_alt; rewrite Hq; unfold Qlt; simpl; lia).
      set (f1 := round64 (-4999995 # 1000000000)). set (f2 := round64 (-4999998 # 10000000)).
      assert (H1f : Ble f1 d = true).
      { apply Hb; [vm_compute; reflexivity..|]. apply Qle_trans with (-499999 # 100000000).
        - apply Qle_check. vm_compute. reflexivity.
        - rewrite Hq. unfold Qle; simpl; lia. }
      assert (H2f : Ble f2 (Bmult d RsiF64.c100) = true).
      { apply Bmult_c100_ge with f1; [exact H1f|vm_compute; reflexivity..|].
        apply Qle_check. vm_compute. reflexivity. }
      assert (H3 : Ble (Bopp FUNDING_THRESHOLD64) (Bmult d RsiF64.c100) = true)
        by (apply (Ble_trans _ f2); [vm_compute; reflexivity|exact H2f]).
      apply Ble_not_Blt in H3. unfold Blt in H3. exact H3.
Qed.

(** ** The text on doubles is the exact model's text of their values *)

Lemma format_double_py k x : not_neg_zero x = true -> format_double k x = Fmt.format_fixed k (to_py x).
Proof. destruct x as [[]|[]| |]; try discriminate; reflexivity. Qed.

Lemma map_rsi_line64 rsi : forallb (fun kv => not_neg_zero (snd kv)) rsi = true ->
  map rsi_line64 rsi = map rsi_line (map to_py_kv rsi).
Proof.
  induction rsi as [|kv rsi IH]; simpl; [reflexivity|]. intros H.
  apply andb_true_iff in H as [H1 H2]. rewrite IH by exact H2.
  unfold rsi_line64, rsi_line. cbn [to_py_kv fst snd]. now rewrite format_double_py.
Qed.

(** ** The printed funding rate *)

(** [x * 100] of a finite non-zero double is the rounded product. *)
Lemma Bmult_c100_finite sx mx ex :
  Bmult (B754_finite sx mx ex) RsiF64.c100 = round64 (B2Q (B754_finite sx mx ex) * 100).
Proof.
  pose proof RsiF64.c100_eq as Hc. unfold Bmult. rewrite Hc. cbv beta iota zeta.
  apply round64_Qeq. rewrite <- Hc, (proj1 c100_value). reflexivity.
Qed.

Lemma Bmult_zero_c100 s : Bmult (B754_zero s) RsiF64.c100 = B754_zero s.
Proof. rewrite RsiF64.c100_eq. now destruct s. Qed.

Lemma Qabs_le_split x y : (Qabs x <= y)%Q -> (- y <= x <= y)%Q.
Proof. intros H. now apply Qabs_Qle_condition. Qed.

Lemma default_small : (0 <= default_abs <= 1 # 1000000000000)%Q.
Proof. split; apply Qle_check; vm_compute; reflexivity. Qed.

(** An eight-decimal rate [m / 10^8] with [|m| <= 10^15], as [float]
    reads it, times the double [100]: finite, and within [4e-7] of the
    exact percentage (two roundings, each of relative error
    [2^-53]). *)
Lemma funding_rate_error d q m :
  d = round64 q \/ (d = B754_zero true /\ (q == 0)%Q) ->
  (q == m # 100000000)%Q -> (Z.abs m <= 10 ^ 15)%Z -> (m <> 0)%Z ->
  Bfin (Bmult d RsiF64.c100) = true /\
  (Qabs (B2Q (Bmult d RsiF64.c100) - q * 100) <= 1 # 2500000)%Q.
Proof.
  intros Hd Hq Hm Hm0.
  assert (HA : (1 # 100000000 <= Qabs q <= 10000000)%Q).
  { rewrite Hq. unfold Qabs, Qle; simpl. lia. }
  destruct Hd as [->|[_ Hz]]; [|exfalso; rewrite Hz in HA; vm_compute in HA; now destruct HA as [HA _]].
  assert (Hf : Bfin (round64 q) = true).
  { apply round64_fin. eapply Qle_trans; [apply HA | apply Qle_check; vm_compute; reflexivity]. }
  pose proof (round64_forward q Hf) as Hv. pose proof default_small as Ha.
  set (a := default_abs) in *. clearbody a. unfold default_rel in Hv.
  pose proof (Qabs_triangle_reverse (B2Q (round64 q)) q) as Hr.
  destruct (round64 q) as [s|s| |s mx ex]; try discriminate.
  - exfalso. cbn [B2Q] in Hv, Hr. setoid_replace (0 - q)%Q with (- q)%Q in Hv by ring.
    rewrite Qabs_opp in Hv. lra.
  - rewrite Bmult_c100_finite. set (v := B2Q (B754_finite s mx ex)) in *.
    assert (Hf2 : Bfin (round64 (v * 100)) = true).
    { apply round64_fin. rewrite Qabs_Qmult. change (Qabs 100) with 100%Q.
      apply Qle_trans with (100 * 10000001)%Q; [lra | apply Qle_check; vm_compute; reflexivity]. }
    split; [exact Hf2|]. pose proof (round64_forward _ Hf2) as Hw.
    set (w := B2Q (round64 (v * 100))) in *. unfold default_rel in Hw.
    rewrite Qabs_Qmult in Hw. change (Qabs 100) with 100%Q in Hw.
    setoid_replace (w - q * 100)%Q with ((w - v * 100) + 100 * (v - q))%Q by ring.
    eapply Qle_trans; [apply Qabs_triangle|]. rewrite Qabs_Qmult. change (Qabs 100) with 100%Q.
    pose proof default_small. lra.
Qed.

(** The digits of an eight-decimal rate times 100, to four decimals:
    away from a tie ([m mod 100 <> 50]) [|q * 100| * 10^4 = |m| / 100]
    is within [0.495] of its nearest integer. *)
Lemma funding_digits_near q m :
  (q == m # 100000000)%Q -> (m mod 100 <> 50)%Z ->
  (2 * Qabs (Qabs (q * 100) * inject_Z (10 ^ Z.of_nat 4) -
             inject_Z (Fmt.round_half_even (Z.abs m) 100)) <= 99 # 100)%Q.
Proof.
  intros Hq Hm. set (j := Fmt.round_half_even (Z.abs m) 100).
  pose proof (Fmt.round_half_even_err (Z.abs m) 100) as He. fold j in He.
  assert (Hj : (2 * Z.abs (j * 100 - Z.abs m) <= 99)%Z).
  { enough (2 * Z.abs (j * 100 - Z.abs m) <> 100)%Z by lia. intros E.
    pose proof (Z.div_mod m 100 ltac:(lia)). pose proof (Z.mod_pos_bound m 100 ltac:(lia)).
    lia. }
  assert (E : (Qabs (q * 100) * inject_Z (10 ^ Z.of_nat 4) - inject_Z j ==
               (Z.abs m - j * 100) # 100)%Q).
  { rewrite Hq. unfold Qabs at 1. unfold Qeq; simpl. lia. }
  rewrite E. unfold Qabs, Qmult, Qle. cbn [Qnum Qden]. lia.
Qed.

(** The funding rate as the program prints it: the exchange's rate
    times 100, rounded to four decimals, except for a negative zero. *)
Lemma funding_format d q m :
  d = round64 q \/ (d = B754_zero true /\ (q == 0)%Q) ->
  (q == m # 100000000)%Q -> (Z.abs m <= 10 ^ 15)%Z -> (m mod 100 <> 50)%Z ->
  format_double 4 (Bmult d RsiF64.c100) = Fmt.format_fixed 4 (Fin (q * 100)) \/
  ((q == 0)%Q /\ format_double 4 (Bmult d RsiF64.c100) = "-0.0000"%string).
Proof.
  intros Hd Hq Hm Hm50. pose proof (funding_digits_near q m Hq Hm50) as Hy.
  destruct (Z.eq_dec m 0) as [->|Hm0].
  - assert (Hz : (q == 0)%Q) by (rewrite Hq; reflexivity).
    destruct Hd as [->|[-> _]]; [left|right; split; [exact Hz | reflexivity]].
    assert (Hn : Qnum q = 0%Z) by (unfold Qeq in Hz; simpl in Hz; lia).
    unfold round64. rewrite Hn, Bmult_zero_c100. unfold format_double, to_py. cbn [B2Q].
    apply (Fmt.format_fixed_near 4 _ _ 0%Z).
    { rewrite Hz. split; intros; lra. }
    { vm_compute; reflexivity. }
    revert Hy. change (Fmt.round_half_even (Z.abs 0) 100) with 0%Z. intros Hy. lra.
  - left. destruct (funding_rate_error d q m Hd Hq Hm Hm0) as [Hf He].
    set (x := Bmult d RsiF64.c100) in *.
    assert (HA : (1 # 100000000 <= Qabs q)%Q) by (rewrite Hq; unfold Qabs, Qle; simpl; lia).
    assert (Hx : not_neg_zero x = true /\ Bfin x = true /\ ~ (B2Q x == 0)%Q).
    { destruct x as [s|s| |s mx ex]; try discriminate.
      - exfalso. cbn [B2Q] in He. setoid_replace (0 - q * 100)%Q with (- (q * 100))%Q in He by ring.
        rewrite Qabs_opp, Qabs_Qmult in He.
        change (Qabs 100) with 100%Q in He. lra.
      - split; [reflexivity|]. split; [reflexivity|]. cbn [B2Q].
        pose proof (mag_pos mx ex). destruct s; lra. }
    destruct Hx as (Hn & Hfx & Hx0).
    rewrite format_double_py, to_py_fin by assumption.
    apply (Fmt.format_fixed_near 4 _ _ (Fmt.round_half_even (Z.abs m) 100)).
    + apply Qabs_le_split in He. rewrite Qabs_Qmult in *. change (Qabs 100) with 100%Q in *.
      destruct (Qlt_le_dec q 0).
      * assert (Qabs q == - q)%Q by (apply Qabs_neg; lra). split; intros; lra.
      * assert (Qabs q == q)%Q by (apply Qabs_pos; lra). split; intros; lra.
    + pose proof (Qabs_triangle_reverse (B2Q x) (q * 100)) as R1.
      pose proof (Qabs_triangle_reverse (q * 100) (B2Q x)) as R2.
      rewrite Qabs_Qminus in R2.
      set (J := inject_Z (Fmt.round_half_even (Z.abs m) 100)) in *.
      change (inject_Z (10 ^ Z.of_nat 4)) with 10000%Q in *.
      set (Y := (Qabs (q * 100) * 10000 - J)%Q) in Hy.
      setoid_replace (Qabs (B2Q x) * 10000 - J)%Q
        with (Y + (Qabs (B2Q x) - Qabs (q * 100)) * 10000)%Q by (unfold Y; ring).
      eapply Qle_lt_trans; [apply Qmult_le_l; [lra|]; apply Qabs_triangle|].
      rewrite Qabs_Qmult. change (Qabs 10000) with 10000%Q.
      assert (Qabs (Qabs (B2Q x) - Qabs (q * 100)) <= 1 # 2500000)%Q.
      { apply Qabs_Qle_condition. split; lra. }
      lra.
    + change (inject_Z (10 ^ Z.of_nat 4)) with 10000%Q in *. lra.
Qed.

(** The second line of the report is the funding line. *)
Lemma report_text64_funding_line `{Env} sym fr ft rsi :
  exists rest, report_text64 sym fr ft rsi =
    (chart_sign ++ " " ++ py_str sym ++ nl ++ "Funding: " ++ format_double 4 fr ++ "%" ++ nl ++ rest)%string.
Proof.
  unfold report_text64, base_text64. eexists. rewrite !Fmt.string_app_assoc. reflexivity.
Qed.

(** The double [float(fr_data[0]["fundingRate"]) * 100] of line 59. *)
Lemma funding_rate64_parsed fr_data r0 s q :
  getitem fr_data (KInt 0) = Ok r0 -> getitem r0 (KStr "fundingRate") = Ok (JStr s) ->
  parse_float s = Ok (Fin q) ->
  exists d, funding_rate64 fr_data = Ok (Bmult d RsiF64.c100) /\
    (d = round64 q \/ (d = B754_zero true /\ (q == 0)%Q)).
Proof.
  intros H0 H1 Hp. destruct (parse_float64_of s q Hp) as (d & Hd & Hdq).
  exists d. split; [|exact Hdq].
  unfold funding_rate64. rewrite H0. simpl. rewrite H1. simpl. now rewrite Hd.
Qed.

(** ** Claims *)

(** C3: the program classifies an exchange funding rate as the exact
    model does.  When [fr_data[0]["fundingRate"]] is a string that
    [float] reads as a rate [q] with at most eight decimals (as the
    exchange sends it), the double [float(...) * 100] of line 59 exists
    and the classification of lines 89-92 on doubles equals
    [Signal.classify] of the exact rate [q * 100] and of the values of
    the RSI doubles: rounding never moves the rate across [0.5] or
    [-0.5]. *)
Theorem funding_classify64_exact fr_data r0 s q m rsi :
  getitem fr_data (KInt 0) = Ok r0 ->
  getitem r0 (KStr "fundingRate") = Ok (JStr s) ->
  parse_float s = Ok (Fin q) -> (q == m # 100000000)%Q ->
  exists fr, funding_rate64 fr_data = Ok fr /\
    classify64 fr rsi = classify (fmul (Fin q) (Fin 100)) (map to_py_kv rsi).
Proof.
  intros H0 H1 Hp Hq. destruct (funding_rate64_parsed fr_data r0 s q H0 H1 Hp) as (d & Hd & Hdq).
  exists (Bmult d RsiF64.c100). split; [exact Hd|].
  apply classify64_eq; [exact (funding_gt d q m Hdq Hq)|exact (funding_lt d q m Hdq Hq)].
Qed.

(** C4: the funding line shows the exchange's rate to four decimals.
    When [fr_data[0]["fundingRate"]] is a string with at most eight
    decimals that [float] reads as [q = m / 10^8], with [|q| <= 10^7]
    and no tie at the fourth decimal of the percentage
    ([m mod 100 <> 50]), the double [float(..) * 100] of line 59 exists
    and the second line of the text [check_symbols] sends (line 86) is
    [Funding: <line>%] where [<line>] is [100 q] rounded to four
    decimals with its sign: the two roundings of the double move the
    value by less than [4e-7], which cannot cross a rounding boundary
    nor zero.  The one exception is a negative zero string such as
    ["-0.00000000"], whose double [-0.0] prints [-0.0000]. *)
Theorem funding_line_exact `{Env} fr_data r0 s q m sym ft rsi :
  getitem fr_data (KInt 0) = Ok r0 ->
  getitem r0 (KStr "fundingRate") = Ok (JStr s) ->
  parse_float s = Ok (Fin q) -> (q == m # 100000000)%Q ->
  (Z.abs m <= 10 ^ 15)%Z -> (m mod 100 <> 50)%Z ->
  exists fr line rest, funding_rate64 fr_data = Ok fr /\
    report_text64 sym fr ft rsi =
      (chart_sign ++ " " ++ py_str sym ++ nl ++ "Funding: " ++ line ++ "%" ++ nl ++ rest)%string /\
    (line = Fmt.format_fixed 4 (Fin (q * 100)) \/ ((q == 0)%Q /\ line = "-0.0000"%string)).
Proof.
  intros H0 H1 Hp Hq Hm Hm50.
  destruct (funding_rate64_parsed fr_data r0 s q H0 H1 Hp) as (d & Hd & Hdq).
  destruct (report_text64_funding_line sym (Bmult d RsiF64.c100) ft rsi) as (rest & Hr).
  exists (Bmult d RsiF64.c100), (format_double 4 (Bmult d RsiF64.c100)), rest.
  split; [exact Hd|]. split; [exact Hr|].
  destruct (funding_format d q m Hdq Hq Hm Hm50) as [E|[Hz E]]; [left|right]; auto.
Qed.

(** The report text on doubles is the exact model's text.  For a
    funding rate and RSI values that are doubles other than [-0.0], the
    text [check_symbols] sends (lines 85-92, [format] printing the
    binary value of each double) is [Signal.report_text] of the values
    of the doubles, so the theorems of Signal.v hold of the text the
    program sends. *)
Theorem report_text64_refines `{Env} s fr ft rsi :
  not_neg_zero fr = true -> forallb (fun kv => not_neg_zero (snd kv)) rsi = true ->
  report_text64 s fr ft rsi = report_text s (to_py fr) ft (map to_py_kv rsi).
Proof.
  intros Hf Hr. unfold report_text64, report_text, base_text64, base_text.
  now rewrite classify64_to_py, format_double_py, map_rsi_line64.
Qed.

(** The printed funding rate can differ from the exact model's.
    For the rate ["0.00001250"] the program prints [0.0013]: the double
    [0.00125] lies above the decimal tie, which the exact model rounds
    to the even [0.0012]; for ["-0.00000000"] it prints [-0.0000] (the
    sign bit of [-0.0]) where the exact model prints [0.0000]. *)
Example funding_format_diverges :
  (exists fr, funding_rate64 (Demo.funding "0.00001250") = Ok fr /\
              format_double 4 fr = "0.0013"%string) /\
  (exists f, py_float (JStr "0.00001250") = Ok f /\
             Fmt.format_fixed 4 (fmul f (Fin 100)) = "0.0012"%string) /\
  (exists fr, funding_rate64 (Demo.funding "-0.00000000") = Ok fr /\
              format_double 4 fr = "-0.0000"%string) /\
  (exists f, py_float (JStr "-0.00000000") = Ok f /\
             Fmt.format_fixed 4 (fmul f (Fin 100)) = "0.0000"%string).
Proof. split; [|split; [|split]]; eexists; split; vm_compute; reflexivity. Qed.

Lemma funding_classify64_exact_witness :
  exists fr, funding_rate64 (Demo.funding "0.00600000") = Ok fr /\
    classify64 fr [("1m"%string, round64 75)] =
    classify (fmul (Fin (600000 # 100000000)) (Fin 100)) (map to_py_kv [("1m"%string, round64 75)]).
Proof.
  apply (funding_classify64_exact (Demo.funding "0.00600000")
           (JDict [("fundingRate"%string, JStr "0.00600000"); ("fundingTime"%string, JInt 1704096000000)])
           "0.00600000" (600000 # 100000000) 600000); vm_compute; reflexivity.
Defined.

Lemma funding_line_exact_witness :
  exists fr line rest,
    funding_rate64 (Demo.funding "0.00012345") = Ok fr /\
    @report_text64 Demo.env (JStr "BTCUSDT") fr None [("1m"%string, round64 75)] =
      (chart_sign ++ " " ++ @py_str Demo.env (JStr "BTCUSDT") ++ nl ++ "Funding: " ++ line ++ "%" ++ nl ++ rest)%string /\
    (line = Fmt.format_fixed 4 (Fin ((12345 # 100000000) * 100)) \/
     ((12345 # 100000000 == 0)%Q /\ line = "-0.0000"%string)).
Proof.
  apply (@funding_line_exact Demo.env (Demo.funding "0.00012345")
           (JDict [("fundingRate"%string, JStr "0.00012345"); ("fundingTime"%string, JInt 1704096000000)])
           "0.00012345" (12345 # 100000000) 12345); vm_compute; try reflexivity; discriminate.
Defined.

End Report64.
